(* ===== verification/_CoqProject ===== *)
-Q . S2P
Prelude.v
JsObject.v
Scenes.v
SceneNodes.v
NameScene.v
Scenarios.v
Streaming.v
App.v
StreamButton.v
StreamInfo.v
Overlays.v
EditStreamInfo.v
JsNumber.v
Views.v
MediaBackup.v
Settings.v
Mixer.v
Components.v
Release.v
Transform.v
Nodes.v
Selection.v
Ordering.v
Grouping.v
SelectionApi.v
ApiTypes.v
UiTests.v
