(* ===== verification/Prelude.v ===== *)
(** * Streamlabs OBS services: a verification development

    ** The program

    The repository is the renderer side of a desktop broadcasting tool.  Its
    logic lives in _stateful services_: singletons that own a slice of the
    application store, change it only through [@mutation] methods, announce
    changes on rxjs [Subject]s and call a few collaborators (the native OBS
    engine [nodeObs], the windows service, platform HTTP APIs).  Vue
    components read the services' state and call their methods.  The parts
    among the sources, and how they interact:

    - [ScenesService] (src/app/services/notifications/notifications-api.ts,
      lines 61-332) owns the scenes, their display order and the active
      scene; it calls [Scene.addSource], [Scene.removeItem] and
      [SceneItem.setSettings] of classes that are not among the sources.
    - [StreamingService] (src/app/services/selection/selection-api.ts, lines
      177-498) owns the streaming and recording status, written only by the
      signals of the output engine.
    - [AppService] (src/app/services/app/app.ts) runs start-up and shut-down.
    - [StreamInfoService] (src/app/components/TopNav.vue.ts, lines 210-349)
      keeps the channel information it fetches from the platform.
    - [StartStreamingButton] (src/app/components/StartStreamingButton.vue.ts)
      is the component that calls [StreamingService.toggleStreaming].
    - [NameScene] (src/app/components/windows/NameScene.vue.ts) is the window
      that creates, renames and groups scenes through [ScenesService].
    - [EditStreamInfo] (src/app/components/windows/EditStreamInfo.vue.ts) is
      the window that sends the stream information through
      [StreamInfoService] and then starts the stream through
      [StreamingService].
    - [BrowseOverlays] (src/app/components/TopNav.vue.ts, lines 93-209)
      installs overlays and widgets for the web view it hosts.
    - [TopNav] (same file, lines 1-92), [Main]
      (src/app/components/windows/Main.vue.ts) and [PerformanceMetrics]
      (src/app/components/PerformanceMetrics.vue.ts) are views over the
      services; [Main] locks its content on the loading flag of [AppService].
    - [MediaBackupService] (src/unnamed/part_003) uploads media files to
      the cloud and downloads them again, with retries; it reads the hosts
      and user services.
    - [SettingsService] (src/unnamed/part_002, lines 196-521) keeps the
      settings of the output engine in the store and writes forms back to
      the engine; [StreamingService] reads the delay and reconnect settings
      from it.
    - [MixerService] (src/unnamed/part_002, lines 1-194) talks to the API of
      the Mixer platform; [StreamInfoService] calls its [putChannelInfo] and
      [fetchChannelInfo], and it writes the stream key through
      [SettingsService].
    - [OverlaySettings] and [StudioFooterComponent] (src/unnamed/part_001,
      lines 313-472) are components over the overlays persistence, the
      scene collections, the widgets and the streaming services.
    - The release script (src/unnamed/part_001, lines 1-312) takes a branch
      to a published release with shell commands, prompts and uploads.
    - The API tests of the scenes service (src/unnamed/part_000), among them
      the test of [SceneItem.setSettings] with its rotations and crops.
    - The interface [ISelection] of the selection service
      (src/app/services/selection/selection-api.ts, lines 1-176): the
      operations on the selected nodes of a scene, whose implementation is
      not among the sources and is described by the specification.
    - The declared interfaces of the notifications service
      (src/app/services/notifications/notifications-api.ts, lines 1-60) and
      of the audio service (src/app/components/TopNav.vue.ts, lines
      350-407): types only.
    - The scripts that drive the window (src/test/onboarding.js,
      src/test/screentest/tests/source-props.ts and
      src/test/helpers/spectron/sources.js): helpers and tests that call a
      browser driver, the API client and the test runner.

    ** Modelling conventions (all files)

    - A service's store slice is a [Record]; a [@mutation] is a pure function
      on it; a method is a computation in the service monad [svc S E A] of this
      file: it threads the state [S], appends to a trace of effects [E] (events
      pushed on a [Subject], calls into a collaborator, [alert]s) in the order
      the code performs them, and ends in a [completion]: a value or a thrown
      JavaScript error.  A [TypeError] is what the code raises when it calls a
      method on [null]/[undefined]; state and trace up to the throw are kept,
      as JavaScript keeps them.
    - What an [await] or a callback receives from outside (a fetch result, the
      answer to [confirm], an id from the main process, the clock) is an
      argument of the step that consumes it.  Code that continues after a
      promise or a timer is cut at the suspension: the continuation waits in
      the state as a task, and the environment resumes it with an event, so
      every interleaving the event loop allows is a sequence of events.
    - A component that calls a service runs the service's computation on the
      service's part of its own state ([svc_lift]).
    - JavaScript objects used as dictionaries are insertion-ordered association
      lists ([JsObject.v]): [Object.keys] order is observable in the code.
    - Strings are [string] (bytes, read as UTF-8); JavaScript truthiness of a
      string is [truthy].  Instants are integers, milliseconds since the epoch.

    ** Files, and what their theorems show

    - [Prelude.v] (this file): completions, the service monad and its
      notation (scope [svc_scope]), its laws as the rewrite database [svc_rw]
      ([svc_simp]), invariant preservation ([preserves], [preserves_go], hint
      database [svc]), a weakest precondition ([wp], [wp_go]), JavaScript list
      helpers ([without], [js_find], [includes]), and the generic lemmas the
      components share: acyclic relations, adding an edge or the edges
      from one element ([acyclic_add_edges]) and gluing two acyclic
      relations along an injection ([acyclic_glue]), short paths
      ([tc_short]: a path can be taken without repeating a source, the
      pigeonhole argument behind every fuel bound; [nsteps_det],
      [chain_bound]: chains of a functional relation), counting occurrences,
      running a list of events through a handler ([run_all], with
      [run_all_inv] for invariants, [run_all_hist_inv] for invariants over
      the events so far, the store and the trace, [run_all_trace_fold] for a
      part of the store that is a fold of the trace), the lifting of a
      service's computation into a client's state ([svc_lift],
      [preserves_lift]), [svc_catch] for a rejection that is handled, and
      two predicates that compose along [svc_bind]: [emits_only] (every
      effect of a computation satisfies a predicate) and [returns] (what a
      normal completion implies).  [ProcessExit] is the completion of a
      script that ended its process.
    - [JsObject.v]: string-keyed insertion-ordered dictionaries, their
      well-formedness, the lookup laws, and the equivalence [dict_equiv] that
      forgets the order, with the [Proper] instances of the operations.
    - [Scenes.v]: [ScenesService].  State [IScenesState]; mutations
      [ADD_SCENE], [REMOVE_SCENE], [MAKE_SCENE_ACTIVE], [SET_SCENE_ORDER];
      methods [createScene] (with the duplication loop), [removeScene],
      [makeSceneActive], [setSceneOrder], the getters, the three
      [show...] methods and [suggestName], whose naming helper is an
      argument.  The node classes enter through the type class
      [SceneApi].  The calls form a transition system ([Call], [step],
      [reachable]).  Theorems: the store invariant [scenes_inv] (unique keys,
      display order a permutation of the keys, an existing active scene,
      items owned by their scene) holds in every reachable store; acyclicity
      of nesting is kept by every call; the functional behaviour of each
      method on each branch, the [TypeError]s included; the name
      [suggestName] answers is the name of no node of the active scene when
      the helper honours its test; where the code departs from the
      specification.
    - [SceneNodes.v]: [addSource] with [canAddSource]/[hasNestedScene],
      [removeItem], [setSettings], from the specification (sections 3, 4.1,
      8), shown to implement [SceneApi].  Theorems: the fuel-bounded walk
      decides nesting exactly; with these nodes no reachable store nests a
      scene in itself.
    - [NameScene.v]: [NameScene] over [Scenes.v], for every implementation
      of [SceneApi]; [Scene.setName], [Selection.moveTo] and [suggestName]
      are parameters of the section.  Theorems: a submit keeps the store
      invariant on every path; a plain submit adds one scene, activates it
      and closes the window; renaming a scene that is gone throws; grouping
      without an active scene throws after the scene was made.
    - [Scenarios.v]: the service on the nodes, run on the stores of the API
      tests; each test is replayed by evaluation, step by step and as the
      whole sequence of its calls ([creating_scenes_test] and the four
      after it); the theorems of [Scenes.v], [SceneNodes.v] and
      [NameScene.v] instantiated at these stores.
    - [Streaming.v]: [StreamingService].  State: the store slice and
      [powerSaveId]; commands [toggleStreaming], [toggleRecording]; the signal
      handler [handleOBSOutputSignal]; the delay countdown and the formatted
      duration.  Theorems: the service refines an abstract machine of the two
      statuses moved by signals only; the table of engine commands by status;
      the countdown stays within its bounds along every run with a monotone
      clock; the formatted duration equals [hh:mm:ss] by division below 31
      days; two defects of the power-save blocker; the deprecated start
      and stop commands are the toggles.
    - [App.v]: [AppService].  [load] and [shutdownHandler] are cut at their
      promises and timer ([Task]); the listeners of the shut-down message
      are counted.  Theorems: under every sequence of events the steps of a
      shut-down happen in order (a counting invariant over the trace); a
      shut-down runs to [shutdownComplete]; a message before the listener is
      registered is lost; the start-up sequence.
    - [StreamButton.v]: [StartStreamingButton] over [Streaming.v].  Theorems:
      the engine commands of the button; an enabled button on an ending
      stream discards it; the chain of timers of [setDelayUpdate] ends; a
      declined confirmation still navigates.
    - [StreamInfo.v]: [StreamInfoService].  Requests to the platform are
      pending promises the environment settles in any order.  Theorems: the
      fetching flag is set only while a request is pending; the requests of
      [setStreamInfo] per platform (the [instanceof ... || MixerService]
      test); [encodeURIComponent] is inverted by [decodeURIComponent] and
      yields a body with one parameter; overlapping refreshes let a stale
      answer win.
    - [Overlays.v]: [BrowseOverlays].  The outcome of each [await] is read
      from an environment record; the loop of [installWidgets] is a
      [Fixpoint] on the list of URLs.  Theorems: only URLs of the trusted
      host are ever fetched; an untrusted URL ends the installation half way
      without a sign; a complete installation, effect by effect.
    - [EditStreamInfo.v]: [EditStreamInfo] over [StreamInfo.v] and
      [Streaming.v].  The debounced search, the answers of the platform and
      the user's input are events ([Event], [handle], [reachable]).
      Theorems: in every reachable window [updateAndGoLive] does not throw
      and sends what [setStreamInfo] sends (the encoder profile it reads is
      there whenever profiles are said to be available); what the answer
      leads to; the answers of two searches are mixed.
    - [JsNumber.v]: numbers as text.  [toFixed] over the rationals (every
      finite double is one), with the digits by repeated division and the
      reading of a decimal text.  Theorems: the text read back is the
      number rounded to the digits asked for, a half rounded up, at most
      half a unit of the last digit away; the shape of the text.
    - [Views.v]: [TopNav], [Main], [PerformanceMetrics] with its getters
      that print numbers.  Theorems: during a shut-down of [App.v] the
      content of [Main] stays locked; [percentDropped] always prints a
      number, the other getters print [NaN] on a value that is none.
    - [MediaBackup.v]: [MediaBackupService].  State: the table of files and
      the promises that wait ([Task], with the locals the continuation reads
      and the retries left); mutations [INSERT_FILE], [UPDATE_FILE]; methods
      [createNewFile], [syncFile], [withRetry] and the four executors, cut
      at their awaits and resumed by [settle].  Theorems: a call that was
      superseded never writes the status of the file; the service refines an
      abstract service; while no callback throws, when nothing is pending
      every file is synced; the ids of the table stay distinct and the
      retries within their bound; with [n] retries left [withRetry] gives
      up at the rejection [n + 1]; a request that fails without a response
      leaves the file uploading for good.
    - [Settings.v]: [SettingsService].  State: a dictionary of dictionaries;
      [SET_SETTINGS], [convertFormDataToState], [loadSettingsIntoStore],
      [getSettingsFormData] with the hidden fields of the optimized
      encoder, the audio form and [setAudioSettings], [setSettings],
      [streamSettings].  Theorems: values written with [setSettings] are
      the values the store holds and [Streaming.v] reads; the audio form has
      one input per channel whose options are the devices of its kind;
      loading reads every category once and a failure keeps the store;
      writing the audio form creates a source without its device,
      and throws on a device that is not known.
    - [Mixer.v]: [MixerService] over [Settings.v] and [StreamInfo.v].
      State: [typeIdMap], the settings store, the pending promises.
      Theorems: [typeIdMap] is the fold of the answers to searches over any
      events (by [run_all_trace_fold]); every request that carries the
      token goes to the API of the platform; a game that was searched is
      sent with its id, except the id 0; the stream key reaches the
      settings store; the promise of [getChatUrl] never settles on a
      rejection; the methods throw while no user is logged in; what
      [setStreamInfo] of [StreamInfo.v] makes the service send.
    - [Components.v]: Module [OverlaySettings] ([busy], [message],
      [saveOverlay], [loadOverlay], [loadWidget] with the handlers of their
      promises) and Module [StudioFooter] ([toggleRecording] over
      [Streaming.v], the getters, [confirmYoutubeEnabled]).  Theorems: over
      any events [busy] is set only while a promise is pending or after
      what leaves the component stuck (by [run_all_hist_inv]); a rejection
      leaves it busy for good; two operations at once clear [busy] too
      early; the record button follows the signals of the engine.
    - [Release.v]: the release script.  The helpers and [runScript] in the
      order of its statements, in parts ([prepare] up to the last
      confirmation, [release] after it).  Theorems, for every operator,
      shell and environment: a command that fails is the last thing the
      script runs before it exits with code 1 ([disciplined], a predicate
      on runs kept by [svc_bind]); nothing is pushed or uploaded unless the
      operator confirmed three times, the environment is configured and
      every command of the preparation succeeded ([emits_only], [returns]);
      and for a release in which nothing goes wrong the commands run are
      exactly those of [plan] ([performs]).  Two defects: a missing
      installer is found out after the tag was pushed, and the finalize
      command has an unbalanced quote.

    - [Transform.v]: the transform of an item ([ITransform], numbers as
      rationals [Q] with their equality [==]); [setTransform] with
      [normalize_rotation] (two truncating remainders, as the specification
      writes them) and [round_crop] ([Math.round], then not below 0),
      [setVisibility], [setLocked], run on the store of [Scenes.v] through
      [setSettings] of [SceneNodes.v], and [setLockOnAllScenes] of the
      scenes service over them.  Theorems: whatever calls are made,
      every rotation stays from 0 up to but not 360 and every crop a whole
      number that is not negative; the rotation stored is the remainder of
      the division that rounds down; a patch applied twice is the patch
      applied once, up to [==] ([Proper] instances); the test of the
      repository passes; [setLockOnAllScenes] gives every item of every
      scene the lock and changes nothing else.
    - [Nodes.v]: the nodes of a scene as a forest: [getNode], [getFolder],
      [isAncestor] (the walk towards the root), [setParent] with
      [canSetParent]; [reparent_with] is the scene after a node got another
      parent, for any place in the list of the new parent.  Theorems:
      [nodes_wf] (ids once, no folder its own
      descendant, parents are folders, folders list their children) is kept
      by every sequence of moves; a move below the node itself is refused
      and changes nothing; a move that is made changes the parent of that
      node only; the walk decides descent on every scene.
    - [Selection.v]: the selection of a scene ([ISelectionState],
      [TNodesList] as the interface declares them); [select], [add],
      [deselect], [reset], [invert], [selectAll], the queries,
      [getRootNodes], [getBoundingRect], the bulk [setParent].  Theorems: the
      list of selected ids refines a finite set under every sequence of
      operations ([apply_set], sets of stdpp); the root nodes are the least
      set of selected nodes that covers the selection; [invert] twice is
      the selection; the bounding rectangle is the least rectangle over the
      items covered; the bulk [setParent] keeps [nodes_wf]; the example of
      the interface's comment.
    - [Ordering.v]: [placeBefore] and [placeAfter] of a node ([place_node]:
      the node leaves its place and comes right beside the target, with the
      parent of the target) and of a selection (its root nodes, one after
      the other).  Theorems: [nodes_wf] is kept by every sequence of
      placements and moves (it is invariant under permutations of the
      nodes); where the node is afterwards; what is refused and changes
      nothing.
    - [Grouping.v]: [copyTo] and [moveTo] of a selection, validated first
      and then applied as a whole, and [group_moveTo], the move
      [NameScene.submit] asks for.  Theorems: an allowed copy puts one
      clone per covered item in front of the target scene, in order, with
      source and settings; a copy or move that would nest a scene in itself
      changes nothing; a move conserves what the two scenes show together;
      with new and distinct ids for the clones [nodes_wf] is kept in every
      scene ([acyclic_glue]); the invariant of the store and the freedom
      from cycles are kept; and [submit] with items to group, with the move
      of this file in place of the parameter of [NameScene.v], ends
      normally with the clones in the new scene and one item showing the
      new scene in the active one.
    - [SelectionApi.v]: the interface [ISelection] as a class, field by
      field, the laws its comments and the specification promise
      ([ISelectionLaws]), the instance made of [Selection.v], [Ordering.v]
      and [Grouping.v], and theorems proved for every implementation that
      keeps the laws.
    - [ApiTypes.v]: the declared types and interfaces of the notifications
      and audio services, as records and classes.
    - [UiTests.v]: the helpers and tests under src/test as interaction
      trees over the calls they make; a [Driver] answers the calls, [ends]
      and [throws] say how a script finishes.  The file loads the library
      of interaction trees and neither stdpp nor this prelude.  Theorems,
      for every driver: what [addSource] has called when it ends, on each
      branch; the verdict of the onboarding test in terms of what the
      window shows after the clicks; [showSourceProps] throws when no
      source has the name; after the set-up every test of source-props
      passes, and every one of them opens the properties of the image
      source.

    ** Bounds and fuel

    - [hasNestedScene] takes as fuel the number of scenes of the store.  A
      nesting path that visits a scene twice can be shortened, so a path of at
      most that many steps exists whenever any path does
      ([SceneNodes.hasNestedScene_spec]); the bound does not assume the store
      acyclic.
    - [setDelayUpdate] is run with the list of the delays of its timers; the
      theorem of termination needs ten firings per second of configured
      delay, each timer firing no earlier than its 100 ms.
    - [formattedDurationSince] is proved equal to its reference for durations
      below 31 days, where the month arithmetic of the duration library does
      not yet drop days; beyond, only the definition is given.
    - The runs of [App.v], [StreamInfo.v] and [EditStreamInfo.v] are lists
      of events of any length; their theorems are by induction on the list
      or on the reachability relation, so no bound on the number of events
      is assumed.
    - [withRetry] of [MediaBackup.v] keeps the retries left in the waiting
      task; [backup_well_formed] shows them between 0 and 2 in every state
      the events lead to, so the third failure of an attempt is the last.
    - The runs of [MediaBackup.v], [Mixer.v] and [Components.v] are lists of
      events of any length, each with the environment it happens in.
    - The store of [Release.v] is the number of commands run: the exit code
      of a command may depend on it, so a command may succeed once and fail
      when it is run again.  The script has no loop; its theorems quantify
      over every environment, and [plan] is stated for the calm ones.
    - [isAncestor] of [Nodes.v] and [has_selected_ancestor] of
      [Selection.v] take as fuel the number of nodes of the scene.  The
      parent of a node is unique, so a walk is a chain; in a forest a chain
      is no longer than the list of nodes ([chain_bound]), and on a scene
      with a cycle a shorter path exists whenever one does ([tc_short]):
      [Nodes.isAncestor_exact] assumes no forest.
    - The ids of the clones [copyTo] makes come from [uuid()]; the model
      takes them as a function from the id of a node to the id of its
      clone.  The theorem on the forests assumes the function injective and
      its values new in the target scene, which is what a generator of
      unique ids gives; the other theorems of [Grouping.v] assume nothing of
      it.
    - [toFixed] of [JsNumber.v] refuses numbers from 10^21 on, where the
      language switches to the exponent notation; the digits of an integer
      [n] are computed with fuel [log2 n + 1], more than its decimal
      digits.
    - Integers are unbounded: the code's numbers are counts and milliseconds
      far below 2^53, where JavaScript's doubles are exact.
    - The numbers of a transform are rationals: the rotation and the crop
      are computed exactly, where the code computes in doubles.  The
      theorems hold for every rational; the doubles agree with them on the
      values of the test and wherever the remainder and the rounding are
      exact.

    ** Not modelled

    The operations of the selection that only forward to each item
    ([setSettings], [setTransform], [scale], [flip], [centerOnScreen],
    [remove] and the like, the interface [ISceneItemActions]): they draw
    nodes through classes that are not among the sources.  The duplication
    of sources [copyTo] offers, which neither the interface nor the
    specification describes.  The bounding rectangle takes the rectangle of
    an item from its position, its scale and the size of its source;
    rotation and crop do not enter it.  The services behind the interfaces
    of [ApiTypes.v], which are not among the sources.  The application
    the scripts of [UiTests.v] drive is not among the sources either: the
    theorems on the scripts hold against whatever answers them, and the
    time the application takes to draw a window is not modelled.  In
    [Mixer.v] the decorator [requiresToken] and [handleErrors] are outside
    the sources: an answer is the outcome of the decorated call.  In
    [Release.v] the progress of an upload is only displayed, and the text
    of a version that [semver] computes is a function of the environment.
    The collaborators outside the sources (the output engine, the windows,
    navigation and user services, the file system, [moment], [fetch]) appear
    as effects of the trace or as records of what they answer, never as
    code. *)

From Stdlib Require Import ZArith Lia Ascii String.
From stdpp Require Import base tactics option list strings relations.

Declare Scope svc_scope.
Delimit Scope svc_scope with svc.

Create HintDb svc discriminated.
Create Rewrite HintDb svc_rw.

(** ** Tactics *)

(** Case analysis on the first [decide], [bool_decide] or [match] scrutinee
    of the goal, keeping the equation. *)
(** Linear arithmetic with division and remainder by constants. *)
Ltac div_lia := Z.to_euclidean_division_equations; lia.

Ltac case_step :=
  match goal with
  | |- context [decide ?P] => destruct (decide P)
  | |- context [bool_decide ?P] => destruct (bool_decide_reflect P)
  | |- context [match ?x with _ => _ end] => destruct x eqn:?
  end.

(** ** Completions of a JavaScript call *)

(** What ends a computation abruptly: an error that is thrown, or the end of
    the process ([process.exit(code)]), after which no handler runs. *)
Inductive JsError : Type :=
| TypeError
| JsErrorMsg (msg : string)
| ProcessExit (code : Z).

Inductive completion (A : Type) : Type :=
| Normal (a : A)
| Throw (e : JsError).
Arguments Normal {A} a.
Arguments Throw {A} e.

#[export] Instance JsError_eq_dec : EqDecision JsError.
Proof. solve_decision. Defined.

#[export] Instance completion_eq_dec {A} `{EqDecision A} : EqDecision (completion A).
Proof. solve_decision. Defined.

Definition is_Normal {A} (c : completion A) : bool :=
  match c with Normal _ => true | Throw _ => false end.

Definition completion_value {A} (c : completion A) : option A :=
  match c with Normal a => Some a | Throw _ => None end.

(** ** The service monad *)

(** What a call leaves behind: how it completed, the store after it, and the
    effects it performed, oldest first. *)
Record run (S E A : Type) : Type := Run {
  result : completion A;
  final : S;
  trace : list E;
}.
Arguments Run {S E A} result final trace.
Arguments result {S E A} r.
Arguments final {S E A} r.
Arguments trace {S E A} r.

Definition svc (S E A : Type) : Type := S → run S E A.

Section Svc.
Context {S E : Type}.

Definition svc_ret {A} (a : A) : svc S E A :=
  λ s, Run (Normal a) s [].

Definition svc_bind {A B} (m : svc S E A) (f : A → svc S E B) : svc S E B :=
  λ s,
    let r := m s in
    match result r with
    | Normal a =>
        let r' := f a (final r) in
        Run (result r') (final r') (trace r ++ trace r')
    | Throw e => Run (Throw e) (final r) (trace r)
    end.

(** Read the store ([this.state]). *)
Definition svc_gets {A} (f : S → A) : svc S E A :=
  λ s, Run (Normal (f s)) s [].

(** Read the store by a computation that may throw. *)
Definition svc_try_gets {A} (f : S → completion A) : svc S E A :=
  λ s, Run (f s) s [].

(** Commit a mutation. *)
Definition svc_modify (f : S → S) : svc S E unit :=
  λ s, Run (Normal tt) (f s) [].

(** Perform one effect: [subject.next(x)], a collaborator call, an alert. *)
Definition svc_emit (e : E) : svc S E unit :=
  λ s, Run (Normal tt) s [e].

Definition svc_throw {A} (e : JsError) : svc S E A :=
  λ s, Run (Throw e) s [].

(** Use a reference that may be [null]: a member access on [null] throws. *)
Definition svc_deref {A} (o : option A) : svc S E A :=
  match o with
  | Some a => svc_ret a
  | None => svc_throw TypeError
  end.

(** [l.forEach(f)] over an array that [f] does not alias. *)
Fixpoint svc_forEach {A} (l : list A) (f : A → svc S E unit) : svc S E unit :=
  match l with
  | [] => svc_ret tt
  | x :: l' => svc_bind (f x) (λ _, svc_forEach l' f)
  end.

(** [try { m } catch (e) { h(e) }], and the executor of a promise, whose
    throw becomes the rejection [h] handles. *)
Definition svc_catch {A} (m : svc S E A) (h : JsError → svc S E A) : svc S E A :=
  λ s,
    let r := m s in
    match result r with
    | Normal _ => r
    | Throw e =>
        let r' := h e (final r) in
        Run (result r') (final r') (trace r ++ trace r')
    end.

(** [if (b) m;] *)
Definition svc_when (b : bool) (m : svc S E unit) : svc S E unit :=
  if b then m else svc_ret tt.

(** [l.map(f)] where [f] may throw. *)
Fixpoint svc_mapM {A B} (f : A → svc S E B) (l : list A) : svc S E (list B) :=
  match l with
  | [] => svc_ret []
  | x :: l' =>
      svc_bind (f x) (λ y, svc_bind (svc_mapM f l') (λ ys, svc_ret (y :: ys)))
  end.

End Svc.

Arguments svc_bind : simpl never.
Arguments svc_forEach : simpl nomatch.
Arguments svc_mapM : simpl nomatch.

(** [prepend t r]: the run [r] after the effects [t]. *)
Definition prepend {S E A} (t : list E) (r : run S E A) : run S E A :=
  Run (result r) (final r) (t ++ trace r).

(** [svc_lift get set inj m]: a computation of a component, run by a client
    that holds the component's state as a part of its own and sees the
    component's effects among its own. *)
Definition svc_lift {S T E F A} (get : S → T) (set : T → S → S) (inj : F → E)
    (m : svc T F A) : svc S E A :=
  λ s, let r := m (get s) in Run (result r) (set (final r) s) (inj <$> trace r).

Notation "'let*' x ':=' m 'in' k" := (svc_bind m (λ x, k))
  (at level 10, x name, m at level 100, k at level 200,
   format "'[v' 'let*'  x  ':='  m  'in' '/' k ']'") : svc_scope.
Notation "m1 ';;' m2" := (svc_bind m1 (λ _, m2))
  (at level 100, m2 at level 200, right associativity) : svc_scope.

(** ** Laws of the service monad (pointwise: no extensionality is assumed) *)

Section SvcLaws.
Context {S E : Type}.
Implicit Types s : S.

Lemma run_eta {A} (r : run S E A) : Run (result r) (final r) (trace r) = r.
Proof. by destruct r. Qed.

Lemma svc_bind_ret_l {A B} (a : A) (f : A → svc S E B) s :
  svc_bind (svc_ret a) f s = f a s.
Proof. unfold svc_bind, svc_ret; simpl. apply run_eta. Qed.

Lemma svc_bind_ret_r {A} (m : svc S E A) s :
  svc_bind m svc_ret s = m s.
Proof.
  unfold svc_bind, svc_ret. destruct (m s) as [[a|e] s' t]; simpl; [|done].
  by rewrite app_nil_r.
Qed.

Lemma svc_bind_assoc {A B C} (m : svc S E A) (f : A → svc S E B)
    (g : B → svc S E C) s :
  svc_bind (svc_bind m f) g s = svc_bind m (λ a, svc_bind (f a) g) s.
Proof.
  unfold svc_bind. destruct (m s) as [[a|e] s' t]; simpl; [|done].
  destruct (f a s') as [[b|e] s'' t']; simpl; [|done].
  by rewrite app_assoc.
Qed.

(** A bind whose first part completes normally. *)
Lemma svc_bind_normal {A B} (m : svc S E A) (f : A → svc S E B) s a :
  result (m s) = Normal a →
  svc_bind m f s = prepend (trace (m s)) (f a (final (m s))).
Proof. intros Hr. unfold svc_bind. by rewrite Hr. Qed.

Lemma svc_bind_throw {A B} (m : svc S E A) (f : A → svc S E B) s e :
  result (m s) = Throw e →
  svc_bind m f s = Run (Throw e) (final (m s)) (trace (m s)).
Proof. intros Hr. unfold svc_bind. by rewrite Hr. Qed.

(** Symbolic execution: a bind whose first part is a known run or a
    primitive step. *)
Lemma prepend_nil {A} (r : run S E A) : prepend [] r = r.
Proof. by destruct r. Qed.

Lemma prepend_Run {A} (t t' : list E) (c : completion A) s :
  prepend t (Run c s t') = Run c s (t ++ t').
Proof. done. Qed.

Lemma prepend_prepend {A} (t1 t2 : list E) (r : run S E A) :
  prepend t1 (prepend t2 r) = prepend (t1 ++ t2) r.
Proof. unfold prepend. simpl. by rewrite app_assoc. Qed.

Lemma svc_bind_run {A B} (m : svc S E A) (f : A → svc S E B) s a s'
    (t : list E) :
  m s = Run (Normal a) s' t → svc_bind m f s = prepend t (f a s').
Proof. intros Hm. unfold svc_bind. by rewrite Hm. Qed.

Lemma svc_bind_run_throw {A B} (m : svc S E A) (f : A → svc S E B) s e s'
    (t : list E) :
  m s = Run (Throw e) s' t → svc_bind m f s = Run (Throw e) s' t.
Proof. intros Hm. unfold svc_bind. by rewrite Hm. Qed.

Lemma svc_bind_gets {A B} (g : S → A) (f : A → svc S E B) s :
  svc_bind (svc_gets g) f s = f (g s) s.
Proof. erewrite svc_bind_run by done. apply prepend_nil. Qed.

Lemma svc_bind_try_gets {A B} (g : S → completion A) (f : A → svc S E B) s :
  svc_bind (svc_try_gets g) f s =
    match g s with
    | Normal a => f a s
    | Throw e => Run (Throw e) s []
    end.
Proof.
  unfold svc_bind, svc_try_gets; simpl. destruct (g s); [apply run_eta | done].
Qed.

Lemma svc_bind_modify {B} (g : S → S) (f : unit → svc S E B) s :
  svc_bind (svc_modify g) f s = f tt (g s).
Proof. erewrite svc_bind_run by done. apply prepend_nil. Qed.

Lemma svc_bind_emit {B} (e : E) (f : unit → svc S E B) s :
  svc_bind (svc_emit e) f s = prepend [e] (f tt s).
Proof. by erewrite svc_bind_run. Qed.

Lemma svc_bind_throw_l {A B} e (f : A → svc S E B) s :
  svc_bind (svc_throw e) f s = Run (Throw e) s [].
Proof. by erewrite svc_bind_run_throw. Qed.

Lemma svc_bind_deref_Some {A B} (a : A) (f : A → svc S E B) s :
  svc_bind (svc_deref (Some a)) f s = f a s.
Proof. apply svc_bind_ret_l. Qed.

Lemma svc_bind_deref_None {A B} (f : A → svc S E B) s :
  svc_bind (svc_deref None) f s = Run (Throw TypeError) s [].
Proof. apply svc_bind_throw_l. Qed.

Lemma svc_catch_run {A} (m : svc S E A) (h : JsError → svc S E A) s a s' t :
  m s = Run (Normal a) s' t → svc_catch m h s = Run (Normal a) s' t.
Proof. intros Hm. unfold svc_catch. by rewrite Hm. Qed.

Lemma svc_catch_run_throw {A} (m : svc S E A) (h : JsError → svc S E A) s e s' t :
  m s = Run (Throw e) s' t → svc_catch m h s = prepend t (h e s').
Proof. intros Hm. unfold svc_catch. by rewrite Hm. Qed.

Lemma svc_when_true (m : svc S E unit) : svc_when true m = m.
Proof. done. Qed.

Lemma svc_when_false (m : svc S E unit) : svc_when false m = svc_ret tt.
Proof. done. Qed.

Lemma svc_ret_run {A} (a : A) s : svc_ret (E:=E) a s = Run (Normal a) s [].
Proof. done. Qed.

(** Binding pointwise-equal continuations gives equal runs. *)
Lemma svc_bind_ext {A B} (m : svc S E A) (f g : A → svc S E B) s :
  (∀ a s', f a s' = g a s') → svc_bind m f s = svc_bind m g s.
Proof. intros Hfg. unfold svc_bind. destruct (result (m s)); by rewrite ?Hfg. Qed.

Lemma svc_forEach_app {A} (l1 l2 : list A) (f : A → svc S E unit) s :
  svc_forEach (l1 ++ l2) f s =
  svc_bind (svc_forEach l1 f) (λ _, svc_forEach l2 f) s.
Proof.
  revert s. induction l1 as [|x l1 IH]; intros s; simpl.
  - by rewrite svc_bind_ret_l.
  - rewrite svc_bind_assoc. apply svc_bind_ext. intros _ s'. apply IH.
Qed.

End SvcLaws.

(** ** Invariants and frames of a computation *)

Section SvcInvariants.
Context {S E : Type}.
Implicit Types (I : S → Prop) (s : S).

(** [m] keeps [I]: from a store satisfying [I] it ends, normally or by a
    throw, in a store satisfying [I]. *)
Definition preserves I {A} (m : svc S E A) : Prop :=
  ∀ s, I s → I (final (m s)).

(** [m] only reads: same store, no effect. *)
Definition readonly {A} (m : svc S E A) : Prop :=
  ∀ s, final (m s) = s ∧ trace (m s) = [].

(** [m] never throws. *)
Definition total {A} (m : svc S E A) : Prop :=
  ∀ s, is_Normal (result (m s)) = true.

Lemma preserves_ret I {A} (a : A) : preserves I (svc_ret (S:=S) (E:=E) a).
Proof. by intros s. Qed.

Lemma preserves_gets I {A} (f : S → A) : preserves I (svc_gets (E:=E) f).
Proof. by intros s. Qed.

Lemma preserves_emit I (e : E) : preserves I (svc_emit (S:=S) e).
Proof. by intros s. Qed.

Lemma preserves_throw I {A} e : preserves I (svc_throw (S:=S) (E:=E) (A:=A) e).
Proof. by intros s. Qed.

Lemma preserves_deref I {A} (o : option A) :
  preserves I (svc_deref (S:=S) (E:=E) o).
Proof. by destruct o; intros s. Qed.

Lemma preserves_modify I (f : S → S) :
  (∀ s, I s → I (f s)) → preserves I (svc_modify (E:=E) f).
Proof. intros Hf s Hs. by apply Hf. Qed.

Lemma preserves_bind I {A B} (m : svc S E A) (f : A → svc S E B) :
  preserves I m → (∀ a, preserves I (f a)) → preserves I (svc_bind m f).
Proof.
  intros Hm Hf s Hs. unfold svc_bind. specialize (Hm s Hs).
  destruct (result (m s)); simpl; [by apply Hf | done].
Qed.

Lemma preserves_forEach I {A} (l : list A) (f : A → svc S E unit) :
  (∀ x, x ∈ l → preserves I (f x)) → preserves I (svc_forEach l f).
Proof.
  induction l as [|x l IH]; intros Hf; simpl.
  - apply preserves_ret.
  - apply preserves_bind; [apply Hf, list_elem_of_here | intros _; apply IH].
    intros y Hy. by apply Hf, list_elem_of_further.
Qed.

Lemma preserves_when I (b : bool) (m : svc S E unit) :
  preserves I m → preserves I (svc_when b m).
Proof. destruct b; [done | intros _; apply preserves_ret]. Qed.

Lemma preserves_readonly I {A} (m : svc S E A) : readonly m → preserves I m.
Proof. intros Hm s Hs. by rewrite (proj1 (Hm s)). Qed.

Lemma readonly_ret {A} (a : A) : readonly (svc_ret (S:=S) (E:=E) a).
Proof. by intros s. Qed.

Lemma readonly_gets {A} (f : S → A) : readonly (svc_gets (E:=E) f).
Proof. by intros s. Qed.

Lemma readonly_try_gets {A} (f : S → completion A) :
  readonly (svc_try_gets (E:=E) f).
Proof. by intros s. Qed.

Lemma readonly_throw {A} e : readonly (svc_throw (S:=S) (E:=E) (A:=A) e).
Proof. by intros s. Qed.

Lemma readonly_deref {A} (o : option A) : readonly (svc_deref (S:=S) (E:=E) o).
Proof. by destruct o; intros s. Qed.

Lemma readonly_bind {A B} (m : svc S E A) (f : A → svc S E B) :
  readonly m → (∀ a, readonly (f a)) → readonly (svc_bind m f).
Proof.
  intros Hm Hf s. unfold svc_bind. destruct (Hm s) as [Hs Ht].
  destruct (result (m s)); simpl; [|done].
  rewrite Hs, Ht. apply Hf.
Qed.

Lemma total_ret {A} (a : A) : total (svc_ret (S:=S) (E:=E) a).
Proof. by intros s. Qed.

Lemma total_gets {A} (f : S → A) : total (svc_gets (E:=E) f).
Proof. by intros s. Qed.

Lemma total_modify (f : S → S) : total (svc_modify (E:=E) f).
Proof. by intros s. Qed.

Lemma total_emit (e : E) : total (svc_emit (S:=S) e).
Proof. by intros s. Qed.

Lemma total_bind {A B} (m : svc S E A) (f : A → svc S E B) :
  total m → (∀ a, total (f a)) → total (svc_bind m f).
Proof.
  intros Hm Hf s. unfold svc_bind. specialize (Hm s).
  destruct (result (m s)); simpl; [apply Hf | done].
Qed.

Lemma total_forEach {A} (l : list A) (f : A → svc S E unit) :
  (∀ x, x ∈ l → total (f x)) → total (svc_forEach l f).
Proof.
  induction l as [|x l IH]; intros Hf; simpl.
  - apply total_ret.
  - apply total_bind; [apply Hf, list_elem_of_here | intros _; apply IH].
    intros y Hy. by apply Hf, list_elem_of_further.
Qed.

Lemma total_when (b : bool) (m : svc S E unit) : total m → total (svc_when b m).
Proof. destruct b; [done | intros _; apply total_ret]. Qed.

Lemma preserves_mapM I {A B} (f : A → svc S E B) (l : list A) :
  (∀ x, x ∈ l → preserves I (f x)) → preserves I (svc_mapM f l).
Proof.
  induction l as [|x l IH]; intros Hf; simpl.
  - apply preserves_ret.
  - apply preserves_bind; [apply Hf, list_elem_of_here|].
    intros y. apply preserves_bind; [|intros; apply preserves_ret].
    apply IH. intros z Hz. by apply Hf, list_elem_of_further.
Qed.

Lemma readonly_mapM {A B} (f : A → svc S E B) (l : list A) :
  (∀ x, x ∈ l → readonly (f x)) → readonly (svc_mapM f l).
Proof.
  induction l as [|x l IH]; intros Hf; simpl.
  - apply readonly_ret.
  - apply readonly_bind; [apply Hf, list_elem_of_here|].
    intros y. apply readonly_bind; [|intros; apply readonly_ret].
    apply IH. intros z Hz. by apply Hf, list_elem_of_further.
Qed.

(** Dereferencing a list of references none of which is [null]. *)
Lemma svc_mapM_deref_Some {A} (l : list A) s :
  svc_mapM (svc_deref (S:=S) (E:=E)) (Some <$> l) s = Run (Normal l) s [].
Proof.
  induction l as [|x l IH]; [done|].
  rewrite fmap_cons. simpl. unfold svc_bind at 1. simpl.
  unfold svc_bind. by rewrite IH.
Qed.

(** Dereferencing a list that holds a [null] throws without touching the
    store. *)
Lemma svc_mapM_deref_None {A} (l : list (option A)) s :
  None ∈ l → svc_mapM (svc_deref (S:=S) (E:=E)) l s = Run (Throw TypeError) s [].
Proof.
  induction l as [|[x|] l IH]; intros Hin.
  - by apply elem_of_nil in Hin.
  - apply elem_of_cons in Hin as [?|Hin]; [done|].
    simpl. unfold svc_bind at 1. simpl. unfold svc_bind. by rewrite IH.
  - done.
Qed.

(** ** What a computation may emit *)

(** Every effect of [m], from any store, satisfies [P]. *)
Definition emits_only (P : E → Prop) {A} (m : svc S E A) : Prop :=
  ∀ s, Forall P (trace (m s)).

Lemma emits_only_ret P {A} (a : A) : emits_only P (svc_ret a).
Proof. by intros s. Qed.

Lemma emits_only_gets P {A} (f : S → A) : emits_only P (svc_gets f).
Proof. by intros s. Qed.

Lemma emits_only_modify P (f : S → S) : emits_only P (svc_modify f).
Proof. by intros s. Qed.

Lemma emits_only_throw P {A} e : emits_only P (svc_throw (A:=A) e).
Proof. by intros s. Qed.

Lemma emits_only_deref P {A} (o : option A) : emits_only P (svc_deref o).
Proof. by destruct o; intros s. Qed.

Lemma emits_only_emit (P : E → Prop) e : P e → emits_only P (svc_emit e).
Proof. intros He s. by apply Forall_singleton. Qed.

Lemma emits_only_bind P {A B} (m : svc S E A) (f : A → svc S E B) :
  emits_only P m → (∀ a, emits_only P (f a)) → emits_only P (svc_bind m f).
Proof.
  intros Hm Hf s. unfold svc_bind. specialize (Hm s).
  destruct (result (m s)); [|done]. apply Forall_app_2; [done | apply Hf].
Qed.

(** ** What a computation returns *)

(** Whenever [m] completes normally, its result satisfies [Q]. *)
Definition returns {A} (m : svc S E A) (Q : A → Prop) : Prop :=
  ∀ s a, result (m s) = Normal a → Q a.

Lemma returns_ret {A} (a : A) (Q : A → Prop) : Q a → returns (svc_ret a) Q.
Proof. by intros Ha s a' [= <-]. Qed.

Lemma returns_throw {A} e (Q : A → Prop) : returns (svc_throw e) Q.
Proof. by intros s a. Qed.

Lemma returns_True {A} (m : svc S E A) : returns m (λ _, True).
Proof. by intros s a. Qed.

Lemma returns_mono {A} (m : svc S E A) (Q Q' : A → Prop) :
  (∀ a, Q a → Q' a) → returns m Q → returns m Q'.
Proof. intros HQ Hm s a Ha. by eapply HQ, Hm. Qed.

Lemma returns_bind {A B} (m : svc S E A) (f : A → svc S E B) (Q : A → Prop)
    (Q' : B → Prop) :
  returns m Q → (∀ a, Q a → returns (f a) Q') → returns (svc_bind m f) Q'.
Proof.
  intros Hm Hf s b. unfold svc_bind. destruct (result (m s)) as [a|e] eqn:Ha; [|done].
  cbn. by eapply Hf, Hm.
Qed.

(** A step whose result does not matter, before what does. *)
Lemma returns_seq {A B} (m : svc S E A) (f : A → svc S E B) (Q' : B → Prop) :
  (∀ a, returns (f a) Q') → returns (svc_bind m f) Q'.
Proof. intros Hf. apply (returns_bind m f (λ _, True)); [apply returns_True | auto]. Qed.

(** What follows a step may rely on what the step returns: after a step
    that never completes normally, nothing is emitted. *)
Lemma emits_only_bind_returns P {A B} (m : svc S E A) (f : A → svc S E B)
    (Q : A → Prop) :
  emits_only P m → returns m Q → (∀ a, Q a → emits_only P (f a)) →
  emits_only P (svc_bind m f).
Proof.
  intros Hm HQ Hf s. unfold svc_bind. specialize (Hm s). specialize (HQ s).
  destruct (result (m s)) as [a|e]; [|done]. apply Forall_app_2; [done|]. by apply Hf, HQ.
Qed.

Lemma emits_only_mono (P P' : E → Prop) {A} (m : svc S E A) :
  (∀ e, P e → P' e) → emits_only P m → emits_only P' m.
Proof. intros HP Hm s. eapply Forall_impl; [apply Hm | done]. Qed.

(** ** A loop refines a fold on what is observed of the store *)

(** If each iteration completes and acts on an observation [obs] of the
    store as [g] does, [forEach] completes and acts as the fold of [g],
    provided the iterations keep a side condition [I] that the per-step facts may
    use. *)
Lemma svc_forEach_fold {A O} (obs : S → O) (g : O → A → O) I
    (l : list A) (f : A → svc S E unit) s :
  (∀ x s, x ∈ l → I s →
     result (f x s) = Normal tt ∧ I (final (f x s)) ∧
     obs (final (f x s)) = g (obs s) x) →
  I s →
  result (svc_forEach l f s) = Normal tt ∧
  I (final (svc_forEach l f s)) ∧
  obs (final (svc_forEach l f s)) = foldl g (obs s) l.
Proof.
  revert s. induction l as [|x l IH]; intros s Hf Hs; [done|].
  destruct (Hf x s (list_elem_of_here _ _) Hs) as (Hr & HI & Hobs).
  simpl. rewrite (svc_bind_normal _ _ _ _ Hr). simpl. rewrite <-Hobs.
  apply IH; [|done]. intros y s' Hy. by apply Hf, list_elem_of_further.
Qed.

(** The trace of a loop is the concatenation of the iterations' traces when
    each iteration's trace is a function [tr] of the element alone. *)
Lemma svc_forEach_trace {A} I (tr : A → list E)
    (l : list A) (f : A → svc S E unit) s :
  (∀ x s, x ∈ l → I s →
     result (f x s) = Normal tt ∧ I (final (f x s)) ∧ trace (f x s) = tr x) →
  I s →
  trace (svc_forEach l f s) = concat (tr <$> l).
Proof.
  revert s. induction l as [|x l IH]; intros s Hf Hs; [done|].
  destruct (Hf x s (list_elem_of_here _ _) Hs) as (Hr & HI & Htr).
  simpl. rewrite (svc_bind_normal _ _ _ _ Hr). simpl. rewrite Htr. f_equal.
  apply IH; [|done]. intros y s' Hy. by apply Hf, list_elem_of_further.
Qed.

End SvcInvariants.

(** ** Weakest preconditions

    [wp m Q X s]: run from [s], [m] ends normally with a value and store
    satisfying [Q], or throws leaving a store satisfying [X].  The equations
    below unfold [wp] along the structure of a method; [wp_go] applies them. *)

Section SvcWp.
Context {S E : Type}.
Implicit Types (X : S → Prop) (s : S).

Definition wp {A} (m : svc S E A) (Q : A → S → Prop) X s : Prop :=
  match result (m s) with
  | Normal a => Q a (final (m s))
  | Throw _ => X (final (m s))
  end.

Lemma wp_ret {A} (a : A) Q X s : wp (svc_ret (E:=E) a) Q X s ↔ Q a s.
Proof. done. Qed.

Lemma wp_bind {A B} (m : svc S E A) (f : A → svc S E B) Q X s :
  wp (svc_bind m f) Q X s ↔ wp m (λ a s', wp (f a) Q X s') X s.
Proof. unfold wp, svc_bind. by destruct (result (m s)). Qed.

Lemma wp_gets {A} (f : S → A) Q X s : wp (svc_gets (E:=E) f) Q X s ↔ Q (f s) s.
Proof. done. Qed.

Lemma wp_try_gets {A} (f : S → completion A) Q X s :
  wp (svc_try_gets (E:=E) f) Q X s ↔
  match f s with Normal a => Q a s | Throw _ => X s end.
Proof. done. Qed.

Lemma wp_modify (f : S → S) Q X s :
  wp (svc_modify (E:=E) f) Q X s ↔ Q tt (f s).
Proof. done. Qed.

Lemma wp_emit (e : E) Q X s : wp (svc_emit (S:=S) e) Q X s ↔ Q tt s.
Proof. done. Qed.

Lemma wp_throw {A} e (Q : A → S → Prop) X s :
  wp (svc_throw (E:=E) e) Q X s ↔ X s.
Proof. done. Qed.

Lemma wp_deref {A} (o : option A) Q X s :
  wp (svc_deref (E:=E) o) Q X s ↔
  match o with Some a => Q a s | None => X s end.
Proof. by destruct o. Qed.

Lemma wp_when (b : bool) (m : svc S E unit) Q X s :
  wp (svc_when b m) Q X s ↔ if b then wp m Q X s else Q tt s.
Proof. by destruct b. Qed.

Lemma wp_mono {A} (m : svc S E A) (Q Q' : A → S → Prop) X X' s :
  (∀ a s', Q a s' → Q' a s') → (∀ s', X s' → X' s') →
  wp m Q X s → wp m Q' X' s.
Proof. unfold wp. destruct (result (m s)); auto. Qed.

(** A loop keeps an invariant that every iteration keeps. *)
Lemma wp_forEach {A} (I : S → Prop) (l : list A) (f : A → svc S E unit) X s :
  (∀ x s', x ∈ l → I s' → wp (f x) (λ _, I) X s') →
  I s → wp (svc_forEach l f) (λ _, I) X s.
Proof.
  revert s. induction l as [|x l IH]; intros s Hf Hs; [done|].
  simpl. apply wp_bind.
  eapply wp_mono; [| |apply Hf; [apply list_elem_of_here | done]]; [|done].
  intros [] s' Hs'. apply IH; [|done].
  intros y s'' Hy. by apply Hf, list_elem_of_further.
Qed.

(** A computation that only reads can be run "in place". *)
Lemma wp_readonly {A} (m : svc S E A) Q X s :
  readonly m →
  wp m Q X s ↔
  match result (m s) with Normal a => Q a s | Throw _ => X s end.
Proof. intros Hm. unfold wp. by rewrite (proj1 (Hm s)). Qed.

Lemma preserves_wp (I : S → Prop) {A} (m : svc S E A) :
  preserves I m ↔ ∀ s, I s → wp m (λ _, I) I s.
Proof.
  unfold preserves, wp.
  split; intros Hm s Hs; specialize (Hm s Hs); by destruct (result (m s)).
Qed.

End SvcWp.

(** Unfold [wp] through binds and primitive steps, as far as it goes. *)
Ltac wp_go :=
  repeat first
    [ apply wp_bind
    | apply wp_ret
    | apply wp_gets
    | apply wp_modify
    | apply wp_emit
    | apply wp_throw
    | apply wp_deref
    | apply wp_when
    | apply wp_try_gets ];
  cbv beta.

#[export] Hint Resolve preserves_ret preserves_gets preserves_emit
  preserves_throw preserves_deref preserves_modify preserves_bind
  preserves_forEach preserves_when preserves_mapM : svc.
#[export] Hint Resolve readonly_ret readonly_gets readonly_try_gets readonly_throw
  readonly_deref readonly_bind readonly_mapM : svc.
#[export] Hint Resolve total_ret total_gets total_modify total_emit
  total_bind total_forEach total_when : svc.

(** ** JavaScript helpers *)

Local Open Scope string_scope.
Local Open Scope list_scope.
Local Open Scope nat_scope.

(** Truthiness of a string: only the empty string is falsy. *)
Definition truthy (s : string) : bool := bool_decide (s ≠ "").

(** [a || b] on strings. *)
Definition js_or (a b : string) : string := if truthy a then a else b.

(** [o || b] where [o] may be [undefined]. *)
Definition js_or_undef (o : option string) (b : string) : string :=
  match o with
  | Some a => js_or a b
  | None => b
  end.

(** [JSON.stringify(s)] for a string [s] (QuoteJSONString): the string in
    double quotes, with the quote, the backslash and the control characters
    below U+0020 escaped.  Strings are byte strings here; bytes from 0x80 up
    (UTF-8 sequences) pass through unchanged, as JavaScript leaves non-ASCII
    characters unchanged. *)
Definition dquote : ascii := ascii_of_nat 34.
Definition bslash : ascii := ascii_of_nat 92.

Definition hex_digit (n : nat) : ascii :=
  default "0"%char (list_ascii_of_string "0123456789abcdef" !! n).

Definition json_escape (c : ascii) : string :=
  let n := nat_of_ascii c in
  if decide (n = 34) then String bslash (String dquote "")
  else if decide (n = 92) then String bslash (String bslash "")
  else if decide (n = 8) then String bslash "b"
  else if decide (n = 12) then String bslash "f"
  else if decide (n = 10) then String bslash "n"
  else if decide (n = 13) then String bslash "r"
  else if decide (n = 9) then String bslash "t"
  else if decide (n < 32) then
    String bslash ("u00" +:+ String (hex_digit (n / 16)) (String (hex_digit (n mod 16)) ""))
  else String c "".

Fixpoint json_escape_string (s : string) : string :=
  match s with
  | EmptyString => ""
  | String c s' => json_escape c +:+ json_escape_string s'
  end.

Definition JSON_stringify_string (s : string) : string :=
  String dquote (json_escape_string s +:+ String dquote "").

(** [JSON.stringify([s])] for a one-element array of a string. *)
Definition JSON_stringify_array1 (s : string) : string :=
  "[" +:+ JSON_stringify_string s +:+ "]".

(** lodash [without(l, x)]: every occurrence of [x] removed, order kept. *)
Definition without {A} `{EqDecision A} (l : list A) (x : A) : list A :=
  filter (λ y, y ≠ x) l.

(** [l.find(p)]: the first element satisfying [p], or [undefined]. *)
Definition js_find {A} (P : A → Prop) `{∀ x, Decision (P x)} (l : list A) :
    option A :=
  snd <$> list_find P l.

(** [l.includes(x)]. *)
Definition includes {A} `{EqDecision A} (l : list A) (x : A) : bool :=
  bool_decide (x ∈ l).

Section JsLists.
Context {A : Type} `{EqDecision A}.
Implicit Types (l : list A) (x y : A).

Lemma truthy_true (s : string) : truthy s = true ↔ s ≠ "".
Proof. unfold truthy. by rewrite bool_decide_eq_true. Qed.

Lemma truthy_false (s : string) : truthy s = false ↔ s = "".
Proof.
  unfold truthy. rewrite bool_decide_eq_false.
  split; [apply dec_stable | by intros -> ?].
Qed.

Lemma js_or_truthy (a b : string) : a ≠ "" → js_or a b = a.
Proof. intros Ha. unfold js_or. by rewrite (proj2 (truthy_true a) Ha). Qed.

Lemma js_or_empty (b : string) : js_or "" b = b.
Proof. done. Qed.

Lemma elem_of_without l x y : y ∈ without l x ↔ y ∈ l ∧ y ≠ x.
Proof. unfold without. rewrite list_elem_of_filter. tauto. Qed.

Lemma not_elem_of_without l x : x ∉ without l x.
Proof. rewrite elem_of_without. tauto. Qed.

Lemma without_not_elem_of l x : x ∉ l → without l x = l.
Proof.
  intros Hx. unfold without. induction l as [|y l IH]; [done|].
  apply not_elem_of_cons in Hx as [Hne Hx].
  rewrite filter_cons_True by done. by rewrite IH.
Qed.

Lemma without_cons_eq l x : without (x :: l) x = without l x.
Proof. unfold without. by rewrite filter_cons_False by (intros ?; done). Qed.

Lemma without_cons_ne l x y : y ≠ x → without (y :: l) x = y :: without l x.
Proof. intros. unfold without. by rewrite filter_cons_True. Qed.

Lemma without_app l1 l2 x : without (l1 ++ l2) x = without l1 x ++ without l2 x.
Proof. apply filter_app. Qed.

Lemma NoDup_without l x : NoDup l → NoDup (without l x).
Proof. apply NoDup_filter. Qed.

Lemma length_without_le l x : length (without l x) ≤ length l.
Proof. apply length_filter. Qed.

(** Removing a present element of a duplicate-free list shortens it by one. *)
Lemma length_without_NoDup l x :
  NoDup l → x ∈ l → S (length (without l x)) = length l.
Proof.
  induction 1 as [|y l Hy Hnd IH]; intros Hx; [by apply elem_of_nil in Hx|].
  destruct (decide (y = x)) as [->|Hne].
  - rewrite without_cons_eq, without_not_elem_of by done. done.
  - rewrite without_cons_ne by done. simpl. f_equal. apply IH.
    apply elem_of_cons in Hx as [?|?]; [congruence | done].
Qed.

Lemma without_snoc_fresh l x : x ∉ l → without (l ++ [x]) x = l.
Proof.
  intros Hx. rewrite without_app, without_not_elem_of by done.
  rewrite without_cons_eq. apply app_nil_r.
Qed.

Lemma includes_true l x : includes l x = true ↔ x ∈ l.
Proof. unfold includes. by rewrite bool_decide_eq_true. Qed.

End JsLists.

Section Filters.
Context {A B : Type}.
Implicit Types (l : list A).

(** Two filters that agree on the elements of a list keep the same ones. *)
Lemma filter_iff_elem (P Q : A → Prop) `{∀ a, Decision (P a)} `{∀ a, Decision (Q a)} l :
  (∀ a, a ∈ l → P a ↔ Q a) → filter P l = filter Q l.
Proof.
  induction l as [|a l IH]; intros HPQ; [done|]. rewrite !filter_cons.
  rewrite IH by (intros b ?; by apply HPQ, list_elem_of_further).
  destruct (decide (P a)) as [HP|HP], (decide (Q a)) as [HQ|HQ]; try done;
    by apply HPQ in HP || apply HPQ in HQ; try apply list_elem_of_here.
Qed.

Lemma filter_Forall_id (P : A → Prop) `{∀ a, Decision (P a)} l :
  Forall P l → filter P l = l.
Proof.
  induction 1 as [|a l Ha Hl IH]; [done|].
  rewrite filter_cons_True by done. by rewrite IH.
Qed.

Lemma filter_Forall_nil (P : A → Prop) `{∀ a, Decision (P a)} l :
  Forall (λ a, ¬ P a) l → filter P l = [].
Proof.
  induction 1 as [|a l Ha Hl IH]; [done|]. by rewrite filter_cons_False.
Qed.

(** Filtering once per element of [xs] keeps what every filter keeps. *)
Lemma foldl_filter (P : B → A → Prop) `{∀ x a, Decision (P x a)}
    (xs : list B) l :
  foldl (λ acc x, filter (P x) acc) l xs =
  filter (λ a, Forall (λ x, P x a) xs) l.
Proof.
  revert l. induction xs as [|x xs IH]; intros l; simpl.
  - symmetry. apply filter_Forall_id, Forall_forall. by intros.
  - rewrite IH, list_filter_filter. apply list_filter_iff.
    intros a. rewrite Forall_cons. tauto.
Qed.

End Filters.

Section Imap.
Context {A B : Type}.

(** A list numbered through [f], as a loop with a counter pairs them. *)
Lemma fst_imap_pair (f : nat → A) (l : list B) :
  (imap (λ k x, (f k, x)) l).*1 = f <$> seq 0 (length l).
Proof.
  revert f. induction l as [|x l IH]; intros f; [done|].
  rewrite imap_cons, fmap_cons. simpl. f_equal.
  rewrite <- fmap_S_seq, <- list_fmap_compose. apply (IH (f ∘ S)).
Qed.

Lemma snd_imap_pair (f : nat → A) (l : list B) :
  (imap (λ k x, (f k, x)) l).*2 = l.
Proof.
  revert f. induction l as [|x l IH]; intros f; [done|].
  rewrite imap_cons, fmap_cons. simpl. f_equal. apply (IH (f ∘ S)).
Qed.

End Imap.

Section Closure.
Context {A : Type} (R R' : relation A).

(** A relation inside an acyclic one is acyclic. *)
Lemma acyclic_subrel :
  (∀ x y, R' x y → R x y) → (∀ x, ¬ tc R x x) → ∀ x, ¬ tc R' x x.
Proof.
  intros Hsub Hac x Hx. apply (Hac x).
  by apply (tc_congruence id R) in Hx.
Qed.

(** A path of a relation extended by the edge from [a] to [b] either avoids
    the edge or passes through it; when [a] is not reachable from [b] it
    passes through it at most once. *)
Lemma tc_add_edge_path a b x y :
  (∀ x y, R' x y → R x y ∨ (x = a ∧ y = b)) →
  ¬ rtc R b a →
  tc R' x y → tc R x y ∨ (rtc R x a ∧ rtc R b y).
Proof.
  intros Hedge Hba. induction 1 as [x y Hxy|x y z Hxy _ IH].
  - destruct (Hedge _ _ Hxy) as [?|[-> ->]]; [left; by apply tc_once | by right].
  - destruct (Hedge _ _ Hxy) as [?|[-> ->]], IH as [?|[??]].
    + left. by eapply tc_l.
    + right. split; [by eapply rtc_l | done].
    + right. split; [done | by apply tc_rtc].
    + done.
Qed.

(** Adding an edge whose target does not reach its source keeps an acyclic
    relation acyclic. *)
Lemma acyclic_add_edge a b :
  (∀ x y, R' x y → R x y ∨ (x = a ∧ y = b)) →
  ¬ rtc R b a →
  (∀ x, ¬ tc R x x) → ∀ x, ¬ tc R' x x.
Proof.
  intros Hedge Hba Hac x Hx.
  destruct (tc_add_edge_path a b x x Hedge Hba Hx) as [?|[??]]; [by eapply Hac|].
  apply Hba. by etrans.
Qed.

(** The same for edges from [a] to every element of a set [B]. *)
Lemma tc_add_edges_path a (B : A → Prop) x y :
  (∀ x y, R' x y → R x y ∨ (x = a ∧ B y)) →
  (∀ b, B b → ¬ rtc R b a) →
  tc R' x y → tc R x y ∨ (rtc R x a ∧ ∃ b, B b ∧ rtc R b y).
Proof.
  intros Hedge Hba. induction 1 as [x y Hxy|x y z Hxy _ IH].
  - destruct (Hedge _ _ Hxy) as [?|[-> ?]]; [left; by apply tc_once|].
    right. split; [done|]. by exists y.
  - destruct (Hedge _ _ Hxy) as [?|[-> Hy]], IH as [?|[? ?]].
    + left. by eapply tc_l.
    + right. split; [by eapply rtc_l | done].
    + right. split; [done|]. exists y. split; [done | by apply tc_rtc].
    + by destruct (Hba y Hy).
Qed.

Lemma acyclic_add_edges a (B : A → Prop) :
  (∀ x y, R' x y → R x y ∨ (x = a ∧ B y)) →
  (∀ b, B b → ¬ rtc R b a) →
  (∀ x, ¬ tc R x x) → ∀ x, ¬ tc R' x x.
Proof.
  intros Hedge Hba Hac x Hx.
  destruct (tc_add_edges_path a B x x Hedge Hba Hx) as [?|[? (b & Hb & ?)]];
    [by eapply Hac|].
  apply (Hba b Hb). by etrans.
Qed.

(** A path ends with an edge. *)
Lemma tc_last x y : tc R x y → ∃ z, R z y.
Proof. induction 1 as [x y ?|x y z _ _ IH]; eauto. Qed.

End Closure.

(** A relation glued from two acyclic ones.  The elements of [P] keep their
    edges of [R] and lead into [P] only; the other elements are images under
    an injection [f] that avoids [P], and their edges lead into [P] or are
    images of edges of [Q]. *)
Section Glue.
Context {A B : Type} (R R' : relation A) (Q : relation B) (P : A → Prop) (f : B → A).
Context (Hold : ∀ x y, R' x y → P x → R x y ∧ P y).
Context (Hnew : ∀ x y, R' x y → ¬ P x → P y ∨ ∃ a b, x = f a ∧ y = f b ∧ Q a b).
Context (Hinj : Inj (=) (=) f) (Hfresh : ∀ a, ¬ P (f a)).

Lemma tc_glue_old x y : tc R' x y → P x → tc R x y ∧ P y.
Proof.
  induction 1 as [x y Hxy|x y z Hxy _ IH]; intros Hx.
  - destruct (Hold _ _ Hxy Hx). split; [by apply tc_once | done].
  - destruct (Hold _ _ Hxy Hx) as [? Hy]. destruct (IH Hy). split; [by eapply tc_l | done].
Qed.

Lemma tc_glue_new x y :
  tc R' x y → ¬ P x → P y ∨ ∃ a b, x = f a ∧ y = f b ∧ tc Q a b.
Proof.
  induction 1 as [x y Hxy|x y z Hxy Hyz IH]; intros Hx.
  - destruct (Hnew _ _ Hxy Hx) as [?|(a & b & -> & -> & ?)]; [by left|].
    right. exists a, b. split_and!; [done..|by apply tc_once].
  - destruct (Hnew _ _ Hxy Hx) as [Hy|(a & b & -> & -> & Hab)].
    + left. by apply (tc_glue_old y z).
    + destruct (IH (Hfresh b)) as [?|(b' & c & Heq & -> & Hbc)]; [by left|].
      apply Hinj in Heq as <-. right. exists a, c. split_and!; [done..|by eapply tc_l].
Qed.

Lemma acyclic_glue :
  (∀ x, ¬ tc R x x) → (∀ a, ¬ tc Q a a) → (∀ x, P x ∨ ¬ P x) → ∀ x, ¬ tc R' x x.
Proof.
  intros HR HQ Hdec x Hx. destruct (Hdec x) as [HP|HP].
  - by apply (HR x), tc_glue_old.
  - destruct (tc_glue_new x x Hx HP) as [?|(a & b & Ha & Hb & Hab)]; [done|].
    rewrite Ha in Hb. apply Hinj in Hb as <-. by apply (HQ a).
Qed.

End Glue.

(** ** Short paths

    In a relation whose edges all leave from a finite list of nodes, whatever
    is reachable is reachable in at most as many steps as the list is long:
    a path that leaves the same node twice can be cut.  This is what makes a
    bounded walk of a graph exact. *)
Section ShortPaths.
Context {A : Type} `{EqDecision A}.

(** [R] without the edges that leave [x]. *)
Definition avoiding (R : relation A) (x : A) : relation A :=
  λ a b, R a b ∧ a ≠ x.

Lemma length_without_lt (l : list A) x : x ∈ l → length (without l x) < length l.
Proof.
  induction 1 as [x l|x y l _ IH].
  - rewrite without_cons_eq. pose proof (length_without_le l x). simpl. lia.
  - destruct (decide (y = x)) as [->|Hne].
    + rewrite without_cons_eq. simpl. lia.
    + rewrite without_cons_ne by done. simpl. lia.
Qed.

(** A path either never leaves [x], or it has a last time it does. *)
Lemma nsteps_last_visit (R : relation A) x n z y :
  nsteps R n z y →
  nsteps (avoiding R x) n z y ∨
  ∃ x1 m, m < n ∧ R x x1 ∧ nsteps (avoiding R x) m x1 y.
Proof.
  induction 1 as [y|n z z' y Hzz' Hpath IH]; [left; constructor|].
  destruct IH as [IH|(x1 & m & Hm & Hx & Hrest)].
  - destruct (decide (z = x)) as [->|Hne].
    + right. exists z', n. split; [lia | done].
    + left. by econstructor.
  - right. exists x1, m. split; [lia | done].
Qed.

Lemma nsteps_short_aux (k : nat) :
  ∀ (R : relation A) (K : list A),
    length K ≤ k → (∀ x y, R x y → x ∈ K) →
    ∀ n x y, nsteps R n x y → 0 < n →
    ∃ m, 0 < m ≤ length K ∧ nsteps R m x y.
Proof.
  induction k as [|k IH]; intros R K Hk HK n x y Hpath Hn.
  { destruct Hpath as [|n x z y Hxz _]; [lia|].
    apply HK in Hxz. destruct K; [by apply elem_of_nil in Hxz | simpl in Hk; lia]. }
  assert (x ∈ K) as HxK. { destruct Hpath; [lia | by eapply HK]. }
  pose proof (length_without_lt K x HxK) as Hlt.
  destruct (nsteps_last_visit R x n x y Hpath) as [Hav|(x1 & m & _ & Hx & Hrest)].
  { inversion Hav as [|? ? ? ? [_ Hne] _]; [lia | done]. }
  destruct m as [|m].
  { inv Hrest. exists 1. split; [lia | by apply nsteps_once]. }
  destruct (IH (avoiding R x) (without K x)) with (n := S m) (x := x1) (y := y)
    as (m' & Hm' & Hshort); [lia| |done|lia|].
  { intros a b [Hab Hne]. apply elem_of_without. split; [by eapply HK | done]. }
  exists (S m'). split; [lia|]. econstructor; [done|].
  by apply (nsteps_congruence id R _ _ _ (λ a b (Hab : avoiding R x a b), proj1 Hab)).
Qed.

Lemma tc_short (R : relation A) (K : list A) x y :
  (∀ x y, R x y → x ∈ K) →
  tc R x y → ∃ m, 0 < m ≤ length K ∧ nsteps R m x y.
Proof.
  intros HK (n & Hn & Hpath)%tc_nsteps. by eapply nsteps_short_aux.
Qed.

(** ** Chains

    In a relation in which every node has at most one successor, the paths
    from a node form one chain; without cycles the chain is no longer than
    the list of the nodes that edges leave from. *)
Section Chains.
Context (R : relation A) (Hdet : ∀ x y z, R x y → R x z → y = z).

Lemma nsteps_det m m' x y z :
  nsteps R m x y → nsteps R m' x z → m ≤ m' → nsteps R (m' - m) y z.
Proof.
  intros Hy. revert m' z. induction Hy as [x|m x x1 y Hx _ IH]; intros m' z Hz Hle.
  - by rewrite Nat.sub_0_r.
  - destruct Hz as [|m' x x2 z Hx' Hz]; [lia|].
    rewrite (Hdet _ _ _ Hx Hx') in IH. apply IH; [done | lia].
Qed.

Lemma chain_bound (K : list A) n x y :
  (∀ x y, R x y → x ∈ K) → (∀ x, ¬ tc R x x) → nsteps R n x y → n ≤ length K.
Proof.
  intros HK Hacyclic Hn. destruct (decide (n ≤ length K)) as [|Hlong]; [done|].
  destruct (tc_short R K x y HK) as (m & Hm & Hshort).
  { apply tc_nsteps. exists n. split; [lia | done]. }
  destruct (Hacyclic y). apply tc_nsteps. exists (n - m). split; [lia|].
  apply (nsteps_det m n x); [done..|lia].
Qed.

End Chains.

End ShortPaths.

(** ** Counting occurrences *)

Section Occurrences.
Context {A : Type} `{EqDecision A}.

Definition occurrences (x : A) (l : list A) : nat :=
  length (filter (λ y, y = x) l).

Lemma occurrences_nil x : occurrences x [] = 0.
Proof. done. Qed.

Lemma occurrences_cons x y l :
  occurrences x (y :: l) = (if decide (y = x) then 1 else 0) + occurrences x l.
Proof. unfold occurrences. rewrite filter_cons. by case_decide. Qed.

Lemma occurrences_app x l1 l2 :
  occurrences x (l1 ++ l2) = occurrences x l1 + occurrences x l2.
Proof. unfold occurrences. by rewrite filter_app, length_app. Qed.

Lemma occurrences_replicate x y n :
  occurrences x (replicate n y) = if decide (y = x) then n else 0.
Proof.
  induction n as [|n IH]; simpl; [by case_decide|].
  rewrite occurrences_cons, IH. by case_decide.
Qed.

Lemma occurrences_delete x l i y :
  l !! i = Some y →
  (if decide (y = x) then 1 else 0) + occurrences x (delete i l) = occurrences x l.
Proof.
  revert i. induction l as [|z l IH]; intros [|i] Hi; simplify_eq/=.
  - by rewrite occurrences_cons.
  - rewrite !occurrences_cons, <- (IH i Hi). lia.
Qed.

Lemma occurrences_pos x l : 0 < occurrences x l ↔ x ∈ l.
Proof.
  unfold occurrences. split.
  - destruct (filter _ l) as [|y l'] eqn:Hf; [simpl; lia|]. intros _.
    assert (y ∈ filter (λ y, y = x) l) as Hy by (rewrite Hf; left).
    by apply list_elem_of_filter in Hy as [-> ?].
  - intros Hx. assert (x ∈ filter (λ y, y = x) l) as Hin by by apply list_elem_of_filter.
    destruct (filter _ l); [by apply elem_of_nil in Hin | simpl; lia].
Qed.

End Occurrences.

Lemma occurrences_concat_replicate {A} `{EqDecision A} (x : A) n (l : list A) :
  occurrences x (concat (replicate n l)) = n * occurrences x l.
Proof.
  induction n as [|n IH]; [done|]. simpl. rewrite occurrences_app, IH. lia.
Qed.

(** What is left after a deletion was there before. *)
Lemma elem_of_delete_inv {A} (x : A) (l : list A) i : x ∈ delete i l → x ∈ l.
Proof.
  intros Hin. eapply elem_of_sublist; [done | apply sublist_delete].
Qed.

(** A loop nested in a loop is one loop over the concatenation. *)
Lemma foldl_bind {A B C} (f : A → C → A) (g : B → list C) (l : list B) (a : A) :
  foldl (λ acc x, foldl f acc (g x)) a l = foldl f a (l ≫= g).
Proof.
  revert a. induction l as [|x l IH]; intros a; [done|].
  cbn. by rewrite foldl_app, IH.
Qed.

(** An element is the one deleted or is still there. *)
Lemma elem_of_delete_or {A} (x y : A) (l : list A) i :
  l !! i = Some x → y ∈ l → y = x ∨ y ∈ delete i l.
Proof.
  intros Hi Hy. rewrite <- (take_drop_middle l i x Hi) in Hy.
  rewrite elem_of_app, elem_of_cons in Hy.
  rewrite delete_take_drop, elem_of_app. destruct Hy as [?|[->|?]]; auto.
Qed.

(** Two elements with the same key are the same when the keys are distinct. *)
Lemma NoDup_fmap_elem_inj {A B} (f : A → B) (l : list A) x y :
  NoDup (f <$> l) → x ∈ l → y ∈ l → f x = f y → x = y.
Proof.
  intros Hl [i Hi]%list_elem_of_lookup [j Hj]%list_elem_of_lookup Hxy.
  assert (i = j) as ->; [|congruence].
  eapply NoDup_lookup; [done| |]; rewrite list_lookup_fmap; [by rewrite Hi|].
  by rewrite Hj, Hxy.
Qed.

(** A loop whose body does the same thing at every round. *)
Lemma svc_forEach_const {S E A} (l : list A) (m : svc S E unit) (f : S → S)
    (t : list E) s :
  (∀ s, m s = Run (Normal tt) (f s) t) →
  svc_forEach l (λ _, m) s =
    Run (Normal tt) (Nat.iter (length l) f s) (concat (replicate (length l) t)).
Proof.
  intros Hm. revert s. induction l as [|x l IH]; intros s; [done|].
  cbn [svc_forEach]. rewrite (svc_bind_run _ _ _ _ _ _ (Hm s)), IH, prepend_Run.
  simpl. by rewrite <- Nat.iter_succ_r.
Qed.

(** A loop whose rounds read the store and leave it as it is. *)
Lemma svc_forEach_reads {S E A} (tr : A → list E) (l : list A)
    (f : A → svc S E unit) (s : S) :
  Forall (λ x, f x s = Run (Normal tt) s (tr x)) l →
  svc_forEach l f s = Run (Normal tt) s (l ≫= tr).
Proof.
  induction 1 as [|x l Hx _ IH]; [done|].
  cbn [svc_forEach]. by rewrite (svc_bind_run _ _ _ _ _ _ Hx), IH, prepend_Run.
Qed.

(** ** Sequences of events

    [run_all handle evs s] lets the handler of a component take the events
    one after the other; the result is the last state and the effects of
    all of them, in order. *)
Fixpoint run_all {S E Ev} (handle : Ev → svc S E unit) (evs : list Ev) (s : S) :
    S * list E :=
  match evs with
  | [] => (s, [])
  | ev :: evs' =>
      let r := handle ev s in
      let r' := run_all handle evs' (final r) in
      (r'.1, trace r ++ r'.2)
  end.

Lemma run_all_app {S E Ev} (handle : Ev → svc S E unit) (evs1 evs2 : list Ev) (s : S) :
  run_all handle (evs1 ++ evs2) s =
    ((run_all handle evs2 (run_all handle evs1 s).1).1,
     (run_all handle evs1 s).2 ++ (run_all handle evs2 (run_all handle evs1 s).1).2).
Proof.
  revert s. induction evs1 as [|ev evs1 IH]; intros s; simpl.
  - by destruct (run_all handle evs2 s).
  - rewrite IH. simpl. by rewrite app_assoc.
Qed.

(** An invariant kept by every event holds after all of them. *)
Lemma run_all_inv {S E Ev} (handle : Ev → svc S E unit) (I : S → Prop) evs s :
  (∀ ev, preserves I (handle ev)) → I s → I (run_all handle evs s).1.
Proof.
  intros Hh. revert s. induction evs as [|ev evs IH]; intros s Hs; [done|].
  simpl. by apply IH, Hh.
Qed.

(** The same when only the events of the run need keep it. *)
Lemma run_all_inv_Forall {S E Ev} (handle : Ev → svc S E unit) (I : S → Prop)
    (P : Ev → Prop) evs s :
  (∀ ev, P ev → preserves I (handle ev)) → Forall P evs → I s →
  I (run_all handle evs s).1.
Proof.
  intros Hh Hevs. revert s. induction Hevs as [|ev evs Hev _ IH]; intros s Hs; [done|].
  simpl. by apply IH, Hh.
Qed.

(** An invariant of the store together with its history, the events taken
    and the effects so far. *)
Lemma run_all_hist_inv {S E Ev} (handle : Ev → svc S E unit)
    (I : list Ev → S → list E → Prop) evs s :
  I [] s [] →
  (∀ evs ev s' t, I evs s' t →
     I (evs ++ [ev]) (final (handle ev s')) (t ++ trace (handle ev s'))) →
  I evs (run_all handle evs s).1 (run_all handle evs s).2.
Proof.
  intros Hstart Hstep. induction evs as [|ev evs IH] using rev_ind; [done|].
  rewrite run_all_app. cbn. rewrite app_nil_r. by apply Hstep.
Qed.

(** What holds of the effects of every event holds of the effects of a
    run. *)
Lemma run_all_trace_Forall {S E Ev} (handle : Ev → svc S E unit) (P : E → Prop) evs s :
  (∀ ev s, Forall P (trace (handle ev s))) → Forall P (run_all handle evs s).2.
Proof.
  intros Hh. revert s. induction evs as [|ev evs IH]; intros s; [done|].
  simpl. by apply Forall_app_2.
Qed.

(** The store as a function of the trace: when every event moves an
    observation [obs] of the store as the fold of [g] over its effects
    does, so does a run. *)
Lemma run_all_trace_fold {S E Ev O} (handle : Ev → svc S E unit) (obs : S → O)
    (g : O → E → O) evs s :
  (∀ ev s, obs (final (handle ev s)) = foldl g (obs s) (trace (handle ev s))) →
  obs (run_all handle evs s).1 = foldl g (obs s) (run_all handle evs s).2.
Proof.
  intros Hh. revert s. induction evs as [|ev evs IH]; intros s; [done|].
  simpl. by rewrite foldl_app, IH, Hh.
Qed.

(** An invariant established by the first part of a computation and kept
    by what follows holds at the end. *)
Lemma bind_final_inv {S E A B} (I : S → Prop) (m : svc S E A) (f : A → svc S E B) s :
  I (final (m s)) → (∀ a, preserves I (f a)) → I (final (svc_bind m f s)).
Proof.
  intros Hm Hf. unfold svc_bind. destruct (result (m s)); simpl; [by apply Hf | done].
Qed.

(** A lifted computation keeps, of the client's state, the invariant it
    keeps of the component's. *)
Lemma preserves_lift {S T E F A} (get : S → T) (set : T → S → S) (inj : F → E)
    (I : T → Prop) (m : svc T F A) :
  (∀ t s, get (set t s) = t) →
  preserves I m → preserves (λ s, I (get s)) (svc_lift get set inj m).
Proof. intros Hget Hm s Hs. unfold svc_lift. simpl. rewrite Hget. by apply Hm. Qed.

(** A lifted computation runs as the component's does. *)
Lemma svc_lift_run {S T E F A} (get : S → T) (set : T → S → S) (inj : F → E)
    (m : svc T F A) s c t' t :
  m (get s) = Run c t' t →
  svc_lift get set inj m s = Run c (set t' s) (inj <$> t).
Proof. unfold svc_lift. by intros ->. Qed.

Section JsFind.
Context {A : Type} (P : A → Prop) `{∀ x, Decision (P x)}.
Implicit Types (l : list A).

Lemma js_find_nil : js_find P [] = None.
Proof. done. Qed.

Lemma js_find_cons x l :
  js_find P (x :: l) = if decide (P x) then Some x else js_find P l.
Proof.
  unfold js_find. simpl. destruct (decide (P x)); [done|].
  by destruct (list_find P l) as [[i y]|].
Qed.

Lemma js_find_Some l x : js_find P l = Some x → x ∈ l ∧ P x.
Proof.
  unfold js_find. destruct (list_find P l) as [[i y]|] eqn:Hf; [|done].
  intros [= ->]. apply list_find_Some in Hf as (Hl & HP & _).
  split; [by eapply list_elem_of_lookup_2 | done].
Qed.

Lemma js_find_None l : js_find P l = None ↔ Forall (λ x, ¬ P x) l.
Proof.
  unfold js_find. by rewrite fmap_None, list_find_None.
Qed.

Lemma js_find_is_Some l x : x ∈ l → P x → is_Some (js_find P l).
Proof.
  intros Hx HP. destruct (js_find P l) eqn:Hf; [by eexists|].
  apply js_find_None in Hf. rewrite Forall_forall in Hf. by destruct (Hf x Hx).
Qed.

(** Mapping a function the search does not see. *)
Lemma js_find_fmap (f : A → A) l :
  (∀ x, P (f x) ↔ P x) → js_find P (f <$> l) = f <$> js_find P l.
Proof.
  intros Hf. induction l as [|x l IH]; [done|].
  rewrite fmap_cons, !js_find_cons, IH.
  destruct (decide (P x)) as [Hx|Hx].
  - by rewrite decide_True by by apply Hf.
  - by rewrite decide_False by by rewrite Hf.
Qed.

Lemma js_find_app l1 l2 :
  js_find P (l1 ++ l2) =
  match js_find P l1 with Some x => Some x | None => js_find P l2 end.
Proof.
  induction l1 as [|x l1 IH]; [done|].
  rewrite <- app_comm_cons, !js_find_cons. by case_decide.
Qed.

(** Changing an element in place, in a way the search does not see, leaves
    the search where it was. *)
Lemma list_find_alter_Some (f : A → A) l i j x :
  (∀ y, P (f y) ↔ P y) → list_find P l = Some (j, x) →
  list_find P (alter f i l) = Some (j, if decide (j = i) then f x else x).
Proof.
  intros Hf (Hj & Hx & Hbefore)%list_find_Some. apply list_find_Some. split_and!.
  - case_decide as Hi; [subst i; by rewrite list_lookup_alter_eq, Hj|].
    by rewrite list_lookup_alter_ne.
  - case_decide; [by apply Hf | done].
  - intros k y Hk Hlt. destruct (decide (i = k)) as [->|Hi].
    + rewrite list_lookup_alter_eq in Hk. apply fmap_Some in Hk as (z & Hz & ->).
      rewrite Hf. by apply (Hbefore k).
    + rewrite list_lookup_alter_ne in Hk by done. by apply (Hbefore k).
Qed.

Lemma list_find_alter_None (f : A → A) l i :
  (∀ y, P (f y) ↔ P y) → list_find P l = None → list_find P (alter f i l) = None.
Proof.
  intros Hf Hnone%list_find_None. apply list_find_None.
  rewrite Forall_lookup in *. intros k y Hk. destruct (decide (i = k)) as [->|Hi].
  - rewrite list_lookup_alter_eq in Hk. apply fmap_Some in Hk as (z & Hz & ->).
    rewrite Hf. by apply (Hnone k).
  - rewrite list_lookup_alter_ne in Hk by done. by apply (Hnone k).
Qed.

(** Filtering by what the search implies does not change what is found. *)
Lemma js_find_filter (Q : A → Prop) `{∀ x, Decision (Q x)} l :
  (∀ x, P x → Q x) → js_find P (filter Q l) = js_find P l.
Proof.
  intros HPQ. induction l as [|x l IH]; [done|].
  rewrite filter_cons, js_find_cons. destruct (decide (Q x)) as [HQ|HQ].
  - by rewrite js_find_cons, IH.
  - rewrite IH. case_decide; [by destruct HQ; apply HPQ | done].
Qed.

End JsFind.

(** Mapping a function under which one search becomes another. *)
Lemma js_find_fmap_through {A B} (P : B → Prop) (Q : A → Prop)
    `{∀ x, Decision (P x)} `{∀ x, Decision (Q x)} (f : A → B) (l : list A) :
  (∀ x, P (f x) ↔ Q x) → js_find P (f <$> l) = f <$> js_find Q l.
Proof.
  intros Hf. induction l as [|x l IH]; [done|].
  rewrite fmap_cons, !js_find_cons, IH.
  destruct (decide (Q x)) as [Hx|Hx].
  - by rewrite decide_True by by apply Hf.
  - by rewrite decide_False by by rewrite Hf.
Qed.

(** The keys of the elements a filter keeps are as distinct as the keys of
    all. *)
Lemma NoDup_fmap_filter {A B} (f : A → B) (P : A → Prop) `{∀ x, Decision (P x)}
    (l : list A) :
  NoDup (f <$> l) → NoDup (f <$> filter P l).
Proof. intros Hl. eapply sublist_NoDup; [done|]. apply fmap_sublist, sublist_filter. Qed.

#[export] Hint Rewrite @svc_bind_assoc @svc_bind_ret_l @svc_bind_gets @svc_bind_modify
  @svc_bind_emit @svc_bind_throw_l @svc_bind_deref_Some @svc_bind_deref_None
  @svc_when_true @svc_when_false @svc_ret_run @prepend_nil @prepend_Run
  @prepend_prepend : svc_rw.

(** Run the primitive steps at the head of a computation. *)
Lemma final_bind_ret {S E A B} (m : svc S E A) (b : B) s :
  final (svc_bind m (λ _, svc_ret b) s) = final (m s).
Proof. unfold svc_bind. by destruct (result (m s)). Qed.

Lemma svc_forEach_emit {S E A} (f : A → E) (l : list A) (s : S) :
  svc_forEach l (λ x, svc_emit (f x)) s = Run (Normal tt) s (f <$> l).
Proof.
  induction l as [|x l IH]; [done|].
  cbn [svc_forEach]. by rewrite svc_bind_emit, IH, prepend_Run.
Qed.

(** Breaks a [preserves] goal down along the structure of the program and
    closes the leaves from the hint database. *)
#[export] Hint Resolve emits_only_ret emits_only_gets emits_only_modify emits_only_throw
  emits_only_deref emits_only_emit : svc.

(** Decomposes a goal [emits_only P m] along the structure of [m]. *)
Ltac emits_go :=
  repeat match goal with
    | |- ∀ _, _ => intro
    | |- emits_only _ (svc_bind _ _) => apply emits_only_bind
    | |- emits_only _ (if ?b then _ else _) => destruct b
    | |- emits_only _ (match ?x with _ => _ end) => destruct x
    | |- emits_only _ _ => solve [eauto with svc]
    end.

Ltac preserves_go :=
  repeat match goal with
    | |- ∀ _, _ => intro
    | |- preserves _ (svc_bind _ _) => apply preserves_bind
    | |- preserves _ (svc_when _ _) => apply preserves_when
    | |- preserves _ (svc_forEach _ _) => apply preserves_forEach
    | |- preserves _ (svc_mapM _ _) => apply preserves_mapM
    | |- preserves _ (match ?x with _ => _ end) => destruct x
    | |- preserves _ _ => solve [eauto with svc]
    end.

Ltac svc_simp := autorewrite with svc_rw; cbn [app result final trace].
(** Closes a goal between two runs that agree up to the bracketing of their
    traces. *)
Ltac svc_done := svc_simp; rewrite ?app_nil_r, <- ?app_assoc; cbn [app]; done.
#[export] Hint Resolve not_elem_of_without NoDup_without : svc.
