(* ===== verification/JsObject.v ===== *)
(** * JavaScript objects used as dictionaries

    The services keep their entities in plain objects keyed by id
    ([Dictionary<T>] in the sources) and enumerate them with [Object.keys].
    For string keys that are not array indices, the enumeration order is the
    order of first insertion: writing an existing key keeps its position,
    deleting and writing again moves it to the end.  The order is observable
    (for example [ScenesService.removeScene] activates [Object.keys(...)[0]]),
    so a dictionary is an association list in insertion order, kept free of
    duplicate keys by its operations.

    [dict_equiv] is the coarser equality that forgets the order; lookups, and
    whatever is defined from lookups alone, respect it. *)

From stdpp Require Import base tactics option list strings.
From S2P Require Import Prelude.

Set Warnings "-clear-no-such-hyp".

Local Open Scope string_scope.
Local Open Scope list_scope.
Local Open Scope nat_scope.

Abbreviation Dictionary V := (list (string * V)) (only parsing).

Section Dictionary.
Context {V : Type}.
Implicit Types (d : Dictionary V) (k : string) (v : V).

(** [d[k]] *)
Fixpoint dict_get d k : option V :=
  match d with
  | [] => None
  | (k', v) :: d' => if decide (k' = k) then Some v else dict_get d' k
  end.

(** [d[k] = v] (also [Vue.set(d, k, v)]) *)
Fixpoint dict_set k v d : Dictionary V :=
  match d with
  | [] => [(k, v)]
  | (k', v') :: d' =>
      if decide (k' = k) then (k, v) :: d' else (k', v') :: dict_set k v d'
  end.

(** [delete d[k]] (also [Vue.delete(d, k)]) *)
Definition dict_delete k d : Dictionary V :=
  filter (λ kv, kv.1 ≠ k) d.

(** [Object.keys(d)] *)
Definition dict_keys d : list string := d.*1.

(** [Object.values(d)] *)
Definition dict_values d : list V := d.*2.

(** [Object.assign({}, d1, d2)]: the entries of [d1], overwritten or
    extended by those of [d2] in [d2]'s order. *)
Definition dict_assign d1 d2 : Dictionary V :=
  foldl (λ acc kv, dict_set kv.1 kv.2 acc) d1 d2.

(** No key occurs twice. *)
Definition dict_wf d : Prop := NoDup (dict_keys d).

#[export] Instance dict_wf_dec d : Decision (dict_wf d).
Proof. unfold dict_wf. apply _. Defined.

(** ** Lookup after update *)

Lemma dict_get_set_eq d k v : dict_get (dict_set k v d) k = Some v.
Proof.
  induction d as [|[k' v'] d IH]; simpl; repeat case_decide; simpl;
    repeat case_decide; done.
Qed.

Lemma dict_get_set_ne d k k' v :
  k ≠ k' → dict_get (dict_set k v d) k' = dict_get d k'.
Proof.
  intros Hne. induction d as [|[k0 v0] d IH]; simpl; repeat case_decide; simpl;
    repeat case_decide; congruence.
Qed.

Lemma dict_get_delete_eq d k : dict_get (dict_delete k d) k = None.
Proof.
  unfold dict_delete. induction d as [|[k' v'] d IH]; [done|].
  rewrite filter_cons. simpl. repeat case_decide; simpl; repeat case_decide;
    congruence.
Qed.

Lemma dict_get_delete_ne d k k' :
  k ≠ k' → dict_get (dict_delete k d) k' = dict_get d k'.
Proof.
  intros Hne. unfold dict_delete. induction d as [|[k0 v0] d IH]; [done|].
  rewrite filter_cons. simpl. repeat case_decide; simpl; repeat case_decide;
    congruence.
Qed.

(** ** Keys *)

Lemma dict_get_None d k : dict_get d k = None ↔ k ∉ dict_keys d.
Proof.
  unfold dict_keys. induction d as [|[k' v'] d IH]; simpl.
  - split; [intros _; apply not_elem_of_nil | done].
  - rewrite not_elem_of_cons. case_decide; [|rewrite IH]; naive_solver.
Qed.

Lemma dict_get_is_Some d k : is_Some (dict_get d k) ↔ k ∈ dict_keys d.
Proof.
  rewrite <-not_eq_None_Some, dict_get_None.
  split; [apply dec_stable | by intros ? ?].
Qed.

Lemma dict_get_Some_elem_of d k v : dict_get d k = Some v → (k, v) ∈ d.
Proof.
  induction d as [|[k' v'] d IH]; simpl; [done|].
  case_decide; [intros [= ->]; subst; left | right; auto].
Qed.

Lemma dict_elem_of_get d k v : dict_wf d → (k, v) ∈ d → dict_get d k = Some v.
Proof.
  unfold dict_wf, dict_keys. induction d as [|[k' v'] d IH]; simpl.
  - intros _ Hin. by apply elem_of_nil in Hin.
  - rewrite NoDup_cons. intros [Hk' Hnd] [[= -> ->]|Hin]%elem_of_cons.
    + by rewrite decide_True.
    + rewrite decide_False; [by apply IH|].
      intros ->. apply Hk'. apply list_elem_of_fmap. by exists (k, v).
Qed.

Lemma dict_keys_set_fresh d k v :
  dict_get d k = None → dict_keys (dict_set k v d) = dict_keys d ++ [k].
Proof.
  unfold dict_keys. induction d as [|[k' v'] d IH]; simpl; [done|].
  case_decide; [done|]. intros Hd. simpl. f_equal. by apply IH.
Qed.

Lemma dict_keys_set_present d k v :
  is_Some (dict_get d k) → dict_keys (dict_set k v d) = dict_keys d.
Proof.
  unfold dict_keys. induction d as [|[k' v'] d IH]; simpl.
  - by intros [? ?].
  - case_decide; [by subst|]. intros Hd. simpl. f_equal. by apply IH.
Qed.

Lemma dict_keys_delete d k : dict_keys (dict_delete k d) = without (dict_keys d) k.
Proof.
  unfold dict_keys, dict_delete, without.
  induction d as [|[k' v'] d IH]; [done|].
  rewrite fmap_cons, !filter_cons. simpl.
  case_decide; simpl; [f_equal|]; apply IH.
Qed.

Lemma elem_of_dict_keys_set d k k' v :
  k' ∈ dict_keys (dict_set k v d) ↔ k' = k ∨ k' ∈ dict_keys d.
Proof.
  rewrite <-!dict_get_is_Some. destruct (decide (k = k')) as [->|Hne].
  - rewrite dict_get_set_eq. naive_solver.
  - rewrite dict_get_set_ne by done. naive_solver.
Qed.

(** ** Well-formedness is kept by every operation *)

Lemma dict_wf_nil : dict_wf [].
Proof. apply NoDup_nil_2. Qed.

Lemma dict_wf_set d k v : dict_wf d → dict_wf (dict_set k v d).
Proof.
  intros Hwf. unfold dict_wf. destruct (dict_get d k) eqn:Hk.
  - by rewrite dict_keys_set_present.
  - rewrite dict_keys_set_fresh by done. apply NoDup_app.
    split_and!; [done | | apply NoDup_singleton].
    intros k' Hk' ->%list_elem_of_singleton. by apply dict_get_None in Hk.
Qed.

Lemma dict_wf_delete d k : dict_wf d → dict_wf (dict_delete k d).
Proof. unfold dict_wf. rewrite dict_keys_delete. apply NoDup_without. Qed.

Lemma dict_wf_assign d1 d2 : dict_wf d1 → dict_wf (dict_assign d1 d2).
Proof.
  unfold dict_assign. revert d1.
  induction d2 as [|[k v] d2 IH]; intros d1 Hwf; simpl; [done|].
  by apply IH, dict_wf_set.
Qed.

(** ** Sizes *)

Lemma length_dict_keys d : length (dict_keys d) = length d.
Proof. apply length_fmap. Qed.

Lemma length_dict_set_fresh d k v :
  dict_get d k = None → length (dict_set k v d) = S (length d).
Proof.
  intros Hk. rewrite <-!length_dict_keys, dict_keys_set_fresh by done.
  rewrite length_app. simpl. lia.
Qed.

Lemma length_dict_delete d k :
  dict_wf d → is_Some (dict_get d k) →
  S (length (dict_delete k d)) = length d.
Proof.
  intros Hwf Hk%dict_get_is_Some.
  rewrite <-!length_dict_keys, dict_keys_delete.
  by apply length_without_NoDup.
Qed.

(** ** [Object.assign] *)

Lemma dict_get_assign d1 d2 k :
  dict_wf d2 →
  dict_get (dict_assign d1 d2) k =
    match dict_get d2 k with
    | Some v => Some v
    | None => dict_get d1 k
    end.
Proof.
  unfold dict_assign, dict_wf, dict_keys. revert d1.
  induction d2 as [|[k' v'] d2 IH]; intros d1; simpl; [done|].
  rewrite NoDup_cons. intros [Hk' Hnd]. rewrite IH by done.
  case_decide as Hkk; subst.
  - assert (dict_get d2 k = None) as -> by by apply dict_get_None.
    apply dict_get_set_eq.
  - destruct (dict_get d2 k); [done|]. by apply dict_get_set_ne.
Qed.

End Dictionary.

(** ** Equality up to enumeration order *)

#[export] Instance dict_equiv {V} : Equiv (Dictionary V) :=
  λ d1 d2, ∀ k, dict_get d1 k = dict_get d2 k.

#[export] Instance dict_equiv_equivalence {V} : Equivalence (≡@{Dictionary V}).
Proof.
  split.
  - by intros d k.
  - by intros d1 d2 H k.
  - intros d1 d2 d3 H1 H2 k. by rewrite H1.
Qed.

#[export] Instance dict_get_proper {V} :
  Proper ((≡) ==> (=) ==> (=)) (@dict_get V).
Proof. intros d1 d2 Hd k ? <-. apply Hd. Qed.

#[export] Instance dict_set_proper {V} k (v : V) :
  Proper ((≡) ==> (≡)) (dict_set k v).
Proof.
  intros d1 d2 Hd k'. destruct (decide (k = k')) as [->|Hne].
  - by rewrite !dict_get_set_eq.
  - by rewrite !dict_get_set_ne.
Qed.

#[export] Instance dict_delete_proper {V} k :
  Proper ((≡) ==> (≡)) (@dict_delete V k).
Proof.
  intros d1 d2 Hd k'. destruct (decide (k = k')) as [->|Hne].
  - by rewrite !dict_get_delete_eq.
  - by rewrite !dict_get_delete_ne.
Qed.

(** Writing a key twice is writing it once, order included. *)
Lemma dict_set_set_eq {V} (d : Dictionary V) k v1 v2 :
  dict_set k v1 (dict_set k v2 d) = dict_set k v1 d.
Proof.
  induction d as [|[k' v'] d IH]; simpl; [by rewrite decide_True|].
  case_decide; simpl; [by rewrite decide_True|]. by rewrite decide_False, IH.
Qed.

(** Writing the entries of a list one after the other, the entry of a name
    that occurs once is read back. *)
Lemma dict_get_foldl_set {A V} (key : A → string) (val : A → V) (l : list A) (x : A)
    (d : Dictionary V) :
  NoDup (key <$> l) → x ∈ l →
  dict_get (foldl (λ acc y, dict_set (key y) (val y) acc) d l) (key x) = Some (val x).
Proof.
  revert d. induction l as [|y l IH] using rev_ind; intros d Hl Hx; [by apply elem_of_nil in Hx|].
  rewrite fmap_app in Hl. apply NoDup_app in Hl as (Hl & Hfresh & _).
  rewrite foldl_snoc. apply elem_of_app in Hx as [Hx | ->%list_elem_of_singleton].
  - rewrite dict_get_set_ne; [by apply IH|].
    intros Heq. apply (Hfresh (key x)); [by apply list_elem_of_fmap_2|].
    rewrite <- Heq. apply list_elem_of_here.
  - apply dict_get_set_eq.
Qed.

(** Writing two different keys commutes up to order. *)
Lemma dict_set_set_ne {V} (d : Dictionary V) k1 k2 v1 v2 :
  k1 ≠ k2 →
  dict_set k1 v1 (dict_set k2 v2 d) ≡ dict_set k2 v2 (dict_set k1 v1 d).
Proof.
  intros Hne k.
  destruct (decide (k1 = k)) as [->|H1]; destruct (decide (k2 = k)) as [->|H2];
    rewrite ?dict_get_set_eq, ?dict_get_set_ne, ?dict_get_set_eq by done; done.
Qed.

(** Deleting a key that was just written to a dictionary without it restores
    the dictionary, order included. *)
Lemma dict_delete_set_fresh {V} (d : Dictionary V) k v :
  dict_get d k = None → dict_delete k (dict_set k v d) = d.
Proof.
  intros Hk. unfold dict_delete.
  induction d as [|[k' v'] d IH]; simpl in *.
  - rewrite filter_cons. simpl. by rewrite decide_False by naive_solver.
  - case_decide; [done|]. rewrite filter_cons. simpl.
    rewrite decide_True by done. by rewrite IH.
Qed.

#[export] Hint Resolve dict_wf_nil dict_wf_set dict_wf_delete dict_wf_assign : svc.
#[export] Hint Rewrite @dict_get_set_eq @dict_get_delete_eq @dict_keys_delete : svc_rw.
#[export] Hint Rewrite @dict_get_set_ne @dict_get_delete_ne using done : svc_rw.
