(* ===== verification/Scenes.v ===== *)
(** * ScenesService: the scene graph store

    Models [ScenesService] of [src/app/services/notifications/notifications-api.ts]
    (the second document of that file, lines 61-332): its store slice
    [IScenesState], its four mutations, and its methods.  The [Scene] and
    [SceneItem] classes the service calls are not part of the sources; what
    the service needs of them is stated as the interface [SceneApi], from the
    specification (sections 3 and 4.1), and the theorems of this file hold for
    every implementation of that interface.  [SceneNodes.v] gives one.

    The per-item settings blob (transform, visibility, lock) is only copied by
    this service, so it is a parameter [Settings] of the section. *)

From stdpp Require Import base tactics option list strings relations.
From S2P Require Import Prelude JsObject.

Set Warnings "-clear-no-such-hyp".

Local Open Scope string_scope.
Local Open Scope list_scope.
Local Open Scope nat_scope.
Local Open Scope svc_scope.

Section Scenes.
Context {Settings : Type}.

(** ** Data *)

(** A scene item: a node that shows a source ([ISceneItem]). *)
Record ISceneItem : Type := mkSceneItem {
  sceneItemId : string;
  item_sceneId : string;
  sourceId : string;
  item_parentId : option string;
  item_settings : Settings;
}.

(** A folder: a node that groups other nodes ([ISceneItemFolder]). *)
Record ISceneItemFolder : Type := mkSceneItemFolder {
  folder_id : string;
  folder_sceneId : string;
  folder_name : string;
  folder_parentId : option string;
  folder_childrenIds : list string;
}.

Inductive TSceneNode : Type :=
| ItemNode (item : ISceneItem)
| FolderNode (folder : ISceneItemFolder).

(** A scene as [ADD_SCENE] stores it. *)
Record IScene : Type := mkScene {
  scene_id : string;
  scene_name : string;
  scene_resourceId : string;
  scene_nodes : list TSceneNode;
}.

Record IScenesState : Type := mkScenesState {
  activeSceneId : string;
  displayOrder : list string;
  scenes : Dictionary IScene;
}.

Definition initialState : IScenesState :=
  {| activeSceneId := ""; displayOrder := []; scenes := [] |}.

(** The second argument of [createScene]. *)
Record ISceneCreateOptions : Type := mkSceneCreateOptions {
  duplicateSourcesFromScene : option string;
  sceneId : option string;
  makeActive : bool;
}.

(** The query parameters the three [show...] methods pass to the windows
    service. *)
Inductive TWindowQuery : Type :=
| NameSceneQuery (rename : option string) (itemsToGroup : option (list string))
| NameFolderQuery (renameId : option string)
    (itemsToGroup : option (list string)) (parentId : option string)
| DuplicateSceneQuery (sceneToDuplicate : string).

Record IWindowOptions : Type := mkWindowOptions {
  componentName : string;
  queryParams : TWindowQuery;
  size_width : Z;
  size_height : Z;
}.

(** What the service does to the outside, in order: values pushed on its six
    subjects and calls into its collaborators. *)
Inductive ScenesEffect : Type :=
| sceneAdded (model : option IScene)
| sceneRemoved (model : option IScene)
| sceneSwitched (model : option IScene)
| itemAdded (item : ISceneItem)
| itemRemoved (item : ISceneItem)
| itemUpdated (item : ISceneItem)
| SceneFactory_create (id : string)
| sourcesService_addSource (id name : string)
| transitionsService_transitionTo (id : string)
| alert (msg : string)
| windowsService_showWindow (options : IWindowOptions).

(** The events the observers of the service receive: the ones pushed on
    its six subjects. *)
Definition is_subject_event (e : ScenesEffect) : bool :=
  match e with
  | sceneAdded _ | sceneRemoved _ | sceneSwitched _
  | itemAdded _ | itemRemoved _ | itemUpdated _ => true
  | _ => false
  end.

(** A [Scene] object holds the scene's id and reads everything else from the
    store. *)
Definition Scene : Type := string.

Definition M (A : Type) : Type := svc IScenesState ScenesEffect A.

(** ** Mutations *)

(** The scene [ADD_SCENE] stores. *)
Definition new_scene (id name : string) : IScene :=
  {| scene_id := id;
     scene_name := name;
     scene_resourceId := "Scene" +:+ JSON_stringify_array1 id;
     scene_nodes := [] |}.

Definition ADD_SCENE (id name : string) (st : IScenesState) : IScenesState :=
  {| scenes := dict_set id (new_scene id name) (scenes st);
     displayOrder := displayOrder st ++ [id];
     activeSceneId := js_or (activeSceneId st) id |}.

Definition REMOVE_SCENE (id : string) (st : IScenesState) : IScenesState :=
  {| scenes := dict_delete id (scenes st);
     displayOrder := without (displayOrder st) id;
     activeSceneId := activeSceneId st |}.

Definition MAKE_SCENE_ACTIVE (id : string) (st : IScenesState) : IScenesState :=
  {| scenes := scenes st;
     displayOrder := displayOrder st;
     activeSceneId := id |}.

Definition SET_SCENE_ORDER (order : list string) (st : IScenesState) :
    IScenesState :=
  {| scenes := scenes st;
     displayOrder := order;
     activeSceneId := activeSceneId st |}.

(** ** Reads *)

(** [getScene(id)]: a [Scene] when the store has the id, else [null]. *)
Definition getScene (st : IScenesState) (id : string) : option Scene :=
  match dict_get (scenes st) id with
  | Some _ => Some id
  | None => None
  end.

(** [getSceneByName(name)]: the loop keeps the last scene, in key order, whose
    name matches. *)
Definition getSceneByName_step (d : Dictionary IScene) (name : string)
    (foundScene : option IScene) (id : string) : option IScene :=
  match dict_get d id with
  | Some scene => if decide (scene_name scene = name) then Some scene else foundScene
  | None => foundScene
  end.

Definition getSceneByName (st : IScenesState) (name : string) : option Scene :=
  let foundScene :=
    foldl (getSceneByName_step (scenes st) name) None (dict_keys (scenes st)) in
  match foundScene with
  | Some scene => getScene st (scene_id scene)
  | None => None
  end.

(** The [scenes] getter: the display order mapped through [getScene]. *)
Definition scenes_getter (st : IScenesState) : list (option Scene) :=
  getScene st <$> displayOrder st.

(** [getScenes()] *)
Definition getScenes (st : IScenesState) : list (option Scene) := scenes_getter st.

(** [getModel()] *)
Definition getModel (st : IScenesState) : IScenesState := st.

Definition activeScene (st : IScenesState) : option Scene :=
  getScene st (activeSceneId st).

(** [scene.getItems()]: the item nodes of the scene, in node order. *)
Definition node_item (n : TSceneNode) : option ISceneItem :=
  match n with
  | ItemNode item => Some item
  | FolderNode _ => None
  end.

Definition Scene_getItems (st : IScenesState) (scene : Scene) : list ISceneItem :=
  match dict_get (scenes st) scene with
  | Some model => omap node_item (scene_nodes model)
  | None => []
  end.

(** [scene.getItem(id)] *)
Definition Scene_getItem (st : IScenesState) (scene : Scene) (id : string) :
    option ISceneItem :=
  js_find (λ item, sceneItemId item = id) (Scene_getItems st scene).

(** [scene.getNodes()] *)
Definition Scene_getNodes (st : IScenesState) (scene : Scene) : list TSceneNode :=
  match dict_get (scenes st) scene with
  | Some model => scene_nodes model
  | None => []
  end.

(** [node.name]: a folder holds its name; an item shows the name of its
    source, which the sources service holds ([sourceName]). *)
Definition node_name (sourceName : string → string) (n : TSceneNode) : string :=
  match n with
  | ItemNode item => sourceName (sourceId item)
  | FolderNode folder => folder_name folder
  end.

(** ** The nesting relation *)

(** Scene [a] shows source [b]: one of its items references it.  When [b] is
    the id of a scene, [a] nests scene [b]; [removeScene] recognises nested
    scenes by exactly this equality of ids. *)
Definition nests (st : IScenesState) (a b : string) : Prop :=
  b ∈ sourceId <$> Scene_getItems st a.

(** No scene reaches itself through nesting. *)
Definition acyclic (st : IScenesState) : Prop :=
  ∀ a, ¬ tc (nests st) a a.

(** ** What the service needs of [Scene] and [SceneItem] *)

(** Two stores that differ at most in the nodes of their scenes. *)
Definition scene_hdr (scene : IScene) : string * string * string :=
  (scene_id scene, scene_name scene, scene_resourceId scene).

Definition scene_header (kv : string * IScene) : string * (string * string * string) :=
  (kv.1, scene_hdr kv.2).

Definition same_frame (st st' : IScenesState) : Prop :=
  activeSceneId st' = activeSceneId st ∧
  displayOrder st' = displayOrder st ∧
  scene_header <$> scenes st' = scene_header <$> scenes st.

(** An item with its settings replaced. *)
Definition with_settings (settings : Settings) (item : ISceneItem) : ISceneItem :=
  {| sceneItemId := sceneItemId item;
     item_sceneId := item_sceneId item;
     sourceId := sourceId item;
     item_parentId := item_parentId item;
     item_settings := settings |}.

Class SceneApi : Type := {
  (** [scene.addSource(sourceId)], given the id [uuid()] returns for the
      new item; [null] when the source may not be added. *)
  Scene_addSource : Scene → string → string → M (option ISceneItem);
  (** [scene.removeItem(sceneItemId)] *)
  Scene_removeItem : Scene → string → M unit;
  (** [item.setSettings(settings)] on the item [sceneItemId] of a scene *)
  SceneItem_setSettings : Scene → string → Settings → M unit;

  addSource_frame scene src uuid st :
    same_frame st (final (Scene_addSource scene src uuid st));
  addSource_refused scene src uuid st :
    result (Scene_addSource scene src uuid st) = Normal None →
    final (Scene_addSource scene src uuid st) = st ∧
    trace (Scene_addSource scene src uuid st) = [];
  addSource_added scene src uuid st item :
    result (Scene_addSource scene src uuid st) = Normal (Some item) →
    sceneItemId item = uuid ∧ sourceId item = src ∧ item_sceneId item = scene ∧
    Scene_getItems (final (Scene_addSource scene src uuid st)) scene =
      item :: Scene_getItems st scene ∧
    (∀ other, other ≠ scene →
       Scene_getItems (final (Scene_addSource scene src uuid st)) other =
       Scene_getItems st other) ∧
    trace (Scene_addSource scene src uuid st) = [itemAdded item];
  addSource_thrown scene src uuid st e :
    result (Scene_addSource scene src uuid st) = Throw e →
    final (Scene_addSource scene src uuid st) = st ∧
    trace (Scene_addSource scene src uuid st) = [];
  addSource_accepts scene src uuid st :
    is_Some (dict_get (scenes st) scene) →
    src ≠ scene → ¬ tc (nests st) src scene →
    ∃ item, result (Scene_addSource scene src uuid st) = Normal (Some item);
  addSource_rejects_cycle scene src uuid st item :
    result (Scene_addSource scene src uuid st) = Normal (Some item) →
    src ≠ scene ∧ ¬ tc (nests st) src scene;

  removeItem_frame scene id st :
    same_frame st (final (Scene_removeItem scene id st));
  removeItem_result scene id st :
    result (Scene_removeItem scene id st) = Normal tt;
  removeItem_items scene id st other :
    Scene_getItems (final (Scene_removeItem scene id st)) other =
    filter (λ item, ¬ (other = scene ∧ sceneItemId item = id))
      (Scene_getItems st other);
  removeItem_trace scene id st :
    trace (Scene_removeItem scene id st) =
    itemRemoved <$>
      filter (λ item, sceneItemId item = id) (Scene_getItems st scene);

  setSettings_frame scene id settings st :
    same_frame st (final (SceneItem_setSettings scene id settings st));
  setSettings_result scene id settings st :
    result (SceneItem_setSettings scene id settings st) = Normal tt;
  setSettings_items scene id settings st other :
    Scene_getItems (final (SceneItem_setSettings scene id settings st)) other =
    (λ item,
       if decide (other = scene ∧ sceneItemId item = id)
       then with_settings settings item else item) <$> Scene_getItems st other;
}.

Context `{SceneApi}.

(** ** Methods *)

(** [getSceneItems()]: the items of every scene of the display order, each
    with its scene; a [null] entry of [this.scenes] throws. *)
Definition getSceneItems : M (list ISceneItem) :=
  let* sceneList := svc_gets scenes_getter in
  let* sceneObjs := svc_mapM svc_deref sceneList in
  svc_gets (λ st, sceneObjs ≫= Scene_getItems st).

(** [getSceneItem(sceneItemId)]: the item of the first scene of the display
    order that has it.  The loop returns as soon as it finds one, so a [null]
    scene throws only when no earlier scene has the item. *)
Fixpoint getSceneItem_loop (st : IScenesState) (sceneList : list (option Scene))
    (id : string) : completion (option ISceneItem) :=
  match sceneList with
  | [] => Normal None
  | None :: _ => Throw TypeError
  | Some scene :: rest =>
      match Scene_getItem st scene id with
      | Some sceneItem => Normal (Some sceneItem)
      | None => getSceneItem_loop st rest id
      end
  end.

Definition getSceneItem (id : string) : M (option ISceneItem) :=
  svc_try_gets (λ st, getSceneItem_loop st (scenes_getter st) id).

(** [getSourceScenes(sourceId)] *)
Definition getSourceScenes (src : string) : M (list Scene) :=
  let* sceneList := svc_gets scenes_getter in
  let* sceneObjs := svc_mapM svc_deref sceneList in
  svc_gets (λ st,
    filter
      (λ scene,
         0 < length (filter (λ item, sourceId item = src) (Scene_getItems st scene)))
      sceneObjs).

Definition makeSceneActive (id : string) : M bool :=
  let* scene := svc_gets (λ st, getScene st id) in
  match scene with
  | None => svc_ret false
  | Some scene =>
      svc_emit (transitionsService_transitionTo scene);;
      svc_modify (MAKE_SCENE_ACTIVE id);;
      let* model := svc_gets (λ st, dict_get (scenes st) scene) in
      svc_emit (sceneSwitched model);;
      svc_ret true
  end.

(** The body of the duplication loop of [createScene]: add the source of
    [item] to the new scene and give the new item the settings of [item].
    [itemId] is the id [uuid()] yields for the new item. *)
Definition createScene_addItem (newScene : option Scene) (itemId : string)
    (item : ISceneItem) : M unit :=
  let* newScene := svc_deref newScene in
  let* newItem := Scene_addSource newScene (sourceId item) itemId in
  let* newItem := svc_deref newItem in
  SceneItem_setSettings newScene (sceneItemId newItem) (item_settings item).

(** The branch of [createScene] taken when [duplicateSourcesFromScene] is
    given: the items of the scene of that name, last first.  [uuid k] is the
    id of the [k]-th item added. *)
Definition createScene_duplicate (id from : string) (uuid : nat → string) : M unit :=
  let* oldScene := svc_gets (λ st, getSceneByName st from) in
  let* newScene := svc_gets (λ st, getScene st id) in
  let* oldScene := svc_deref oldScene in
  let* items := svc_gets (λ st, Scene_getItems st oldScene) in
  svc_forEach (imap (λ k item, (uuid k, item)) (reverse items))
    (λ p, createScene_addItem newScene p.1 p.2).

(** The id [createScene] gives the scene: the [sceneId] option when it is
    given and not empty, else one made from [uniqueId], which is what the
    main process answers to [getUniqueId]. *)
Definition createScene_id (options : ISceneCreateOptions) (uniqueId : string) :
    string :=
  js_or_undef (sceneId options) ("scene_" +:+ uniqueId).

(** [createScene(name, options)] *)
Definition createScene (name : string) (options : ISceneCreateOptions)
    (uniqueId : string) (uuid : nat → string) : M (option Scene) :=
  let id := createScene_id options uniqueId in
  svc_modify (ADD_SCENE id name);;
  svc_emit (SceneFactory_create id);;
  svc_emit (sourcesService_addSource id name);;
  svc_when (truthy (js_or_undef (duplicateSourcesFromScene options) ""))
    (createScene_duplicate id (js_or_undef (duplicateSourcesFromScene options) "") uuid);;
  let* model := svc_gets (λ st, dict_get (scenes st) id) in
  svc_emit (sceneAdded model);;
  svc_when (makeActive options) (makeSceneActive id;; svc_ret tt);;
  svc_gets (λ st, getSceneByName st name).

(** The three phases of [removeScene] after its guard: empty the scene,
    drop the items of other scenes that show it, and re-point the active
    scene. *)
Definition removeScene_items (scene : Scene) : M unit :=
  let* items := svc_gets (λ st, Scene_getItems st scene) in
  svc_forEach items (λ sceneItem, Scene_removeItem scene (sceneItemId sceneItem)).

Definition removeScene_refs (scene : Scene) : M unit :=
  let* allItems := getSceneItems in
  svc_forEach allItems (λ sceneItem,
    if decide (sourceId sceneItem ≠ scene) then svc_ret tt
    else Scene_removeItem (item_sceneId sceneItem) (sceneItemId sceneItem)).

Definition removeScene_activate (id : string) : M unit :=
  let* active := svc_gets activeSceneId in
  svc_when (bool_decide (active = id))
    (let* sceneIds := svc_gets (λ st, dict_keys (scenes st)) in
     match head sceneIds with
     | Some first =>
         if truthy first then makeSceneActive first;; svc_ret tt
         else svc_ret tt
     | None => svc_ret tt
     end).

(** [removeScene(id, force)] *)
Definition removeScene (id : string) (force : bool) : M (option IScene) :=
  let* count := svc_gets (λ st, length (dict_keys (scenes st))) in
  if negb force && bool_decide (count < 2) then
    svc_emit (alert "There needs to be at least one scene.");;
    svc_ret None
  else
    let* scene := svc_gets (λ st, getScene st id) in
    let* sceneModel := svc_gets (λ st, dict_get (scenes st) id) in
    let* scene := svc_deref scene in
    removeScene_items scene;;
    removeScene_refs scene;;
    svc_modify (REMOVE_SCENE id);;
    removeScene_activate id;;
    svc_emit (sceneRemoved sceneModel);;
    svc_ret sceneModel.

Definition setSceneOrder (order : list string) : M unit :=
  svc_modify (SET_SCENE_ORDER order).

(** The test [suggestName] hands to the naming helper: whether a node of
    the active scene has the name.  Without an active scene the getter is
    [null] and the test throws. *)
Definition suggestName_isTaken (sourceName : string → string) (st : IScenesState)
    (name : string) : completion bool :=
  match activeScene st with
  | Some scene =>
      Normal (bool_decide
        (Exists (λ node, node_name sourceName node = name) (Scene_getNodes st scene)))
  | None => Throw TypeError
  end.

(** [suggestName(name)]: the naming helper is outside the sources; it is
    given the name and the test, and what it answers is the answer. *)
Definition suggestName
    (namingHelpers_suggestName : string → (string → completion bool) → completion string)
    (sourceName : string → string) (name : string) : M string :=
  svc_try_gets (λ st, namingHelpers_suggestName name (suggestName_isTaken sourceName st)).

Definition showNameScene (rename : option string)
    (itemsToGroup : option (list string)) : M unit :=
  svc_emit (windowsService_showWindow
    {| componentName := "NameScene";
       queryParams := NameSceneQuery rename itemsToGroup;
       size_width := 400; size_height := 250 |}).

Definition showNameFolder (renameId : option string)
    (itemsToGroup : option (list string)) (parentId : option string) : M unit :=
  svc_emit (windowsService_showWindow
    {| componentName := "NameFolder";
       queryParams := NameFolderQuery renameId itemsToGroup parentId;
       size_width := 400; size_height := 250 |}).

Definition showDuplicateScene (sceneName : string) : M unit :=
  svc_emit (windowsService_showWindow
    {| componentName := "NameScene";
       queryParams := DuplicateSceneQuery sceneName;
       size_width := 400; size_height := 250 |}).

(** ** The store invariant *)

(** The dictionary has no duplicate key, the display order lists exactly its
    keys, and every scene is stored under its own, non-empty id. *)
Record store_wf (st : IScenesState) : Prop := StoreWf {
  wf_scenes : dict_wf (scenes st);
  wf_order : displayOrder st ≡ₚ dict_keys (scenes st);
  wf_ids : ∀ k sc, dict_get (scenes st) k = Some sc → scene_id sc = k ∧ k ≠ "";
}.

(** The active scene exists, or there is no scene and no active id. *)
Definition active_ok (st : IScenesState) : Prop :=
  activeSceneId st ∈ dict_keys (scenes st) ∨
  (dict_keys (scenes st) = [] ∧ activeSceneId st = "").

(** No item of the store shows the source [id]. *)
Definition unshown (id : string) (st : IScenesState) : Prop :=
  ∀ k, Forall (λ item, sourceId item ≠ id) (Scene_getItems st k).

(** [new] is a copy of [item] in scene [id]: the same source with the same
    settings. *)
Definition copy_of (id : string) (item new : ISceneItem) : Prop :=
  sourceId new = sourceId item ∧ item_sceneId new = id ∧
  item_settings new = item_settings item.

(** Every item knows the scene that holds it. *)
Definition items_owned (st : IScenesState) : Prop :=
  ∀ k item, item ∈ Scene_getItems st k → item_sceneId item = k.

(** Item ids are unique within a scene. *)
Definition item_ids_unique (st : IScenesState) : Prop :=
  ∀ k, NoDup (sceneItemId <$> Scene_getItems st k).

Definition scenes_inv (st : IScenesState) : Prop :=
  store_wf st ∧ active_ok st ∧ items_owned st.

(** [x] is an item of scene [other] that shows [scene], and [item] has its
    id: what the second loop of [removeScene] removes. *)
Definition refers (scene other : string) (x item : ISceneItem) : Prop :=
  sourceId x = scene ∧ other = item_sceneId x ∧ sceneItemId item = sceneItemId x.

#[local] Instance refers_dec scene other x item : Decision (refers scene other x item).
Proof. unfold refers. apply _. Defined.

(** The store the phases of a removal lead to. *)
Definition removeScene_store (id : string) (st : IScenesState) : IScenesState :=
  final (removeScene_activate id
    (REMOVE_SCENE id
      (final (removeScene_refs id (final (removeScene_items id st)))))).

(** The events of the phases of a removal, in order. *)
Definition removeScene_events (id : string) (st : IScenesState) : list ScenesEffect :=
  let r1 := removeScene_items id st in
  let r2 := removeScene_refs id (final r1) in
  let r4 := removeScene_activate id (REMOVE_SCENE id (final r2)) in
  trace r1 ++ trace r2 ++ trace r4.

(** ** The service as a transition system *)

(** The calls a client can make: the mutating methods of the service and
    the three operations of the scene interface. *)
Inductive Call : Type :=
| CreateScene (name : string) (options : ISceneCreateOptions)
    (uniqueId : string) (uuid : nat → string)
| RemoveScene (id : string) (force : bool)
| MakeSceneActive (id : string)
| SetSceneOrder (order : list string)
| AddSource (scene : Scene) (src uuid : string)
| RemoveItem (scene : Scene) (id : string)
| SetSettings (scene : Scene) (id : string) (settings : Settings).

Definition call (c : Call) : M unit :=
  match c with
  | CreateScene name options uniqueId uuid =>
      createScene name options uniqueId uuid;; svc_ret tt
  | RemoveScene id force => removeScene id force;; svc_ret tt
  | MakeSceneActive id => makeSceneActive id;; svc_ret tt
  | SetSceneOrder order => setSceneOrder order
  | AddSource scene src uuid => Scene_addSource scene src uuid;; svc_ret tt
  | RemoveItem scene id => Scene_removeItem scene id
  | SetSettings scene id settings => SceneItem_setSettings scene id settings
  end.

(** What the callers of the application respect: a scene is created under
    an id no scene has, the last scene is not removed by force, and a new
    display order is a reordering of the old one. *)
Definition allowed (st : IScenesState) (c : Call) : Prop :=
  match c with
  | CreateScene _ options uniqueId _ =>
      dict_get (scenes st) (createScene_id options uniqueId) = None
  | RemoveScene _ force => force = false
  | SetSceneOrder order => order ≡ₚ displayOrder st
  | _ => True
  end.

(** One call, whether it returns or throws. *)
Inductive step (st : IScenesState) : IScenesState → Prop :=
| step_call c : allowed st c → step st (final (call c st)).

Definition reachable (st : IScenesState) : Prop := rtc step initialState st.

(** ** Frames: what the [Scene] operations leave alone *)

Lemma same_frame_refl st : same_frame st st.
Proof. by split_and!. Qed.

Lemma same_frame_trans st1 st2 st3 :
  same_frame st1 st2 → same_frame st2 st3 → same_frame st1 st3.
Proof. intros (?&?&?) (?&?&?). split_and!; congruence. Qed.

Lemma dict_keys_header (d : Dictionary IScene) :
  (scene_header <$> d).*1 = dict_keys d.
Proof. unfold dict_keys. rewrite <-list_fmap_compose. by apply list_fmap_ext. Qed.

Lemma same_frame_keys st st' :
  same_frame st st' → dict_keys (scenes st') = dict_keys (scenes st).
Proof. intros (_&_&Hh). by rewrite <-!dict_keys_header, Hh. Qed.

Lemma getScene_Some st id scene :
  getScene st id = Some scene ↔ scene = id ∧ id ∈ dict_keys (scenes st).
Proof.
  unfold getScene. rewrite <-dict_get_is_Some.
  unfold is_Some. destruct (dict_get (scenes st) id); naive_solver.
Qed.

Lemma getScene_known st id :
  is_Some (dict_get (scenes st) id) → getScene st id = Some id.
Proof. unfold getScene. by intros [? ->]. Qed.

Lemma getScene_None st id :
  getScene st id = None ↔ id ∉ dict_keys (scenes st).
Proof.
  unfold getScene. rewrite <-dict_get_None.
  by destruct (dict_get (scenes st) id).
Qed.

Lemma same_frame_getScene st st' id :
  same_frame st st' → getScene st' id = getScene st id.
Proof.
  intros Hf%same_frame_keys. destruct (getScene st id) as [s|] eqn:Hs.
  - apply getScene_Some in Hs as [-> Hin]. apply getScene_Some. by rewrite Hf.
  - apply getScene_None in Hs. apply getScene_None. by rewrite Hf.
Qed.

Lemma header_lookup (d d' : Dictionary IScene) k sc' :
  scene_header <$> d' = scene_header <$> d →
  dict_get d' k = Some sc' →
  ∃ sc, dict_get d k = Some sc ∧ scene_id sc = scene_id sc'.
Proof.
  revert d. induction d' as [|[k1 s1] d' IH]; intros [|[k2 s2] d]; try done.
  rewrite !fmap_cons. intros [= -> Hid _ _ Hrest]. simpl.
  case_decide; [intros [= ->]; eauto | by apply IH].
Qed.

Lemma same_frame_store_wf st st' : same_frame st st' → store_wf st → store_wf st'.
Proof.
  intros Hf [Hwf Ho Hids]. pose proof (same_frame_keys _ _ Hf) as Hk.
  destruct Hf as (Ha & Hd & Hh). split.
  - unfold dict_wf. by rewrite Hk.
  - by rewrite Hd, Hk.
  - intros k sc' Hsc'. destruct (header_lookup _ _ _ _ Hh Hsc') as (sc & Hsc & Hid).
    rewrite <-Hid. by apply Hids.
Qed.

Lemma same_frame_active_ok st st' : same_frame st st' → active_ok st → active_ok st'.
Proof.
  intros Hf. pose proof (same_frame_keys _ _ Hf) as Hk.
  destruct Hf as (Ha & _ & _). unfold active_ok. by rewrite Hk, Ha.
Qed.

(** ** The [Scene] operations keep the invariant *)

Lemma removeItem_items_owned scene id st :
  items_owned st → items_owned (final (Scene_removeItem scene id st)).
Proof.
  intros Ho k item. rewrite removeItem_items, list_elem_of_filter.
  intros [_ Hin]. by apply Ho.
Qed.

Lemma setSettings_items_owned scene id settings st :
  items_owned st → items_owned (final (SceneItem_setSettings scene id settings st)).
Proof.
  intros Ho k item. rewrite setSettings_items, list_elem_of_fmap.
  intros (item' & -> & Hin). apply Ho in Hin. by case_decide.
Qed.

Lemma addSource_items_owned scene src uuid st :
  items_owned st → items_owned (final (Scene_addSource scene src uuid st)).
Proof.
  intros Ho. destruct (result (Scene_addSource scene src uuid st)) as [[item|]|e] eqn:Hr.
  - destruct (addSource_added _ _ _ _ _ Hr) as (_ & _ & Hown & Hsc & Hoth & _).
    intros k it. destruct (decide (k = scene)) as [->|Hne].
    + rewrite Hsc. intros [->|Hin]%elem_of_cons; [done | by apply Ho].
    + rewrite Hoth by done. apply Ho.
  - by rewrite (proj1 (addSource_refused _ _ _ _ Hr)).
  - by rewrite (proj1 (addSource_thrown _ _ _ _ _ Hr)).
Qed.

Lemma removeItem_inv scene id : preserves scenes_inv (Scene_removeItem scene id).
Proof.
  intros st (Hwf & Ha & Ho). pose proof (removeItem_frame scene id st) as Hf.
  split_and!; eauto using same_frame_store_wf, same_frame_active_ok,
    removeItem_items_owned.
Qed.

Lemma setSettings_inv scene id settings :
  preserves scenes_inv (SceneItem_setSettings scene id settings).
Proof.
  intros st (Hwf & Ha & Ho). pose proof (setSettings_frame scene id settings st) as Hf.
  split_and!; eauto using same_frame_store_wf, same_frame_active_ok,
    setSettings_items_owned.
Qed.

Lemma addSource_inv scene src uuid :
  preserves scenes_inv (Scene_addSource scene src uuid).
Proof.
  intros st (Hwf & Ha & Ho). pose proof (addSource_frame scene src uuid st) as Hf.
  split_and!; eauto using same_frame_store_wf, same_frame_active_ok,
    addSource_items_owned.
Qed.

(** ** The mutations and the invariant *)

Lemma getItems_ADD_SCENE id name st k :
  Scene_getItems (ADD_SCENE id name st) k =
  if decide (k = id) then [] else Scene_getItems st k.
Proof.
  unfold Scene_getItems, ADD_SCENE. simpl. case_decide as Hk.
  - subst. by rewrite dict_get_set_eq.
  - by rewrite dict_get_set_ne.
Qed.

Lemma getItems_REMOVE_SCENE id st k :
  Scene_getItems (REMOVE_SCENE id st) k =
  if decide (k = id) then [] else Scene_getItems st k.
Proof.
  unfold Scene_getItems, REMOVE_SCENE. simpl. case_decide as Hk.
  - subst. by rewrite dict_get_delete_eq.
  - by rewrite dict_get_delete_ne.
Qed.

Lemma store_wf_key_nonempty st k :
  store_wf st → k ∈ dict_keys (scenes st) → k ≠ "".
Proof.
  intros Hwf [sc Hsc]%dict_get_is_Some. by apply (wf_ids _ Hwf) in Hsc as [_ ?].
Qed.

Lemma ADD_SCENE_store_wf id name st :
  id ≠ "" → dict_get (scenes st) id = None →
  store_wf st → store_wf (ADD_SCENE id name st).
Proof.
  intros Hid Hfresh [Hwf Ho Hids]. split; simpl.
  - by apply dict_wf_set.
  - rewrite dict_keys_set_fresh by done. by rewrite Ho.
  - intros k sc. destruct (decide (id = k)) as [->|Hne].
    + rewrite dict_get_set_eq. by intros [= <-].
    + rewrite dict_get_set_ne by done. apply Hids.
Qed.

Lemma ADD_SCENE_active_ok id name st :
  store_wf st → active_ok st → active_ok (ADD_SCENE id name st).
Proof.
  intros Hwf [Ha|[Hnil Ha]]; left; simpl; apply elem_of_dict_keys_set.
  - right. by rewrite js_or_truthy by eauto using store_wf_key_nonempty.
  - left. by rewrite Ha.
Qed.

Lemma ADD_SCENE_items_owned id name st :
  items_owned st → items_owned (ADD_SCENE id name st).
Proof.
  intros Ho k item. rewrite getItems_ADD_SCENE.
  case_decide; [by intros ?%elem_of_nil | apply Ho].
Qed.

Lemma REMOVE_SCENE_store_wf id st : store_wf st → store_wf (REMOVE_SCENE id st).
Proof.
  intros [Hwf Ho Hids]. split; simpl.
  - by apply dict_wf_delete.
  - rewrite dict_keys_delete. unfold without. by rewrite Ho.
  - intros k sc. destruct (decide (id = k)) as [->|Hne].
    + by rewrite dict_get_delete_eq.
    + rewrite dict_get_delete_ne by done. apply Hids.
Qed.

Lemma REMOVE_SCENE_items_owned id st :
  items_owned st → items_owned (REMOVE_SCENE id st).
Proof.
  intros Ho k item. rewrite getItems_REMOVE_SCENE.
  case_decide; [by intros ?%elem_of_nil | apply Ho].
Qed.

Lemma MAKE_SCENE_ACTIVE_inv id st :
  id ∈ dict_keys (scenes st) → scenes_inv st → scenes_inv (MAKE_SCENE_ACTIVE id st).
Proof. intros Hid ([] & _ & Ho). split_and!; [by split | by left | done]. Qed.

(** ** [makeSceneActive] *)

(** An unknown id is refused: [false], and nothing happened. *)
Lemma makeSceneActive_unknown id st :
  dict_get (scenes st) id = None →
  makeSceneActive id st = Run (Normal false) st [].
Proof.
  intros Hid. unfold makeSceneActive, getScene. svc_simp. by rewrite Hid.
Qed.

(** A known id becomes the active one; the transition is requested before the
    store changes and [sceneSwitched] is pushed after, with the scene's model. *)
Lemma makeSceneActive_known id st model :
  dict_get (scenes st) id = Some model →
  makeSceneActive id st =
    Run (Normal true) (MAKE_SCENE_ACTIVE id st)
      [transitionsService_transitionTo id; sceneSwitched (Some model)].
Proof.
  intros Hid. unfold makeSceneActive, getScene. svc_simp. rewrite Hid.
  svc_simp. simpl. by rewrite Hid.
Qed.

Lemma makeSceneActive_inv id : preserves scenes_inv (makeSceneActive id).
Proof.
  intros st Hinv. destruct (dict_get (scenes st) id) eqn:Hid.
  - rewrite (makeSceneActive_known _ _ _ Hid). simpl.
    apply MAKE_SCENE_ACTIVE_inv; [apply dict_get_is_Some; eauto | done].
  - by rewrite (makeSceneActive_unknown _ _ Hid).
Qed.

(** ** [removeScene]: re-pointing the active scene *)

(** After the scene is deleted, a stale active id is replaced by the first
    remaining key, if there is one. *)
Lemma removeScene_activate_run id st :
  removeScene_activate id st =
    if decide (activeSceneId st = id) then
      match scenes st with
      | (first, model) :: _ =>
          if truthy first then
            Run (Normal tt) (MAKE_SCENE_ACTIVE first st)
              [transitionsService_transitionTo first; sceneSwitched (Some model)]
          else Run (Normal tt) st []
      | [] => Run (Normal tt) st []
      end
    else Run (Normal tt) st [].
Proof.
  unfold removeScene_activate. rewrite svc_bind_gets. case_decide as Ha.
  - rewrite bool_decide_eq_true_2, svc_when_true, svc_bind_gets by done.
    destruct (scenes st) as [|[first model] rest] eqn:Hs; simpl; [done|].
    destruct (truthy first); [|done].
    assert (dict_get (scenes st) first = Some model) as Hfirst.
    { rewrite Hs. simpl. by rewrite decide_True. }
    rewrite (svc_bind_run _ _ _ _ _ _ (makeSceneActive_known _ _ _ Hfirst)).
    by svc_simp.
  - by rewrite bool_decide_eq_false_2 by done.
Qed.

(** ** Reading every item *)

Lemma scenes_getter_wf st :
  store_wf st → scenes_getter st = Some <$> displayOrder st.
Proof.
  intros Hwf. unfold scenes_getter. apply list_fmap_ext.
  intros i id Hid%list_elem_of_lookup_2. apply getScene_Some. split; [done|].
  by rewrite <-(wf_order _ Hwf).
Qed.

Lemma getSceneItems_wf st :
  store_wf st →
  getSceneItems st = Run (Normal (displayOrder st ≫= Scene_getItems st)) st [].
Proof.
  intros Hwf. unfold getSceneItems. rewrite svc_bind_gets, scenes_getter_wf by done.
  rewrite (svc_bind_run _ _ _ _ _ _ (svc_mapM_deref_Some _ _)). by svc_simp.
Qed.

(** A display order that names an unknown scene makes every whole-graph
    read throw. *)
Lemma getSceneItems_unknown st id :
  id ∈ displayOrder st → dict_get (scenes st) id = None →
  getSceneItems st = Run (Throw TypeError) st [].
Proof.
  intros Hin Hid. unfold getSceneItems. rewrite svc_bind_gets.
  apply svc_bind_run_throw, svc_mapM_deref_None.
  apply list_elem_of_fmap. exists id. split; [|done].
  symmetry. apply getScene_None. by apply dict_get_None.
Qed.

(** ** [removeScene]: the two loops *)

Lemma removeItems_loop scene (items : list ISceneItem) st other :
  let r := svc_forEach items
             (λ item, Scene_removeItem scene (sceneItemId item)) st in
  result r = Normal tt ∧ same_frame st (final r) ∧
  Scene_getItems (final r) other =
    filter
      (λ item, Forall (λ x, ¬ (other = scene ∧ sceneItemId item = sceneItemId x)) items)
      (Scene_getItems st other).
Proof.
  intros r.
  destruct (svc_forEach_fold (λ s, Scene_getItems s other)
    (λ acc x, filter (λ item, ¬ (other = scene ∧ sceneItemId item = sceneItemId x)) acc)
    (same_frame st) items
    (λ item, Scene_removeItem scene (sceneItemId item)) st) as (Hr & HI & Hobs).
  - intros x s _ Hs. split_and!; [apply removeItem_result | | apply removeItem_items].
    eapply same_frame_trans; [done | apply removeItem_frame].
  - apply same_frame_refl.
  - split_and!; [done..|]. subst r. rewrite Hobs.
    apply (foldl_filter (λ x item, ¬ (other = scene ∧ sceneItemId item = sceneItemId x))).
Qed.

(** The first loop empties the scene and touches no other scene. *)
Lemma removeScene_items_spec scene st :
  let r := removeScene_items scene st in
  result r = Normal tt ∧ same_frame st (final r) ∧
  ∀ other, Scene_getItems (final r) other =
           if decide (other = scene) then [] else Scene_getItems st other.
Proof.
  unfold removeScene_items. rewrite svc_bind_gets.
  split_and!; [apply removeItems_loop; exact scene..|]. intros other.
  rewrite (proj2 (proj2 (removeItems_loop scene _ st other))). case_decide as Ho.
  - subst. apply filter_Forall_nil, Forall_forall. intros item Hin HF.
    rewrite Forall_forall in HF. by destruct (HF item Hin).
  - apply filter_Forall_id, Forall_forall. intros item _.
    apply Forall_forall. intros x _ [? _]. done.
Qed.

Lemma removeRefs_loop scene (allItems : list ISceneItem) st other :
  let r := svc_forEach allItems
             (λ sceneItem,
                if decide (sourceId sceneItem ≠ scene) then svc_ret tt
                else Scene_removeItem (item_sceneId sceneItem) (sceneItemId sceneItem)) st in
  result r = Normal tt ∧ same_frame st (final r) ∧
  Scene_getItems (final r) other =
    filter (λ item, Forall (λ x, ¬ refers scene other x item) allItems)
      (Scene_getItems st other).
Proof.
  intros r.
  destruct (svc_forEach_fold (λ s, Scene_getItems s other)
    (λ acc x, filter (λ item, ¬ refers scene other x item) acc)
    (same_frame st) allItems
    (λ sceneItem,
       if decide (sourceId sceneItem ≠ scene) then svc_ret tt
       else Scene_removeItem (item_sceneId sceneItem) (sceneItemId sceneItem))
    st) as (Hr & HI & Hobs).
  - intros x s _ Hs. case_decide as Hsrc.
    + split_and!; [done..|]. symmetry. apply filter_Forall_id, Forall_forall.
      intros item _ [? _]. done.
    + split_and!; [apply removeItem_result | |].
      * eapply same_frame_trans; [done | apply removeItem_frame].
      * rewrite removeItem_items. apply list_filter_iff. intros item.
        unfold refers. naive_solver.
  - apply same_frame_refl.
  - split_and!; [done..|]. subst r. rewrite Hobs.
    apply (foldl_filter (λ x item, ¬ refers scene other x item)).
Qed.

(** The second loop, in a well-formed store: every item that shows [scene]
    is gone, from every scene of the display order. *)
Lemma removeScene_refs_spec scene st :
  store_wf st →
  let r := removeScene_refs scene st in
  result r = Normal tt ∧ same_frame st (final r) ∧
  ∀ other, Scene_getItems (final r) other =
    filter
      (λ item, Forall (λ x, ¬ refers scene other x item)
                 (displayOrder st ≫= Scene_getItems st))
      (Scene_getItems st other).
Proof.
  intros Hwf. unfold removeScene_refs.
  rewrite (svc_bind_run _ _ _ _ _ _ (getSceneItems_wf _ Hwf)), prepend_nil.
  split_and!; [apply removeRefs_loop; exact scene..|].
  intros other. apply removeRefs_loop.
Qed.

Lemma removeScene_refs_none scene st other :
  store_wf st → items_owned st → other ∈ dict_keys (scenes st) →
  Forall (λ item, sourceId item ≠ scene)
    (Scene_getItems (final (removeScene_refs scene st)) other).
Proof.
  intros Hwf Hown Hother.
  rewrite (proj2 (proj2 (removeScene_refs_spec scene st Hwf))).
  apply Forall_forall. intros item [HF Hin]%list_elem_of_filter Hsrc.
  rewrite Forall_forall in HF. apply (HF item).
  - apply list_elem_of_bind. exists other. split; [done|].
    by rewrite (wf_order _ Hwf).
  - split_and!; [done | | done]. symmetry. by apply Hown.
Qed.

Lemma removeScene_refs_sublist scene st other :
  store_wf st →
  Scene_getItems (final (removeScene_refs scene st)) other
    `sublist_of` Scene_getItems st other.
Proof.
  intros Hwf. rewrite (proj2 (proj2 (removeScene_refs_spec scene st Hwf))).
  apply sublist_filter.
Qed.

(** ** [removeScene] *)

Lemma removeScene_refused id st :
  length (dict_keys (scenes st)) < 2 →
  removeScene id false st =
    Run (Normal None) st [alert "There needs to be at least one scene."].
Proof.
  intros Hlt. unfold removeScene. rewrite svc_bind_gets.
  rewrite bool_decide_eq_true_2 by done. simpl. by svc_simp.
Qed.

Lemma removeScene_guard_passed (force : bool) st :
  force = true ∨ 2 ≤ length (dict_keys (scenes st)) →
  negb force && bool_decide (length (dict_keys (scenes st)) < 2) = false.
Proof.
  intros [->|Hlen]; [done|]. rewrite bool_decide_eq_false_2 by lia.
  apply andb_false_r.
Qed.

(** An unknown id gets past the guard and then fails on the [null] scene. *)
Lemma removeScene_unknown id force st :
  force = true ∨ 2 ≤ length (dict_keys (scenes st)) →
  dict_get (scenes st) id = None →
  removeScene id force st = Run (Throw TypeError) st [].
Proof.
  intros Hguard Hid. unfold removeScene. rewrite svc_bind_gets.
  rewrite removeScene_guard_passed by done. unfold getScene.
  rewrite !svc_bind_gets, Hid. by svc_simp.
Qed.

(** The run of a removal that passes the guard, phase by phase. *)
Lemma removeScene_run id force st model :
  force = true ∨ 2 ≤ length (dict_keys (scenes st)) →
  dict_get (scenes st) id = Some model →
  store_wf st →
  removeScene id force st =
    Run (Normal (Some model)) (removeScene_store id st)
      (removeScene_events id st ++ [sceneRemoved (Some model)]).
Proof.
  intros Hguard Hid Hwf. unfold removeScene. rewrite svc_bind_gets.
  rewrite removeScene_guard_passed by done. unfold getScene.
  rewrite !svc_bind_gets, Hid, svc_bind_deref_Some.
  destruct (removeScene_items_spec id st) as (Hr1 & Hf1 & _).
  rewrite (svc_bind_normal _ _ _ _ Hr1).
  destruct (removeScene_refs_spec id (final (removeScene_items id st)))
    as (Hr2 & Hf2 & _); [by eapply same_frame_store_wf|].
  rewrite (svc_bind_normal _ _ _ _ Hr2), svc_bind_modify.
  assert (∀ s, result (removeScene_activate id s) = Normal tt) as Hr4.
  { intros s. rewrite removeScene_activate_run. by repeat case_match. }
  rewrite (svc_bind_normal _ _ _ _ (Hr4 _)).
  rewrite svc_bind_emit, svc_ret_run, !prepend_Run, app_nil_r.
  unfold removeScene_store, removeScene_events. by rewrite <- !app_assoc.
Qed.

Lemma getItems_scenes_eq st st' k :
  scenes st' = scenes st → Scene_getItems st' k = Scene_getItems st k.
Proof. unfold Scene_getItems. by intros ->. Qed.

Lemma getItems_unknown st k :
  k ∉ dict_keys (scenes st) → Scene_getItems st k = [].
Proof. intros Hk%dict_get_None. unfold Scene_getItems. by rewrite Hk. Qed.

Lemma same_frame_items_owned_refs scene st :
  store_wf st → items_owned st →
  items_owned (final (removeScene_refs scene st)).
Proof.
  intros Hwf Ho k item Hin. apply Ho.
  eapply elem_of_sublist; [done | by apply removeScene_refs_sublist].
Qed.

(** What [removeScene_activate] leaves: the same scenes and order, and the
    first key as active scene when the active one was [id]. *)
Lemma removeScene_activate_state id st :
  store_wf st →
  let r := removeScene_activate id st in
  scenes (final r) = scenes st ∧ displayOrder (final r) = displayOrder st ∧
  activeSceneId (final r) =
    if decide (activeSceneId st = id)
    then default (activeSceneId st) (head (dict_keys (scenes st)))
    else activeSceneId st.
Proof.
  intros Hwf r. subst r. rewrite removeScene_activate_run.
  case_decide as Ha; [|done].
  destruct (scenes st) as [|[first model] rest] eqn:Hs; [done|].
  assert (truthy first = true) as ->; [|done].
  apply truthy_true, (store_wf_key_nonempty st); [done|].
  rewrite Hs. apply list_elem_of_here.
Qed.

(** The intermediate stores of a removal that passes the guard. *)
Lemma removeScene_phases id st :
  store_wf st → items_owned st →
  let st1 := final (removeScene_items id st) in
  let st2 := final (removeScene_refs id st1) in
  (same_frame st st2 ∧ store_wf st2 ∧ items_owned st2) ∧
  (∀ other, other ∈ dict_keys (scenes st) →
     Forall (λ item, sourceId item ≠ id) (Scene_getItems st2 other)) ∧
  (∀ other, Scene_getItems st2 other `sublist_of` Scene_getItems st other).
Proof.
  intros Hwf Ho st1 st2.
  destruct (removeScene_items_spec id st) as (_ & Hf1 & Hit1). fold st1 in Hf1, Hit1.
  assert (store_wf st1) as Hwf1 by by eapply same_frame_store_wf.
  assert (items_owned st1) as Ho1.
  { intros k item. rewrite Hit1. case_decide; [by intros ?%elem_of_nil | apply Ho]. }
  destruct (removeScene_refs_spec id st1 Hwf1) as (_ & Hf2 & _). fold st2 in Hf2.
  split_and!.
  - by eapply same_frame_trans.
  - by eapply same_frame_store_wf.
  - by apply same_frame_items_owned_refs.
  - intros other Hother. apply removeScene_refs_none; [done..|].
    by rewrite (same_frame_keys _ _ Hf1).
  - intros other. etrans; [by apply removeScene_refs_sublist|].
    rewrite Hit1. case_decide; [apply sublist_nil_l | done].
Qed.

Lemma removeScene_store_spec id st :
  store_wf st → items_owned st →
  let st' := removeScene_store id st in
  store_wf st' ∧ items_owned st' ∧
  dict_keys (scenes st') = without (dict_keys (scenes st)) id ∧
  displayOrder st' = without (displayOrder st) id ∧
  activeSceneId st' =
    (if decide (activeSceneId st = id)
     then default id (head (without (dict_keys (scenes st)) id))
     else activeSceneId st) ∧
  (∀ other, Forall (λ item, sourceId item ≠ id) (Scene_getItems st' other)) ∧
  (∀ other, Scene_getItems st' other `sublist_of` Scene_getItems st other).
Proof.
  intros Hwf Ho. unfold removeScene_store.
  destruct (removeScene_phases id st Hwf Ho) as ((Hf2 & Hwf2 & Ho2) & Hnone & Hsub).
  generalize dependent (final (removeScene_refs id (final (removeScene_items id st)))).
  intros st2 Hf2 Hwf2 Ho2 Hnone Hsub.
  pose proof (REMOVE_SCENE_store_wf id st2 Hwf2) as Hwf3.
  destruct (removeScene_activate_state id (REMOVE_SCENE id st2) Hwf3)
    as (Hsc & Hdo & Hact).
  generalize dependent (final (removeScene_activate id (REMOVE_SCENE id st2))).
  intros st4 Hsc Hdo Hact.
  pose proof (same_frame_keys _ _ Hf2) as Hk2. destruct Hf2 as (Ha2 & Hd2 & _).
  assert (∀ other, Scene_getItems st4 other =
            if decide (other = id) then [] else Scene_getItems st2 other) as Hit4.
  { intros other. rewrite (getItems_scenes_eq _ _ _ Hsc).
    apply getItems_REMOVE_SCENE. }
  simpl in *. split_and!.
  - destruct Hwf3. split; by rewrite ?Hsc, ?Hdo.
  - intros k item. rewrite Hit4.
    destruct (decide (k = id)); [by intros ?%elem_of_nil | apply Ho2].
  - by rewrite Hsc, dict_keys_delete, Hk2.
  - by rewrite Hdo, Hd2.
  - rewrite Hact, Ha2, dict_keys_delete, Hk2.
    destruct (decide (activeSceneId st = id)) as [->|]; done.
  - intros other. rewrite Hit4. destruct (decide (other = id)); [done|].
    destruct (decide (other ∈ dict_keys (scenes st))) as [Hin|Hnin]; [by apply Hnone|].
    rewrite getItems_unknown; [done | by rewrite Hk2].
  - intros other. rewrite Hit4.
    destruct (decide (other = id)); [apply sublist_nil_l | apply Hsub].
Qed.

Lemma removeScene_final_store id force st model :
  store_wf st →
  dict_get (scenes st) id = Some model →
  force = true ∨ 2 ≤ length (dict_keys (scenes st)) →
  final (removeScene id force st) = removeScene_store id st.
Proof. intros Hwf Hid Hguard. by rewrite (removeScene_run _ _ _ _ Hguard Hid Hwf). Qed.

(** A removal that leaves a scene behind keeps the whole invariant. *)
Lemma removeScene_known_inv id force st model :
  scenes_inv st →
  dict_get (scenes st) id = Some model →
  2 ≤ length (dict_keys (scenes st)) →
  scenes_inv (final (removeScene id force st)).
Proof.
  intros (Hwf & Ha & Ho) Hid Hlen.
  rewrite (removeScene_final_store _ _ _ _ Hwf Hid (or_intror Hlen)).
  destruct (removeScene_store_spec id st Hwf Ho) as (Hwf' & Ho' & Hk' & _ & Ha' & _).
  split_and!; [done | | done].
  left. rewrite Ha', Hk'.
  assert (id ∈ dict_keys (scenes st)) as Hin by (apply dict_get_is_Some; eauto).
  pose proof (length_without_NoDup _ _ (wf_scenes _ Hwf) Hin) as Hl.
  destruct (decide (activeSceneId st = id)) as [Hact|Hact].
  - destruct (without (dict_keys (scenes st)) id) as [|first rest] eqn:Hw;
      [simpl in Hl; lia | apply list_elem_of_here].
  - destruct Ha as [Ha|[Hnil _]]; [by apply elem_of_without|].
    rewrite Hnil in Hlen. simpl in Hlen. lia.
Qed.

(** ** [getSceneByName] *)

Lemma getSceneByName_scenes_eq st st' name :
  scenes st' = scenes st → getSceneByName st' name = getSceneByName st name.
Proof. unfold getSceneByName, getScene. by intros ->. Qed.

(** A scene just added under a fresh id is the one its name finds: it is the
    last key. *)
Lemma getSceneByName_ADD_SCENE id name st :
  dict_get (scenes st) id = None →
  getSceneByName (ADD_SCENE id name st) name = Some id.
Proof.
  intros Hfresh. unfold getSceneByName, getScene. simpl.
  rewrite dict_keys_set_fresh, foldl_app by done. simpl.
  unfold getSceneByName_step at 1.
  rewrite dict_get_set_eq. simpl. rewrite decide_True by done. simpl.
  by rewrite dict_get_set_eq.
Qed.

(** What the loop of [getSceneByName] found is a stored scene of that name. *)
Lemma getSceneByName_fold_Some (d : Dictionary IScene) name l acc scene :
  foldl (getSceneByName_step d name) acc l = Some scene →
  acc = Some scene ∨
  ∃ k, k ∈ l ∧ dict_get d k = Some scene ∧ scene_name scene = name.
Proof.
  revert acc. induction l as [|k l IH]; intros acc; simpl; [by left|].
  intros [Hacc|(k' & Hk' & Hget)]%IH.
  - unfold getSceneByName_step in Hacc.
    destruct (dict_get d k) as [sc|] eqn:Hk; [|by left].
    case_decide; [|by left]. right. exists k. simplify_eq.
    split_and!; [apply list_elem_of_here | done..].
  - right. exists k'. split; [by apply list_elem_of_further | done].
Qed.

Lemma getSceneByName_Some st name scene :
  store_wf st → getSceneByName st name = Some scene →
  ∃ model, dict_get (scenes st) scene = Some model ∧ scene_name model = name.
Proof.
  intros Hwf. unfold getSceneByName.
  destruct (foldl _ _ _) as [found|] eqn:Hfold; [|done].
  apply getSceneByName_fold_Some in Hfold as [?|(k & _ & Hk & Hname)]; [done|].
  apply (wf_ids _ Hwf) in Hk as Hid. destruct Hid as [Hid _].
  rewrite Hid. intros [-> _]%getScene_Some. eauto.
Qed.

Lemma header_get (d : Dictionary IScene) k :
  dict_get (scene_header <$> d) k = scene_hdr <$> dict_get d k.
Proof.
  induction d as [|[k' sc] d IH]; [done|]. simpl. by case_decide.
Qed.

Lemma same_frame_get st st' k :
  same_frame st st' →
  scene_hdr <$> dict_get (scenes st') k = scene_hdr <$> dict_get (scenes st) k.
Proof. intros (_ & _ & Hh). by rewrite <- !header_get, Hh. Qed.

(** The loop reads a dictionary only at the keys it runs over. *)
Lemma getSceneByName_fold_ext (d d' : Dictionary IScene) name l acc :
  (∀ k, k ∈ l → dict_get d' k = dict_get d k) →
  foldl (getSceneByName_step d' name) acc l =
  foldl (getSceneByName_step d name) acc l.
Proof.
  revert acc. induction l as [|k l IH]; intros acc Hl; [done|]. simpl.
  unfold getSceneByName_step at 2 4. rewrite Hl by left.
  apply IH. intros k' Hk'. apply Hl. by right.
Qed.

(** ... and only the ids and names of what it finds there. *)
Lemma getSceneByName_fold_frame (d d' : Dictionary IScene) name l acc acc' :
  (∀ k, scene_hdr <$> dict_get d' k = scene_hdr <$> dict_get d k) →
  scene_hdr <$> acc' = scene_hdr <$> acc →
  scene_hdr <$> foldl (getSceneByName_step d' name) acc' l =
  scene_hdr <$> foldl (getSceneByName_step d name) acc l.
Proof.
  intros Hd. revert acc acc'. induction l as [|k l IH]; intros acc acc' Hacc; [done|].
  simpl. apply IH. unfold getSceneByName_step. specialize (Hd k).
  destruct (dict_get d' k) as [sc'|], (dict_get d k) as [sc|]; try done.
  injection Hd as Hid Hname Hrid. rewrite Hname.
  case_decide; [|done]. unfold scene_hdr. simpl. congruence.
Qed.

Lemma getSceneByName_frame st st' name :
  same_frame st st' → getSceneByName st' name = getSceneByName st name.
Proof.
  intros Hf. unfold getSceneByName. rewrite (same_frame_keys _ _ Hf).
  pose proof (getSceneByName_fold_frame (scenes st) (scenes st') name
    (dict_keys (scenes st)) None None (λ k, same_frame_get _ _ k Hf) eq_refl) as Hfold.
  destruct (foldl _ _ _) as [sc'|], (foldl _ _ _) as [sc|]; try done.
  injection Hfold as Hid _ _. rewrite Hid. by apply same_frame_getScene.
Qed.

(** A scene added under a fresh id and another name is invisible to a search
    by name. *)
Lemma getSceneByName_ADD_SCENE_ne id name st from :
  store_wf st → dict_get (scenes st) id = None → from ≠ name →
  getSceneByName (ADD_SCENE id name st) from = getSceneByName st from.
Proof.
  intros Hwf Hfresh Hne. unfold getSceneByName. simpl.
  rewrite dict_keys_set_fresh, foldl_app by done. simpl.
  unfold getSceneByName_step at 1. rewrite dict_get_set_eq. simpl.
  rewrite decide_False by done.
  rewrite (getSceneByName_fold_ext (scenes st)); last first.
  { intros k Hk. apply dict_get_set_ne. intros ->.
    by apply dict_get_None in Hfresh. }
  destruct (foldl _ _ _) as [sc|] eqn:Hfold; [|done].
  apply getSceneByName_fold_Some in Hfold as [?|(k & Hk & Hget & _)]; [done|].
  destruct (wf_ids _ Hwf _ _ Hget) as [-> _].
  unfold getScene. simpl. rewrite dict_get_set_ne, Hget; [done|].
  intros ->. congruence.
Qed.

(** ** [createScene] *)

Lemma createScene_id_nonempty options uniqueId :
  createScene_id options uniqueId ≠ "".
Proof.
  unfold createScene_id, js_or_undef, js_or.
  destruct (sceneId options) as [s|]; [|done].
  destruct (truthy s) eqn:Hs; [by apply truthy_true | done].
Qed.

Lemma dict_get_ADD_SCENE id name st :
  dict_get (scenes (ADD_SCENE id name st)) id = Some (new_scene id name).
Proof. apply dict_get_set_eq. Qed.

Lemma dict_get_MAKE_SCENE_ACTIVE a st k :
  dict_get (scenes (MAKE_SCENE_ACTIVE a st)) k = dict_get (scenes st) k.
Proof. done. Qed.

(** What [createScene] does once the scene is stored and filled: announce
    it, activate it when asked to, and look it up by name. *)
Lemma createScene_finish id name (active : bool) st model :
  dict_get (scenes st) id = Some model →
  (let* model := svc_gets (λ st, dict_get (scenes st) id) in
   svc_emit (sceneAdded model);;
   svc_when active (makeSceneActive id;; svc_ret tt);;
   svc_gets (λ st, getSceneByName st name)) st =
  let st' := if active then MAKE_SCENE_ACTIVE id st else st in
  Run (Normal (getSceneByName st' name)) st'
    (sceneAdded (Some model) ::
     if active
     then [transitionsService_transitionTo id; sceneSwitched (Some model)]
     else []).
Proof.
  intros Hid. rewrite svc_bind_gets, Hid, svc_bind_emit.
  destruct active; cbv beta iota zeta.
  - rewrite svc_when_true, svc_bind_assoc.
    rewrite (svc_bind_run _ _ _ _ _ _ (makeSceneActive_known _ _ _ Hid)).
    by svc_simp.
  - by svc_simp.
Qed.

Lemma createScene_finish_scenes id (active : bool) st :
  scenes (if active then MAKE_SCENE_ACTIVE id st else st) = scenes st.
Proof. by destruct active. Qed.

(** [createScene] without duplication, on every store. *)
Lemma createScene_plain_run name options uniqueId uuid st :
  truthy (js_or_undef (duplicateSourcesFromScene options) "") = false →
  createScene name options uniqueId uuid st =
    let id := createScene_id options uniqueId in
    let st1 := ADD_SCENE id name st in
    let st2 := if makeActive options then MAKE_SCENE_ACTIVE id st1 else st1 in
    Run (Normal (getSceneByName st2 name)) st2
      ([SceneFactory_create id; sourcesService_addSource id name;
        sceneAdded (Some (new_scene id name))] ++
       if makeActive options
       then [transitionsService_transitionTo id;
             sceneSwitched (Some (new_scene id name))]
       else []).
Proof.
  intros Hdup. unfold createScene. rewrite Hdup. cbv zeta.
  rewrite svc_bind_modify, !svc_bind_emit, svc_when_false, svc_bind_ret_l.
  rewrite (createScene_finish _ _ _ _ _ (dict_get_ADD_SCENE _ _ _)).
  by rewrite !prepend_Run.
Qed.

(** *** The duplication loop *)

Lemma unshown_not_nested id st src : unshown id st → ¬ tc (nests st) src id.
Proof.
  intros Hu Htc. induction Htc as [x z Hxz|x y z _ _ IH]; [|by apply IH].
  unfold nests in Hxz. apply list_elem_of_fmap in Hxz as (item & -> & Hin).
  by eapply (proj1 (Forall_forall _ _) (Hu x)).
Qed.

Lemma setSettings_items_other scene id settings st other :
  other ≠ scene →
  Scene_getItems (final (SceneItem_setSettings scene id settings st)) other =
  Scene_getItems st other.
Proof.
  intros Hne. rewrite setSettings_items.
  rewrite <- (list_fmap_id (Scene_getItems st other)) at 2.
  apply list_fmap_ext. intros _ item _. case_decide; naive_solver.
Qed.

Lemma setSettings_items_fresh (scene : string) id settings (l : list ISceneItem) :
  id ∉ sceneItemId <$> l →
  (λ item, if decide (scene = scene ∧ sceneItemId item = id)
           then with_settings settings item else item) <$> l = l.
Proof.
  intros Hfresh. rewrite <- (list_fmap_id l) at 2.
  apply list_fmap_ext. intros i item Hi. case_decide as Hd; [|done].
  destruct Hfresh. destruct Hd as [_ <-].
  apply list_elem_of_fmap. eauto using list_elem_of_lookup_2.
Qed.

(** One round of the loop adds one item on top of the new scene: a copy of
    the old item under the id handed out for it. *)
Lemma createScene_addItem_spec id itemId item st :
  is_Some (dict_get (scenes st) id) → sourceId item ≠ id → unshown id st →
  itemId ∉ sceneItemId <$> Scene_getItems st id →
  let r := createScene_addItem (Some id) itemId item st in
  result r = Normal tt ∧ same_frame st (final r) ∧
  (∀ other, other ≠ id →
     Scene_getItems (final r) other = Scene_getItems st other) ∧
  ∃ new, Scene_getItems (final r) id = new :: Scene_getItems st id ∧
         sceneItemId new = itemId ∧ copy_of id item new.
Proof.
  intros Hid Hsrc Hu Hfresh.
  destruct (addSource_accepts id (sourceId item) itemId st Hid Hsrc
              (unshown_not_nested _ _ _ Hu)) as [new Hnew].
  destruct (addSource_added _ _ _ _ _ Hnew) as (Hi & Hs & Hsc & Hit & Hoth & _).
  unfold createScene_addItem. cbv zeta.
  rewrite svc_bind_deref_Some, (svc_bind_normal _ _ _ _ Hnew), svc_bind_deref_Some.
  cbn [prepend result final]. split_and!.
  - apply setSettings_result.
  - eapply same_frame_trans; [apply addSource_frame | apply setSettings_frame].
  - intros other Hne. by rewrite setSettings_items_other, Hoth.
  - exists (with_settings (item_settings item) new).
    rewrite setSettings_items, Hit, fmap_cons, Hi, decide_True by done.
    by rewrite setSettings_items_fresh.
Qed.

Lemma same_frame_is_Some st st' id :
  same_frame st st' →
  is_Some (dict_get (scenes st) id) → is_Some (dict_get (scenes st') id).
Proof. intros Hf. rewrite !dict_get_is_Some. by rewrite (same_frame_keys _ _ Hf). Qed.

Lemma unshown_cons id st st' new :
  unshown id st → sourceId new ≠ id →
  Scene_getItems st' id = new :: Scene_getItems st id →
  (∀ other, other ≠ id → Scene_getItems st' other = Scene_getItems st other) →
  unshown id st'.
Proof.
  intros Hu Hnew Hid Hoth k. destruct (decide (k = id)) as [->|Hne].
  - rewrite Hid. by constructor.
  - by rewrite Hoth.
Qed.

(** The loop piles the copies on top of the new scene, so the last item
    handled ends up first. *)
Lemma createScene_loop id (l : list (string * ISceneItem)) st :
  is_Some (dict_get (scenes st) id) → unshown id st →
  Forall (λ p, sourceId p.2 ≠ id) l →
  NoDup l.*1 →
  (∀ i, i ∈ l.*1 → i ∉ sceneItemId <$> Scene_getItems st id) →
  let r := svc_forEach l (λ p, createScene_addItem (Some id) p.1 p.2) st in
  result r = Normal tt ∧ same_frame st (final r) ∧
  (∀ other, other ≠ id →
     Scene_getItems (final r) other = Scene_getItems st other) ∧
  ∃ new, Scene_getItems (final r) id = new ++ Scene_getItems st id ∧
         sceneItemId <$> new = reverse l.*1 ∧
         Forall2 (copy_of id) (reverse l.*2) new.
Proof.
  revert st. induction l as [|p l IH]; intros st Hid Hu Hsrc Hnd Hfresh.
  { split_and!; [done | apply same_frame_refl | done |]. by exists []. }
  apply Forall_cons in Hsrc as [Hp Hsrc]. apply NoDup_cons in Hnd as [Hpl Hnd].
  destruct (createScene_addItem_spec id p.1 p.2 st Hid Hp Hu)
    as (Hr & Hf & Hoth & new1 & Hit & Hi & Hc); [apply Hfresh; left|].
  cbn [svc_forEach]. rewrite (svc_bind_normal _ _ _ _ Hr).
  cbn [prepend result final].
  destruct (IH (final (createScene_addItem (Some id) p.1 p.2 st)))
    as (Hr' & Hf' & Hoth' & new & Hit' & Hi' & Hc'); [..|clear IH].
  - by eapply same_frame_is_Some.
  - eapply unshown_cons; [done | | done..]. by rewrite (proj1 Hc).
  - done.
  - done.
  - intros i Hin. rewrite Hit, fmap_cons, Hi, not_elem_of_cons.
    split; [by intros -> | apply Hfresh; by right].
  - split_and!; [done | by eapply same_frame_trans | |].
    + intros other Hne. by rewrite Hoth', Hoth.
    + exists (new ++ [new1]). rewrite Hit', Hit, <- app_assoc.
      rewrite !fmap_cons, !reverse_cons, fmap_app, Hi'. cbn [fmap list_fmap].
      rewrite Hi. split_and!; [done..|]. by apply Forall2_app; [|constructor].
Qed.

(** The duplication branch on a store where the new scene is still empty
    and shown nowhere: its items become copies of the old scene's, in the
    same order, under the ids handed out last-first. *)
Lemma createScene_duplicate_spec id from uuid st old :
  getSceneByName st from = Some old →
  is_Some (dict_get (scenes st) id) → Scene_getItems st id = [] →
  unshown id st →
  NoDup (uuid <$> seq 0 (length (Scene_getItems st old))) →
  let r := createScene_duplicate id from uuid st in
  result r = Normal tt ∧ same_frame st (final r) ∧
  (∀ other, other ≠ id →
     Scene_getItems (final r) other = Scene_getItems st other) ∧
  sceneItemId <$> Scene_getItems (final r) id =
    reverse (uuid <$> seq 0 (length (Scene_getItems st old))) ∧
  Forall2 (copy_of id) (Scene_getItems st old) (Scene_getItems (final r) id).
Proof.
  intros Hold Hid Hempty Hu Hnd. unfold createScene_duplicate. cbv zeta.
  rewrite svc_bind_gets, Hold, svc_bind_gets, svc_bind_deref_Some, svc_bind_gets.
  rewrite (getScene_known _ _ Hid).
  destruct (createScene_loop id
    (imap (λ k item, (uuid k, item)) (reverse (Scene_getItems st old))) st)
    as (Hr & Hf & Hoth & new & Hit & Hi & Hc).
  - done.
  - done.
  - apply (proj1 (Forall_fmap snd (λ item : ISceneItem, sourceId item ≠ id) _)).
    apply Forall_forall. rewrite snd_imap_pair.
    intros item. rewrite elem_of_reverse.
    apply (proj1 (Forall_forall _ _) (Hu old)).
  - by rewrite fst_imap_pair, length_reverse.
  - rewrite Hempty. intros i _. apply not_elem_of_nil.
  - rewrite Hempty, app_nil_r in Hit.
    rewrite snd_imap_pair, reverse_involutive in Hc.
    rewrite fst_imap_pair, length_reverse in Hi.
    split_and!; [done | done | done | by rewrite Hit | by rewrite Hit].
Qed.

(** *** [createScene] and the invariant *)

Lemma createScene_addItem_inv newScene itemId item :
  preserves scenes_inv (createScene_addItem newScene itemId item).
Proof.
  unfold createScene_addItem.
  preserves_go; auto using addSource_inv, setSettings_inv.
Qed.

Lemma createScene_duplicate_inv id from uuid :
  preserves scenes_inv (createScene_duplicate id from uuid).
Proof.
  unfold createScene_duplicate.
  preserves_go; auto using createScene_addItem_inv.
Qed.

Lemma ADD_SCENE_inv id name st :
  id ≠ "" → dict_get (scenes st) id = None →
  scenes_inv st → scenes_inv (ADD_SCENE id name st).
Proof.
  intros Hne Hfresh (Hwf & Ha & Ho).
  split_and!; auto using ADD_SCENE_store_wf, ADD_SCENE_active_ok,
    ADD_SCENE_items_owned.
Qed.

(** Whatever branch it takes, and also when the duplication throws half way,
    [createScene] under a fresh id leaves a store that satisfies the
    invariant. *)
Lemma createScene_inv name options uniqueId uuid st :
  dict_get (scenes st) (createScene_id options uniqueId) = None →
  scenes_inv st →
  scenes_inv (final (createScene name options uniqueId uuid st)).
Proof.
  intros Hfresh Hinv. unfold createScene. cbv zeta.
  rewrite svc_bind_modify.
  match goal with |- scenes_inv (final (?m ?s)) =>
    assert (preserves scenes_inv m) as Hm; [|apply Hm] end.
  - preserves_go; auto using createScene_duplicate_inv, makeSceneActive_inv.
  - by apply ADD_SCENE_inv; [apply createScene_id_nonempty|..].
Qed.

(** *** [createScene] with duplication *)

(** [createScene] when the duplication branch is taken and returns. *)
Lemma createScene_run name options uniqueId uuid st model :
  let id := createScene_id options uniqueId in
  let from := js_or_undef (duplicateSourcesFromScene options) "" in
  let r1 := createScene_duplicate id from uuid (ADD_SCENE id name st) in
  truthy from = true →
  result r1 = Normal tt →
  dict_get (scenes (final r1)) id = Some model →
  createScene name options uniqueId uuid st =
    let st3 := if makeActive options then MAKE_SCENE_ACTIVE id (final r1)
               else final r1 in
    Run (Normal (getSceneByName st3 name)) st3
      ([SceneFactory_create id; sourcesService_addSource id name] ++ trace r1 ++
       sceneAdded (Some model) ::
       if makeActive options
       then [transitionsService_transitionTo id; sceneSwitched (Some model)]
       else []).
Proof.
  intros id from r1 Hdup Hr1 Hmodel. unfold createScene. fold id from. cbv zeta.
  rewrite Hdup, svc_bind_modify, !svc_bind_emit, svc_when_true.
  rewrite (svc_bind_normal _ _ _ _ Hr1).
  rewrite (createScene_finish _ _ _ _ _ Hmodel).
  by rewrite !prepend_Run.
Qed.

Lemma unshown_ADD_SCENE id name st : unshown id st → unshown id (ADD_SCENE id name st).
Proof. intros Hu k. rewrite getItems_ADD_SCENE. by case_decide. Qed.

(** The duplication branch right after [ADD_SCENE] stored the new scene
    under a fresh id, in terms of the store before the call. *)
Lemma createScene_duplicate_fresh id name from uuid st old :
  store_wf st → dict_get (scenes st) id = None → unshown id st →
  from ≠ name → getSceneByName st from = Some old →
  NoDup (uuid <$> seq 0 (length (Scene_getItems st old))) →
  let r := createScene_duplicate id from uuid (ADD_SCENE id name st) in
  result r = Normal tt ∧ same_frame (ADD_SCENE id name st) (final r) ∧
  (∀ other, other ≠ id →
     Scene_getItems (final r) other = Scene_getItems st other) ∧
  sceneItemId <$> Scene_getItems (final r) id =
    reverse (uuid <$> seq 0 (length (Scene_getItems st old))) ∧
  Forall2 (copy_of id) (Scene_getItems st old) (Scene_getItems (final r) id).
Proof.
  intros Hwf Hfresh Hu Hne Hold Hnd.
  destruct (getSceneByName_Some _ _ _ Hwf Hold) as (m & Hm & _).
  assert (old ≠ id) as Hoid by congruence.
  assert (∀ other, other ≠ id →
    Scene_getItems (ADD_SCENE id name st) other = Scene_getItems st other) as Hst.
  { intros other Hother. by rewrite getItems_ADD_SCENE, decide_False. }
  destruct (createScene_duplicate_spec id from uuid (ADD_SCENE id name st) old)
    as (Hr & Hf & Hoth & Hi & Hc).
  - by rewrite getSceneByName_ADD_SCENE_ne.
  - by rewrite dict_get_ADD_SCENE.
  - by rewrite getItems_ADD_SCENE, decide_True.
  - by apply unshown_ADD_SCENE.
  - by rewrite Hst.
  - rewrite Hst in Hi, Hc by done. split_and!; [done..| |done|done].
    intros other Hother. by rewrite Hoth, Hst.
Qed.

(** [unshown] read off the dictionary, for stores given in full. *)
Lemma unshown_alt id st :
  Forall (λ kv, Forall (λ item, sourceId item ≠ id) (omap node_item (scene_nodes kv.2)))
    (scenes st) →
  unshown id st.
Proof.
  intros Hall k. unfold Scene_getItems.
  destruct (dict_get (scenes st) k) as [model|] eqn:Hk; [|done].
  apply dict_get_Some_elem_of in Hk.
  by apply (proj1 (Forall_forall _ _) Hall (k, model)).
Qed.

(** ** Cycle freedom *)

Lemma acyclic_mono st st' :
  (∀ k, Scene_getItems st' k ⊆ Scene_getItems st k) → acyclic st → acyclic st'.
Proof.
  intros Hsub Hac. refine (acyclic_subrel (nests st) (nests st') _ Hac).
  intros a b. unfold nests.
  rewrite !list_elem_of_fmap. intros (item & -> & Hin).
  exists item. split; [done | by apply Hsub].
Qed.

Lemma removeItem_acyclic scene id : preserves acyclic (Scene_removeItem scene id).
Proof.
  intros st. apply acyclic_mono. intros k item.
  rewrite removeItem_items, list_elem_of_filter. tauto.
Qed.

Lemma setSettings_acyclic scene id settings :
  preserves acyclic (SceneItem_setSettings scene id settings).
Proof.
  intros st Hac. refine (acyclic_subrel (nests st) (nests _) _ Hac).
  intros a b. unfold nests.
  rewrite setSettings_items, <- list_fmap_compose.
  rewrite !list_elem_of_fmap. intros (item & -> & Hin). exists item.
  split; [|done]. simpl. by case_decide.
Qed.

(** An accepted [addSource] adds the edge from the scene to the source, and
    the interface promises the source did not reach the scene. *)
Lemma addSource_acyclic scene src uuid :
  preserves acyclic (Scene_addSource scene src uuid).
Proof.
  intros st Hac.
  destruct (result (Scene_addSource scene src uuid st)) as [[item|]|e] eqn:Hr.
  - destruct (addSource_rejects_cycle _ _ _ _ _ Hr) as [Hne Hntc].
    destruct (addSource_added _ _ _ _ _ Hr) as (_ & Hsrc & _ & Hit & Hoth & _).
    refine (acyclic_add_edge (nests st) (nests _) scene src _ _ Hac);
      [|by rewrite rtc_tc; intros [|]].
    intros x y. unfold nests. destruct (decide (x = scene)) as [->|Hx].
    + rewrite Hit, fmap_cons, Hsrc, elem_of_cons. naive_solver.
    + rewrite Hoth by done. by left.
  - by rewrite (proj1 (addSource_refused _ _ _ _ Hr)).
  - by rewrite (proj1 (addSource_thrown _ _ _ _ _ Hr)).
Qed.

Lemma ADD_SCENE_acyclic id name st : acyclic st → acyclic (ADD_SCENE id name st).
Proof.
  apply acyclic_mono. intros k. rewrite getItems_ADD_SCENE.
  case_decide; [apply list_subseteq_nil | done].
Qed.

Lemma REMOVE_SCENE_acyclic id st : acyclic st → acyclic (REMOVE_SCENE id st).
Proof.
  apply acyclic_mono. intros k. rewrite getItems_REMOVE_SCENE.
  case_decide; [apply list_subseteq_nil | done].
Qed.

Lemma acyclic_scenes_eq st st' : scenes st' = scenes st → acyclic st → acyclic st'.
Proof. intros Heq. apply acyclic_mono. intros k. by rewrite (getItems_scenes_eq _ _ _ Heq). Qed.

Lemma makeSceneActive_acyclic id : preserves acyclic (makeSceneActive id).
Proof. unfold makeSceneActive. preserves_go. Qed.

Lemma createScene_acyclic name options uniqueId uuid :
  preserves acyclic (createScene name options uniqueId uuid).
Proof.
  unfold createScene, createScene_duplicate, createScene_addItem. cbv zeta.
  preserves_go;
    auto using preserves_modify, ADD_SCENE_acyclic, addSource_acyclic,
      setSettings_acyclic, makeSceneActive_acyclic.
Qed.

Lemma removeScene_acyclic id force : preserves acyclic (removeScene id force).
Proof.
  unfold removeScene, removeScene_items, removeScene_refs, removeScene_activate,
    getSceneItems.
  preserves_go;
    auto using preserves_modify, REMOVE_SCENE_acyclic, removeItem_acyclic,
      makeSceneActive_acyclic.
Qed.

Lemma call_acyclic c : preserves acyclic (call c).
Proof.
  destruct c; simpl; unfold setSceneOrder; preserves_go;
    auto using createScene_acyclic, removeScene_acyclic, makeSceneActive_acyclic,
      addSource_acyclic, removeItem_acyclic, setSettings_acyclic.
Qed.

(** ** The invariant along the calls *)

(** Without [force], [removeScene] keeps the invariant on each of its three
    paths: refused, thrown, and done. *)
Lemma removeScene_inv id : preserves scenes_inv (removeScene id false).
Proof.
  intros st Hinv.
  destruct (decide (length (dict_keys (scenes st)) < 2)) as [Hlt|Hge].
  { by rewrite removeScene_refused. }
  assert (2 ≤ length (dict_keys (scenes st))) as Hlen by lia.
  destruct (dict_get (scenes st) id) as [model|] eqn:Hid.
  - by eapply removeScene_known_inv.
  - by rewrite removeScene_unknown; [| right |].
Qed.

Lemma SET_SCENE_ORDER_inv order st :
  order ≡ₚ displayOrder st → scenes_inv st → scenes_inv (SET_SCENE_ORDER order st).
Proof.
  intros Hp ([Hwf Ho Hids] & Ha & Hit). split_and!; [split|..]; try done.
  simpl. by rewrite Hp.
Qed.

Lemma call_inv c st : allowed st c → scenes_inv st → scenes_inv (final (call c st)).
Proof.
  destruct c; simpl; rewrite ?final_bind_ret.
  - by apply createScene_inv.
  - intros ->. apply removeScene_inv.
  - intros _. apply makeSceneActive_inv.
  - apply SET_SCENE_ORDER_inv.
  - intros _. apply addSource_inv.
  - intros _. apply removeItem_inv.
  - intros _. apply setSettings_inv.
Qed.

Lemma initialState_inv : scenes_inv initialState.
Proof.
  split_and!; [split | by right | by intros k item ?%elem_of_nil]; try done.
  apply NoDup_nil_2.
Qed.

Lemma initialState_acyclic : acyclic initialState.
Proof.
  intros a Htc. apply tc_nsteps in Htc as (n & Hn & Hsteps).
  destruct Hsteps as [|n x y z Hxy _]; [lia|]. by apply elem_of_nil in Hxy.
Qed.

(** ** The whole-graph reads *)

(** On a display order without unknown ids the loop of [getSceneItem] is a
    search of the flattened item list. *)
Lemma getSceneItem_loop_flat st (l : list string) id :
  getSceneItem_loop st (Some <$> l) id =
  Normal (js_find (λ item, sceneItemId item = id) (l ≫= Scene_getItems st)).
Proof.
  induction l as [|scene l IH]; [done|].
  rewrite fmap_cons, bind_cons, js_find_app. cbn [getSceneItem_loop].
  unfold Scene_getItem. by destruct (js_find _ (Scene_getItems st scene)).
Qed.

Lemma shows_filter (items : list ISceneItem) src :
  0 < length (filter (λ item, sourceId item = src) items) ↔
  src ∈ sourceId <$> items.
Proof.
  rewrite list_elem_of_fmap. split.
  - destruct (filter _ items) as [|item rest] eqn:Hf; [simpl; lia|]. intros _.
    assert (item ∈ filter (λ item, sourceId item = src) items) as Hin
      by (rewrite Hf; left).
    apply list_elem_of_filter in Hin as [<- Hin]. eauto.
  - intros (item & -> & Hin).
    assert (item ∈ filter (λ x, sourceId x = sourceId item) items) as Hin'
      by by apply list_elem_of_filter.
    destruct (filter _ items); [by apply elem_of_nil in Hin' | simpl; lia].
Qed.

(** ** Creating and removing again *)

(** With a scene in the store, the active id names one of them. *)
Lemma active_nonempty st :
  scenes_inv st → dict_keys (scenes st) ≠ [] → activeSceneId st ∈ dict_keys (scenes st).
Proof. by intros (_ & [?|[? _]] & _) Hne. Qed.

(** The frame of the store right after a plain [createScene]. *)
Lemma created_store name options uniqueId uuid st :
  let id := createScene_id options uniqueId in
  scenes_inv st → dict_keys (scenes st) ≠ [] → dict_get (scenes st) id = None →
  truthy (js_or_undef (duplicateSourcesFromScene options) "") = false →
  let st1 := final (createScene name options uniqueId uuid st) in
  dict_keys (scenes st1) = dict_keys (scenes st) ++ [id] ∧
  displayOrder st1 = displayOrder st ++ [id] ∧
  activeSceneId st1 = (if makeActive options then id else activeSceneId st) ∧
  dict_get (scenes st1) id = Some (new_scene id name).
Proof.
  intros id Hinv Hne Hfresh Hdup st1. subst st1.
  rewrite (createScene_plain_run _ _ _ _ _ Hdup). fold id. cbn [final].
  pose proof (active_nonempty st Hinv Hne) as Hact.
  apply (store_wf_key_nonempty _ _ (proj1 Hinv)) in Hact.
  destruct (makeActive options); simpl;
    rewrite dict_keys_set_fresh, dict_get_set_eq, ?js_or_truthy by done; done.
Qed.

(** In every reachable store no scene reaches itself through the items that
    show scenes as sources, whatever implementation of the interface the
    service runs on, and whether or not calls throw half way. *)
Lemma reachable_acyclic st : reachable st → acyclic st.
Proof.
  revert st. apply rtc_ind_r; [apply initialState_acyclic|].
  intros st st' _ [c _] IH. by apply call_acyclic.
Qed.

(** * Properties *)

(** [makeSceneActive(id)] is a no-op returning [false] for an unknown id;
    for a known id it asks the transitions service to switch, then stores the
    id as the active scene, then pushes [sceneSwitched] with the scene's
    model, and returns [true]. *)
Theorem makeSceneActive_spec id st :
  makeSceneActive id st =
    match dict_get (scenes st) id with
    | None => Run (Normal false) st []
    | Some model =>
        Run (Normal true) (MAKE_SCENE_ACTIVE id st)
          [transitionsService_transitionTo id; sceneSwitched (Some model)]
    end.
Proof.
  destruct (dict_get (scenes st) id) eqn:Hid.
  - by apply makeSceneActive_known.
  - by apply makeSceneActive_unknown.
Qed.

(** C2: every store the service can reach from its initial state, through
    any sequence of calls that create scenes under fresh ids, never force a
    removal and only permute the display order, satisfies the store
    invariant: the scenes dictionary has no duplicate key, the display order
    lists exactly its keys, every scene is stored under its own non-empty id,
    the active scene exists whenever a scene exists, and every item belongs
    to the scene that holds it.  Calls that throw are included. *)
Theorem reachable_inv st : reachable st → scenes_inv st.
Proof.
  revert st. apply rtc_ind_r; [apply initialState_inv|].
  intros st st' _ [c Hc] IH. by apply call_inv.
Qed.

(** C34: [removeScene(id, force)] on each of its paths.  Without [force] and
    with fewer than two scenes it alerts and returns nothing, leaving the
    store alone.  Past this guard an unknown id throws a [TypeError] before
    anything is changed.  A known id returns the scene's model, runs the three
    phases and pushes [sceneRemoved] with the model as the last event. *)
Theorem removeScene_outcome id force st :
  store_wf st →
  removeScene id force st =
    if negb force && bool_decide (length (dict_keys (scenes st)) < 2) then
      Run (Normal None) st [alert "There needs to be at least one scene."]
    else
      match dict_get (scenes st) id with
      | None => Run (Throw TypeError) st []
      | Some model =>
          Run (Normal (Some model)) (removeScene_store id st)
            (removeScene_events id st ++ [sceneRemoved (Some model)])
      end.
Proof.
  intros Hwf.
  destruct (negb force && bool_decide (length (dict_keys (scenes st)) < 2))
    eqn:Hguard.
  - apply andb_true_iff in Hguard as [->%negb_true_iff Hlt%bool_decide_eq_true].
    by apply removeScene_refused.
  - assert (force = true ∨ 2 ≤ length (dict_keys (scenes st))) as Hpass.
    { destruct force; [by left | right].
      apply bool_decide_eq_false in Hguard. lia. }
    destruct (dict_get (scenes st) id) as [model|] eqn:Hid.
    + by rewrite (removeScene_run _ _ _ _ Hpass Hid Hwf).
    + by apply removeScene_unknown.
Qed.

(** C3: what a removal that goes through leaves behind.  The scene is gone
    from the dictionary and from the display order, the other scenes keep
    their places, no item of any scene shows the removed scene any more, no
    item was added anywhere, and the active scene is unchanged unless it was
    the removed one, in which case it is the first remaining scene (the
    removed id itself when none remains). *)
Theorem removeScene_spec id force st model :
  store_wf st → items_owned st →
  dict_get (scenes st) id = Some model →
  force = true ∨ 2 ≤ length (dict_keys (scenes st)) →
  let r := removeScene id force st in
  result r = Normal (Some model) ∧
  store_wf (final r) ∧
  dict_keys (scenes (final r)) = without (dict_keys (scenes st)) id ∧
  displayOrder (final r) = without (displayOrder st) id ∧
  activeSceneId (final r) =
    (if decide (activeSceneId st = id)
     then default id (head (without (dict_keys (scenes st)) id))
     else activeSceneId st) ∧
  (∀ other, Forall (λ item, sourceId item ≠ id) (Scene_getItems (final r) other)) ∧
  (∀ other, Scene_getItems (final r) other `sublist_of` Scene_getItems st other) ∧
  last (trace r) = Some (sceneRemoved (Some model)).
Proof.
  intros Hwf Ho Hid Hguard r.
  destruct (removeScene_store_spec id st Hwf Ho) as (Hwf' & _ & Hk & Hd & Ha & Hn & Hs).
  subst r. rewrite (removeScene_run _ _ _ _ Hguard Hid Hwf).
  cbn [result final trace]. split_and!; try done. by rewrite last_snoc.
Qed.

(** [createScene(name, options)] without [duplicateSourcesFromScene],
    under an id no scene has.  It stores the new scene under the id from the
    options or from the main process, appends the id to the display order,
    makes it the active scene when none is active, creates the native scene
    and registers it as a source, pushes exactly one [sceneAdded] event
    carrying the new scene, activates it when [makeActive] is set, and
    returns the new scene. *)
Theorem createScene_plain name options uniqueId uuid st :
  let id := createScene_id options uniqueId in
  truthy (js_or_undef (duplicateSourcesFromScene options) "") = false →
  dict_get (scenes st) id = None →
  createScene name options uniqueId uuid st =
    Run (Normal (Some id))
      (if makeActive options then MAKE_SCENE_ACTIVE id (ADD_SCENE id name st)
       else ADD_SCENE id name st)
      ([SceneFactory_create id; sourcesService_addSource id name;
        sceneAdded (Some (new_scene id name))] ++
       if makeActive options
       then [transitionsService_transitionTo id;
             sceneSwitched (Some (new_scene id name))]
       else []).
Proof.
  intros id Hdup Hfresh. rewrite (createScene_plain_run _ _ _ _ _ Hdup).
  fold id. cbv zeta.
  rewrite (getSceneByName_scenes_eq _ _ _ (createScene_finish_scenes id _ _)).
  by rewrite getSceneByName_ADD_SCENE.
Qed.

(** When [duplicateSourcesFromScene] names no scene, [createScene]
    throws a [TypeError] after the new scene was stored and registered as a
    source and before [sceneAdded] is pushed: the store keeps a scene no
    observer was told about. *)
Theorem createScene_unknown_source name options uniqueId uuid st :
  let id := createScene_id options uniqueId in
  let from := js_or_undef (duplicateSourcesFromScene options) "" in
  truthy from = true →
  getSceneByName (ADD_SCENE id name st) from = None →
  createScene name options uniqueId uuid st =
    Run (Throw TypeError) (ADD_SCENE id name st)
      [SceneFactory_create id; sourcesService_addSource id name].
Proof.
  intros id from Hdup Hnone. unfold createScene. fold id from. rewrite Hdup.
  rewrite svc_bind_modify, !svc_bind_emit, svc_when_true.
  unfold createScene_duplicate.
  rewrite svc_bind_assoc, svc_bind_gets, Hnone.
  rewrite svc_bind_assoc, svc_bind_gets, svc_bind_assoc, svc_bind_deref_None.
  by rewrite !prepend_Run.
Qed.

(** C6: [createScene] with [duplicateSourcesFromScene] on a store where the
    new id is fresh and shown nowhere.  The call returns the new scene; its
    items are copies of the items of the scene of that name, in the same
    order, each with the source and the settings of the original; their ids
    are the ones handed out, the first to the last item; no other scene
    changes, and the new id is the last key. *)
Theorem createScene_duplicates name options uniqueId uuid st from old :
  let id := createScene_id options uniqueId in
  store_wf st → dict_get (scenes st) id = None → unshown id st →
  duplicateSourcesFromScene options = Some from → from ≠ "" → from ≠ name →
  getSceneByName st from = Some old →
  NoDup (uuid <$> seq 0 (length (Scene_getItems st old))) →
  let r := createScene name options uniqueId uuid st in
  result r = Normal (Some id) ∧
  Forall2 (copy_of id) (Scene_getItems st old) (Scene_getItems (final r) id) ∧
  sceneItemId <$> Scene_getItems (final r) id =
    reverse (uuid <$> seq 0 (length (Scene_getItems st old))) ∧
  (∀ other, other ≠ id →
     Scene_getItems (final r) other = Scene_getItems st other) ∧
  dict_keys (scenes (final r)) = dict_keys (scenes st) ++ [id].
Proof.
  intros id Hwf Hfresh Hu Hdup Hne Hname Hold Hnd r.
  destruct (createScene_duplicate_fresh id name from uuid st old)
    as (Hr & Hf & Hoth & Hi & Hc); [done..|].
  assert (js_or_undef (duplicateSourcesFromScene options) "" = from) as Hfrom.
  { rewrite Hdup. by apply js_or_truthy. }
  destruct (same_frame_is_Some _ _ id Hf) as [model Hmodel];
    [by rewrite dict_get_ADD_SCENE|].
  subst r. rewrite (createScene_run name options uniqueId uuid st model);
    fold id; rewrite ?Hfrom; [|by apply truthy_true|done..].
  cbv zeta. cbn [result final].
  pose proof (createScene_finish_scenes id (makeActive options)) as Hsc.
  pose proof (λ s k, getItems_scenes_eq _ _ k (Hsc s)) as Hit.
  split_and!.
  - rewrite (getSceneByName_scenes_eq _ _ _ (Hsc _)), (getSceneByName_frame _ _ _ Hf).
    by rewrite getSceneByName_ADD_SCENE.
  - by rewrite Hit.
  - by rewrite Hit.
  - intros other Hother. rewrite Hit. by apply Hoth.
  - rewrite Hsc, (same_frame_keys _ _ Hf). by apply dict_keys_set_fresh.
Qed.

(** On a well-formed store [getSceneItem(id)], the loop over the scenes
    that returns at the first hit, finds the first item with that id in the
    flattened list [getSceneItems()] returns; both are pure reads. *)
Theorem getSceneItem_flat id st :
  store_wf st →
  getSceneItems st = Run (Normal (displayOrder st ≫= Scene_getItems st)) st [] ∧
  getSceneItem id st =
    Run (Normal (js_find (λ item, sceneItemId item = id)
                   (displayOrder st ≫= Scene_getItems st))) st [].
Proof.
  intros Hwf. split; [by apply getSceneItems_wf|].
  unfold getSceneItem, svc_try_gets.
  by rewrite scenes_getter_wf, getSceneItem_loop_flat.
Qed.

(** On a well-formed store [getSourceScenes(sourceId)] returns, in
    display order, exactly the scenes that show the source. *)
Theorem getSourceScenes_spec src st :
  store_wf st →
  getSourceScenes src st =
    Run (Normal (filter (λ scene, src ∈ sourceId <$> Scene_getItems st scene)
                   (displayOrder st))) st [].
Proof.
  intros Hwf. unfold getSourceScenes.
  rewrite svc_bind_gets, scenes_getter_wf by done.
  rewrite (svc_bind_run _ _ _ _ _ _ (svc_mapM_deref_Some _ _)).
  rewrite prepend_nil. unfold svc_gets. f_equal. f_equal.
  apply list_filter_iff. intros scene. apply shows_filter.
Qed.

(** [setSceneOrder] stores whatever list it is given.  When the list
    names an id that is no scene, the call still returns normally, and from
    then on [getSceneItems] throws a [TypeError]. *)
Theorem setSceneOrder_unchecked order st id :
  id ∈ order → dict_get (scenes st) id = None →
  setSceneOrder order st = Run (Normal tt) (SET_SCENE_ORDER order st) [] ∧
  getSceneItems (SET_SCENE_ORDER order st) =
    Run (Throw TypeError) (SET_SCENE_ORDER order st) [].
Proof.
  intros Hin Hid. split; [done|]. by apply (getSceneItems_unknown _ id).
Qed.

(** C37: active-scene continuity.  Creating a scene under a fresh id, without
    duplication, and removing it again gives back the scenes and the display
    order.  The active scene is the one that was active before when the new
    scene was not made active; when it was, the first scene of the store
    becomes active, whichever scene was active before. *)
Theorem createScene_removeScene_active name options uniqueId uuid st :
  let id := createScene_id options uniqueId in
  scenes_inv st → dict_keys (scenes st) ≠ [] → dict_get (scenes st) id = None →
  truthy (js_or_undef (duplicateSourcesFromScene options) "") = false →
  let st1 := final (createScene name options uniqueId uuid st) in
  let st2 := final (removeScene id false st1) in
  dict_keys (scenes st2) = dict_keys (scenes st) ∧
  displayOrder st2 = displayOrder st ∧
  activeSceneId st2 =
    if makeActive options then default id (head (dict_keys (scenes st)))
    else activeSceneId st.
Proof.
  intros id Hinv Hne Hfresh Hdup st1 st2.
  pose proof (createScene_inv name options uniqueId uuid st Hfresh Hinv)
    as (Hwf1 & _ & Ho1).
  destruct (created_store name options uniqueId uuid st Hinv Hne Hfresh Hdup)
    as (Hk1 & Hd1 & Ha1 & Hid1). fold id st1 in Hwf1, Ho1, Hk1, Hd1, Ha1, Hid1.
  destruct (removeScene_store_spec id st1 Hwf1 Ho1) as (_ & _ & Hk & Hd & Ha & _).
  subst st2. rewrite (removeScene_final_store _ _ _ _ Hwf1 Hid1).
  2:{ right. rewrite Hk1, length_app. destruct (dict_keys (scenes st)); simpl; [done|lia]. }
  pose proof (active_nonempty st Hinv Hne) as Hact. destruct Hinv as (Hwf & _ & _).
  assert (id ∉ dict_keys (scenes st)) as Hnk by by apply dict_get_None.
  rewrite Hk, Hd, Ha, Hk1, Hd1, Ha1, !without_snoc_fresh;
    [|by rewrite (wf_order _ Hwf)|done].
  split_and!; [done..|]. destruct (makeActive options); [by rewrite decide_True|].
  rewrite decide_False; [done|]. intros Heq. apply Hnk. by rewrite <- Heq.
Qed.

(** Forcing the removal of the only scene leaves the store without a
    scene and with the removed id still recorded as active.  A scene
    created afterwards, unless it is made active, does not become the active
    scene because the stale id is kept: the store then has a scene, and an
    active id that names none. *)
Theorem forced_removal_stale_active id model st name options uniqueId uuid :
  let id' := createScene_id options uniqueId in
  store_wf st → items_owned st →
  scenes st = [(id, model)] → activeSceneId st = id →
  truthy (js_or_undef (duplicateSourcesFromScene options) "") = false →
  makeActive options = false → id' ≠ id →
  let st1 := final (removeScene id true st) in
  let st2 := final (createScene name options uniqueId uuid st1) in
  (scenes st1 = [] ∧ activeSceneId st1 = id ∧ ¬ active_ok st1) ∧
  (dict_keys (scenes st2) = [id'] ∧ activeSceneId st2 = id ∧ activeScene st2 = None).
Proof.
  intros id' Hwf Ho Hsc Hact Hdup Hmk Hne st1 st2.
  assert (dict_get (scenes st) id = Some model) as Hid.
  { rewrite Hsc. simpl. by rewrite decide_True. }
  destruct (wf_ids _ Hwf _ _ Hid) as [_ Hnonempty].
  destruct (removeScene_store_spec id st Hwf Ho) as (_ & _ & Hk & _ & Ha & _).
  rewrite <- (removeScene_final_store id true st model Hwf Hid (or_introl eq_refl))
    in Hk, Ha. fold st1 in Hk, Ha.
  rewrite Hsc in Hk, Ha. simpl in Hk, Ha.
  rewrite without_cons_eq in Hk, Ha. rewrite decide_True in Ha by done.
  apply fmap_nil_inv in Hk. simpl in Ha. split.
  - split_and!; [done..|]. unfold active_ok. rewrite Hk, Ha.
    intros [[]%elem_of_nil|[_ ?]]. done.
  - subst st2. rewrite (createScene_plain_run _ _ _ _ _ Hdup), Hmk. fold id'.
    unfold activeScene, getScene. simpl. rewrite Hk, Ha, js_or_truthy by done.
    simpl. by rewrite decide_False.
Qed.


End Scenes.
