(* ===== verification/SceneNodes.v ===== *)
(** * Scene nodes: the [Scene] and [SceneItem] operations the service calls

    [ScenesService] calls [scene.addSource], [scene.removeItem] and
    [item.setSettings]; their classes are not among the sources.  This file
    models them from the specification (sections 3, 4.1 and 8): a scene keeps
    its nodes in the store, most recently added first; [addSource] refuses a
    source that is the scene itself or that shows the scene, directly or
    through other scenes; [removeItem] drops the node and tells the
    observers; [setSettings] replaces the settings of an item.

    The walk of [hasNestedScene] recurses through the scenes a scene shows.
    It is given as fuel the number of scenes of the store, which is enough on
    every store, cyclic or not ([hasNestedScene_spec]): a path that leaves
    the same scene twice can be cut.

    The operations are shown to implement the interface [SceneApi] of
    [Scenes.v], so every theorem proved there against the interface holds
    of the service running on these nodes. *)

From stdpp Require Import base tactics option list strings relations.
From S2P Require Import Prelude JsObject Scenes.

Set Warnings "-clear-no-such-hyp".

Local Open Scope string_scope.
Local Open Scope list_scope.
Local Open Scope nat_scope.
Local Open Scope svc_scope.

Section SceneNodes.
Context {Settings : Type}.
(** The settings [addSource] gives a new item. *)
Context (default_settings : Settings).

Local Abbreviation State := (@IScenesState Settings).
Local Abbreviation Item := (@ISceneItem Settings).
Local Abbreviation Node := (@TSceneNode Settings).
Local Abbreviation M := (@Scenes.M Settings).

(** ** Mutations of the nodes of one scene *)

(** Replaces the nodes of a scene; a scene that is not in the store is left
    alone. *)
Definition update_nodes (scene : string) (f : list Node → list Node)
    (st : State) : State :=
  match dict_get (scenes st) scene with
  | Some model =>
      {| scenes :=
           dict_set scene
             {| scene_id := scene_id model;
                scene_name := scene_name model;
                scene_resourceId := scene_resourceId model;
                scene_nodes := f (scene_nodes model) |}
             (scenes st);
         displayOrder := displayOrder st;
         activeSceneId := activeSceneId st |}
  | None => st
  end.

(** The new node goes first: [getItems()] lists the most recently added
    item first. *)
Definition ADD_SOURCE_TO_SCENE (scene : string) (item : Item) : State → State :=
  update_nodes scene (λ nodes, ItemNode item :: nodes).

(** Dropping an item also drops it from the children of the folder that
    holds it. *)
Definition forget_child (id : string) (n : Node) : Node :=
  match n with
  | ItemNode item => ItemNode item
  | FolderNode folder =>
      FolderNode
        {| folder_id := folder_id folder;
           folder_sceneId := folder_sceneId folder;
           folder_name := folder_name folder;
           folder_parentId := folder_parentId folder;
           folder_childrenIds := without (folder_childrenIds folder) id |}
  end.

Definition is_item (id : string) (n : Node) : Prop :=
  match n with
  | ItemNode item => sceneItemId item = id
  | FolderNode _ => False
  end.

#[local] Instance is_item_dec id n : Decision (is_item id n).
Proof. destruct n; simpl; apply _. Defined.

Definition REMOVE_NODE_FROM_SCENE (scene id : string) : State → State :=
  update_nodes scene
    (λ nodes, forget_child id <$> filter (λ n, ¬ is_item id n) nodes).

Definition node_set_settings (id : string) (settings : Settings) (n : Node) : Node :=
  match n with
  | ItemNode item =>
      if decide (sceneItemId item = id) then ItemNode (with_settings settings item)
      else ItemNode item
  | FolderNode folder => FolderNode folder
  end.

Definition UPDATE_SCENE_ITEM_SETTINGS (scene id : string) (settings : Settings) :
    State → State :=
  update_nodes scene (fmap (node_set_settings id settings)).

(** ** The cycle check *)

(** [scene.hasNestedScene(target)]: some item of the scene shows [target],
    or shows a scene that has it nested. *)
Fixpoint hasNestedScene (fuel : nat) (st : State) (scene target : string) : bool :=
  match fuel with
  | 0 => false
  | S fuel' =>
      existsb
        (λ item,
           bool_decide (sourceId item = target) ||
           hasNestedScene fuel' st (sourceId item) target)
        (Scene_getItems st scene)
  end.

(** [scene.canAddSource(sourceId)] *)
Definition canAddSource (st : State) (scene src : string) : bool :=
  negb (bool_decide (scene = src)) &&
  negb (hasNestedScene (length (dict_keys (scenes st))) st src scene).

(** ** The operations *)

(** The item [addSource] makes: at the top level of the scene, with the
    default settings. *)
Definition new_item (scene src uuid : string) : Item :=
  {| sceneItemId := uuid;
     item_sceneId := scene;
     sourceId := src;
     item_parentId := None;
     item_settings := default_settings |}.

(** [scene.addSource(sourceId)]; [uuid] is the id of the new item.  A scene
    object whose scene has left the store has no state to read. *)
Definition addSource (scene : Scene) (src uuid : string) : M (option Item) :=
  let* model := svc_gets (λ st, dict_get (scenes st) scene) in
  let* _ := svc_deref model in
  let* ok := svc_gets (λ st, canAddSource st scene src) in
  if negb ok then svc_ret None
  else
    svc_modify (ADD_SOURCE_TO_SCENE scene (new_item scene src uuid));;
    svc_emit (itemAdded (new_item scene src uuid));;
    svc_ret (Some (new_item scene src uuid)).

(** [scene.removeItem(sceneItemId)] *)
Definition removeItem (scene : Scene) (id : string) : M unit :=
  let* removed :=
    svc_gets (λ st, filter (λ item, sceneItemId item = id) (Scene_getItems st scene)) in
  svc_modify (REMOVE_NODE_FROM_SCENE scene id);;
  svc_forEach removed (λ item, svc_emit (itemRemoved item)).

(** [item.setSettings(settings)] *)
Definition setSettings (scene : Scene) (id : string) (settings : Settings) : M unit :=
  svc_modify (UPDATE_SCENE_ITEM_SETTINGS scene id settings);;
  let* updated :=
    svc_gets (λ st, filter (λ item, sceneItemId item = id) (Scene_getItems st scene)) in
  svc_forEach updated (λ item, svc_emit (itemUpdated item)).

(** ** Updating the nodes of a scene *)

Lemma header_dict_set (d : Dictionary (@IScene Settings)) k model model' :
  dict_get d k = Some model → scene_hdr model' = scene_hdr model →
  scene_header <$> dict_set k model' d = scene_header <$> d.
Proof.
  intros Hk Hh. induction d as [|[k' m] d IH]; [done|].
  cbn [dict_set dict_get] in *. destruct (decide (k' = k)) as [->|Hne].
  - injection Hk as ->. rewrite !fmap_cons. f_equal.
    unfold scene_header. simpl. by rewrite Hh.
  - rewrite !fmap_cons. f_equal. by apply IH.
Qed.

Lemma update_nodes_frame scene f st : same_frame st (update_nodes scene f st).
Proof.
  unfold update_nodes. destruct (dict_get (scenes st) scene) eqn:Hk;
    [|apply same_frame_refl].
  split_and!; [done..|]. simpl. by eapply header_dict_set.
Qed.

Lemma getItems_update_nodes scene f st other :
  Scene_getItems (update_nodes scene f st) other =
  if decide (other = scene) then
    match dict_get (scenes st) scene with
    | Some model => omap node_item (f (scene_nodes model))
    | None => []
    end
  else Scene_getItems st other.
Proof.
  unfold update_nodes, Scene_getItems.
  destruct (dict_get (scenes st) scene) as [model|] eqn:Hk; simpl.
  - case_decide as Ho; [subst; by rewrite dict_get_set_eq|].
    by rewrite dict_get_set_ne.
  - case_decide; [by subst; rewrite Hk | done].
Qed.

(** ** The cycle check is exact *)

Lemma nests_known (st : State) a b : nests st a b → a ∈ dict_keys (scenes st).
Proof.
  unfold nests, Scene_getItems. intros Hin. apply dict_get_is_Some.
  destruct (dict_get (scenes st) a); [done | by apply elem_of_nil in Hin].
Qed.

Lemma nests_item (st : State) a b :
  nests st a b ↔ ∃ item, item ∈ Scene_getItems st a ∧ sourceId item = b.
Proof. unfold nests. rewrite list_elem_of_fmap. naive_solver. Qed.

(** With fuel [n] the walk finds exactly the paths of at most [n] steps. *)
Lemma hasNestedScene_nsteps n (st : State) a b :
  hasNestedScene n st a b = true ↔ ∃ m, 0 < m ≤ n ∧ nsteps (nests st) m a b.
Proof.
  revert a. induction n as [|n IH]; intros a; simpl.
  { split; [done | intros (m & ? & _); lia]. }
  rewrite existsb_exists. setoid_rewrite orb_true_iff.
  setoid_rewrite bool_decide_eq_true. setoid_rewrite IH.
  setoid_rewrite <- list_elem_of_In. split.
  - intros (item & Hin & [Heq|(m & Hm & Hp)]).
    + exists 1. split; [lia|]. apply nsteps_once, nests_item. eauto.
    + exists (S m). split; [lia|]. econstructor; [|done]. apply nests_item. eauto.
  - intros (m & Hm & Hp). destruct Hp as [|m a c b (item & Hin & <-)%nests_item Hp]; [lia|].
    exists item. split; [done|]. destruct m as [|m]; [left; by inv Hp|].
    right. exists (S m). split; [lia | done].
Qed.

(** The number of scenes is fuel enough: [hasNestedScene] decides whether
    the scene reaches the target through nesting. *)
Lemma hasNestedScene_spec (st : State) a b :
  hasNestedScene (length (dict_keys (scenes st))) st a b = true ↔ tc (nests st) a b.
Proof.
  rewrite hasNestedScene_nsteps. split.
  - intros (m & Hm & Hp). apply tc_nsteps. exists m. split; [lia | done].
  - apply tc_short, nests_known.
Qed.

Lemma canAddSource_spec (st : State) scene src :
  canAddSource st scene src = true ↔ src ≠ scene ∧ ¬ tc (nests st) src scene.
Proof.
  unfold canAddSource.
  rewrite andb_true_iff, !negb_true_iff, bool_decide_eq_false.
  rewrite <- not_true_iff_false, hasNestedScene_spec. naive_solver.
Qed.

(** ** The runs of the three operations *)

Lemma addSource_run scene src uuid (st : State) :
  addSource scene src uuid st =
    match dict_get (scenes st) scene with
    | None => Run (Throw TypeError) st []
    | Some _ =>
        if canAddSource st scene src then
          Run (Normal (Some (new_item scene src uuid)))
            (ADD_SOURCE_TO_SCENE scene (new_item scene src uuid) st)
            [itemAdded (new_item scene src uuid)]
        else Run (Normal None) st []
    end.
Proof.
  unfold addSource. rewrite svc_bind_gets.
  destruct (dict_get (scenes st) scene); [|by rewrite svc_bind_deref_None].
  rewrite svc_bind_deref_Some, svc_bind_gets.
  destruct (canAddSource st scene src); simpl; by svc_simp.
Qed.

Lemma removeItem_run scene id (st : State) :
  removeItem scene id st =
    Run (Normal tt) (REMOVE_NODE_FROM_SCENE scene id st)
      (itemRemoved <$>
         filter (λ item, sceneItemId item = id) (Scene_getItems st scene)).
Proof.
  unfold removeItem. by rewrite svc_bind_gets, svc_bind_modify, svc_forEach_emit.
Qed.

Lemma setSettings_run scene id settings (st : State) :
  setSettings scene id settings st =
    Run (Normal tt) (UPDATE_SCENE_ITEM_SETTINGS scene id settings st)
      (itemUpdated <$>
         filter (λ item, sceneItemId item = id)
           (Scene_getItems (UPDATE_SCENE_ITEM_SETTINGS scene id settings st) scene)).
Proof.
  unfold setSettings. by rewrite svc_bind_modify, svc_bind_gets, svc_forEach_emit.
Qed.

(** ** The items after each mutation *)

Lemma getItems_ADD_SOURCE scene item (st : State) other :
  is_Some (dict_get (scenes st) scene) →
  Scene_getItems (ADD_SOURCE_TO_SCENE scene item st) other =
  if decide (other = scene) then item :: Scene_getItems st scene
  else Scene_getItems st other.
Proof.
  intros [model Hk]. unfold ADD_SOURCE_TO_SCENE.
  rewrite getItems_update_nodes. unfold Scene_getItems. by rewrite Hk.
Qed.

Lemma items_remove_node id (nodes : list Node) :
  omap node_item (forget_child id <$> filter (λ n, ¬ is_item id n) nodes) =
  filter (λ item, sceneItemId item ≠ id) (omap node_item nodes).
Proof.
  induction nodes as [|[item|folder] nodes IH]; [done|..].
  - rewrite filter_cons. simpl. rewrite filter_cons.
    destruct (decide (sceneItemId item ≠ id)); simpl; [f_equal|]; apply IH.
  - rewrite filter_cons_True by (simpl; tauto). simpl. apply IH.
Qed.

Lemma getItems_REMOVE_NODE scene id (st : State) other :
  Scene_getItems (REMOVE_NODE_FROM_SCENE scene id st) other =
  filter (λ item, ¬ (other = scene ∧ sceneItemId item = id))
    (Scene_getItems st other).
Proof.
  unfold REMOVE_NODE_FROM_SCENE. rewrite getItems_update_nodes.
  destruct (decide (other = scene)) as [->|Hne].
  - unfold Scene_getItems. destruct (dict_get (scenes st) scene); [|done].
    rewrite items_remove_node. apply list_filter_iff. naive_solver.
  - symmetry. apply filter_Forall_id, Forall_forall. naive_solver.
Qed.

Lemma items_set_settings id settings (nodes : list Node) :
  omap node_item (node_set_settings id settings <$> nodes) =
  (λ item, if decide (sceneItemId item = id) then with_settings settings item
           else item) <$> omap node_item nodes.
Proof.
  induction nodes as [|[item|folder] nodes IH]; [done|..]; simpl.
  - case_decide; simpl; f_equal; apply IH.
  - apply IH.
Qed.

Lemma getItems_UPDATE_SETTINGS scene id settings (st : State) other :
  Scene_getItems (UPDATE_SCENE_ITEM_SETTINGS scene id settings st) other =
  (λ item, if decide (other = scene ∧ sceneItemId item = id)
           then with_settings settings item else item) <$> Scene_getItems st other.
Proof.
  unfold UPDATE_SCENE_ITEM_SETTINGS. rewrite getItems_update_nodes.
  destruct (decide (other = scene)) as [->|Hne].
  - unfold Scene_getItems. destruct (dict_get (scenes st) scene); [|done].
    rewrite items_set_settings. apply list_fmap_ext. intros _ item _.
    repeat case_decide; naive_solver.
  - rewrite <- (list_fmap_id (Scene_getItems st other)) at 1.
    apply list_fmap_ext. intros _ item _. case_decide; naive_solver.
Qed.

(** ** The interface laws *)

Lemma nodes_addSource_frame scene src uuid (st : State) :
  same_frame st (final (addSource scene src uuid st)).
Proof.
  rewrite addSource_run.
  destruct (dict_get (scenes st) scene), (canAddSource st scene src); simpl;
    try apply same_frame_refl.
  apply update_nodes_frame.
Qed.

Lemma nodes_addSource_refused scene src uuid (st : State) :
  result (addSource scene src uuid st) = Normal None →
  final (addSource scene src uuid st) = st ∧ trace (addSource scene src uuid st) = [].
Proof. rewrite addSource_run. by repeat case_match. Qed.

Lemma nodes_addSource_thrown scene src uuid (st : State) e :
  result (addSource scene src uuid st) = Throw e →
  final (addSource scene src uuid st) = st ∧ trace (addSource scene src uuid st) = [].
Proof. rewrite addSource_run. by repeat case_match. Qed.

Lemma nodes_addSource_added scene src uuid (st : State) item :
  result (addSource scene src uuid st) = Normal (Some item) →
  sceneItemId item = uuid ∧ sourceId item = src ∧ item_sceneId item = scene ∧
  Scene_getItems (final (addSource scene src uuid st)) scene =
    item :: Scene_getItems st scene ∧
  (∀ other, other ≠ scene →
     Scene_getItems (final (addSource scene src uuid st)) other =
     Scene_getItems st other) ∧
  trace (addSource scene src uuid st) = [itemAdded item].
Proof.
  rewrite addSource_run. destruct (dict_get (scenes st) scene) eqn:Hk; [|done].
  destruct (canAddSource st scene src); [|done]. simpl. intros [= <-].
  split_and!; try done.
  - by rewrite getItems_ADD_SOURCE, decide_True by eauto.
  - intros other Hne. by rewrite getItems_ADD_SOURCE, decide_False by eauto.
Qed.

Lemma nodes_addSource_accepts scene src uuid (st : State) :
  is_Some (dict_get (scenes st) scene) →
  src ≠ scene → ¬ tc (nests st) src scene →
  ∃ item, result (addSource scene src uuid st) = Normal (Some item).
Proof.
  intros [model Hk] Hne Htc. rewrite addSource_run, Hk.
  rewrite (proj2 (canAddSource_spec st scene src)) by done. eauto.
Qed.

Lemma nodes_addSource_rejects_cycle scene src uuid (st : State) item :
  result (addSource scene src uuid st) = Normal (Some item) →
  src ≠ scene ∧ ¬ tc (nests st) src scene.
Proof.
  rewrite addSource_run. destruct (dict_get (scenes st) scene); [|done].
  destruct (canAddSource st scene src) eqn:Hok; [|done].
  intros _. by apply canAddSource_spec.
Qed.

Lemma nodes_removeItem_frame scene id (st : State) :
  same_frame st (final (removeItem scene id st)).
Proof. rewrite removeItem_run. apply update_nodes_frame. Qed.

Lemma nodes_setSettings_frame scene id settings (st : State) :
  same_frame st (final (setSettings scene id settings st)).
Proof. rewrite setSettings_run. apply update_nodes_frame. Qed.

(** The nodes implement the interface of the service. *)
Definition SceneNodesApi : @SceneApi Settings := {|
  Scene_addSource := addSource;
  Scene_removeItem := removeItem;
  SceneItem_setSettings := setSettings;
  addSource_frame := nodes_addSource_frame;
  addSource_refused := nodes_addSource_refused;
  addSource_added := nodes_addSource_added;
  addSource_thrown := nodes_addSource_thrown;
  addSource_accepts := nodes_addSource_accepts;
  addSource_rejects_cycle := nodes_addSource_rejects_cycle;
  removeItem_frame := nodes_removeItem_frame;
  removeItem_result scene id st := f_equal result (removeItem_run scene id st);
  removeItem_items scene id st other :=
    eq_trans (f_equal (λ r, Scene_getItems (final r) other) (removeItem_run scene id st))
      (getItems_REMOVE_NODE scene id st other);
  removeItem_trace scene id st := f_equal trace (removeItem_run scene id st);
  setSettings_frame := nodes_setSettings_frame;
  setSettings_result scene id settings st :=
    f_equal result (setSettings_run scene id settings st);
  setSettings_items scene id settings st other :=
    eq_trans
      (f_equal (λ r, Scene_getItems (final r) other) (setSettings_run scene id settings st))
      (getItems_UPDATE_SETTINGS scene id settings st other);
|}.

(** * Properties *)

(** C1: cycle freedom.  In every store the service reaches on these nodes no
    scene reaches itself through the items that show scenes as sources; and
    an [addSource] that would make a scene show itself, directly or through
    other scenes, returns nothing, pushes no event and leaves the store as
    it was. *)
Theorem cycle_freedom (st : State) :
  @reachable Settings SceneNodesApi st →
  acyclic st ∧
  ∀ scene src uuid,
    is_Some (dict_get (scenes st) scene) →
    src = scene ∨ tc (nests st) src scene →
    addSource scene src uuid st = Run (Normal None) st [].
Proof.
  intros Hr. split; [by eapply reachable_acyclic|].
  intros scene src uuid [model Hk] Hcycle. rewrite addSource_run, Hk.
  destruct (canAddSource st scene src) eqn:Hok; [|done].
  apply canAddSource_spec in Hok. naive_solver.
Qed.

End SceneNodes.
