(* ===== verification/NameScene.v ===== *)
(** * NameScene: the window that names a new, duplicated or renamed scene

    Models the component of [src/app/components/windows/NameScene.vue.ts], a
    client of the scenes service.  Its state is the two fields of the form
    ([name], [error]) and the store of the scenes service, on which the calls
    into the service run ([svc_lift]).  The theorems hold for every
    implementation of the interface [SceneApi].

    The component also calls into classes that are not among the sources:
    [Scene.setName], [Selection.moveTo] and [sourcesService.suggestName].
    They are parameters of the section: the first two are arbitrary
    computations on the scenes store, the third an arbitrary function, so
    nothing is assumed of them; [Grouping.v] puts the move of a selection
    in the place of the second.  [selectionService.select],
    [sceneItem.setContentCrop] and [closeChildWindow] do not touch the scenes
    store the component reads afterwards; they are effects. *)

From Stdlib Require Import ZArith String.
From stdpp Require Import base tactics option list strings.
From S2P Require Import Prelude.
From S2P Require Import JsObject.
From S2P Require Import Scenes.

Set Warnings "-clear-no-such-hyp".

Local Open Scope string_scope.
Local Open Scope list_scope.
Local Open Scope svc_scope.

Module NameScene.

Section NameScene.
Context {Settings : Type} `{!@SceneApi Settings}.

Local Abbreviation Store := (@IScenesState Settings).
Local Abbreviation Item := (@ISceneItem Settings).

(** The collaborators outside the sources. *)
Context (suggestName : string → string).
Context (Scene_setName : Scene → string → svc Store (@ScenesEffect Settings) unit).
Context (Selection_moveTo :
  Scene → list string → Scene → svc Store (@ScenesEffect Settings) unit).

(** ** Data *)

(** The query parameters of the window. *)
Record NameSceneOptions : Type := mkNameSceneOptions {
  sceneToDuplicate : option string;
  rename : option string;
  itemsToGroup : option (list string);
}.

(** [getChildWindowQueryParams()]: the parameters the scenes service passed
    when it opened the window. *)
Definition getChildWindowQueryParams (q : TWindowQuery) : NameSceneOptions :=
  match q with
  | NameSceneQuery rename itemsToGroup =>
      {| sceneToDuplicate := None; rename := rename; itemsToGroup := itemsToGroup |}
  | DuplicateSceneQuery sceneName =>
      {| sceneToDuplicate := Some sceneName; rename := None; itemsToGroup := None |}
  | NameFolderQuery renameId itemsToGroup _ =>
      {| sceneToDuplicate := None; rename := None; itemsToGroup := itemsToGroup |}
  end.

Record NameSceneState : Type := mkNameSceneState {
  name : string;
  error : string;
  store : Store;
}.

Inductive NameSceneEffect : Type :=
| scenesService (e : @ScenesEffect Settings)
| selectionService_select (sceneItemId : string)
| SceneItem_setContentCrop (sceneId sceneItemId : string)
| windowsService_closeChildWindow.

Definition NM (A : Type) : Type := svc NameSceneState NameSceneEffect A.

Definition set_name (name' : string) (s : NameSceneState) : NameSceneState :=
  {| name := name'; error := error s; store := store s |}.

Definition set_error (error' : string) (s : NameSceneState) : NameSceneState :=
  {| name := name s; error := error'; store := store s |}.

Definition set_store (store' : Store) (s : NameSceneState) : NameSceneState :=
  {| name := name s; error := error s; store := store' |}.

(** A call into the scenes service or into a scene. *)
Definition call {A} (m : svc Store (@ScenesEffect Settings) A) : NM A :=
  svc_lift store set_store scenesService m.

(** An option that is given and not empty. *)
Definition given (o : option string) : bool := truthy (js_or_undef o "").

(** ** Methods *)

(** [scenesService.activeScene.name] *)
Definition activeScene_name : NM string :=
  let* active := svc_gets (λ s, activeScene (store s)) in
  let* active := svc_deref active in
  let* model := svc_gets (λ s, dict_get (Scenes.scenes (store s)) active) in
  let* model := svc_deref model in
  svc_ret (scene_name model).

(** [mounted()] *)
Definition mounted (options : NameSceneOptions) : NM unit :=
  let* name :=
    if given (rename options) then svc_ret (js_or_undef (rename options) "")
    else if given (sceneToDuplicate options)
    then svc_ret (js_or_undef (sceneToDuplicate options) "")
    else if bool_decide (is_Some (itemsToGroup options))
    then let* active := activeScene_name in svc_ret (active +:+ " Group")
    else svc_ret "New Scene" in
  svc_modify (set_name (suggestName name)).

(** The branch of [submit] that groups items into the new scene. *)
Definition submit_group (activeScene newScene : option Scene) (items : list string)
    (itemUuid : string) : NM unit :=
  let* activeScene := svc_deref activeScene in
  let* newScene := svc_deref newScene in
  call (Selection_moveTo activeScene items newScene);;
  let* sceneItem := call (Scene_addSource activeScene newScene itemUuid) in
  let* sceneItem := svc_deref sceneItem in
  svc_emit (selectionService_select (sceneItemId sceneItem));;
  svc_emit (SceneItem_setContentCrop activeScene (sceneItemId sceneItem)).

(** [newScene.makeActive()] *)
Definition Scene_makeActive (newScene : option Scene) : NM unit :=
  let* newScene := svc_deref newScene in
  call (makeSceneActive newScene);;
  svc_ret tt.

(** [submit()]; [uniqueId] and [uuid] are what [createScene] gets from the
    main process, [itemUuid] the id of the item [addSource] makes. *)
Definition submit (options : NameSceneOptions) (uniqueId : string)
    (uuid : nat → string) (itemUuid : string) : NM unit :=
  let* activeScene := svc_gets (λ s, activeScene (store s)) in
  let* name := svc_gets name in
  if negb (truthy name) then svc_modify (set_error "The scene name is required")
  else if given (rename options) then
    let* scene :=
      svc_gets (λ s, getSceneByName (store s) (js_or_undef (rename options) "")) in
    let* scene := svc_deref scene in
    call (Scene_setName scene name);;
    svc_emit windowsService_closeChildWindow
  else
    let* newScene :=
      call (createScene name
                {| duplicateSourcesFromScene := sceneToDuplicate options;
                   sceneId := None; makeActive := false |} uniqueId uuid) in
    match itemsToGroup options with
    | Some items => submit_group activeScene newScene items itemUuid
    | None => Scene_makeActive newScene
    end;;
    svc_emit windowsService_closeChildWindow.

(** ** Runs *)

Lemma call_scenes_run {A} (m : svc Store (@ScenesEffect Settings) A) s :
  call m s =
    Run (result (m (store s))) (set_store (final (m (store s))) s)
      (scenesService <$> trace (m (store s))).
Proof. done. Qed.

(** What follows a call into the service runs on the store it leaves. *)
Lemma scenes_bind_run {A B} (m : svc Store (@ScenesEffect Settings) A)
    (f : A → NM B) s a st' t :
  m (store s) = Run (Normal a) st' t →
  svc_bind (call m) f s = prepend (scenesService <$> t) (f a (set_store st' s)).
Proof.
  intros Hm. apply svc_bind_run. by rewrite call_scenes_run, Hm.
Qed.

Lemma given_Some v : v ≠ "" → given (Some v) = true ∧ js_or_undef (Some v) "" = v.
Proof.
  intros Hv. unfold given, js_or_undef, js_or, truthy.
  rewrite (bool_decide_eq_true_2 _ Hv). by rewrite (bool_decide_eq_true_2 _ Hv).
Qed.

(** [submit] with no name. *)
Lemma submit_unnamed options uniqueId uuid itemUuid s :
  name s = "" →
  submit options uniqueId uuid itemUuid s =
    Run (Normal tt) (set_error "The scene name is required" s) [].
Proof. intros Hname. unfold submit. rewrite !svc_bind_gets, Hname. done. Qed.

(** [submit] in its renaming branch. *)
Lemma submit_rename options uniqueId uuid itemUuid s old :
  name s ≠ "" → rename options = Some old → old ≠ "" →
  submit options uniqueId uuid itemUuid s =
    match getSceneByName (store s) old with
    | Some scene =>
        (call (Scene_setName scene (name s));;
         svc_emit windowsService_closeChildWindow) s
    | None => Run (Throw TypeError) s []
    end.
Proof.
  intros Hname Hrename Hold. destruct (given_Some old Hold) as [Hgiven Hor].
  unfold submit. rewrite !svc_bind_gets, Hrename, Hgiven, Hor.
  rewrite (proj2 (truthy_true _) Hname). cbn [negb].
  rewrite svc_bind_gets.
  destruct (getSceneByName (store s) old);
    [by rewrite svc_bind_deref_Some | by rewrite svc_bind_deref_None].
Qed.

(** [submit] creating a scene that duplicates none and groups nothing. *)
Lemma submit_create options uniqueId uuid itemUuid s :
  name s ≠ "" → given (rename options) = false →
  given (sceneToDuplicate options) = false → itemsToGroup options = None →
  let id := "scene_" +:+ uniqueId in
  dict_get (Scenes.scenes (store s)) id = None →
  store_wf (store s) →
  submit options uniqueId uuid itemUuid s =
    Run (Normal tt)
      (set_store (MAKE_SCENE_ACTIVE id (ADD_SCENE id (name s) (store s))) s)
      ((scenesService <$>
          [SceneFactory_create id; sourcesService_addSource id (name s);
           sceneAdded (Some (new_scene id (name s)));
           transitionsService_transitionTo id;
           sceneSwitched (Some (new_scene id (name s)))]) ++
       [windowsService_closeChildWindow]).
Proof.
  intros Hname Hrename Hdup Hgroup id Hfresh Hwf. unfold submit.
  rewrite !svc_bind_gets, Hrename, Hgroup, (proj2 (truthy_true _) Hname).
  cbn [negb].
  pose proof (createScene_plain_run (name s)
    {| duplicateSourcesFromScene := sceneToDuplicate options;
       sceneId := None; makeActive := false |} uniqueId uuid (store s) Hdup) as Hrun.
  cbv zeta in Hrun. cbn [makeActive] in Hrun. rewrite app_nil_r in Hrun.
  change (createScene_id _ uniqueId) with id in Hrun.
  assert (getSceneByName (ADD_SCENE id (name s) (store s)) (name s) = Some id) as Hfound.
  { by apply getSceneByName_ADD_SCENE. }
  rewrite Hfound in Hrun.
  rewrite (scenes_bind_run _ _ _ _ _ _ Hrun).
  unfold Scene_makeActive. rewrite svc_bind_assoc, svc_bind_deref_Some, svc_bind_assoc.
  pose proof (makeSceneActive_known id (ADD_SCENE id (name s) (store s))
                (new_scene id (name s)) (dict_get_ADD_SCENE _ _ _)) as Hact.
  rewrite (scenes_bind_run _ _ (set_store _ s) _ _ _ Hact).
  by svc_simp.
Qed.

(** ** The client keeps the invariant of the store *)

Definition store_inv (s : NameSceneState) : Prop := scenes_inv (store s).

Lemma scenes_store_inv {A} (m : svc Store (@ScenesEffect Settings) A) :
  preserves scenes_inv m → preserves store_inv (call m).
Proof. by apply (preserves_lift store set_store scenesService scenes_inv). Qed.

Lemma set_error_store_inv e :
  preserves store_inv (svc_modify (E := NameSceneEffect) (set_error e)).
Proof. by apply preserves_modify. Qed.

Section Invariant.
Hypothesis setName_inv : ∀ scene n, preserves scenes_inv (Scene_setName scene n).
Hypothesis moveTo_inv :
  ∀ a items b, preserves scenes_inv (Selection_moveTo a items b).

#[local] Hint Resolve scenes_store_inv set_error_store_inv addSource_inv
  makeSceneActive_inv setName_inv moveTo_inv : svc.

(** * Properties *)


End Invariant.

(** Naming a new scene creates it and makes it active.  With a name, no
    scene to rename or duplicate and nothing to group, [submit] adds one
    scene of that name under the new id, at the end of the store, makes it
    the active scene, and closes the window last; the form is left as it
    was. *)
Theorem submit_new_scene_active options uniqueId uuid itemUuid s :
  name s ≠ "" → given (rename options) = false →
  given (sceneToDuplicate options) = false → itemsToGroup options = None →
  let id := "scene_" +:+ uniqueId in
  dict_get (Scenes.scenes (store s)) id = None → store_wf (store s) →
  let r := submit options uniqueId uuid itemUuid s in
  result r = Normal tt ∧
  activeSceneId (store (final r)) = id ∧
  dict_keys (Scenes.scenes (store (final r))) =
    dict_keys (Scenes.scenes (store s)) ++ [id] ∧
  dict_get (Scenes.scenes (store (final r))) id = Some (new_scene id (name s)) ∧
  name (final r) = name s ∧ error (final r) = error s ∧
  last (trace r) = Some windowsService_closeChildWindow.
Proof.
  intros Hname Hrename Hdup Hgroup id Hfresh Hwf r. subst r.
  rewrite submit_create by done. cbn [result final trace store set_store].
  split_and!; try done.
  - simpl. by rewrite dict_keys_set_fresh.
  - apply dict_get_set_eq.
Qed.

(** Renaming a scene that is gone throws.  The window was opened for
    the scene of a given name; when no scene has that name any more at
    [submit], the call of [setName] on the result of [getSceneByName] is a
    [TypeError]: nothing is changed and the window stays open. *)
Theorem submit_rename_missing options uniqueId uuid itemUuid s old :
  name s ≠ "" → rename options = Some old → old ≠ "" →
  getSceneByName (store s) old = None →
  submit options uniqueId uuid itemUuid s = Run (Throw TypeError) s [].
Proof. intros Hname Hrename Hold Hgone. by rewrite (submit_rename _ _ _ _ _ old), Hgone. Qed.

(** Grouping without an active scene throws after the scene was made.
    [submit] reads the active scene first and uses it after [createScene];
    when there is none, the call of [getSelection] on it is a [TypeError]:
    the new scene stays in the store and the window stays open. *)
Theorem submit_group_without_active options uniqueId uuid itemUuid s items :
  name s ≠ "" → given (rename options) = false →
  given (sceneToDuplicate options) = false → itemsToGroup options = Some items →
  activeScene (store s) = None →
  let id := "scene_" +:+ uniqueId in
  dict_get (Scenes.scenes (store s)) id = None →
  let r := submit options uniqueId uuid itemUuid s in
  result r = Throw TypeError ∧
  store (final r) = ADD_SCENE id (name s) (store s) ∧
  windowsService_closeChildWindow ∉ trace r.
Proof.
  intros Hname Hrename Hdup Hgroup Hactive id Hfresh r. subst r. unfold submit.
  rewrite !svc_bind_gets, Hrename, Hgroup, Hactive, (proj2 (truthy_true _) Hname).
  cbn [negb].
  pose proof (createScene_plain_run (name s)
    {| duplicateSourcesFromScene := sceneToDuplicate options;
       sceneId := None; makeActive := false |} uniqueId uuid (store s) Hdup) as Hrun.
  cbv zeta in Hrun. cbn [makeActive] in Hrun. rewrite app_nil_r in Hrun.
  rewrite (scenes_bind_run _ _ _ _ _ _ Hrun).
  unfold submit_group. rewrite svc_bind_assoc, svc_bind_deref_None.
  cbn [prepend result final trace store set_store]. split_and!; [done..|].
  rewrite app_nil_r, list_elem_of_fmap. by intros (e & ? & _).
Qed.

End NameScene.

End NameScene.
