(* ===== verification/Scenarios.v ===== *)
(** * Scenarios: the service run on concrete stores

    The scenes service of [Scenes.v] on the nodes of [SceneNodes.v], with a
    small settings record, run on the stores the API tests of the
    repository build ([src/unnamed/part_000]).  Each scenario is evaluated by
    the kernel, and each test is also given as the sequence of its calls,
    which ends in the values the test asserts.  The file also instantiates the theorems of the service, and
    those of the window of [NameScene.v], at these stores. *)

From stdpp Require Import base tactics option list strings relations pretty.
From S2P Require Import Prelude JsObject Scenes SceneNodes NameScene.

Local Open Scope string_scope.
Local Open Scope list_scope.
Local Open Scope nat_scope.

(** ** The store of the tests *)

(** What the tests read of an item's settings. *)
Record ItemSettings : Type := mkItemSettings {
  visible : bool;
  locked : bool;
}.

Definition default_item_settings : ItemSettings :=
  {| visible := true; locked := false |}.

#[local] Instance test_api : @SceneApi ItemSettings :=
  SceneNodesApi default_item_settings.

Definition test_uuid (k : nat) : string := "item" +:+ pretty k.

Definition no_options : ISceneCreateOptions :=
  {| duplicateSourcesFromScene := None; sceneId := None; makeActive := false |}.

(** Runs calls one after the other, collecting the events. *)
Fixpoint exec (calls : list (@Call ItemSettings)) (st : IScenesState) :
    IScenesState * list ScenesEffect :=
  match calls with
  | [] => (st, [])
  | c :: calls' =>
      let r := call c st in
      let r' := exec calls' (final r) in
      (r'.1, trace r ++ r'.2)
  end.

(** Every call of the sequence is one the callers may make. *)
Fixpoint all_allowed (calls : list (@Call ItemSettings)) (st : IScenesState) : Prop :=
  match calls with
  | [] => True
  | c :: calls' => allowed st c ∧ all_allowed calls' (final (call c st))
  end.

(** The names of the scenes, as [getScenes().map(scene => scene.name)]. *)
Definition scene_names (st : @IScenesState ItemSettings) : list string :=
  omap (λ id, scene_name <$> dict_get (scenes st) id) (displayOrder st).

(** The sources of the items of a scene, as the tests read the names of
    [getItems()]. *)
Definition item_sources (st : @IScenesState ItemSettings) (scene : string) :
    list string :=
  sourceId <$> Scene_getItems st scene.

(** The application starts with one scene, named [Scene]. *)
Definition default_store : @IScenesState ItemSettings :=
  (exec [CreateScene "Scene" no_options "1" test_uuid] initialState).1.

(** ** Sequences of calls *)

Lemma exec_inv calls st :
  all_allowed calls st → scenes_inv st → scenes_inv (exec calls st).1.
Proof.
  revert st. induction calls as [|c calls IH]; intros st; [done|].
  intros [Hc Hrest] Hinv. simpl. apply IH; [done|]. by apply call_inv.
Qed.

Lemma exec_reachable calls st :
  all_allowed calls st → reachable st → reachable (exec calls st).1.
Proof.
  revert st. induction calls as [|c calls IH]; intros st; [done|].
  intros [Hc Hrest] Hr. simpl. apply IH; [done|].
  eapply rtc_r; [done|]. by constructor.
Qed.

Lemma default_store_inv : scenes_inv default_store.
Proof. apply exec_inv; [by vm_compute | apply initialState_inv]. Qed.

(** ** The API tests *)

(** "The default scene exists" *)
Example default_scene_exists :
  length (scenes_getter default_store) = 1 ∧
  scene_names default_store = ["Scene"] ∧
  activeSceneId default_store = "scene_1".
Proof. by vm_compute. Qed.

(** "Creating, fetching and removing scenes" *)
Example creating_and_removing_scenes :
  let st1 := (exec [CreateScene "Scene2" no_options "2" test_uuid] default_store).1 in
  let st2 := (exec [RemoveScene "scene_2" false] st1).1 in
  result (createScene "Scene2" no_options "2" test_uuid default_store) =
    Normal (Some "scene_2") ∧
  scene_names st1 = ["Scene"; "Scene2"] ∧
  scene_names st2 = ["Scene"].
Proof. by vm_compute. Qed.

(** "Switching between scenes" *)
Example switching_between_scenes :
  let st1 := (exec [CreateScene "Scene2" no_options "2" test_uuid] default_store).1 in
  let st2 := (exec [MakeSceneActive "scene_2"] st1).1 in
  let st3 := (exec [RemoveScene "scene_2" false] st2).1 in
  getSceneByName default_store "Scene" = Some (activeSceneId st1) ∧
  activeSceneId st2 = "scene_2" ∧
  getSceneByName default_store "Scene" = Some (activeSceneId st3).
Proof. by vm_compute. Qed.

(** "Creating, fetching and removing scene-items" *)
Example creating_and_removing_items :
  let st1 := (exec [AddSource "scene_1" "Image1" "item1";
                    AddSource "scene_1" "Image2" "item2"] default_store).1 in
  let st2 := (exec [RemoveItem "scene_1" "item2"] st1).1 in
  item_sources st1 "scene_1" = ["Image2"; "Image1"] ∧
  item_sources st2 "scene_1" = ["Image1"].
Proof. by vm_compute. Qed.

(** "Scenes events": the events of the whole test, in order. *)
Example scenes_events :
  ∃ scene2 scene3 image hidden,
    filter (λ e, is_subject_event e)
      (exec [CreateScene "Scene2" no_options "2" test_uuid;
             CreateScene "Scene3" no_options "3" test_uuid;
             MakeSceneActive "scene_2";
             RemoveScene "scene_3" false;
             AddSource "scene_2" "image" "item1";
             SetSettings "scene_2" "item1" {| visible := false; locked := false |};
             RemoveItem "scene_2" "item1"] default_store).2 =
    [sceneAdded (Some scene2); sceneAdded (Some scene3);
     sceneSwitched (Some scene2); sceneRemoved (Some scene3);
     itemAdded image; itemUpdated hidden; itemRemoved hidden] ∧
    scene_name scene2 = "Scene2" ∧ scene_name scene3 = "Scene3" ∧
    sceneItemId image = "item1" ∧ visible (item_settings hidden) = false.
Proof. do 4 eexists. split; [by vm_compute | done]. Qed.

(** "Creating nested scenes": scene A shows B and C shows A, so A may not
    show C. *)
Example creating_nested_scenes :
  let st1 := (exec [CreateScene "SceneA" no_options "A" test_uuid;
                    CreateScene "SceneB" no_options "B" test_uuid;
                    CreateScene "SceneC" no_options "C" test_uuid;
                    AddSource "scene_A" "scene_B" "item1"] default_store).1 in
  let st2 := (exec [AddSource "scene_C" "scene_A" "item2"] st1).1 in
  let r := Scene_addSource "scene_A" "scene_C" "item3" st2 in
  item_sources st1 "scene_A" = ["scene_B"] ∧
  item_sources st2 "scene_C" = ["scene_A"] ∧
  result r = Normal None ∧ final r = st2 ∧
  item_sources (final r) "scene_A" = ["scene_B"].
Proof. by vm_compute. Qed.

(** ** The tests as sequences of calls *)

(** "Creating, fetching and removing scenes" *)
Definition creating_scenes_test : list (@Call ItemSettings) :=
  [CreateScene "Scene2" no_options "2" test_uuid; RemoveScene "scene_2" false].

(** "Switching between scenes" *)
Definition switching_test : list (@Call ItemSettings) :=
  [CreateScene "Scene2" no_options "2" test_uuid; MakeSceneActive "scene_2";
   RemoveScene "scene_2" false].

(** "Creating, fetching and removing scene-items" *)
Definition scene_items_test : list (@Call ItemSettings) :=
  [AddSource "scene_1" "Image1" "item1"; AddSource "scene_1" "Image2" "item2";
   RemoveItem "scene_1" "item2"].

(** "Scenes events" *)
Definition scenes_events_test : list (@Call ItemSettings) :=
  [CreateScene "Scene2" no_options "2" test_uuid;
   CreateScene "Scene3" no_options "3" test_uuid;
   MakeSceneActive "scene_2";
   RemoveScene "scene_3" false;
   AddSource "scene_2" "image" "item1";
   SetSettings "scene_2" "item1" {| visible := false; locked := false |};
   RemoveItem "scene_2" "item1"].

(** "Creating nested scenes" *)
Definition nested_scenes_test : list (@Call ItemSettings) :=
  [CreateScene "SceneA" no_options "A" test_uuid;
   CreateScene "SceneB" no_options "B" test_uuid;
   CreateScene "SceneC" no_options "C" test_uuid;
   AddSource "scene_A" "scene_B" "item1";
   AddSource "scene_C" "scene_A" "item2";
   AddSource "scene_A" "scene_C" "item3"].

(** Every test leaves the store as the service keeps it: the invariant
    holds after each call of each test. *)
Lemma tests_keep_invariant :
  Forall (λ test, ∀ n, scenes_inv (exec (take n test) default_store).1)
    [creating_scenes_test; switching_test; scene_items_test; scenes_events_test;
     nested_scenes_test].
Proof.
  repeat apply Forall_cons_2; [..|apply Forall_nil_2]; intros n;
    (apply exec_inv; [|apply default_store_inv]);
    do 8 (destruct n as [|n]; [by vm_compute|]); by vm_compute.
Qed.

(** The tests end as they assert. *)
Example tests_end_as_asserted :
  scene_names (exec creating_scenes_test default_store).1 = ["Scene"] ∧
  activeSceneId (exec switching_test default_store).1 = "scene_1" ∧
  item_sources (exec scene_items_test default_store).1 "scene_1" = ["Image1"] ∧
  length (filter (λ e, is_subject_event e) (exec scenes_events_test default_store).2) = 7 ∧
  item_sources (exec nested_scenes_test default_store).1 "scene_A" = ["scene_B"].
Proof. by vm_compute. Qed.

(** ** The theorems of the service at the stores of the tests *)

(** Two scenes, the first one active. *)
Definition two_scenes : @IScenesState ItemSettings :=
  (exec [CreateScene "Scene2" no_options "2" test_uuid] default_store).1.

(** The first scene with two images. *)
Definition items_store : @IScenesState ItemSettings :=
  (exec [AddSource "scene_1" "Image1" "item1";
         AddSource "scene_1" "Image2" "item2"] default_store).1.

(** Scene A shows B, and C shows A. *)
Definition nested_store : @IScenesState ItemSettings :=
  (exec [CreateScene "SceneA" no_options "A" test_uuid;
         CreateScene "SceneB" no_options "B" test_uuid;
         CreateScene "SceneC" no_options "C" test_uuid;
         AddSource "scene_A" "scene_B" "item1";
         AddSource "scene_C" "scene_A" "item2"] default_store).1.

Definition duplicate_options : ISceneCreateOptions :=
  {| duplicateSourcesFromScene := Some "Scene"; sceneId := None; makeActive := true |}.

Definition missing_options : ISceneCreateOptions :=
  {| duplicateSourcesFromScene := Some "Nowhere"; sceneId := None; makeActive := false |}.

Lemma two_scenes_inv : scenes_inv two_scenes.
Proof. apply exec_inv; [by vm_compute | apply default_store_inv]. Qed.

Lemma items_store_inv : scenes_inv items_store.
Proof. apply exec_inv; [by vm_compute | apply default_store_inv]. Qed.

Lemma nested_store_inv : scenes_inv nested_store.
Proof. apply exec_inv; [by vm_compute | apply default_store_inv]. Qed.

Lemma nested_store_reachable : reachable nested_store.
Proof. do 2 (apply exec_reachable; [by vm_compute|]). apply rtc_refl. Qed.

Lemma reachable_inv_witness : scenes_inv nested_store.
Proof. apply reachable_inv, nested_store_reachable. Defined.

Lemma cycle_freedom_witness :
  acyclic nested_store ∧
  Scene_addSource "scene_B" "scene_C" "item3" nested_store =
    Run (Normal None) nested_store [].
Proof.
  destruct (cycle_freedom default_item_settings nested_store nested_store_reachable)
    as [Hac Hrefuse].
  split; [done|]. apply Hrefuse; [compute_done|]. right.
  apply (tc_l _ _ "scene_A"); [|apply tc_once]; unfold nests; compute_done.
Defined.

Lemma removeScene_outcome_witness :
  result (removeScene "scene_2" false two_scenes) =
    Normal (Some (new_scene "scene_2" "Scene2")) ∧
  removeScene "scene_1" false default_store =
    Run (Normal None) default_store [alert "There needs to be at least one scene."] ∧
  removeScene "nowhere" false two_scenes = Run (Throw TypeError) two_scenes [].
Proof.
  rewrite !removeScene_outcome by (apply two_scenes_inv || apply default_store_inv).
  by vm_compute.
Defined.

Lemma removeScene_spec_witness :
  dict_keys (scenes (final (removeScene "scene_A" false nested_store))) =
    ["scene_1"; "scene_B"; "scene_C"] ∧
  Forall (λ item, sourceId item ≠ "scene_A")
    (Scene_getItems (final (removeScene "scene_A" false nested_store)) "scene_C").
Proof.
  destruct (removeScene_spec "scene_A" false nested_store
              {| scene_id := "scene_A"; scene_name := "SceneA";
                 scene_resourceId := "Scene" +:+ JSON_stringify_array1 "scene_A";
                 scene_nodes := [ItemNode (new_item default_item_settings
                                             "scene_A" "scene_B" "item1")] |})
    as (_ & _ & Hk & _ & _ & Hn & _).
  - apply nested_store_inv.
  - apply nested_store_inv.
  - by vm_compute.
  - right. vm_compute. lia.
  - split; [by rewrite Hk | apply Hn].
Defined.

Lemma createScene_plain_witness :
  createScene "Scene2" no_options "2" test_uuid default_store =
    Run (Normal (Some "scene_2")) two_scenes
      [SceneFactory_create "scene_2"; sourcesService_addSource "scene_2" "Scene2";
       sceneAdded (Some (new_scene "scene_2" "Scene2"))].
Proof.
  rewrite (createScene_plain "Scene2" no_options "2" test_uuid default_store);
    by vm_compute.
Defined.

Lemma createScene_unknown_source_witness :
  createScene "Scene2" missing_options "2" test_uuid default_store =
    Run (Throw TypeError) (ADD_SCENE "scene_2" "Scene2" default_store)
      [SceneFactory_create "scene_2"; sourcesService_addSource "scene_2" "Scene2"].
Proof.
  by apply (createScene_unknown_source "Scene2" missing_options "2" test_uuid
              default_store).
Defined.

Lemma createScene_duplicates_witness :
  let r := createScene "Copy" duplicate_options "2" test_uuid items_store in
  result r = Normal (Some "scene_2") ∧
  Forall2 (copy_of "scene_2") (Scene_getItems items_store "scene_1")
    (Scene_getItems (final r) "scene_2") ∧
  sceneItemId <$> Scene_getItems (final r) "scene_2" = ["item1"; "item0"].
Proof.
  destruct (createScene_duplicates "Copy" duplicate_options "2" test_uuid
              items_store "Scene" "scene_1") as (Hr & Hc & Hi & _).
  - apply items_store_inv.
  - by vm_compute.
  - apply unshown_alt. compute_done.
  - done.
  - done.
  - done.
  - by vm_compute.
  - compute_done.
  - by split_and!.
Defined.

Lemma getSceneItem_flat_witness :
  result (getSceneItem "item1" items_store) =
    Normal (Some (new_item default_item_settings "scene_1" "Image1" "item1")).
Proof.
  rewrite (proj2 (getSceneItem_flat "item1" items_store (proj1 items_store_inv))).
  by vm_compute.
Defined.

Lemma getSourceScenes_spec_witness :
  result (getSourceScenes "scene_A" nested_store) = Normal ["scene_C"].
Proof.
  rewrite (getSourceScenes_spec "scene_A" nested_store (proj1 nested_store_inv)).
  by vm_compute.
Defined.

Lemma setSceneOrder_unchecked_witness :
  result (getSceneItems (final (setSceneOrder ["scene_1"; "nowhere"] default_store))) =
    Throw TypeError.
Proof.
  destruct (setSceneOrder_unchecked ["scene_1"; "nowhere"] default_store "nowhere")
    as [Hset Hget]; [compute_done | by vm_compute |].
  rewrite Hset. cbn [final]. by rewrite Hget.
Defined.

Lemma createScene_removeScene_active_witness :
  activeSceneId
    (final (removeScene "scene_2" false
       (final (createScene "Scene2" no_options "2" test_uuid default_store)))) =
  "scene_1".
Proof.
  destruct (createScene_removeScene_active "Scene2" no_options "2" test_uuid
              default_store) as (_ & _ & Ha);
    [apply default_store_inv | by vm_compute..|].
  etrans; [exact Ha | by vm_compute].
Defined.

Lemma forced_removal_stale_active_witness :
  activeScene
    (final (createScene "Scene2" no_options "2" test_uuid
       (final (removeScene "scene_1" true default_store)))) = None.
Proof.
  destruct (forced_removal_stale_active "scene_1" (new_scene "scene_1" "Scene")
              default_store "Scene2" no_options "2" test_uuid)
    as (_ & _ & _ & Hnone); [..|exact Hnone];
    try apply default_store_inv; by vm_compute.
Defined.

(** ** The window that names a scene *)

(** The window over the default store, with the name typed in; the
    operations outside the sources do nothing here. *)
Definition naming (name : string) : @NameScene.NameSceneState ItemSettings :=
  {| NameScene.name := name; NameScene.error := ""; NameScene.store := default_store |}.

Definition no_setName (scene : Scene) (name : string) :
    svc (@IScenesState ItemSettings) (@ScenesEffect ItemSettings) unit := svc_ret tt.

Definition no_moveTo (a : Scene) (items : list string) (b : Scene) :
    svc (@IScenesState ItemSettings) (@ScenesEffect ItemSettings) unit := svc_ret tt.

Definition new_scene_options : NameScene.NameSceneOptions :=
  NameScene.mkNameSceneOptions None None None.

Definition rename_options : NameScene.NameSceneOptions :=
  NameScene.mkNameSceneOptions None (Some "Gone") None.


Lemma submit_new_scene_active_witness :
  activeSceneId (NameScene.store (final (NameScene.submit no_setName no_moveTo new_scene_options "2"
                                 test_uuid "item9" (naming "Intro")))) = "scene_2".
Proof.
  by destruct (NameScene.submit_new_scene_active no_setName no_moveTo new_scene_options "2"
                 test_uuid "item9" (naming "Intro")) as (_ & H & _);
    [..|apply default_store_inv|].
Defined.

Lemma submit_rename_missing_witness :
  NameScene.submit no_setName no_moveTo rename_options "2" test_uuid "item9" (naming "Intro") =
    Run (Throw TypeError) (naming "Intro") [].
Proof. by apply (NameScene.submit_rename_missing _ _ _ _ _ _ _ "Gone"). Defined.

(** The window opened to group an item while the store has no scene. *)
Definition group_options : NameScene.NameSceneOptions :=
  NameScene.mkNameSceneOptions None None (Some ["item1"]).

Definition naming_nothing : @NameScene.NameSceneState ItemSettings :=
  {| NameScene.name := "Group"; NameScene.error := ""; NameScene.store := initialState |}.

Lemma submit_group_without_active_witness :
  let r := NameScene.submit no_setName no_moveTo group_options "2" test_uuid "item9"
             naming_nothing in
  result r = Throw TypeError ∧
  NameScene.store (final r) = ADD_SCENE "scene_2" "Group" initialState ∧
  NameScene.windowsService_closeChildWindow ∉ trace r.
Proof.
  by apply (NameScene.submit_group_without_active no_setName no_moveTo group_options "2"
              test_uuid "item9" naming_nothing ["item1"]).
Defined.

(** ** A name for a new source *)

(** A naming helper: the name, or the name with a number when it is taken. *)
Definition test_helper (name : string) (test : string → completion bool) :
    completion string :=
  match test name with
  | Normal false => Normal name
  | Normal true =>
      match test (name +:+ " 1") with
      | Normal false => Normal (name +:+ " 1")
      | Normal true => Throw (JsErrorMsg "no free name")
      | Throw e => Throw e
      end
  | Throw e => Throw e
  end.

Lemma test_helper_sound test n r : test_helper n test = Normal r → test r = Normal false.
Proof.
  unfold test_helper. destruct (test n) as [[]|] eqn:Hn; [|by intros [= <-]|done].
  destruct (test (n +:+ " 1")) as [[]|] eqn:Hn1; [done|by intros [= <-]|done].
Qed.

(** In the scene with Image1 and Image2 the name Image1 is taken. *)
Example suggestName_example :
  result (suggestName test_helper (λ src, src) "Image1" items_store) = Normal "Image1 1" ∧
  result (suggestName test_helper (λ src, src) "Image3" items_store) = Normal "Image3" ∧
  result (suggestName test_helper (λ src, src) "Image1" (@initialState ItemSettings)) =
    Throw TypeError.
Proof. by vm_compute. Qed.

