(* ===== verification/Streaming.v ===== *)
(** * StreamingService: the streaming and recording status machine

    Models [StreamingService] of [src/app/services/selection/selection-api.ts]
    (the second document of that file, lines 177-498).  The service keeps two
    status fields.  They change in one place only: [handleOBSOutputSignal],
    which the output engine calls back with a signal.  The user's commands,
    [toggleStreaming] and [toggleRecording], read the status and call into
    the engine; they never write it.

    The state of the model is the store slice together with the one field
    the class keeps outside the store, [powerSaveId].  What the code reads
    from outside is a parameter of the operation that reads it: the settings
    ([StreamSettings]), the user's answer to [confirm], the id the power-save
    blocker hands out, and the clock.  Instants are milliseconds since the
    epoch ([Date.prototype.toISOString] and [moment(...)] are inverse to each
    other on them), so [streamingStatusTime] is an integer here. *)

From Stdlib Require Import ZArith Lia Ascii String.
From stdpp Require Import base tactics option list strings pretty relations.
From S2P Require Import Prelude.

Set Warnings "-clear-no-such-hyp".

Local Open Scope string_scope.
Local Open Scope list_scope.
Local Open Scope Z_scope.
Local Open Scope svc_scope.

Module Streaming.

(** ** Data *)

Inductive EStreamingState : Type :=
| Offline | Starting | Live | Ending | Reconnecting.

Inductive ERecordingState : Type :=
| RecOffline | RecStarting | Recording | Stopping.

Inductive EOBSOutputType : Type :=
| OutStreaming | OutRecording.

Inductive EOBSOutputSignal : Type :=
| SigStarting | SigStart | SigStopping | SigStop | SigReconnect | SigReconnectSuccess.

(** The codes of the output engine.  [Success] is the number zero, the only
    code that is falsy; [OtherCode] stands for a non-zero code that the
    handler does not name. *)
Inductive EOutputCode : Type :=
| Success | BadPath | ConnectFailed | Disconnected | InvalidStream
| NoSpace | Unsupported | Error | OtherCode.

#[export] Instance EStreamingState_eq_dec : EqDecision EStreamingState.
Proof. solve_decision. Defined.
#[export] Instance ERecordingState_eq_dec : EqDecision ERecordingState.
Proof. solve_decision. Defined.
#[export] Instance EOBSOutputType_eq_dec : EqDecision EOBSOutputType.
Proof. solve_decision. Defined.
#[export] Instance EOBSOutputSignal_eq_dec : EqDecision EOBSOutputSignal.
Proof. solve_decision. Defined.
#[export] Instance EOutputCode_eq_dec : EqDecision EOutputCode.
Proof. solve_decision. Defined.

Record IOBSOutputSignalInfo : Type := mkSignalInfo {
  info_type : EOBSOutputType;
  info_signal : EOBSOutputSignal;
  info_code : EOutputCode;
  info_error : string;
}.

Record IStreamingServiceState : Type := mkStreamingState {
  streamingStatus : EStreamingState;
  streamingStatusTime : Z;
  recordingStatus : ERecordingState;
  recordingStatusTime : Z;
}.

(** The service: its store slice and the [powerSaveId] field, which is
    [undefined] until the first stream starts. *)
Record Service : Type := mkService {
  state : IStreamingServiceState;
  powerSaveId : option Z;
}.

(** [initialState]; [now] is the instant the class is loaded. *)
Definition initialState (now : Z) : IStreamingServiceState :=
  {| streamingStatus := Offline;
     streamingStatusTime := now;
     recordingStatus := RecOffline;
     recordingStatusTime := now |}.

Definition initialService (now : Z) : Service :=
  {| state := initialState now; powerSaveId := None |}.

(** The settings the service reads: [settingsService.state.General] and
    [.Advanced]. *)
Record StreamSettings : Type := mkStreamSettings {
  WarnBeforeStartingStream : bool;
  RecordWhenStreaming : bool;
  WarnBeforeStoppingStream : bool;
  KeepRecordingWhenStreamStops : bool;
  DelayEnable : bool;
  DelaySec : Z;
}.

(** What the service does to the outside, in order. *)
Inductive StreamingEffect : Type :=
| confirm (text : string)
| powerSaveBlocker_start (type : string)
| powerSaveBlocker_stop (id : Z)
| OBS_service_startStreaming
| OBS_service_stopStreaming (force : bool)
| OBS_service_startRecording
| OBS_service_stopRecording
| streamingStatusChange (status : EStreamingState)
| recordingStatusChange (status : ERecordingState)
| recordEvent (event : string)
| alert (text : string)
| showWindow (componentName : string) (width height : Z)
| console_debug (info : IOBSOutputSignalInfo).

#[export] Instance IOBSOutputSignalInfo_eq_dec : EqDecision IOBSOutputSignalInfo.
Proof. solve_decision. Defined.
#[export] Instance StreamingEffect_eq_dec : EqDecision StreamingEffect.
Proof. solve_decision. Defined.

Definition M (A : Type) : Type := svc Service StreamingEffect A.

(** ** Mutations *)

(** [SET_STREAMING_STATUS(status, time?)]: the time is kept when none is
    given. *)
Definition SET_STREAMING_STATUS (status : EStreamingState) (time : option Z)
    (s : Service) : Service :=
  {| state :=
       {| streamingStatus := status;
          streamingStatusTime := default (streamingStatusTime (state s)) time;
          recordingStatus := recordingStatus (state s);
          recordingStatusTime := recordingStatusTime (state s) |};
     powerSaveId := powerSaveId s |}.

Definition SET_RECORDING_STATUS (status : ERecordingState) (time : Z)
    (s : Service) : Service :=
  {| state :=
       {| streamingStatus := streamingStatus (state s);
          streamingStatusTime := streamingStatusTime (state s);
          recordingStatus := status;
          recordingStatusTime := time |};
     powerSaveId := powerSaveId s |}.

(** ** Getters *)

(** [getModel()] *)
Definition getModel (s : Service) : IStreamingServiceState := state s.

Definition isStreaming (s : Service) : bool :=
  bool_decide (streamingStatus (state s) ≠ Offline).

Definition isRecording (s : Service) : bool :=
  bool_decide (recordingStatus (state s) ≠ RecOffline).

(** ** Commands *)

Definition toggleRecording : M unit :=
  let* status := svc_gets (λ s, recordingStatus (state s)) in
  if decide (status = Recording) then svc_emit OBS_service_stopRecording
  else if decide (status = RecOffline) then svc_emit OBS_service_startRecording
  else svc_ret tt.

(** The deprecated [startRecording()] and [stopRecording()] *)
Definition startRecording : M unit := toggleRecording.

Definition stopRecording : M unit := toggleRecording.

(** [shouldConfirm && !confirm(text)]: the dialog is shown only when the
    setting asks for it; [answer] is what the user then answers. *)
Definition declined (shouldConfirm : bool) (text : string) (answer : bool) : M bool :=
  if shouldConfirm then svc_emit (confirm text);; svc_ret (negb answer)
  else svc_ret false.

(** [if (this.powerSaveId)]: an id that is [undefined] or zero is falsy. *)
Definition powerSaveId_truthy (id : option Z) : bool :=
  match id with
  | Some n => bool_decide (n ≠ 0)
  | None => false
  end.

(** The start of a stream: keep the display awake, start the output, and
    start recording with it when the settings say so.  [blockerId] is the id
    [powerSaveBlocker.start] returns. *)
Definition toggleStreaming_start (settings : StreamSettings) (blockerId : Z) : M unit :=
  svc_emit (powerSaveBlocker_start "prevent-display-sleep");;
  svc_modify (λ s, {| state := state s; powerSaveId := Some blockerId |});;
  svc_emit OBS_service_startStreaming;;
  let* recording := svc_gets (λ s, recordingStatus (state s)) in
  if RecordWhenStreaming settings && bool_decide (recording = RecOffline)
  then toggleRecording
  else svc_ret tt.

(** The stop of a stream: release the display, stop the output, and stop
    recording with it unless the settings say to keep it. *)
Definition toggleStreaming_stop (settings : StreamSettings) : M unit :=
  let* id := svc_gets powerSaveId in
  (if powerSaveId_truthy id
   then svc_emit (powerSaveBlocker_stop (default 0 id))
   else svc_ret tt);;
  svc_emit (OBS_service_stopStreaming false);;
  let* recording := svc_gets (λ s, recordingStatus (state s)) in
  if negb (KeepRecordingWhenStreamStops settings) &&
     bool_decide (recording = Recording)
  then toggleRecording
  else svc_ret tt.

(** [toggleStreaming()].  [answer] is the user's answer should a dialog be
    shown. *)
Definition toggleStreaming (settings : StreamSettings) (answer : bool)
    (blockerId : Z) : M unit :=
  let* status := svc_gets (λ s, streamingStatus (state s)) in
  if decide (status = Offline) then
    let* stop := declined (WarnBeforeStartingStream settings)
                   "Are you sure you want to start streaming?" answer in
    if stop then svc_ret tt else toggleStreaming_start settings blockerId
  else if decide (status = Starting ∨ status = Live) then
    let* stop := declined (WarnBeforeStoppingStream settings)
                   "Are you sure you want to stop streaming?" answer in
    if stop then svc_ret tt else toggleStreaming_stop settings
  else if decide (status = Ending) then
    svc_emit (OBS_service_stopStreaming true)
  else svc_ret tt.

(** The deprecated [startStreaming()] and [stopStreaming()] *)
Definition startStreaming : StreamSettings → bool → Z → M unit := toggleStreaming.

Definition stopStreaming : StreamSettings → bool → Z → M unit := toggleStreaming.

Definition showEditStreamInfo : M unit :=
  svc_emit (showWindow "EditStreamInfo" 500 400).

(** ** The delay countdown *)

(** [moment(...).unix()]: whole seconds since the epoch. *)
Definition unix (ms : Z) : Z := ms `div` 1000.

Definition delayEnabled (settings : StreamSettings) : bool := DelayEnable settings.

Definition delaySeconds (settings : StreamSettings) : Z := DelaySec settings.

(** [delaySecondsRemaining]; [now] is the clock. *)
Definition delaySecondsRemaining (settings : StreamSettings) (now : Z)
    (s : Service) : Z :=
  if negb (delayEnabled settings) then 0
  else if decide (streamingStatus (state s) = Starting ∨
                  streamingStatus (state s) = Ending) then
    let elapsedTime := unix now - unix (streamingStatusTime (state s)) in
    Z.max (delaySeconds settings - elapsedTime) 0
  else 0.

(** ** The time in the current state *)

(** The components of [moment.duration(ms)] the service reads.  The library
    carries whole units upwards, rounding towards zero; the days beyond a
    whole number of months (of 146097/4800 days) are what [days()] gives. *)
Definition duration_seconds (ms : Z) : Z := (ms `quot` 1000) `rem` 60.
Definition duration_minutes (ms : Z) : Z := (ms `quot` 60000) `rem` 60.
Definition duration_hours (ms : Z) : Z := (ms `quot` 3600000) `rem` 24.

(** [absCeil(n / d)] for a positive [d]: rounding away from zero. *)
Definition absCeil_quot (n d : Z) : Z :=
  if decide (n `rem` d = 0) then n `quot` d else n `quot` d + Z.sgn n.

Definition duration_days (ms : Z) : Z :=
  let days := ms `quot` 86400000 in
  let monthsFromDays := (days * 4800) `quot` 146097 in
  days - absCeil_quot (monthsFromDays * 146097) 4800.

(** [padStart(string, length, chars)] of lodash, for a single pad character. *)
Definition padStart (s : string) (n : nat) (c : ascii) : string :=
  string_of_list_ascii (replicate (n - String.length s) c) +:+ s.

(** [formattedDurationSince(timestamp)]; [now] is the clock. *)
Definition formattedDurationSince (timestamp now : Z) : string :=
  let duration := now - timestamp in
  let seconds := padStart (pretty (duration_seconds duration)) 2 "0" in
  let minutes := padStart (pretty (duration_minutes duration)) 2 "0" in
  let dayHours := duration_days duration * 24 in
  let hours := padStart (pretty (dayHours + duration_hours duration)) 2 "0" in
  hours +:+ ":" +:+ minutes +:+ ":" +:+ seconds.

Definition formattedDurationInCurrentStreamingState (now : Z) (s : Service) : string :=
  formattedDurationSince (streamingStatusTime (state s)) now.

(** ** The signal handler *)

(** The text [handleOBSOutputSignal] shows for a code. *)
Definition errorText (code : EOutputCode) (error : string) : string :=
  match code with
  | BadPath =>
      "Invalid Path or Connection URL.  Please check your settings to confirm that they are valid."
  | ConnectFailed =>
      "Failed to connect to the streaming server.  Please check your internet connection."
  | Disconnected =>
      "Disconnected from the streaming server.  Please check your internet connection."
  | InvalidStream =>
      "Could not access the specified channel or stream key, please double-check your stream key.  " +:+
      "If it is correct, there may be a problem connecting to the server."
  | NoSpace => "There is not sufficient disk space to continue recording."
  | Unsupported =>
      "The output format is either unsupported or does not support more than one audio track.  " +:+
      "Please check your settings and try again."
  | Error => "An unexpected error occurred: " +:+ error
  | Success | OtherCode => ""
  end.

Definition handleStreamingSignal (signal : EOBSOutputSignal) (time : Z) : M unit :=
  match signal with
  | SigStart =>
      svc_modify (SET_STREAMING_STATUS Live (Some time));;
      svc_emit (streamingStatusChange Live);;
      svc_emit (recordEvent "stream_start")
  | SigStarting =>
      svc_modify (SET_STREAMING_STATUS Starting (Some time));;
      svc_emit (streamingStatusChange Starting)
  | SigStop =>
      svc_modify (SET_STREAMING_STATUS Offline (Some time));;
      svc_emit (streamingStatusChange Offline);;
      svc_emit (recordEvent "stream_end")
  | SigStopping =>
      svc_modify (SET_STREAMING_STATUS Ending (Some time));;
      svc_emit (streamingStatusChange Ending)
  | SigReconnect =>
      svc_modify (SET_STREAMING_STATUS Reconnecting None);;
      svc_emit (streamingStatusChange Reconnecting)
  | SigReconnectSuccess =>
      svc_modify (SET_STREAMING_STATUS Live None);;
      svc_emit (streamingStatusChange Live)
  end.

Definition handleRecordingSignal (signal : EOBSOutputSignal) (time : Z) : M unit :=
  match signal with
  | SigStart =>
      svc_modify (SET_RECORDING_STATUS Recording time);;
      svc_emit (recordingStatusChange Recording)
  | SigStarting =>
      svc_modify (SET_RECORDING_STATUS RecStarting time);;
      svc_emit (recordingStatusChange RecStarting)
  | SigStop =>
      svc_modify (SET_RECORDING_STATUS RecOffline time);;
      svc_emit (recordingStatusChange RecOffline)
  | SigStopping =>
      svc_modify (SET_RECORDING_STATUS Stopping time);;
      svc_emit (recordingStatusChange Stopping)
  | SigReconnect | SigReconnectSuccess => svc_ret tt
  end.

(** [handleOBSOutputSignal(info)]; [time] is the clock when the signal
    arrives. *)
Definition handleOBSOutputSignal (info : IOBSOutputSignalInfo) (time : Z) : M unit :=
  svc_emit (console_debug info);;
  match info_type info with
  | OutStreaming => handleStreamingSignal (info_signal info) time
  | OutRecording => handleRecordingSignal (info_signal info) time
  end;;
  if decide (info_code info ≠ Success)
  then svc_emit (alert (errorText (info_code info) (info_error info)))
  else svc_ret tt.

(** ** The machine the signals drive *)

(** The status a streaming signal leads to. *)
Definition streaming_target (signal : EOBSOutputSignal) : EStreamingState :=
  match signal with
  | SigStarting => Starting
  | SigStart => Live
  | SigStopping => Ending
  | SigStop => Offline
  | SigReconnect => Reconnecting
  | SigReconnectSuccess => Live
  end.

(** The status a recording signal leads to, if it is one the handler knows
    for recordings. *)
Definition recording_target (signal : EOBSOutputSignal) : option ERecordingState :=
  match signal with
  | SigStarting => Some RecStarting
  | SigStart => Some Recording
  | SigStopping => Some Stopping
  | SigStop => Some RecOffline
  | SigReconnect | SigReconnectSuccess => None
  end.

(** The events observers of the two status subjects receive. *)
Definition is_status_event (e : StreamingEffect) : bool :=
  match e with
  | streamingStatusChange _ | recordingStatusChange _ => true
  | _ => false
  end.

(** The calls that start or stop an output of the engine. *)
Definition is_engine_command (e : StreamingEffect) : bool :=
  match e with
  | OBS_service_startStreaming | OBS_service_stopStreaming _
  | OBS_service_startRecording | OBS_service_stopRecording => true
  | _ => false
  end.

(** The calls that take or release the power-save blocker. *)
Definition is_blocker_call (e : StreamingEffect) : bool :=
  match e with
  | powerSaveBlocker_start _ | powerSaveBlocker_stop _ => true
  | _ => false
  end.

(** One thing that happens to the service: the user toggles, or the engine
    signals.  Each carries what the environment contributes to it. *)
Inductive Event : Type :=
| ToggleStreaming (settings : StreamSettings) (answer : bool) (blockerId : Z)
| ToggleRecording
| Signal (info : IOBSOutputSignalInfo).

Definition handle (ev : Event) (now : Z) : M unit :=
  match ev with
  | ToggleStreaming settings answer blockerId =>
      toggleStreaming settings answer blockerId
  | ToggleRecording => toggleRecording
  | Signal info => handleOBSOutputSignal info now
  end.

(** A configuration is the clock and the service; the clock never goes
    back. *)
Inductive step : Z * Service → Z * Service → Prop :=
| step_event now now' s ev :
    now ≤ now' → step (now, s) (now', final (handle ev now' s)).

Definition reachable (start : Z) (c : Z * Service) : Prop :=
  rtc step (start, initialService start) c.

(** The status times are in the past. *)
Definition times_ok (c : Z * Service) : Prop :=
  streamingStatusTime (state c.2) ≤ c.1 ∧ recordingStatusTime (state c.2) ≤ c.1.

(** The dialog of a command: shown when the setting asks for it. *)
Definition asked (shouldConfirm : bool) (text : string) : list StreamingEffect :=
  if shouldConfirm then [confirm text] else [].

(** The time a streaming signal stamps the status with: the two reconnect
    signals leave the time alone. *)
Definition streaming_stamp (signal : EOBSOutputSignal) (time : Z) : option Z :=
  match signal with
  | SigReconnect | SigReconnectSuccess => None
  | _ => Some time
  end.

(** The store after a signal, as a table. *)
Definition signal_store (info : IOBSOutputSignalInfo) (time : Z) (s : Service) :
    Service :=
  match info_type info with
  | OutStreaming =>
      SET_STREAMING_STATUS (streaming_target (info_signal info))
        (streaming_stamp (info_signal info) time) s
  | OutRecording =>
      match recording_target (info_signal info) with
      | Some status => SET_RECORDING_STATUS status time s
      | None => s
      end
  end.

(** The events of a signal, as a table: the status change, the usage event
    of a stream that went live or ended, and the alert of a failure. *)
Definition signal_events (info : IOBSOutputSignalInfo) : list StreamingEffect :=
  match info_type info with
  | OutStreaming =>
      streamingStatusChange (streaming_target (info_signal info)) ::
      match info_signal info with
      | SigStart => [recordEvent "stream_start"]
      | SigStop => [recordEvent "stream_end"]
      | _ => []
      end
  | OutRecording =>
      match recording_target (info_signal info) with
      | Some status => [recordingStatusChange status]
      | None => []
      end
  end ++
  if decide (info_code info = Success) then []
  else [alert (errorText (info_code info) (info_error info))].

(** ** The abstract machine

    What an observer of the two subjects can know: the pair of statuses,
    moved by signals alone. *)
Definition abs_state : Type := EStreamingState * ERecordingState.

Definition abstraction (s : Service) : abs_state :=
  (streamingStatus (state s), recordingStatus (state s)).

Definition abs_next (ev : Event) (a : abs_state) : abs_state :=
  match ev with
  | Signal info =>
      match info_type info with
      | OutStreaming => (streaming_target (info_signal info), a.2)
      | OutRecording => (a.1, default a.2 (recording_target (info_signal info)))
      end
  | _ => a
  end.

Definition abs_out (ev : Event) : list StreamingEffect :=
  match ev with
  | Signal info =>
      match info_type info with
      | OutStreaming => [streamingStatusChange (streaming_target (info_signal info))]
      | OutRecording =>
          match recording_target (info_signal info) with
          | Some status => [recordingStatusChange status]
          | None => []
          end
      end
  | _ => []
  end.

(** ** A reference for the formatted duration *)

(** [hh:mm:ss] of a number of seconds, by division. *)
Definition hms (seconds : Z) : string :=
  padStart (pretty (seconds `div` 3600)) 2 "0" +:+ ":" +:+
  padStart (pretty ((seconds `div` 60) `mod` 60)) 2 "0" +:+ ":" +:+
  padStart (pretty (seconds `mod` 60)) 2 "0".

(** ** Runs *)

(** Case analysis over the finite data of a run, then evaluation. *)
Ltac streaming_cases :=
  repeat match goal with
    | s : Service |- _ => destruct s as [[[] ? [] ?] [?|]]
    | i : IOBSOutputSignalInfo |- _ => destruct i as [[] [] [] ?]
    | x : StreamSettings |- _ => destruct x as [[] [] [] [] [] ?]
    | b : bool |- _ => destruct b
    end.

Lemma toggleRecording_run s :
  toggleRecording s =
    Run (Normal tt) s
      match recordingStatus (state s) with
      | Recording => [OBS_service_stopRecording]
      | RecOffline => [OBS_service_startRecording]
      | _ => []
      end.
Proof. by streaming_cases. Qed.

Lemma declined_run shouldConfirm text answer s :
  declined shouldConfirm text answer s =
    Run (Normal (shouldConfirm && negb answer)) s (asked shouldConfirm text).
Proof. by destruct shouldConfirm. Qed.

Lemma toggleStreaming_start_run settings blockerId s :
  toggleStreaming_start settings blockerId s =
    Run (Normal tt) {| state := state s; powerSaveId := Some blockerId |}
      ([powerSaveBlocker_start "prevent-display-sleep"; OBS_service_startStreaming] ++
       if RecordWhenStreaming settings &&
          bool_decide (recordingStatus (state s) = RecOffline)
       then [OBS_service_startRecording] else []).
Proof.
  unfold toggleStreaming_start. svc_simp.
  destruct (RecordWhenStreaming settings); simpl; [|svc_done].
  case_bool_decide as Hrec; [|svc_done].
  rewrite toggleRecording_run. simpl. rewrite Hrec. svc_done.
Qed.

Lemma toggleStreaming_stop_run settings s :
  toggleStreaming_stop settings s =
    Run (Normal tt) s
      ((if powerSaveId_truthy (powerSaveId s)
        then [powerSaveBlocker_stop (default 0 (powerSaveId s))] else []) ++
       [OBS_service_stopStreaming false] ++
       if negb (KeepRecordingWhenStreamStops settings) &&
          bool_decide (recordingStatus (state s) = Recording)
       then [OBS_service_stopRecording] else []).
Proof.
  unfold toggleStreaming_stop. rewrite svc_bind_gets.
  assert (∀ t, prepend t
    ((svc_emit (OBS_service_stopStreaming false);;
      let* recording := svc_gets (λ s, recordingStatus (state s)) in
      if negb (KeepRecordingWhenStreamStops settings) &&
         bool_decide (recording = Recording)
      then toggleRecording else svc_ret tt) s) =
    Run (Normal tt) s (t ++ [OBS_service_stopStreaming false] ++
      if negb (KeepRecordingWhenStreamStops settings) &&
         bool_decide (recordingStatus (state s) = Recording)
      then [OBS_service_stopRecording] else [])) as Hrest.
  { intros t. svc_simp.
    destruct (KeepRecordingWhenStreamStops settings); simpl; [svc_done|].
    case_bool_decide as Hrec; [|svc_done].
    rewrite toggleRecording_run, Hrec. svc_done. }
  destruct (powerSaveId_truthy (powerSaveId s)).
  - by rewrite svc_bind_emit, Hrest.
  - by rewrite svc_bind_ret_l, <- (Hrest []), prepend_nil.
Qed.

(** [toggleStreaming] on each of its paths. *)
Lemma toggleStreaming_run settings answer blockerId s :
  toggleStreaming settings answer blockerId s =
    match streamingStatus (state s) with
    | Offline =>
        prepend
          (asked (WarnBeforeStartingStream settings)
             "Are you sure you want to start streaming?")
          (if WarnBeforeStartingStream settings && negb answer
           then Run (Normal tt) s []
           else toggleStreaming_start settings blockerId s)
    | Starting | Live =>
        prepend
          (asked (WarnBeforeStoppingStream settings)
             "Are you sure you want to stop streaming?")
          (if WarnBeforeStoppingStream settings && negb answer
           then Run (Normal tt) s []
           else toggleStreaming_stop settings s)
    | Ending => Run (Normal tt) s [OBS_service_stopStreaming true]
    | Reconnecting => Run (Normal tt) s []
    end.
Proof.
  unfold toggleStreaming. rewrite svc_bind_gets.
  destruct (streamingStatus (state s)); repeat case_decide;
    try done; try (exfalso; naive_solver);
    rewrite (svc_bind_run _ _ _ _ _ _ (declined_run _ _ _ _));
    by destruct (_ && negb answer).
Qed.

Lemma toggleStreaming_total settings answer blockerId s :
  result (toggleStreaming settings answer blockerId s) = Normal tt.
Proof.
  rewrite toggleStreaming_run, toggleStreaming_start_run, toggleStreaming_stop_run.
  by repeat case_match.
Qed.

Lemma toggle_state ev now s :
  (∀ info, ev ≠ Signal info) → state (final (handle ev now s)) = state s.
Proof.
  destruct ev as [settings answer blockerId| |info]; intros Hev;
    [|by rewrite toggleRecording_run|by destruct (Hev info)].
  cbn [handle]. rewrite toggleStreaming_run.
  repeat case_match; cbn [prepend final];
    by rewrite ?toggleStreaming_start_run, ?toggleStreaming_stop_run.
Qed.

Lemma handleOBSOutputSignal_run info time s :
  handleOBSOutputSignal info time s =
    Run (Normal tt) (signal_store info time s)
      (console_debug info :: signal_events info).
Proof. destruct info as [[] [] [] error]; reflexivity. Qed.

(** ** The clock *)

Lemma unix_mono a b : a ≤ b → unix a ≤ unix b.
Proof. intros. unfold unix. by apply Z.div_le_mono. Qed.

Lemma signal_times_ok info now now' s :
  now ≤ now' → times_ok (now, s) → times_ok (now', signal_store info now' s).
Proof.
  intros Hle [Hs Hr]. destruct info as [[] [] code error];
    split; unfold signal_store; simpl in *; lia.
Qed.

Lemma toggle_times_ok ev now now' s :
  (∀ info, ev ≠ Signal info) → now ≤ now' →
  times_ok (now, s) → times_ok (now', final (handle ev now' s)).
Proof.
  intros Hev Hle [Hs Hr]. unfold times_ok. simpl in *.
  rewrite (toggle_state _ _ _ Hev). lia.
Qed.

Lemma step_times_ok c c' : step c c' → times_ok c → times_ok c'.
Proof.
  intros [now now' s ev Hle] Hok.
  destruct ev as [settings answer id| |info]; [by apply (toggle_times_ok _ now)..|].
  cbn [handle]. rewrite handleOBSOutputSignal_run. by apply (signal_times_ok _ now).
Qed.

Lemma reachable_times_ok start c : reachable start c → times_ok c.
Proof.
  revert c. apply rtc_ind_r; [by split|]. intros c c' _ Hstep IH.
  by eapply step_times_ok.
Qed.

(** ** Durations *)

Lemma duration_components ms :
  0 ≤ ms < 31 * 86400000 →
  duration_seconds ms = (ms `div` 1000) `mod` 60 ∧
  duration_minutes ms = ((ms `div` 1000) `div` 60) `mod` 60 ∧
  duration_days ms * 24 + duration_hours ms = (ms `div` 1000) `div` 3600.
Proof.
  intros Hms. unfold duration_seconds, duration_minutes, duration_hours, duration_days.
  assert ((ms `quot` 86400000 * 4800) `quot` 146097 = 0) as -> by div_lia.
  unfold absCeil_quot. simpl. split_and!; div_lia.
Qed.

(** The countdown is within its bounds once the status time is past. *)
Lemma delaySecondsRemaining_range settings now s :
  streamingStatusTime (state s) ≤ now → 0 ≤ DelaySec settings →
  0 ≤ delaySecondsRemaining settings now s ≤ DelaySec settings.
Proof.
  intros Hs%unix_mono Hdelay. unfold delaySecondsRemaining, delayEnabled, delaySeconds.
  repeat case_match; lia.
Qed.

(** The countdown is over when the delay has elapsed. *)
Lemma delaySecondsRemaining_elapsed settings now s :
  streamingStatusTime (state s) + 1000 * DelaySec settings ≤ now →
  delaySecondsRemaining settings now s = 0.
Proof.
  intros Hs. unfold delaySecondsRemaining, delayEnabled, delaySeconds, unix.
  repeat case_match; try done. div_lia.
Qed.

(** * Properties *)

(** C4: the handler refines the machine of the two statuses.  Whatever
    happens to the service, the statuses after it are the ones the abstract
    machine gives: a signal moves the status of its output to the target of
    the signal, the two reconnect signals of a recording and every command
    move nothing.  The observers of the two status subjects receive exactly
    the moves, each once, with the status that was stored. *)
Theorem handle_refines ev now s :
  result (handle ev now s) = Normal tt ∧
  abstraction (final (handle ev now s)) = abs_next ev (abstraction s) ∧
  filter (λ e, is_status_event e) (trace (handle ev now s)) = abs_out ev.
Proof.
  destruct ev as [settings answer id| |info].
  - unfold abstraction. rewrite toggle_state by done.
    cbn [handle]. rewrite toggleStreaming_run.
    rewrite toggleStreaming_start_run, toggleStreaming_stop_run.
    unfold asked, prepend. by repeat (case_match; simplify_eq/=).
  - cbn [handle]. rewrite toggleRecording_run. by repeat case_match.
  - cbn [handle]. rewrite handleOBSOutputSignal_run.
    by destruct info as [[] [] [] error].
Qed.

(** C28: the commands [toggleStreaming] sends to the output engine, by
    status.  Offline it starts the stream, and the recording with it when
    [RecordWhenStreaming] is set and no recording runs; starting or live it
    asks the stream to stop, and the recording with it unless
    [KeepRecordingWhenStreamStops] is set; ending it forces the stop; while
    reconnecting it sends nothing.  A dialog the user declines sends
    nothing. *)
Theorem toggleStreaming_commands settings answer blockerId s :
  filter (λ e, is_engine_command e)
    (trace (toggleStreaming settings answer blockerId s)) =
  match streamingStatus (state s) with
  | Offline =>
      if WarnBeforeStartingStream settings && negb answer then []
      else OBS_service_startStreaming ::
           if RecordWhenStreaming settings &&
              bool_decide (recordingStatus (state s) = RecOffline)
           then [OBS_service_startRecording] else []
  | Starting | Live =>
      if WarnBeforeStoppingStream settings && negb answer then []
      else OBS_service_stopStreaming false ::
           if negb (KeepRecordingWhenStreamStops settings) &&
              bool_decide (recordingStatus (state s) = Recording)
           then [OBS_service_stopRecording] else []
  | Ending => [OBS_service_stopStreaming true]
  | Reconnecting => []
  end.
Proof.
  rewrite toggleStreaming_run, toggleStreaming_start_run, toggleStreaming_stop_run.
  unfold asked, prepend. by repeat (case_match; simplify_eq/=).
Qed.

(** The display is released only for a blocker whose id is not zero.
    When a stream that is starting or live is stopped, and the dialog is not
    declined, [powerSaveBlocker.stop] is called with the recorded id exactly
    when that id is not zero; a blocker numbered zero stays in place. *)
Theorem powerSaveBlocker_release settings answer blockerId s id :
  streamingStatus (state s) = Starting ∨ streamingStatus (state s) = Live →
  WarnBeforeStoppingStream settings && negb answer = false →
  powerSaveId s = Some id →
  filter (λ e, is_blocker_call e)
    (trace (toggleStreaming settings answer blockerId s)) =
  if decide (id = 0) then [] else [powerSaveBlocker_stop id].
Proof.
  intros Hst Hask Hid. rewrite toggleStreaming_run, toggleStreaming_stop_run, Hask, Hid.
  unfold asked, prepend, powerSaveId_truthy.
  destruct (decide (id = 0)) as [->|Hne];
    [rewrite (bool_decide_eq_false_2 (0 ≠ 0)) by auto
    |rewrite (bool_decide_eq_true_2 (id ≠ 0)) by done];
    destruct Hst as [-> | ->]; by repeat (case_match; simplify_eq/=).
Qed.

(** C39: the countdown of the stream delay stays within its bounds.  In
    every configuration the service reaches while the clock does not go
    back, [delaySecondsRemaining] is between zero and the configured delay,
    and it is zero unless the delay is enabled and the stream is starting or
    ending. *)
Theorem delaySecondsRemaining_bounds settings start now s :
  reachable start (now, s) → 0 ≤ DelaySec settings →
  0 ≤ delaySecondsRemaining settings now s ≤ DelaySec settings ∧
  (DelayEnable settings = false ∨
   (streamingStatus (state s) ≠ Starting ∧ streamingStatus (state s) ≠ Ending) →
   delaySecondsRemaining settings now s = 0).
Proof.
  intros [Hs _]%reachable_times_ok Hdelay. simpl in Hs.
  split; [by apply delaySecondsRemaining_range|].
  unfold delaySecondsRemaining, delayEnabled.
  intros [->|[??]]; [done|]. destruct (DelayEnable settings); [|done].
  simpl. rewrite decide_False; [done | tauto].
Qed.

(** C40: the time shown for the current state.  For an instant in the past
    and less than 31 days ago, [formattedDurationSince] is the number of
    whole seconds elapsed, written as hours, minutes and seconds, each padded
    to two digits; the hours are not wrapped at a day. *)
Theorem formattedDurationSince_hms timestamp now :
  timestamp ≤ now < timestamp + 31 * 86400000 →
  formattedDurationSince timestamp now = hms ((now - timestamp) `div` 1000).
Proof.
  intros Hrange. unfold formattedDurationSince, hms.
  destruct (duration_components (now - timestamp)) as (-> & -> & ->); [lia|].
  done.
Qed.

(** Toggling twice before the engine answers starts the stream twice.
    The status is written by signals only, so a second [toggleStreaming]
    that arrives while the first start is still unanswered finds the service
    offline again: it takes a second power-save blocker, whose id replaces
    the first, and asks the engine to start once more. *)
Theorem toggleStreaming_twice settings id1 id2 s :
  streamingStatus (state s) = Offline →
  WarnBeforeStartingStream settings = false →
  let r1 := toggleStreaming settings true id1 s in
  let r2 := toggleStreaming settings true id2 (final r1) in
  powerSaveId (final r2) = Some id2 ∧
  filter (λ e, is_blocker_call e || bool_decide (e = OBS_service_startStreaming))
    (trace r1 ++ trace r2) =
  [powerSaveBlocker_start "prevent-display-sleep"; OBS_service_startStreaming;
   powerSaveBlocker_start "prevent-display-sleep"; OBS_service_startStreaming].
Proof.
  intros Hst Hask r1 r2.
  assert (∀ id s', streamingStatus (state s') = Offline →
            toggleStreaming settings true id s' = toggleStreaming_start settings id s')
    as Hoff.
  { intros id s' Hs'. rewrite toggleStreaming_run, Hs', Hask. apply prepend_nil. }
  subst r1 r2. rewrite (Hoff id1 s Hst), toggleStreaming_start_run. cbn [final].
  rewrite Hoff, toggleStreaming_start_run by done. cbn [final trace state].
  split; [done|]. by repeat (case_match; simplify_eq/=).
Qed.

(** The deprecated commands do the opposite of their names on a service
    that is already where they lead.  [startStreaming] on a stream that is
    live asks the engine to stop it, [stopStreaming] on a service that is
    offline starts a stream, and likewise [startRecording] stops a recording
    that runs and [stopRecording] starts one: each is the toggle. *)
Theorem deprecated_commands_toggle settings blockerId s :
  WarnBeforeStartingStream settings = false → WarnBeforeStoppingStream settings = false →
  (streamingStatus (state s) = Live →
   head (filter (λ e, is_engine_command e)
           (trace (startStreaming settings true blockerId s))) =
     Some (OBS_service_stopStreaming false)) ∧
  (streamingStatus (state s) = Offline →
   head (filter (λ e, is_engine_command e)
           (trace (stopStreaming settings true blockerId s))) =
     Some OBS_service_startStreaming) ∧
  (recordingStatus (state s) = Recording →
   trace (startRecording s) = [OBS_service_stopRecording]) ∧
  (recordingStatus (state s) = RecOffline →
   trace (stopRecording s) = [OBS_service_startRecording]).
Proof.
  intros Hstart Hstop. unfold startStreaming, stopStreaming, startRecording, stopRecording.
  rewrite toggleStreaming_commands, toggleRecording_run, Hstart, Hstop.
  split_and!; by intros ->.
Qed.

(** ** The theorems at concrete services *)

Definition test_settings : StreamSettings :=
  {| WarnBeforeStartingStream := false; RecordWhenStreaming := true;
     WarnBeforeStoppingStream := false; KeepRecordingWhenStreamStops := false;
     DelayEnable := true; DelaySec := 20 |}.

(** A stream that went live under the blocker numbered zero. *)
Definition live_service : Service :=
  {| state := {| streamingStatus := Live; streamingStatusTime := 5000;
                 recordingStatus := Recording; recordingStatusTime := 5000 |};
     powerSaveId := Some 0 |}.

Definition starting_signal : IOBSOutputSignalInfo :=
  {| info_type := OutStreaming; info_signal := SigStarting;
     info_code := Success; info_error := "" |}.

Lemma powerSaveBlocker_release_witness :
  filter (λ e, is_blocker_call e)
    (trace (toggleStreaming test_settings true 1 live_service)) = [].
Proof.
  by apply (powerSaveBlocker_release test_settings true 1 live_service 0); [right|..].
Defined.

Lemma delaySecondsRemaining_bounds_witness :
  0 ≤ delaySecondsRemaining test_settings 12000
        (final (handle (Signal starting_signal) 5000 (initialService 0))) ≤ 20.
Proof.
  apply (delaySecondsRemaining_bounds test_settings 0); [|done].
  eapply rtc_l; [apply (step_event 0 5000 _ (Signal starting_signal)); lia|].
  eapply rtc_l; [apply (step_event 5000 12000 _ ToggleRecording); lia|].
  apply rtc_refl.
Defined.

Lemma deprecated_commands_toggle_witness :
  head (filter (λ e, is_engine_command e)
          (trace (startStreaming test_settings true 1 live_service))) =
    Some (OBS_service_stopStreaming false) ∧
  trace (startRecording live_service) = [OBS_service_stopRecording].
Proof.
  destruct (deprecated_commands_toggle test_settings 1 live_service) as (H1 & _ & H2 & _);
    [done..|]. split; [by apply H1 | by apply H2].
Defined.

Lemma formattedDurationSince_hms_witness :
  formattedDurationSince 5000 3666000 = "01:01:01".
Proof. by rewrite (formattedDurationSince_hms 5000 3666000). Defined.

Lemma toggleStreaming_twice_witness :
  powerSaveId
    (final (toggleStreaming test_settings true 2
       (final (toggleStreaming test_settings true 1 (initialService 0))))) = Some 2.
Proof.
  by destruct (toggleStreaming_twice test_settings 1 2 (initialService 0)).
Defined.

End Streaming.
