(* ===== verification/App.v ===== *)
(** * AppService: start-up and shut-down

    Models [AppService] of [src/app/services/app/app.ts].  Its methods are
    short, but two of them do not run in one piece: [load] continues when the
    promise of [sceneCollectionsService.initialize()] resolves, and
    [shutdownHandler] continues after a timer of 300 ms, pausing again at each
    [await].  The model keeps the continuations that wait in the state, as
    [Task]s, and runs one when the event loop (the environment) gets to it.
    The listener for the [shutdown] message of the main process is registered
    by the continuation of [load]; the model counts the registered listeners,
    since each runs when the message arrives.

    The decorator [track(event)] and the services are not among the
    sources: a call into a service is an effect of the trace, and [track] is
    taken to record its event before the method body runs. *)

From stdpp Require Import base tactics option list strings relations.
From S2P Require Import Prelude.

Set Warnings "-clear-no-such-hyp".

Local Open Scope string_scope.
Local Open Scope list_scope.
Local Open Scope nat_scope.
Local Open Scope svc_scope.

Module App.

(** ** Data *)

Record IAppState : Type := mkAppState {
  loading : bool;
  argv : list string;
}.

Definition initialState : IAppState :=
  {| loading := true; argv := [] |}.

(** A continuation that waits: for the promise of [initialize()], for the
    timer of [shutdownHandler], for [deinitialize()], for [flushAll()]. *)
Inductive Task : Type :=
| AfterInitialize
| AfterTimeout
| AfterDeinitialize
| AfterFlushAll.

#[export] Instance Task_eq_dec : EqDecision Task.
Proof. solve_decision. Defined.

(** The service in its environment: the store slice, the number of
    listeners registered for [shutdown], and the continuations that wait. *)
Record Service : Type := mkService {
  state : IAppState;
  shutdownListeners : nat;
  tasks : list Task;
}.

Definition initialService : Service :=
  {| state := initialState; shutdownListeners := 0; tasks := [] |}.

Inductive AppEffect : Type :=
| track (event : string)
| inject (service : string)
| sceneCollectionsService_initialize
| onboardingService_startOnboardingIfRequired
| ipcRenderer_on (channel : string)
| ipcRenderer_send (channel : string)
| performanceMonitorService_start
| ipcServerService_listen
| tcpServerService_listen
| patchNotesService_showPatchNotesIfRequired (onboarded : bool)
| protocolLinksService_start (argv : list string)
| ipcServerService_stopListening
| tcpServerService_stopListening
| window_setTimeout (ms : nat)
| sceneCollectionsService_deinitialize
| performanceMonitorService_stop
| transitionsService_reset
| windowsService_closeAllOneOffs
| fileManagerService_flushAll.

#[export] Instance AppEffect_eq_dec : EqDecision AppEffect.
Proof. solve_decision. Defined.

Definition M (A : Type) : Type := svc Service AppEffect A.

(** ** Mutations *)

Definition with_state (f : IAppState → IAppState) (s : Service) : Service :=
  {| state := f (state s); shutdownListeners := shutdownListeners s; tasks := tasks s |}.

Definition START_LOADING : Service → Service :=
  with_state (λ st, {| loading := true; argv := argv st |}).

Definition FINISH_LOADING : Service → Service :=
  with_state (λ st, {| loading := false; argv := argv st |}).

Definition SET_ARGV (argv' : list string) : Service → Service :=
  with_state (λ st, {| loading := loading st; argv := argv' |}).

(** A continuation is put aside until its promise or timer is due. *)
Definition add_task (task : Task) (s : Service) : Service :=
  {| state := state s; shutdownListeners := shutdownListeners s;
     tasks := tasks s ++ [task] |}.

Definition remove_task (i : nat) (s : Service) : Service :=
  {| state := state s; shutdownListeners := shutdownListeners s;
     tasks := delete i (tasks s) |}.

Definition add_listener (s : Service) : Service :=
  {| state := state s; shutdownListeners := S (shutdownListeners s);
     tasks := tasks s |}.

Definition defer (task : Task) : M unit := svc_modify (add_task task).

(** ** Methods *)

(** [load()], up to the call of [initialize()]. *)
Definition load : M unit :=
  svc_emit (track "app_start");;
  svc_modify START_LOADING;;
  svc_emit (inject "UserService");;
  svc_emit sceneCollectionsService_initialize;;
  defer AfterInitialize.

(** The continuation of [load]; [onboarded] is what
    [startOnboardingIfRequired()] returns. *)
Definition load_then (onboarded : bool) : M unit :=
  svc_emit onboardingService_startOnboardingIfRequired;;
  svc_emit (ipcRenderer_on "shutdown");;
  svc_modify add_listener;;
  svc_emit (inject "ShortcutsService");;
  svc_emit (inject "StreamlabelsService");;
  svc_emit (inject "StreamInfoService");;
  svc_emit performanceMonitorService_start;;
  svc_emit ipcServerService_listen;;
  svc_emit tcpServerService_listen;;
  svc_emit (patchNotesService_showPatchNotesIfRequired onboarded);;
  svc_modify FINISH_LOADING.

Definition setArgv (argv' : list string) : M unit :=
  svc_modify (SET_ARGV argv');;
  svc_emit (protocolLinksService_start argv').

(** [shutdownHandler()], up to the timer. *)
Definition shutdownHandler : M unit :=
  svc_emit (track "app_close");;
  svc_modify START_LOADING;;
  svc_emit ipcServerService_stopListening;;
  svc_emit tcpServerService_stopListening;;
  svc_emit (window_setTimeout 300);;
  defer AfterTimeout.

(** The three pieces of the function the timer runs. *)
Definition shutdown_timeout : M unit :=
  svc_emit sceneCollectionsService_deinitialize;;
  defer AfterDeinitialize.

Definition shutdown_deinitialized : M unit :=
  svc_emit performanceMonitorService_stop;;
  svc_emit transitionsService_reset;;
  svc_emit windowsService_closeAllOneOffs;;
  svc_emit fileManagerService_flushAll;;
  defer AfterFlushAll.

Definition shutdown_flushed : M unit :=
  svc_emit (ipcRenderer_send "shutdownComplete").

(** One listener of the [shutdown] message. *)
Definition on_shutdown : M unit :=
  svc_emit (ipcRenderer_send "acknowledgeShutdown");;
  shutdownHandler.

Definition startLoading : M unit := svc_modify START_LOADING.
Definition finishLoading : M unit := svc_modify FINISH_LOADING.

(** ** The event loop *)

(** The [shutdown] message of the main process: every registered listener
    runs. *)
Definition deliver_shutdown : M unit :=
  let* n := svc_gets shutdownListeners in
  svc_forEach (seq 0 n) (λ _, on_shutdown).

(** The code of a continuation; [onboarded] is read by the one of [load]. *)
Definition run_task (onboarded : bool) (task : Task) : M unit :=
  match task with
  | AfterInitialize => load_then onboarded
  | AfterTimeout => shutdown_timeout
  | AfterDeinitialize => shutdown_deinitialized
  | AfterFlushAll => shutdown_flushed
  end.

(** Takes the [i]-th waiting continuation off the list and runs it; nothing
    happens when there is none. *)
Definition resume (onboarded : bool) (i : nat) : M unit :=
  let* waiting := svc_gets tasks in
  match waiting !! i with
  | Some task =>
      svc_modify (remove_task i);;
      run_task onboarded task
  | None => svc_ret tt
  end.

(** What can happen to the service. *)
Inductive Event : Type :=
| Load
| SetArgv (argv' : list string)
| ShutdownMessage
| StartLoading
| FinishLoading
| Resume (onboarded : bool) (i : nat).

Definition handle (ev : Event) : M unit :=
  match ev with
  | Load => load
  | SetArgv argv' => setArgv argv'
  | ShutdownMessage => deliver_shutdown
  | StartLoading => startLoading
  | FinishLoading => finishLoading
  | Resume onboarded i => resume onboarded i
  end.

(** Runs events one after the other, collecting the trace. *)
Definition run_events (evs : list Event) (s : Service) : Service * list AppEffect :=
  run_all handle evs s.

(** ** The order of a shut-down *)

(** What one listener of [shutdown] does before its timer is set. *)
Definition on_shutdown_events : list AppEffect :=
  [ipcRenderer_send "acknowledgeShutdown"; track "app_close";
   ipcServerService_stopListening; tcpServerService_stopListening;
   window_setTimeout 300].

(** The books of the service balance: every step of a shut-down that was
    taken is either waiting for its next step or has taken it. *)
Record shutdown_order (s : Service) (t : list AppEffect) : Prop := ShutdownOrder {
  ord_complete :
    occurrences (ipcRenderer_send "shutdownComplete") t +
    occurrences AfterFlushAll (tasks s) =
    occurrences fileManagerService_flushAll t;
  ord_flush :
    occurrences fileManagerService_flushAll t +
    occurrences AfterDeinitialize (tasks s) =
    occurrences sceneCollectionsService_deinitialize t;
  ord_deinit :
    occurrences sceneCollectionsService_deinitialize t +
    occurrences AfterTimeout (tasks s) =
    occurrences (ipcRenderer_send "acknowledgeShutdown") t;
  ord_listen :
    shutdownListeners s + occurrences AfterInitialize (tasks s) =
    occurrences sceneCollectionsService_initialize t;
}.

(** ** Runs *)

Lemma on_shutdown_run s :
  on_shutdown s =
    Run (Normal tt) (add_task AfterTimeout (START_LOADING s)) on_shutdown_events.
Proof. done. Qed.

Lemma iter_shutdown n s :
  let s' := Nat.iter n (λ s, add_task AfterTimeout (START_LOADING s)) s in
  tasks s' = tasks s ++ replicate n AfterTimeout ∧
  shutdownListeners s' = shutdownListeners s ∧
  argv (state s') = argv (state s) ∧
  loading (state s') = if decide (n = 0) then loading (state s) else true.
Proof.
  induction n as [|n (Ht & Hl & Ha & _)]; simpl; [by rewrite app_nil_r|].
  rewrite Ht, Hl, Ha, <- app_assoc. split_and!; try done.
  f_equal. change ([AfterTimeout]) with (replicate 1 AfterTimeout).
  by rewrite <- replicate_add, Nat.add_comm.
Qed.

Lemma deliver_shutdown_run s :
  deliver_shutdown s =
    Run (Normal tt)
      (Nat.iter (shutdownListeners s) (λ s, add_task AfterTimeout (START_LOADING s)) s)
      (concat (replicate (shutdownListeners s) on_shutdown_events)).
Proof.
  unfold deliver_shutdown. rewrite svc_bind_gets.
  rewrite (svc_forEach_const _ _ _ _ _ on_shutdown_run). by rewrite length_seq.
Qed.

Lemma load_run s :
  load s =
    Run (Normal tt) (add_task AfterInitialize (START_LOADING s))
      [track "app_start"; inject "UserService"; sceneCollectionsService_initialize].
Proof. done. Qed.

Lemma setArgv_run argv' s :
  setArgv argv' s = Run (Normal tt) (SET_ARGV argv' s) [protocolLinksService_start argv'].
Proof. done. Qed.

(** The store and the effects of a continuation. *)
Lemma run_task_run onboarded task s :
  run_task onboarded task s =
    match task with
    | AfterInitialize =>
        Run (Normal tt) (FINISH_LOADING (add_listener s))
          [onboardingService_startOnboardingIfRequired; ipcRenderer_on "shutdown";
           inject "ShortcutsService"; inject "StreamlabelsService";
           inject "StreamInfoService"; performanceMonitorService_start;
           ipcServerService_listen; tcpServerService_listen;
           patchNotesService_showPatchNotesIfRequired onboarded]
    | AfterTimeout =>
        Run (Normal tt) (add_task AfterDeinitialize s)
          [sceneCollectionsService_deinitialize]
    | AfterDeinitialize =>
        Run (Normal tt) (add_task AfterFlushAll s)
          [performanceMonitorService_stop; transitionsService_reset;
           windowsService_closeAllOneOffs; fileManagerService_flushAll]
    | AfterFlushAll => Run (Normal tt) s [ipcRenderer_send "shutdownComplete"]
    end.
Proof. by destruct task. Qed.

Lemma resume_run onboarded i s :
  resume onboarded i s =
    match tasks s !! i with
    | Some task => run_task onboarded task (remove_task i s)
    | None => Run (Normal tt) s []
    end.
Proof.
  unfold resume. rewrite svc_bind_gets.
  destruct (tasks s !! i); [by rewrite svc_bind_modify | done].
Qed.

(** ** The order is kept *)

(** Evaluates the counts of a concrete trace. *)
Ltac count :=
  rewrite ?occurrences_app, ?occurrences_concat_replicate, ?occurrences_replicate;
  unfold on_shutdown_events;
  cbn [final trace tasks shutdownListeners add_task remove_task add_listener
       START_LOADING FINISH_LOADING SET_ARGV with_state];
  rewrite ?occurrences_app;
  repeat match goal with
  | |- context [occurrences ?x (?a :: ?l)] =>
      let v := eval vm_compute in (occurrences x (a :: l)) in
      change (occurrences x (a :: l)) with v
  end;
  repeat (case_decide; try done); try lia.

Lemma handle_order ev s t :
  shutdown_order s t → shutdown_order (final (handle ev s)) (t ++ trace (handle ev s)).
Proof.
  intros [H1 H2 H3 H4]. destruct ev as [|argv'| | | |onboarded i]; cbn [handle];
    [| | |split; count; by rewrite ?Nat.add_0_r..|].
  - rewrite load_run. split; count.
  - rewrite setArgv_run. split; count.
  - rewrite deliver_shutdown_run. cbn [final trace].
    destruct (iter_shutdown (shutdownListeners s) s) as (Ht & Hl & _).
    split; rewrite ?Ht, ?Hl; count.
  - rewrite resume_run. destruct (tasks s !! i) as [task|] eqn:Hi;
      [|split; count; by rewrite ?Nat.add_0_r].
    pose proof (λ x, occurrences_delete x _ _ _ Hi) as Hdel.
    pose proof (Hdel AfterInitialize). pose proof (Hdel AfterTimeout).
    pose proof (Hdel AfterDeinitialize). pose proof (Hdel AfterFlushAll).
    rewrite run_task_run. destruct task; split; count.
Qed.

Lemma run_events_order evs s t :
  shutdown_order s t →
  shutdown_order (run_events evs s).1 (t ++ (run_events evs s).2).
Proof.
  revert s t. induction evs as [|ev evs IH]; intros s t Hs; simpl.
  - by rewrite app_nil_r.
  - rewrite app_assoc. by apply IH, handle_order.
Qed.

(** The service with its start-up under way, and after it. *)
Definition loading_service : Service := final (load initialService).
Definition loaded_service : Service := (run_events [Load; Resume true 0] initialService).1.

(** * Properties *)

(** C7: Whatever happens to the service from its start (loads, argv,
    shut-down messages, continuations resumed in any order, also ones that do
    not exist), the steps of a shut-down are taken in order: each
    [shutdownComplete] sent follows its own [flushAll()], each [flushAll()]
    its own [deinitialize()], each [deinitialize()] its own acknowledged
    shut-down message, and every listener of the message was registered by
    an [initialize()] that resolved; what is not yet taken waits as a
    continuation. *)
Theorem shutdown_order_kept (evs : list Event) :
  shutdown_order (run_events evs initialService).1 (run_events evs initialService).2.
Proof. by apply (run_events_order evs initialService []). Qed.

(** With one listener registered and nothing else waiting, a shut-down
    message followed by the timer and the two promises runs the whole
    shut-down: the message is acknowledged, [app_close] is tracked, the
    servers stop listening, the scene collections are deinitialized, the
    monitor stops, transitions are reset, one-off windows close, files are
    flushed, and [shutdownComplete] is sent last; the store is left
    loading. *)
Theorem shutdown_completes (s : Service) (b1 b2 b3 : bool) :
  tasks s = [] → shutdownListeners s = 1 →
  run_events [ShutdownMessage; Resume b1 0; Resume b2 0; Resume b3 0] s =
    (START_LOADING s,
     on_shutdown_events ++
       [sceneCollectionsService_deinitialize; performanceMonitorService_stop;
        transitionsService_reset; windowsService_closeAllOneOffs;
        fileManagerService_flushAll; ipcRenderer_send "shutdownComplete"]).
Proof. destruct s as [st n ts]. simpl. by intros -> ->. Qed.

Lemma shutdown_completes_witness :
  run_events [ShutdownMessage; Resume true 0; Resume true 0; Resume true 0] loaded_service =
    (START_LOADING loaded_service,
     on_shutdown_events ++
       [sceneCollectionsService_deinitialize; performanceMonitorService_stop;
        transitionsService_reset; windowsService_closeAllOneOffs;
        fileManagerService_flushAll; ipcRenderer_send "shutdownComplete"]).
Proof. by apply shutdown_completes. Defined.

(** A shut-down message that arrives while no listener is registered
    (before [initialize()] has resolved) is lost: nothing is acknowledged,
    nothing is stopped and no continuation is left that would do it
    later. *)
Theorem shutdown_unheard (s : Service) :
  shutdownListeners s = 0 → deliver_shutdown s = Run (Normal tt) s [].
Proof. intros Hn. by rewrite deliver_shutdown_run, Hn. Qed.

Lemma shutdown_unheard_witness :
  deliver_shutdown loading_service = Run (Normal tt) loading_service [].
Proof. by apply shutdown_unheard. Defined.

(** [load()] followed by the continuation of [initialize()] runs the
    start-up in the order of the code: [app_start] is tracked, the user
    service is created, the scene collections are initialized; then
    onboarding, the registration of the shut-down listener, the three
    services, the monitor, the two servers and the patch notes, which get
    the answer of onboarding; the store ends not loading, with one more
    listener. *)
Theorem load_sequence (s : Service) (onboarded : bool) :
  tasks s = [] →
  run_events [Load; Resume onboarded 0] s =
    (FINISH_LOADING (add_listener s),
     [track "app_start"; inject "UserService"; sceneCollectionsService_initialize;
      onboardingService_startOnboardingIfRequired; ipcRenderer_on "shutdown";
      inject "ShortcutsService"; inject "StreamlabelsService";
      inject "StreamInfoService"; performanceMonitorService_start;
      ipcServerService_listen; tcpServerService_listen;
      patchNotesService_showPatchNotesIfRequired onboarded]).
Proof. destruct s as [st n ts]. simpl. by intros ->. Qed.

Lemma load_sequence_witness :
  run_events [Load; Resume false 0] initialService =
    (FINISH_LOADING (add_listener initialService),
     [track "app_start"; inject "UserService"; sceneCollectionsService_initialize;
      onboardingService_startOnboardingIfRequired; ipcRenderer_on "shutdown";
      inject "ShortcutsService"; inject "StreamlabelsService";
      inject "StreamInfoService"; performanceMonitorService_start;
      ipcServerService_listen; tcpServerService_listen;
      patchNotesService_showPatchNotesIfRequired false]).
Proof. by apply load_sequence. Defined.

End App.
