(* ===== verification/StreamButton.v ===== *)
(** * StartStreamingButton: the button that starts and ends a stream

    Models the component of [src/app/components/StartStreamingButton.vue.ts].
    The component has no state of its own: it reads the streaming service
    (modelled in [Streaming]), the user, the customization settings and its
    [disabled] property, and it calls the streaming and the navigation
    services.  Its monad runs over the state of the streaming service; the
    calls into that service are lifted with [svc_lift], so the model composes
    the two components the way the code does.

    [setDelayUpdate] re-arms a timer of 100 ms for as long as the countdown
    of the stream delay runs.  The chain of timers is modelled with the list
    of the delays after which each timer really fires. *)

From Stdlib Require Import ZArith Lia String.
From stdpp Require Import base tactics option list strings pretty.
From S2P Require Import Prelude.
From S2P Require Import Streaming.

Set Warnings "-clear-no-such-hyp".

Local Open Scope string_scope.
Local Open Scope list_scope.
Local Open Scope Z_scope.
Local Open Scope svc_scope.

Module StartStreamingButton.
Import Streaming.

(** ** Data *)

(** What the component reads besides the streaming service. *)
Record ButtonEnv : Type := mkButtonEnv {
  disabled : bool;
  isLoggedIn : bool;
  platform_type : option string;
  updateStreamInfoOnLive : bool;
  settings : StreamSettings;
}.

Inductive ButtonEffect : Type :=
| streamingService (e : StreamingEffect)
| navigationService_navigate (page : string)
| forceUpdate
| setTimeout (ms : Z).

#[export] Instance ButtonEffect_eq_dec : EqDecision ButtonEffect.
Proof. solve_decision. Defined.

Definition M (A : Type) : Type := svc Service ButtonEffect A.

(** A call into the streaming service. *)
Definition call {A} (m : Streaming.M A) : M A :=
  svc_lift id (λ s' _, s') streamingService m.

(** ** Methods *)

(** The condition under which the button opens the stream-info window
    instead of going live.  [platform.type] is read only when the two tests
    before it hold; it throws when there is no platform. *)
Definition shouldEditStreamInfo (env : ButtonEnv) : M bool :=
  if isLoggedIn env && updateStreamInfoOnLive env then
    let* type := svc_deref (platform_type env) in
    svc_ret (bool_decide (type = "twitch") || bool_decide (type = "mixer"))
  else svc_ret false.

(** [toggleStreaming()]; [answer] and [blockerId] are what the service gets
    from the user and from the power-save blocker. *)
Definition toggleStreaming (env : ButtonEnv) (answer : bool) (blockerId : Z) : M unit :=
  let* streaming := svc_gets isStreaming in
  if streaming then call (Streaming.toggleStreaming (settings env) answer blockerId)
  else
    let* edit := shouldEditStreamInfo env in
    if edit then call showEditStreamInfo
    else
      call (Streaming.toggleStreaming (settings env) answer blockerId);;
      svc_when (isLoggedIn env) (svc_emit (navigationService_navigate "Live")).

Definition streamingStatus (s : Service) : EStreamingState :=
  Streaming.streamingStatus (state s).

(** [getStreamButtonLabel()]; [now] is the clock. *)
Definition getStreamButtonLabel (env : ButtonEnv) (now : Z) (s : Service) : string :=
  if decide (streamingStatus s = Live) then "END STREAM"
  else if decide (streamingStatus s = Starting) then
    if delayEnabled (settings env)
    then "STARTING " +:+ pretty (delaySecondsRemaining (settings env) now s) +:+ "s"
    else "STARTING"
  else if decide (streamingStatus s = Ending) then
    if delayEnabled (settings env)
    then "DISCARD " +:+ pretty (delaySecondsRemaining (settings env) now s) +:+ "s"
    else "ENDING"
  else if decide (streamingStatus s = Reconnecting) then "RECONNECTING"
  else "GO LIVE".

Definition getIsRedButton (s : Service) : bool :=
  bool_decide (streamingStatus s ≠ Offline).

Definition isStreaming (s : Service) : bool := Streaming.isStreaming s.

Definition isDisabled (env : ButtonEnv) (now : Z) (s : Service) : bool :=
  disabled env ||
  bool_decide (streamingStatus s = Starting) &&
    bool_decide (delaySecondsRemaining (settings env) now s = 0) ||
  bool_decide (streamingStatus s = Ending) &&
    bool_decide (delaySecondsRemaining (settings env) now s = 0).

(** One run of [setDelayUpdate()]: the result says whether it set the timer
    that runs it again. *)
Definition setDelayUpdate_once (env : ButtonEnv) (now : Z) : M bool :=
  svc_emit forceUpdate;;
  let* remaining := svc_gets (delaySecondsRemaining (settings env) now) in
  if bool_decide (remaining ≠ 0) then svc_emit (setTimeout 100);; svc_ret true
  else svc_ret false.

(** [setDelayUpdate()] with the runs its timers cause; [delays] are the times
    after which the timers fire, one after the other.  The result says
    whether a timer is still set when the list ends. *)
Fixpoint setDelayUpdate (env : ButtonEnv) (now : Z) (delays : list Z) : M bool :=
  let* armed := setDelayUpdate_once env now in
  if armed then
    match delays with
    | [] => svc_ret true
    | d :: delays' => setDelayUpdate env (now + d) delays'
    end
  else svc_ret false.

(** ** Classifiers *)

Definition is_timer (e : ButtonEffect) : bool :=
  match e with setTimeout _ => true | _ => false end.

(** The engine commands among the effects of the button. *)
Definition is_engine_call (e : ButtonEffect) : bool :=
  match e with
  | streamingService c => is_engine_command c
  | _ => false
  end.

Definition engine_commands (t : list ButtonEffect) : list ButtonEffect :=
  filter (λ e, is_engine_call e) t.

(** ** Runs *)

Lemma call_run {A} (m : Streaming.M A) s :
  call m s = Run (result (m s)) (final (m s)) (streamingService <$> trace (m s)).
Proof. done. Qed.

(** What follows a call of the service's toggle runs after it. *)
Lemma service_then env answer blockerId (k : M unit) s :
  let r := Streaming.toggleStreaming (settings env) answer blockerId s in
  (call (Streaming.toggleStreaming (settings env) answer blockerId);; k) s =
    prepend (streamingService <$> trace r) (k (final r)).
Proof.
  intros r. rewrite (svc_bind_normal _ _ _ tt); [done|].
  rewrite call_run. apply toggleStreaming_total.
Qed.

Lemma engine_commands_app t1 t2 :
  engine_commands (t1 ++ t2) = engine_commands t1 ++ engine_commands t2.
Proof. apply filter_app. Qed.

Lemma engine_commands_call (t : list StreamingEffect) :
  engine_commands (streamingService <$> t) =
    streamingService <$> filter (λ e, is_engine_command e) t.
Proof.
  unfold engine_commands. induction t as [|e t IH]; [done|].
  rewrite fmap_cons, !filter_cons, IH. simpl. by destruct (is_engine_command e).
Qed.

Lemma setDelayUpdate_once_run env now s :
  setDelayUpdate_once env now s =
    if bool_decide (delaySecondsRemaining (settings env) now s ≠ 0)
    then Run (Normal true) s [forceUpdate; setTimeout 100]
    else Run (Normal false) s [forceUpdate].
Proof. unfold setDelayUpdate_once. svc_simp. by case_bool_decide. Qed.

(** A run that finds the countdown at zero is the last. *)
Lemma setDelayUpdate_done env now delays s :
  delaySecondsRemaining (settings env) now s = 0 →
  setDelayUpdate env now delays s = Run (Normal false) s [forceUpdate].
Proof.
  intros Hrem. pose proof (setDelayUpdate_once_run env now s) as Hrun.
  rewrite bool_decide_eq_false_2 in Hrun by (by intros []).
  destruct delays; cbn [setDelayUpdate]; by rewrite (svc_bind_run _ _ _ _ _ _ Hrun).
Qed.

(** A run that finds the countdown running sets the timer of the next. *)
Lemma setDelayUpdate_armed env now d delays s :
  delaySecondsRemaining (settings env) now s ≠ 0 →
  setDelayUpdate env now (d :: delays) s =
    prepend [forceUpdate; setTimeout 100] (setDelayUpdate env (now + d) delays s).
Proof.
  intros Hrem. pose proof (setDelayUpdate_once_run env now s) as Hrun.
  rewrite bool_decide_eq_true_2 in Hrun by done.
  cbn [setDelayUpdate]. by rewrite (svc_bind_run _ _ _ _ _ _ Hrun).
Qed.

(** The button's toggle, by cases. *)
Lemma button_toggle_run env answer blockerId s :
  toggleStreaming env answer blockerId s =
    let service := call (Streaming.toggleStreaming (settings env) answer blockerId) in
    if Streaming.isStreaming s then service s
    else if isLoggedIn env && updateStreamInfoOnLive env then
      match platform_type env with
      | None => Run (Throw TypeError) s []
      | Some type =>
          if bool_decide (type = "twitch") || bool_decide (type = "mixer")
          then Run (Normal tt) s [streamingService (showWindow "EditStreamInfo" 500 400)]
          else (service;; svc_emit (navigationService_navigate "Live")) s
      end
    else (service;; svc_when (isLoggedIn env)
                      (svc_emit (navigationService_navigate "Live"))) s.
Proof.
  unfold toggleStreaming, shouldEditStreamInfo. rewrite svc_bind_gets.
  destruct (Streaming.isStreaming s); [done|].
  destruct (isLoggedIn env) eqn:Hin, (updateStreamInfoOnLive env); simpl;
    rewrite ?svc_bind_ret_l; try done.
  destruct (platform_type env) as [type|]; [|done]. simpl.
  rewrite svc_bind_assoc, !svc_bind_ret_l. by destruct (_ || _).
Qed.

(** ** The chain of timers ends *)

Section Chain.
Context (env : ButtonEnv) (s : Service).
Hypothesis Hdelay : 0 ≤ DelaySec (settings env).

(** The time the countdown still has to run, at most. *)
Definition time_left (now : Z) : Z :=
  Streaming.streamingStatusTime (state s) + 1000 * DelaySec (settings env) - now.

Lemma setDelayUpdate_chain delays now :
  Forall (λ d, 100 ≤ d) delays →
  time_left now ≤ 100 * Z.of_nat (length delays) →
  ∃ t, setDelayUpdate env now delays s = Run (Normal false) s t ∧
       (length (filter (λ e, is_timer e) t) ≤ length delays)%nat.
Proof.
  intros Hall. revert now. induction Hall as [|d delays Hd _ IH]; intros now Hleft.
  - exists [forceUpdate]. split; [|simpl; lia]. apply setDelayUpdate_done.
    apply delaySecondsRemaining_elapsed. unfold time_left in Hleft.
    simpl in Hleft. lia.
  - destruct (decide (delaySecondsRemaining (settings env) now s = 0)) as [Hz|Hnz].
    { exists [forceUpdate]. split; [by apply setDelayUpdate_done|simpl; lia]. }
    destruct (IH (now + d)) as (t & Ht & Hlen).
    { unfold time_left in *. rewrite length_cons in Hleft. lia. }
    exists ([forceUpdate; setTimeout 100] ++ t).
    rewrite setDelayUpdate_armed, Ht by done. split; [done|].
    rewrite filter_app, length_app, length_cons. simpl. lia.
Qed.

End Chain.

(** * Properties *)

(** The engine commands of the button.  Pressing the button sends the
    engine what [StreamingService.toggleStreaming] sends, except when no
    stream runs and a logged-in user of Twitch or Mixer asked to update the
    stream information on going live: then the stream-info window opens and
    nothing is sent to the engine. *)
Theorem button_commands (env : ButtonEnv) (answer : bool) (blockerId : Z)
    (s : Service) (type : string) :
  platform_type env = Some type →
  engine_commands (trace (toggleStreaming env answer blockerId s)) =
    if negb (Streaming.isStreaming s) && isLoggedIn env && updateStreamInfoOnLive env &&
       (bool_decide (type = "twitch") || bool_decide (type = "mixer"))
    then []
    else streamingService <$>
           filter (λ e, is_engine_command e)
             (trace (Streaming.toggleStreaming (settings env) answer blockerId s)).
Proof.
  intros Hty. rewrite button_toggle_run, Hty. cbv zeta.
  destruct (Streaming.isStreaming s); simpl;
    [by rewrite engine_commands_call|].
  destruct (isLoggedIn env), (updateStreamInfoOnLive env); simpl;
    try destruct (_ || _); try done;
    rewrite service_then; cbn [prepend trace];
    by rewrite engine_commands_app, engine_commands_call, app_nil_r.
Qed.

(** An enabled button on an ending stream discards it.  While the stream
    is ending the button is enabled only during the countdown of the stream
    delay: then it reads DISCARD with the seconds left, which are positive,
    and pressing it forces the output to stop. *)
Theorem enabled_button_discards (env : ButtonEnv) (now : Z) (answer : bool)
    (blockerId : Z) (s : Service) :
  streamingStatus s = Ending → isDisabled env now s = false →
  0 < delaySecondsRemaining (settings env) now s ∧
  getStreamButtonLabel env now s =
    "DISCARD " +:+ pretty (delaySecondsRemaining (settings env) now s) +:+ "s" ∧
  toggleStreaming env answer blockerId s =
    Run (Normal tt) s [streamingService (OBS_service_stopStreaming true)].
Proof.
  intros Hst Hen. unfold isDisabled in Hen.
  apply orb_false_iff in Hen as [_ Hen]. rewrite Hst in Hen.
  rewrite (bool_decide_eq_true_2 (Ending = Ending)) in Hen by done.
  apply bool_decide_eq_false in Hen.
  assert (delayEnabled (settings env) = true ∧
          0 ≤ delaySecondsRemaining (settings env) now s) as [Hon Hge].
  { revert Hen. unfold delaySecondsRemaining.
    destruct (delayEnabled (settings env)); simpl; [|done].
    case_decide; [lia|done]. }
  split; [lia|]. split.
  - unfold getStreamButtonLabel. rewrite Hst, Hon. by repeat case_decide.
  - rewrite button_toggle_run. unfold streamingStatus in Hst. cbv zeta.
    unfold Streaming.isStreaming. rewrite Hst, bool_decide_eq_true_2 by done.
    rewrite call_run, Streaming.toggleStreaming_run, Hst. by destruct s.
Qed.

(** C38: The chain of timers of [setDelayUpdate] ends.  With the status time
    in the past, every timer firing after at least its 100 ms, and as many
    firings allowed as the delay has tenths of a second, the last run finds
    the countdown at zero and sets no timer; the service is not touched and
    at most that many timers were set. *)
Theorem setDelayUpdate_terminates (env : ButtonEnv) (s : Service) (now : Z)
    (delays : list Z) :
  0 ≤ DelaySec (settings env) →
  Streaming.streamingStatusTime (state s) ≤ now →
  Forall (λ d, 100 ≤ d) delays →
  10 * DelaySec (settings env) ≤ Z.of_nat (length delays) →
  ∃ t, setDelayUpdate env now delays s = Run (Normal false) s t ∧
       (length (filter (λ e, is_timer e) t) ≤ length delays)%nat.
Proof.
  intros Hdelay Hnow Hall Hlen. apply setDelayUpdate_chain; [done..|].
  unfold time_left. lia.
Qed.

(** Declining to go live still opens the Live page.  When a logged-in
    user presses the button while offline, is asked to confirm and declines,
    nothing starts and the store is as before, yet the application
    navigates to the Live page. *)
Theorem declined_start_navigates (env : ButtonEnv) (blockerId : Z) (s : Service) :
  streamingStatus s = Offline → isLoggedIn env = true →
  updateStreamInfoOnLive env = false →
  WarnBeforeStartingStream (settings env) = true →
  toggleStreaming env false blockerId s =
    Run (Normal tt) s
      [streamingService (confirm "Are you sure you want to start streaming?");
       navigationService_navigate "Live"].
Proof.
  intros Hst Hin Hup Hwarn. unfold streamingStatus in Hst.
  rewrite button_toggle_run. cbv zeta. unfold Streaming.isStreaming.
  rewrite Hst, Hin, Hup, bool_decide_eq_false_2 by (by intros []).
  cbn [andb]. rewrite service_then, Streaming.toggleStreaming_run, Hst, Hwarn.
  by destruct s.
Qed.

(** ** The theorems at a concrete button *)

Definition test_env : ButtonEnv :=
  {| disabled := false; isLoggedIn := true; platform_type := Some "twitch";
     updateStreamInfoOnLive := true;
     settings := {| WarnBeforeStartingStream := false; RecordWhenStreaming := false;
                    WarnBeforeStoppingStream := false;
                    KeepRecordingWhenStreamStops := false;
                    DelayEnable := true; DelaySec := 2 |} |}.

(** A stream that began to end at second 5. *)
Definition ending_service : Service :=
  {| state := {| Streaming.streamingStatus := Ending; streamingStatusTime := 5000;
                 recordingStatus := RecOffline; recordingStatusTime := 0 |};
     powerSaveId := Some 7 |}.

Lemma button_commands_witness :
  engine_commands (trace (toggleStreaming test_env true 1 (initialService 0))) = [].
Proof. by rewrite (button_commands test_env true 1 (initialService 0) "twitch"). Defined.

Lemma enabled_button_discards_witness :
  getStreamButtonLabel test_env 6000 ending_service = "DISCARD 1s".
Proof.
  by destruct (enabled_button_discards test_env 6000 true 1 ending_service)
    as (_ & -> & _).
Defined.

Definition cautious_env : ButtonEnv :=
  {| disabled := false; isLoggedIn := true; platform_type := Some "youtube";
     updateStreamInfoOnLive := false;
     settings := {| WarnBeforeStartingStream := true; RecordWhenStreaming := false;
                    WarnBeforeStoppingStream := true;
                    KeepRecordingWhenStreamStops := false;
                    DelayEnable := false; DelaySec := 0 |} |}.

Lemma declined_start_navigates_witness :
  last (trace (toggleStreaming cautious_env false 1 (initialService 0))) =
    Some (navigationService_navigate "Live").
Proof.
  by rewrite (declined_start_navigates cautious_env 1 (initialService 0)).
Defined.

Lemma setDelayUpdate_terminates_witness :
  ∃ t, setDelayUpdate test_env 5000 (replicate 20 100) ending_service =
         Run (Normal false) ending_service t ∧
       (length (filter (λ e, is_timer e) t) ≤ length (replicate 20 100))%nat.
Proof.
  apply setDelayUpdate_terminates; [done|done| |done].
  by apply Forall_replicate.
Defined.

End StartStreamingButton.
