(* ===== verification/StreamInfo.v ===== *)
(** * StreamInfoService: the channel information of the logged-in user

    Models [StreamInfoService], the third document of
    [src/app/components/TopNav.vue.ts] (lines 210-349).  The service keeps the
    channel information, the viewer count and two flags in its store slice,
    and fills them from the answers of the streaming platform.  The calls to
    the platform are asynchronous: the model keeps the promises that are
    pending in the state, as [Task]s, and the environment settles one with
    [Settle], giving the answer of the platform (or its failure).  Answers
    may arrive in any order.

    The platform services, the user service and [fetch] are not among the
    sources: a call to one of them is an effect of the trace.  What the code
    reads from the user service is a parameter ([UserEnv]).  Strings are
    sequences of bytes, taken as UTF-8: on them [encodeURIComponent] escapes
    every byte that is not an unreserved ASCII character. *)

From Stdlib Require Import ZArith Lia Ascii String.
From stdpp Require Import base tactics option list strings relations.
From S2P Require Import Prelude.

Set Warnings "-clear-no-such-hyp".

Local Open Scope string_scope.
Local Open Scope list_scope.
Local Open Scope Z_scope.
Local Open Scope svc_scope.

Module StreamInfo.

(** ** Data *)

(** The fields of the channel information the application reads. *)
Record IChannelInfo : Type := mkChannelInfo {
  title : string;
  game : string;
}.

Record IStreamInfoServiceState : Type := mkStreamInfoState {
  fetching : bool;
  error : bool;
  viewerCount : Z;
  channelInfo : option IChannelInfo;
}.

Definition initialState : IStreamInfoServiceState :=
  {| fetching := false; error := false; viewerCount := 0; channelInfo := None |}.

Definition VIEWER_COUNT_UPDATE_INTERVAL : Z := 60 * 1000.

(** The class of the service [getPlatformService] returns. *)
Inductive Platform : Type := TwitchService | YoutubeService | MixerService.

(** A promise of the platform that is pending, with what its handlers
    captured. *)
Inductive Task : Type :=
| AwaitChannelInfo
| AwaitPutChannelInfo (game : string)
| AwaitViewerCount.

#[export] Instance IChannelInfo_eq_dec : EqDecision IChannelInfo.
Proof. solve_decision. Defined.
#[export] Instance Platform_eq_dec : EqDecision Platform.
Proof. solve_decision. Defined.
#[export] Instance Task_eq_dec : EqDecision Task.
Proof. solve_decision. Defined.

(** The service: its store slice and the promises that are pending. *)
Record Service : Type := mkService {
  state : IStreamInfoServiceState;
  pending : list Task;
}.

Definition initialService : Service :=
  {| state := initialState; pending := [] |}.

(** What the service reads from the user and the hosts services;
    [platform] is [None] when no user is logged in. *)
Record UserEnv : Type := mkUserEnv {
  isLoggedIn : bool;
  platform : option Platform;
  apiToken : string;
  overlays : string;
}.

Inductive StreamInfoEffect : Type :=
| fetchChannelInfo (p : Platform)
| putChannelInfo (p : Platform) (title second : string)
| fetchViewerCount (p : Platform)
| fetch (url token contentType body method : string)
| setInterval (ms : Z).

#[export] Instance StreamInfoEffect_eq_dec : EqDecision StreamInfoEffect.
Proof. solve_decision. Defined.

Definition M (A : Type) : Type := svc Service StreamInfoEffect A.

(** ** Mutations *)

Definition with_state (f : IStreamInfoServiceState → IStreamInfoServiceState)
    (s : Service) : Service :=
  {| state := f (state s); pending := pending s |}.

Definition SET_FETCHING (fetching' : bool) : Service → Service :=
  with_state (λ st, {| fetching := fetching'; error := error st;
                       viewerCount := viewerCount st; channelInfo := channelInfo st |}).

Definition SET_ERROR (error' : bool) : Service → Service :=
  with_state (λ st, {| fetching := fetching st; error := error';
                       viewerCount := viewerCount st; channelInfo := channelInfo st |}).

Definition SET_CHANNEL_INFO (info : IChannelInfo) : Service → Service :=
  with_state (λ st, {| fetching := fetching st; error := error st;
                       viewerCount := viewerCount st; channelInfo := Some info |}).

Definition SET_VIEWER_COUNT (viewers : Z) : Service → Service :=
  with_state (λ st, {| fetching := fetching st; error := error st;
                       viewerCount := viewers; channelInfo := channelInfo st |}).

(** A promise is put aside until the platform answers. *)
Definition add_task (task : Task) (s : Service) : Service :=
  {| state := state s; pending := pending s ++ [task] |}.

Definition remove_task (i : nat) (s : Service) : Service :=
  {| state := state s; pending := delete i (pending s) |}.

Definition defer (task : Task) : M unit := svc_modify (add_task task).

(** ** [encodeURIComponent] *)

(** The characters [encodeURIComponent] leaves alone: letters, digits and
    [- _ . ! ~ * ' ( )]. *)
Definition unreserved (c : ascii) : bool :=
  let n := nat_of_ascii c in
  ((65 <=? n) && (n <=? 90) || (97 <=? n) && (n <=? 122) ||
   (48 <=? n) && (n <=? 57))%nat ||
  bool_decide (c ∈ list_ascii_of_string "-_.!~*'()").

(** The upper-case hexadecimal digit of a number below 16. *)
Definition HEX (n : nat) : ascii :=
  if (n <? 10)%nat then ascii_of_nat (48 + n) else ascii_of_nat (55 + n).

Definition percent_encode (c : ascii) : string :=
  let n := nat_of_ascii c in
  String "%" (String (HEX (n / 16)) (String (HEX (n mod 16)) "")).

Fixpoint encodeURIComponent (s : string) : string :=
  match s with
  | EmptyString => ""
  | String c s' =>
      (if unreserved c then String c "" else percent_encode c) +:+
      encodeURIComponent s'
  end.

(** The value of a hexadecimal digit, of either case. *)
Definition unhex (c : ascii) : option nat :=
  let n := nat_of_ascii c in
  if ((48 <=? n) && (n <=? 57))%nat then Some (n - 48)%nat
  else if ((65 <=? n) && (n <=? 70))%nat then Some (n - 55)%nat
  else if ((97 <=? n) && (n <=? 102))%nat then Some (n - 87)%nat
  else None.

(** [decodeURIComponent] on bytes; [None] is the [URIError] of a malformed
    escape. *)
Fixpoint decodeURIComponent (s : string) : option string :=
  match s with
  | EmptyString => Some ""
  | String "%" (String h (String l s')) =>
      match unhex h, unhex l, decodeURIComponent s' with
      | Some a, Some b, Some r => Some (String (ascii_of_nat (16 * a + b)) r)
      | _, _, _ => None
      end
  | String "%" _ => None
  | String c s' => String c <$> decodeURIComponent s'
  end.

(** ** Methods *)

(** [refreshStreamInfo()], up to the request.  The result says whether the
    promise it returns is pending ([true]) or was rejected at once. *)
Definition refreshStreamInfo (env : UserEnv) : M bool :=
  if negb (isLoggedIn env) then svc_ret false
  else
    svc_modify (SET_ERROR false);;
    svc_modify (SET_FETCHING true);;
    let* platform := svc_deref (platform env) in
    svc_emit (fetchChannelInfo platform);;
    defer AwaitChannelInfo;;
    svc_ret true.

(** The two handlers of the request of [refreshStreamInfo]. *)
Definition refreshStreamInfo_then (info : IChannelInfo) : M unit :=
  svc_modify (SET_CHANNEL_INFO info);;
  svc_modify (SET_FETCHING false).

Definition refreshStreamInfo_catch : M unit :=
  svc_modify (SET_FETCHING false);;
  svc_modify (SET_ERROR true).

(** [createGameAssociation(game)] *)
Definition createGameAssociation (env : UserEnv) (game : string) : M unit :=
  let url := "https://" +:+ overlays env +:+ "/api/overlay-games-association" in
  let body := "game=" +:+ encodeURIComponent game in
  svc_emit (fetch url (apiToken env) "application/x-www-form-urlencoded" body "POST").

(** [platform instanceof TwitchService || MixerService]: the right operand
    is the class itself, which is truthy. *)
Definition isTwitchOrMixer (p : Platform) : bool :=
  bool_decide (p = TwitchService) || true.

(** [setStreamInfo(title, description, game)], up to the request. *)
Definition setStreamInfo (env : UserEnv) (title description game : string) : M unit :=
  let* platform := svc_deref (platform env) in
  svc_when (isTwitchOrMixer platform) (svc_emit (putChannelInfo platform title game));;
  svc_when (bool_decide (platform = YoutubeService))
    (svc_emit (putChannelInfo platform title description));;
  defer (AwaitPutChannelInfo game).

(** The two handlers of the request of [setStreamInfo]; the result is what
    the promise of [setStreamInfo] resolves to. *)
Definition setStreamInfo_then (env : UserEnv) (game : string) (success : bool) : M bool :=
  refreshStreamInfo env;;
  createGameAssociation env game;;
  svc_ret success.

Definition setStreamInfo_catch (env : UserEnv) : M bool :=
  refreshStreamInfo env;;
  svc_ret false.

(** One round of the interval [init] sets; [streaming] is
    [streamingService.isStreaming]. *)
Definition viewerCount_tick (env : UserEnv) (streaming : bool) : M unit :=
  svc_when streaming
    (let* platform := svc_deref (platform env) in
     svc_emit (fetchViewerCount platform);;
     defer AwaitViewerCount).

(** [init()] *)
Definition init (env : UserEnv) : M unit :=
  refreshStreamInfo env;;
  svc_emit (setInterval VIEWER_COUNT_UPDATE_INTERVAL).

(** ** The event loop *)

(** The answer of the platform to a request. *)
Inductive Answer : Type :=
| Info (info : IChannelInfo)
| Success (success : bool)
| Viewers (viewers : Z)
| Rejected.

(** The handlers a settled promise runs.  A promise settled with an answer
    of another kind than it expects runs no handler. *)
Definition run_task (env : UserEnv) (task : Task) (answer : Answer) : M unit :=
  match task, answer with
  | AwaitChannelInfo, Info info => refreshStreamInfo_then info
  | AwaitChannelInfo, Rejected => refreshStreamInfo_catch
  | AwaitPutChannelInfo game, Success success =>
      setStreamInfo_then env game success;; svc_ret tt
  | AwaitPutChannelInfo game, Rejected => setStreamInfo_catch env;; svc_ret tt
  | AwaitViewerCount, Viewers viewers => svc_modify (SET_VIEWER_COUNT viewers)
  | _, _ => svc_ret tt
  end.

(** The answer is of the kind the promise expects. *)
Definition answers (task : Task) (answer : Answer) : bool :=
  match task, answer with
  | AwaitChannelInfo, (Info _ | Rejected)
  | AwaitPutChannelInfo _, (Success _ | Rejected)
  | AwaitViewerCount, (Viewers _ | Rejected) => true
  | _, _ => false
  end.

(** The [i]-th pending promise settles. *)
Definition settle (env : UserEnv) (i : nat) (answer : Answer) : M unit :=
  let* waiting := svc_gets pending in
  match waiting !! i with
  | Some task =>
      if answers task answer then
        svc_modify (remove_task i);;
        run_task env task answer
      else svc_ret tt
  | None => svc_ret tt
  end.

Inductive Event : Type :=
| Init
| RefreshStreamInfo
| SetStreamInfo (title description game : string)
| Tick (streaming : bool)
| Settle (i : nat) (answer : Answer).

Definition handle (env : UserEnv) (ev : Event) : M unit :=
  match ev with
  | Init => init env
  | RefreshStreamInfo => refreshStreamInfo env;; svc_ret tt
  | SetStreamInfo title description game => setStreamInfo env title description game
  | Tick streaming => viewerCount_tick env streaming
  | Settle i answer => settle env i answer
  end.

(** A user who is logged in has a platform. *)
Definition env_ok (env : UserEnv) : Prop :=
  isLoggedIn env = true → is_Some (platform env).

(** One step of the service: an event under some state of the user
    service. *)
Inductive step : Service → Service → Prop :=
| step_event env ev s : env_ok env → step s (final (handle env ev s)).

Definition reachable (s : Service) : Prop := rtc step initialService s.

(** Runs events one after the other under one state of the user service,
    collecting the trace. *)
Definition run_events (env : UserEnv) (evs : list Event) (s : Service) :
    Service * list StreamInfoEffect :=
  run_all (handle env) evs s.

(** ** The invariant of the fetching flag *)

(** The spinner is owed to a request: when no request for the channel
    information is pending, the store is not fetching. *)
Definition fetching_ok (s : Service) : Prop :=
  AwaitChannelInfo ∉ pending s → fetching (state s) = false.

(** ** Runs *)

Lemma refreshStreamInfo_run env s :
  refreshStreamInfo env s =
    if negb (isLoggedIn env) then Run (Normal false) s []
    else
      let s' := SET_FETCHING true (SET_ERROR false s) in
      match platform env with
      | Some p => Run (Normal true) (add_task AwaitChannelInfo s') [fetchChannelInfo p]
      | None => Run (Throw TypeError) s' []
      end.
Proof.
  unfold refreshStreamInfo. destruct (isLoggedIn env); [|done]. simpl.
  rewrite !svc_bind_modify. by destruct (platform env).
Qed.

Lemma setStreamInfo_run env title description game s :
  setStreamInfo env title description game s =
    match platform env with
    | Some p =>
        Run (Normal tt) (add_task (AwaitPutChannelInfo game) s)
          (putChannelInfo p title game ::
           if decide (p = YoutubeService) then [putChannelInfo p title description]
           else [])
    | None => Run (Throw TypeError) s []
    end.
Proof.
  unfold setStreamInfo. destruct (platform env) as [p|]; [|done].
  rewrite svc_bind_deref_Some. by destruct p.
Qed.

Lemma viewerCount_tick_run env streaming s :
  viewerCount_tick env streaming s =
    if streaming then
      match platform env with
      | Some p => Run (Normal tt) (add_task AwaitViewerCount s) [fetchViewerCount p]
      | None => Run (Throw TypeError) s []
      end
    else Run (Normal tt) s [].
Proof. destruct streaming; [|done]. simpl. by destruct (platform env). Qed.

Lemma settle_run env i answer s :
  settle env i answer s =
    match pending s !! i with
    | Some task =>
        if answers task answer then run_task env task answer (remove_task i s)
        else Run (Normal tt) s []
    | None => Run (Normal tt) s []
    end.
Proof.
  unfold settle. rewrite svc_bind_gets. destruct (pending s !! i) as [task|]; [|done].
  destruct (answers task answer); [by rewrite svc_bind_modify | done].
Qed.

(** A refresh by a logged-in user. *)
Lemma refreshStreamInfo_sent env p s :
  isLoggedIn env = true → platform env = Some p →
  refreshStreamInfo env s =
    Run (Normal true) (add_task AwaitChannelInfo (SET_FETCHING true (SET_ERROR false s)))
      [fetchChannelInfo p].
Proof. intros Hin Hp. by rewrite refreshStreamInfo_run, Hin, Hp. Qed.

Lemma handle_refresh_run env p s :
  isLoggedIn env = true → platform env = Some p →
  handle env RefreshStreamInfo s =
    Run (Normal tt) (add_task AwaitChannelInfo (SET_FETCHING true (SET_ERROR false s)))
      [fetchChannelInfo p].
Proof.
  intros Hin Hp. cbn [handle].
  by rewrite (svc_bind_run _ _ _ _ _ _ (refreshStreamInfo_sent env p s Hin Hp)).
Qed.

(** ** The fetching flag is owed to a request *)

Lemma refreshStreamInfo_fetching_ok env :
  env_ok env → preserves fetching_ok (refreshStreamInfo env).
Proof.
  intros Henv s Hs. rewrite refreshStreamInfo_run.
  destruct (isLoggedIn env) eqn:Hin; [|done]. simpl.
  destruct (Henv Hin) as [p ->]. intros Hno. destruct Hno.
  apply elem_of_app. right. by apply list_elem_of_singleton.
Qed.

Lemma add_task_fetching_ok task s :
  fetching_ok s → fetching_ok (add_task task s).
Proof.
  intros Hs Hno. apply Hs. intros Hin. apply Hno, elem_of_app. by left.
Qed.

Lemma remove_task_fetching_ok i task s :
  pending s !! i = Some task → task ≠ AwaitChannelInfo →
  fetching_ok s → fetching_ok (remove_task i s).
Proof.
  intros Hi Hne Hs Hno. apply Hs. intros Hin. apply Hno. simpl.
  apply occurrences_pos. apply occurrences_pos in Hin.
  pose proof (occurrences_delete AwaitChannelInfo _ _ _ Hi) as Hdel.
  rewrite decide_False in Hdel by done. lia.
Qed.

Lemma defer_fetching_ok task : preserves fetching_ok (defer task).
Proof. apply preserves_modify. intros s. apply add_task_fetching_ok. Qed.

Lemma SET_VIEWER_COUNT_fetching_ok viewers :
  preserves fetching_ok (svc_modify (E := StreamInfoEffect) (SET_VIEWER_COUNT viewers)).
Proof. by apply preserves_modify. Qed.

#[local] Hint Resolve refreshStreamInfo_fetching_ok defer_fetching_ok
  SET_VIEWER_COUNT_fetching_ok : svc.

(** The handlers of a request for the channel information end the
    fetching, whatever the store was. *)
Lemma channelInfo_settled env answer s :
  fetching (state (final (run_task env AwaitChannelInfo answer s))) =
    if answers AwaitChannelInfo answer then false else fetching (state s).
Proof. by destruct answer. Qed.

Lemma run_task_fetching_ok env task answer :
  env_ok env → task ≠ AwaitChannelInfo →
  preserves fetching_ok (run_task env task answer).
Proof.
  intros Henv Hne. destruct task, answer; try done;
    unfold run_task, setStreamInfo_then, setStreamInfo_catch, createGameAssociation;
    preserves_go.
Qed.

Lemma settle_fetching_ok env i answer :
  env_ok env → preserves fetching_ok (settle env i answer).
Proof.
  intros Henv s Hs. rewrite settle_run.
  destruct (pending s !! i) as [task|] eqn:Hi; [|done].
  destruct (answers task answer) eqn:Hans; [|done].
  destruct (decide (task = AwaitChannelInfo)) as [->|Hne].
  - intros _. by rewrite channelInfo_settled, Hans.
  - apply run_task_fetching_ok; [done..|]. by eapply remove_task_fetching_ok.
Qed.

Lemma handle_fetching_ok env ev :
  env_ok env → preserves fetching_ok (handle env ev).
Proof.
  intros Henv. pose proof (settle_fetching_ok env) as Hsettle.
  destruct ev; unfold handle, init, setStreamInfo, viewerCount_tick; preserves_go.
Qed.

(** ** Escapes *)

Lemma nat_of_ascii_bound c : (nat_of_ascii c < 256)%nat.
Proof. destruct c as [[] [] [] [] [] [] [] []]; vm_compute; lia. Qed.

Lemma unhex_HEX n : (n < 16)%nat → unhex (HEX n) = Some n.
Proof. intros Hn. do 16 (destruct n as [|n]; [done|]). lia. Qed.

Lemma unreserved_HEX n : (n < 16)%nat → unreserved (HEX n) = true.
Proof. intros Hn. do 16 (destruct n as [|n]; [done|]). lia. Qed.

Lemma decode_unreserved c s :
  unreserved c = true →
  decodeURIComponent (String c s) = String c <$> decodeURIComponent s.
Proof. by destruct c as [[] [] [] [] [] [] [] []]. Qed.

Lemma decode_percent_encode c s :
  decodeURIComponent (percent_encode c +:+ s) = String c <$> decodeURIComponent s.
Proof.
  pose proof (nat_of_ascii_bound c) as Hc.
  change (percent_encode c +:+ s) with
    (String "%" (String (HEX (nat_of_ascii c / 16))
       (String (HEX (nat_of_ascii c mod 16)) s))).
  cbn [decodeURIComponent]. rewrite !unhex_HEX.
  - rewrite <- Nat.div_mod_eq, ascii_nat_embedding.
    by destruct (decodeURIComponent s).
  - apply Nat.mod_upper_bound. lia.
  - apply Nat.Div0.div_lt_upper_bound. lia.
Qed.

Lemma list_ascii_of_string_app s1 s2 :
  list_ascii_of_string (s1 +:+ s2) = list_ascii_of_string s1 ++ list_ascii_of_string s2.
Proof. induction s1 as [|c s1 IH]; [done|]. simpl. by rewrite <- IH. Qed.

(** The characters of an encoded component. *)
Definition escaped (c : ascii) : Prop := unreserved c = true ∨ c = "%"%char.

Lemma encodeURIComponent_escaped s :
  Forall escaped (list_ascii_of_string (encodeURIComponent s)).
Proof.
  induction s as [|c s IH]; [by constructor|]. cbn [encodeURIComponent].
  rewrite list_ascii_of_string_app. apply Forall_app. split; [|done].
  pose proof (nat_of_ascii_bound c) as Hc.
  destruct (unreserved c) eqn:Hun.
  - apply Forall_cons_2; [by left | apply Forall_nil_2].
  - apply Forall_cons_2; [by right|].
    apply Forall_cons_2;
      [left; apply unreserved_HEX, Nat.Div0.div_lt_upper_bound; lia|].
    apply Forall_cons_2; [|apply Forall_nil_2].
    left. apply unreserved_HEX, Nat.mod_upper_bound. lia.
Qed.

(** * Properties *)

(** C21: The fetching flag is owed to a request.  In every state the service
    reaches, through calls of its methods, rounds of the interval and
    answers of the platform in any order (under a user who has a platform
    whenever logged in), the store says it is fetching only while a request
    for the channel information is pending: the spinner cannot stay
    forever. *)
Theorem fetching_settles (s : Service) : reachable s → fetching_ok s.
Proof.
  revert s. apply rtc_ind_r; [done|].
  intros s s' _ [env ev s0 Henv] IH. by apply handle_fetching_ok.
Qed.

(** The requests of [setStreamInfo].  The first test,
    [platform instanceof TwitchService || MixerService], holds for every
    platform, so the title and the game are put on the channel of every
    platform; on YouTube the title and the description are put after them,
    and only that second request is waited for. *)
Theorem setStreamInfo_requests (env : UserEnv) (title description game : string)
    (s : Service) (p : Platform) :
  platform env = Some p →
  setStreamInfo env title description game s =
    Run (Normal tt) (add_task (AwaitPutChannelInfo game) s)
      (putChannelInfo p title game ::
       if decide (p = YoutubeService) then [putChannelInfo p title description]
       else []).
Proof. intros Hp. by rewrite setStreamInfo_run, Hp. Qed.

(** The last answer wins, not the last request.  Of two overlapping
    requests for the channel information, the first answer that arrives
    ends the fetching although the other request is still pending, and the
    answer that arrives last is the one the store keeps, also when it
    belongs to the older request. *)
Theorem stale_answer_wins (env : UserEnv) (p : Platform)
    (older newer : IChannelInfo) (s : Service) :
  isLoggedIn env = true → platform env = Some p → pending s = [] →
  let r3 := run_events env
    [RefreshStreamInfo; RefreshStreamInfo; Settle 1 (Info newer)] s in
  let r4 := run_events env [Settle 0 (Info older)] r3.1 in
  fetching (state r3.1) = false ∧ pending r3.1 = [AwaitChannelInfo] ∧
  channelInfo (state r3.1) = Some newer ∧
  channelInfo (state r4.1) = Some older ∧ pending r4.1 = [].
Proof.
  intros Hin Hp Hs. destruct s as [st ts]. simpl in Hs. subst ts.
  unfold run_events. cbn [run_all]. by rewrite !(handle_refresh_run env p).
Qed.

(** [decodeURIComponent] undoes [encodeURIComponent]: the game sent to
    the overlay library is read back as it was given. *)
Theorem encodeURIComponent_roundtrip (s : string) :
  decodeURIComponent (encodeURIComponent s) = Some s.
Proof.
  induction s as [|c s IH]; [done|]. cbn [encodeURIComponent].
  destruct (unreserved c) eqn:Hun.
  - change (String c "" +:+ encodeURIComponent s) with (String c (encodeURIComponent s)).
    by rewrite decode_unreserved, IH.
  - by rewrite decode_percent_encode, IH.
Qed.

(** The request of [createGameAssociation] carries one parameter.  It
    is a POST to the overlay host with the user's token and a body that is
    [game=] followed only by unreserved characters and percent escapes:
    whatever the name of the game, it cannot end the parameter or start
    another. *)
Theorem createGameAssociation_request (env : UserEnv) (game : string) (s : Service) :
  createGameAssociation env game s =
    Run (Normal tt) s
      [fetch ("https://" +:+ overlays env +:+ "/api/overlay-games-association")
         (apiToken env) "application/x-www-form-urlencoded"
         ("game=" +:+ encodeURIComponent game) "POST"] ∧
  Forall (λ c, c ≠ "&"%char ∧ c ≠ "="%char ∧ c ≠ "+"%char ∧ c ≠ " "%char)
    (list_ascii_of_string (encodeURIComponent game)).
Proof.
  split; [done|]. eapply Forall_impl; [apply encodeURIComponent_escaped|].
  intros c [Hun| ->]; [|done]. by repeat split; intros ->.
Qed.

(** A settled [putChannelInfo] refreshes the channel information.  When
    the platform answers the request of [setStreamInfo], with success or
    not, the channel information is requested again and the store is
    fetching; the game is reported to the overlay library after that; when
    the request failed, nothing is reported. *)
Theorem putChannelInfo_settled (env : UserEnv) (p : Platform) (i : nat)
    (game : string) (answer : Answer) (s : Service) :
  isLoggedIn env = true → platform env = Some p →
  pending s !! i = Some (AwaitPutChannelInfo game) →
  answers (AwaitPutChannelInfo game) answer = true →
  settle env i answer s =
    Run (Normal tt)
      (add_task AwaitChannelInfo (SET_FETCHING true (SET_ERROR false (remove_task i s))))
      (fetchChannelInfo p ::
       match answer with
       | Success _ =>
           [fetch ("https://" +:+ overlays env +:+ "/api/overlay-games-association")
              (apiToken env) "application/x-www-form-urlencoded"
              ("game=" +:+ encodeURIComponent game) "POST"]
       | _ => []
       end).
Proof.
  intros Hin Hp Hi Hans. rewrite settle_run, Hi, Hans.
  destruct answer; try done;
    unfold run_task, setStreamInfo_then, setStreamInfo_catch; rewrite ?svc_bind_assoc;
    by rewrite (svc_bind_run _ _ _ _ _ _ (refreshStreamInfo_sent env p _ Hin Hp)).
Qed.

(** ** The theorems at a concrete service *)

Definition twitch_user : UserEnv :=
  {| isLoggedIn := true; platform := Some TwitchService;
     apiToken := "token"; overlays := "overlays.example" |}.

Definition youtube_user : UserEnv :=
  {| isLoggedIn := true; platform := Some YoutubeService;
     apiToken := "token"; overlays := "overlays.example" |}.

Definition some_info : IChannelInfo := {| title := "Speedrun"; game := "Tetris" |}.
Definition other_info : IChannelInfo := {| title := "Chill"; game := "Go" |}.

Lemma fetching_settles_witness :
  fetching_ok (final (handle twitch_user Init initialService)).
Proof.
  apply fetching_settles. eapply rtc_l; [|apply rtc_refl].
  apply (step_event twitch_user Init). by exists TwitchService.
Defined.

Lemma setStreamInfo_requests_witness :
  trace (setStreamInfo youtube_user "Title" "About" "Tetris" initialService) =
    [putChannelInfo YoutubeService "Title" "Tetris";
     putChannelInfo YoutubeService "Title" "About"].
Proof.
  by rewrite (setStreamInfo_requests youtube_user "Title" "About" "Tetris"
                initialService YoutubeService).
Defined.

Lemma stale_answer_wins_witness :
  channelInfo (state (run_events twitch_user
    [RefreshStreamInfo; RefreshStreamInfo; Settle 1 (Info some_info);
     Settle 0 (Info other_info)] initialService).1) = Some other_info.
Proof.
  by destruct (stale_answer_wins twitch_user TwitchService other_info some_info
                 initialService) as (_ & _ & _ & H & _).
Defined.

Lemma putChannelInfo_settled_witness :
  pending (final (settle twitch_user 0 (Success true)
    (add_task (AwaitPutChannelInfo "Tetris") initialService))) = [AwaitChannelInfo].
Proof.
  by rewrite (putChannelInfo_settled twitch_user TwitchService 0 "Tetris").
Defined.

End StreamInfo.
