(* ===== verification/Overlays.v ===== *)
(** * BrowseOverlays: installing overlays and widgets from the library page

    Models the component [BrowseOverlays], the second document of
    [src/app/components/TopNav.vue.ts] (lines 93-209).  The page embeds a web
    view and exposes two functions to it, [installOverlay] and
    [installWidgets]; both refuse a URL whose host is not trusted.

    The two functions are [async].  What each [await] receives is read from
    the environment ([Env]): the outcome of the installation, of each
    download and of each load, a value or a rejection.  A rejection ends the
    function as a thrown error does.  The parsing of URLs is a parameter of
    the environment too: [hostname] is [new URL(url).hostname], which throws
    on a string that is no URL, and [protocol] is [urlLib.parse(url).protocol].
    The component has no state of its own; the state of the model is what
    it reads of the scenes service, the id of the active scene. *)

From Stdlib Require Import ZArith String.
From stdpp Require Import base tactics option list strings.
From S2P Require Import Prelude.

Set Warnings "-clear-no-such-hyp".

Local Open Scope string_scope.
Local Open Scope list_scope.
Local Open Scope svc_scope.

Module BrowseOverlays.

(** ** Data *)

Record Env : Type := mkEnv {
  hostname : string → option string;
  protocol : string → option string;
  installOverlay_result : string → completion unit;
  downloadOverlay_result : string → completion string;
  loadWidgetFile_result : string → completion unit;
}.

(** What the component reads of the scenes service. *)
Record World : Type := mkWorld {
  activeSceneId : string;
}.

(** [ENotificationType] of the notifications API. *)
Inductive ENotificationType : Type := INFO | WARNING | SUCCESS.

(** [INotificationOptions], what [push] receives: the fields [installWidgets]
    gives, with the request of the action as its method and arguments. *)
Record INotificationOptions : Type := mkNotification {
  message : string;
  type : ENotificationType;
  action_method : string;
  action_args : list string;
  lifeTime : Z;
  showTime : bool;
}.

Inductive OverlayEffect : Type :=
| guestApiService_exposeApi (names : list string)
| addEventListener (event : string)
| openExternal (url : string)
| console_error (text : string)
| sceneCollectionsService_installOverlay (url name : string)
| navigationService_navigate (page : string)
| overlaysPersistenceService_downloadOverlay (url : string)
| widgetsService_loadWidgetFile (path sceneId : string)
| notificationsService_push (n : INotificationOptions).

#[export] Instance ENotificationType_eq_dec : EqDecision ENotificationType.
Proof. solve_decision. Defined.
#[export] Instance INotificationOptions_eq_dec : EqDecision INotificationOptions.
Proof. solve_decision. Defined.
#[export] Instance OverlayEffect_eq_dec : EqDecision OverlayEffect.
Proof. solve_decision. Defined.

Definition M (A : Type) : Type := svc World OverlayEffect A.

(** What an [await] receives. *)
Definition await {A} (outcome : completion A) : M A :=
  svc_try_gets (λ _, outcome).

Definition trustedHosts : list string := ["cdn.streamlabs.com"].

(** ** Methods *)

(** The listener of [new-window] that [mounted] registers. *)
Definition on_new_window (env : Env) (url : string) : M unit :=
  let protocol := protocol env url in
  svc_when (bool_decide (protocol = Some "http:") || bool_decide (protocol = Some "https:"))
    (svc_emit (openExternal url)).

(** [mounted()] *)
Definition mounted : M unit :=
  svc_emit (guestApiService_exposeApi ["installOverlay"; "installWidgets"]);;
  svc_emit (addEventListener "new-window").

(** [installOverlay(url, name)] *)
Definition installOverlay (env : Env) (url name : string) : M unit :=
  let* host := svc_deref (hostname env url) in
  if negb (includes trustedHosts host) then
    svc_emit (console_error ("Ignoring overlay install from untrusted host: " +:+ host))
  else
    svc_emit (sceneCollectionsService_installOverlay url name);;
    await (installOverlay_result env url);;
    svc_emit (navigationService_navigate "Studio").

(** The loop of [installWidgets]; the result says whether it ran to its end
    ([true]) or returned from the function ([false]). *)
Fixpoint installWidgets_loop (env : Env) (urls : list string) : M bool :=
  match urls with
  | [] => svc_ret true
  | url :: urls' =>
      let* host := svc_deref (hostname env url) in
      if negb (includes trustedHosts host) then
        svc_emit (console_error ("Ignoring widget install from untrusted host: " +:+ host));;
        svc_ret false
      else
        svc_emit (overlaysPersistenceService_downloadOverlay url);;
        let* path := await (downloadOverlay_result env url) in
        let* scene := svc_gets activeSceneId in
        svc_emit (widgetsService_loadWidgetFile path scene);;
        await (loadWidgetFile_result env path);;
        installWidgets_loop env urls'
  end.

Definition widgets_installed : INotificationOptions :=
  {| type := SUCCESS;
     lifeTime := 8000;
     showTime := false;
     message :=
       "Widget Theme installed & activated. Click here to manage your Widget Profiles.";
     action_method := "navigate";
     action_args := ["Dashboard"; "widgetthemes"] |}.

(** [installWidgets(urls)] *)
Definition installWidgets (env : Env) (urls : list string) : M unit :=
  let* finished := installWidgets_loop env urls in
  if finished then
    svc_emit (navigationService_navigate "Studio");;
    svc_emit (notificationsService_push widgets_installed)
  else svc_ret tt.

(** ** What is installed *)

(** The path a widget is loaded from, when its URL is trusted and its
    download and its load succeed. *)
Definition installs (env : Env) (url : string) : option string :=
  match hostname env url with
  | Some host =>
      if includes trustedHosts host then
        match downloadOverlay_result env url with
        | Normal path =>
            match loadWidgetFile_result env path with
            | Normal _ => Some path
            | Throw _ => None
            end
        | Throw _ => None
        end
      else None
  | None => None
  end.

(** The effects of installing one widget. *)
Definition widget_effects (env : Env) (s : World) (url : string) : list OverlayEffect :=
  match installs env url with
  | Some path =>
      [overlaysPersistenceService_downloadOverlay url;
       widgetsService_loadWidgetFile path (activeSceneId s)]
  | None => []
  end.

(** The URL an effect fetches from, if it fetches. *)
Definition fetched (e : OverlayEffect) : option string :=
  match e with
  | sceneCollectionsService_installOverlay url _
  | overlaysPersistenceService_downloadOverlay url => Some url
  | _ => None
  end.

(** The host of the URL is the trusted one. *)
Definition trusted (env : Env) (url : string) : Prop :=
  ∃ host, hostname env url = Some host ∧ host ∈ trustedHosts.

(** ** Runs *)

Lemma await_bind {A B} (outcome : completion A) (f : A → M B) s :
  svc_bind (await outcome) f s =
    match outcome with
    | Normal a => f a s
    | Throw e => Run (Throw e) s []
    end.
Proof. apply svc_bind_try_gets. Qed.

(** One round of the loop. *)
Lemma installWidgets_loop_cons env url urls s :
  installWidgets_loop env (url :: urls) s =
    match hostname env url with
    | None => Run (Throw TypeError) s []
    | Some host =>
        if includes trustedHosts host then
          let download := overlaysPersistenceService_downloadOverlay url in
          match downloadOverlay_result env url with
          | Throw e => Run (Throw e) s [download]
          | Normal path =>
              let load := widgetsService_loadWidgetFile path (activeSceneId s) in
              match loadWidgetFile_result env path with
              | Throw e => Run (Throw e) s [download; load]
              | Normal _ => prepend [download; load] (installWidgets_loop env urls s)
              end
          end
        else
          Run (Normal false) s
            [console_error ("Ignoring widget install from untrusted host: " +:+ host)]
    end.
Proof.
  cbn [installWidgets_loop]. destruct (hostname env url) as [host|]; [|done].
  rewrite svc_bind_deref_Some. destruct (includes trustedHosts host); [|done].
  cbn [negb]. rewrite svc_bind_emit, await_bind.
  destruct (downloadOverlay_result env url) as [path|e]; [|done].
  rewrite svc_bind_gets, svc_bind_emit, await_bind.
  destruct (loadWidgetFile_result env path); [|done].
  by rewrite prepend_prepend.
Qed.

Lemma installs_Some env url path :
  installs env url = Some path →
  ∃ host, hostname env url = Some host ∧ includes trustedHosts host = true ∧
          downloadOverlay_result env url = Normal path ∧
          loadWidgetFile_result env path = Normal tt.
Proof.
  unfold installs. destruct (hostname env url) as [host|]; [|done].
  destruct (includes trustedHosts host) eqn:Hin; [|done].
  destruct (downloadOverlay_result env url) as [path'|]; [|done].
  destruct (loadWidgetFile_result env path') as [[]|] eqn:Hload; [|done].
  intros [= <-]. by exists host.
Qed.

Lemma widget_effects_Some env s url path :
  installs env url = Some path →
  widget_effects env s url =
    [overlaysPersistenceService_downloadOverlay url;
     widgetsService_loadWidgetFile path (activeSceneId s)].
Proof. unfold widget_effects. by intros ->. Qed.

(** The loop installs the widgets that install, one after the other. *)
Lemma installWidgets_loop_app env good rest s :
  Forall (λ url, is_Some (installs env url)) good →
  installWidgets_loop env (good ++ rest) s =
    prepend (good ≫= widget_effects env s) (installWidgets_loop env rest s).
Proof.
  induction 1 as [|url good [path Hurl] _ IH];
    [simpl; by rewrite prepend_nil|].
  destruct (installs_Some _ _ _ Hurl) as (host & Hhost & Hin & Hdl & Hload).
  rewrite <- app_comm_cons, installWidgets_loop_cons, Hhost, Hin, Hdl, Hload, IH.
  cbn [mbind list_bind]. rewrite (widget_effects_Some env s url path Hurl).
  by rewrite prepend_prepend.
Qed.

(** The component does not change what it reads. *)
Lemma installWidgets_loop_final env urls s :
  final (installWidgets_loop env urls s) = s.
Proof.
  induction urls as [|url urls IH]; [done|]. rewrite installWidgets_loop_cons.
  by repeat case_match.
Qed.

Lemma installWidgets_loop_trusted env urls s :
  Forall (trusted env) (omap fetched (trace (installWidgets_loop env urls s))).
Proof.
  induction urls as [|url urls IH]; [by constructor|].
  rewrite installWidgets_loop_cons.
  destruct (hostname env url) as [host|] eqn:Hhost; [|by constructor].
  destruct (includes trustedHosts host) eqn:Hin; [|by constructor].
  assert (trusted env url) as Hurl by (exists host; by rewrite <- includes_true).
  cbv zeta. repeat case_match; cbn [trace prepend app omap list_omap fetched];
    repeat (apply Forall_cons_2; [done|]); by try constructor.
Qed.

(** * Properties *)

(** C22: Only trusted hosts are fetched from.  Whatever the URLs the web view
    passes, and whatever the outcome of each download and load, every URL
    that [installOverlay] hands to the scene collections service and every
    URL that [installWidgets] downloads has the trusted host. *)
Theorem installs_only_trusted (env : Env) (url name : string) (urls : list string)
    (s : World) :
  Forall (trusted env) (omap fetched (trace (installOverlay env url name s))) ∧
  Forall (trusted env) (omap fetched (trace (installWidgets env urls s))).
Proof.
  split.
  - unfold installOverlay. destruct (hostname env url) as [host|] eqn:Hhost;
      [|by constructor].
    rewrite svc_bind_deref_Some.
    destruct (includes trustedHosts host) eqn:Hin; [|by constructor].
    cbn [negb]. rewrite svc_bind_emit, await_bind.
    destruct (installOverlay_result env url); (apply Forall_cons_2;
      [exists host; by rewrite <- includes_true | by constructor]).
  - unfold installWidgets.
    pose proof (installWidgets_loop_trusted env urls s) as Hloop.
    pose proof (installWidgets_loop_final env urls s) as Hfin.
    unfold svc_bind. destruct (installWidgets_loop env urls s) as [[[]|e] s' t];
      simpl in *; by rewrite ?omap_app, ?app_nil_r.
Qed.

(** An untrusted URL stops [installWidgets] half way, silently.  When
    the widgets before it install, they stay installed; the function then
    logs the host and returns without an error, without opening the Studio
    page and without the notification: its caller cannot tell it from a
    complete installation, and the widgets after it are not looked at. *)
Theorem installWidgets_partial (env : Env) (good rest : list string)
    (bad host : string) (s : World) :
  Forall (λ url, is_Some (installs env url)) good →
  hostname env bad = Some host → host ∉ trustedHosts →
  installWidgets env (good ++ bad :: rest) s =
    Run (Normal tt) s
      ((good ≫= widget_effects env s) ++
       [console_error ("Ignoring widget install from untrusted host: " +:+ host)]).
Proof.
  intros Hgood Hbad Hhost. unfold installWidgets.
  assert (installWidgets_loop env (good ++ bad :: rest) s =
    Run (Normal false) s ((good ≫= widget_effects env s) ++
      [console_error ("Ignoring widget install from untrusted host: " +:+ host)]))
    as Hloop.
  { rewrite installWidgets_loop_app, installWidgets_loop_cons, Hbad by done.
    rewrite <- includes_true in Hhost. by destruct (includes trustedHosts host). }
  rewrite (svc_bind_run _ _ _ _ _ _ Hloop). cbv beta iota.
  by rewrite svc_ret_run, prepend_Run, app_nil_r.
Qed.

(** A complete installation.  When every widget installs,
    [installWidgets] downloads and loads them in the order given, each into
    the scene that is active, then opens the Studio page and pushes the
    notification. *)
Theorem installWidgets_complete (env : Env) (urls : list string) (s : World) :
  Forall (λ url, is_Some (installs env url)) urls →
  installWidgets env urls s =
    Run (Normal tt) s
      ((urls ≫= widget_effects env s) ++
       [navigationService_navigate "Studio"; notificationsService_push widgets_installed]).
Proof.
  intros Hall. unfold installWidgets.
  assert (installWidgets_loop env urls s =
            Run (Normal true) s (urls ≫= widget_effects env s)) as Hloop.
  { rewrite <- (app_nil_r urls) at 1. rewrite installWidgets_loop_app by done.
    cbn [installWidgets_loop]. by rewrite svc_ret_run, prepend_Run, app_nil_r. }
  rewrite (svc_bind_run _ _ _ _ _ _ Hloop). svc_simp.
  unfold svc_emit, prepend. simpl. by rewrite <- app_assoc.
Qed.

(** ** The theorems at a concrete page *)

(** An environment in which every request succeeds and the host of a URL is
    read off a table. *)
Definition test_env : Env :=
  {| hostname := λ url,
       if decide (url = "https://cdn.streamlabs.com/a.widget") then Some "cdn.streamlabs.com"
       else if decide (url = "https://evil.example/b.widget") then Some "evil.example"
       else None;
     protocol := λ url, Some "https:";
     installOverlay_result := λ _, Normal tt;
     downloadOverlay_result := λ url, Normal ("/tmp/" +:+ url);
     loadWidgetFile_result := λ _, Normal tt |}.

Definition test_world : World := {| activeSceneId := "scene_1" |}.

Lemma installWidgets_partial_witness :
  installWidgets test_env
    ["https://cdn.streamlabs.com/a.widget"; "https://evil.example/b.widget";
     "https://cdn.streamlabs.com/a.widget"] test_world =
  Run (Normal tt) test_world
    [overlaysPersistenceService_downloadOverlay "https://cdn.streamlabs.com/a.widget";
     widgetsService_loadWidgetFile "/tmp/https://cdn.streamlabs.com/a.widget" "scene_1";
     console_error "Ignoring widget install from untrusted host: evil.example"].
Proof.
  apply (installWidgets_partial test_env ["https://cdn.streamlabs.com/a.widget"]
           ["https://cdn.streamlabs.com/a.widget"] "https://evil.example/b.widget"
           "evil.example" test_world); [|done|].
  - by repeat constructor.
  - by intros ?%list_elem_of_singleton.
Defined.

Lemma installWidgets_complete_witness :
  last (trace (installWidgets test_env ["https://cdn.streamlabs.com/a.widget"] test_world)) =
    Some (notificationsService_push widgets_installed).
Proof.
  rewrite (installWidgets_complete test_env ["https://cdn.streamlabs.com/a.widget"]);
    [done|]. by repeat constructor.
Defined.

End BrowseOverlays.
