(* ===== verification/EditStreamInfo.v ===== *)
(** * EditStreamInfo: the window that updates the stream information

    Models the component of
    [src/app/components/windows/EditStreamInfo.vue.ts].  The window holds a
    form (title, description, game, the choice of an encoder profile) and
    talks to two services modelled elsewhere: the stream-info service
    ([StreamInfo]) and the streaming service ([Streaming]).  The state of the
    model is the fields of the component together with the states of the two
    services; a call into a service runs the service's computation on its
    part of the state ([svc_lift]).

    The promises the component waits for ([setStreamInfo], [searchGames],
    [refreshStreamInfo]) are cut at the [then]: the handler is a definition
    of its own, run by an event that carries what the promise resolved to.
    The debounced game search is the pending search string and the event of
    its timer.  The encoding-optimization service and the platform's game
    search are outside the sources: the profiles of a game are a parameter of
    the environment, the search is an effect. *)

From Stdlib Require Import ZArith String.
From stdpp Require Import base tactics option list strings relations.
From S2P Require Import Prelude.
From S2P Require Import Streaming.
From S2P Require Import StreamInfo.

Set Warnings "-clear-no-such-hyp".

Local Open Scope string_scope.
Local Open Scope list_scope.
Local Open Scope svc_scope.

Module EditStreamInfo.

#[local] Existing Instances StreamInfo.Platform_eq_dec StreamInfo.IChannelInfo_eq_dec
  StreamInfo.StreamInfoEffect_eq_dec Streaming.StreamingEffect_eq_dec
  Streaming.EStreamingState_eq_dec Streaming.ERecordingState_eq_dec.

(** ** Data *)

(** An encoder preset, by the two fields the window shows. *)
Record IEncoderPreset : Type := mkEncoderPreset {
  profile_description : string;
  profile_longDescription : string;
}.

Record IMultiSelectProfiles : Type := mkMultiSelectProfiles {
  value : IEncoderPreset;
  description : string;
  longDescription : string;
}.

(** An option of the list of games. *)
Record IListOption : Type := mkListOption {
  option_description : string;
  option_value : string;
}.

#[export] Instance IEncoderPreset_eq_dec : EqDecision IEncoderPreset.
Proof. solve_decision. Defined.
#[export] Instance IMultiSelectProfiles_eq_dec : EqDecision IMultiSelectProfiles.
Proof. solve_decision. Defined.
#[export] Instance IListOption_eq_dec : EqDecision IListOption.
Proof. solve_decision. Defined.

(** The component: its flags, the values of its form models, the profile,
    the search its debounce holds back, and the two services. *)
Record Component : Type := mkComponent {
  searchingGames : bool;
  updatingInfo : bool;
  updateError : bool;
  areAvailableProfiles : bool;
  useOptimizedProfile : bool;
  isGenericProfiles : bool;
  streamTitleModel : string;
  streamDescriptionModel : string;
  gameModel : string;
  gameModel_options : list IListOption;
  doNotShowAgainModel : bool;
  encoderProfile : option IMultiSelectProfiles;
  debounced : option string;
  streamInfoService : StreamInfo.Service;
  streamingService : Streaming.Service;
}.

Definition initialComponent (info : StreamInfo.Service) (streaming : Streaming.Service) :
    Component :=
  {| searchingGames := false; updatingInfo := false; updateError := false;
     areAvailableProfiles := false; useOptimizedProfile := false;
     isGenericProfiles := false;
     streamTitleModel := ""; streamDescriptionModel := ""; gameModel := "";
     gameModel_options := []; doNotShowAgainModel := false;
     encoderProfile := None; debounced := None;
     streamInfoService := info; streamingService := streaming |}.

(** What the component reads from outside. *)
Record Env : Type := mkEnv {
  user : StreamInfo.UserEnv;
  settings : Streaming.StreamSettings;
  getGameProfiles : string → list IEncoderPreset;
}.

Inductive EditEffect : Type :=
| streamInfo (e : StreamInfo.StreamInfoEffect)
| streaming (e : Streaming.StreamingEffect)
| alert (text : string)
| customizationService_setUpdateStreamInfoOnLive (update : bool)
| windowsService_closeChildWindow
| navigationService_navigate (page : string)
| videoEncodingOptimizationService_applyProfile (preset : IEncoderPreset)
| platform_searchGames (p : StreamInfo.Platform) (search : string)
| debounce_schedule (ms : Z).

Definition M (A : Type) : Type := svc Component EditEffect A.

(** ** Field updates *)

Definition set_streamInfoService (info : StreamInfo.Service) (c : Component) : Component :=
  {| searchingGames := searchingGames c; updatingInfo := updatingInfo c;
     updateError := updateError c; areAvailableProfiles := areAvailableProfiles c;
     useOptimizedProfile := useOptimizedProfile c;
     isGenericProfiles := isGenericProfiles c;
     streamTitleModel := streamTitleModel c;
     streamDescriptionModel := streamDescriptionModel c; gameModel := gameModel c;
     gameModel_options := gameModel_options c;
     doNotShowAgainModel := doNotShowAgainModel c;
     encoderProfile := encoderProfile c; debounced := debounced c;
     streamInfoService := info; streamingService := streamingService c |}.

Definition set_streamingService (s : Streaming.Service) (c : Component) : Component :=
  {| searchingGames := searchingGames c; updatingInfo := updatingInfo c;
     updateError := updateError c; areAvailableProfiles := areAvailableProfiles c;
     useOptimizedProfile := useOptimizedProfile c;
     isGenericProfiles := isGenericProfiles c;
     streamTitleModel := streamTitleModel c;
     streamDescriptionModel := streamDescriptionModel c; gameModel := gameModel c;
     gameModel_options := gameModel_options c;
     doNotShowAgainModel := doNotShowAgainModel c;
     encoderProfile := encoderProfile c; debounced := debounced c;
     streamInfoService := streamInfoService c; streamingService := s |}.

(** The flags [searchingGames], [updatingInfo] and [updateError]. *)
Definition set_flags (searching updating error : bool) (c : Component) : Component :=
  {| searchingGames := searching; updatingInfo := updating; updateError := error;
     areAvailableProfiles := areAvailableProfiles c;
     useOptimizedProfile := useOptimizedProfile c;
     isGenericProfiles := isGenericProfiles c;
     streamTitleModel := streamTitleModel c;
     streamDescriptionModel := streamDescriptionModel c; gameModel := gameModel c;
     gameModel_options := gameModel_options c;
     doNotShowAgainModel := doNotShowAgainModel c;
     encoderProfile := encoderProfile c; debounced := debounced c;
     streamInfoService := streamInfoService c;
     streamingService := streamingService c |}.

(** The title and the game of the form, with the options of the game. *)
Definition set_models (title game : string) (options : list IListOption)
    (c : Component) : Component :=
  {| searchingGames := searchingGames c; updatingInfo := updatingInfo c;
     updateError := updateError c; areAvailableProfiles := areAvailableProfiles c;
     useOptimizedProfile := useOptimizedProfile c;
     isGenericProfiles := isGenericProfiles c;
     streamTitleModel := title;
     streamDescriptionModel := streamDescriptionModel c; gameModel := game;
     gameModel_options := options;
     doNotShowAgainModel := doNotShowAgainModel c;
     encoderProfile := encoderProfile c; debounced := debounced c;
     streamInfoService := streamInfoService c;
     streamingService := streamingService c |}.

(** What [loadAvailableProfiles] writes. *)
Definition set_profiles (available generic : bool)
    (profile : option IMultiSelectProfiles) (c : Component) : Component :=
  {| searchingGames := searchingGames c; updatingInfo := updatingInfo c;
     updateError := updateError c; areAvailableProfiles := available;
     useOptimizedProfile := useOptimizedProfile c;
     isGenericProfiles := generic;
     streamTitleModel := streamTitleModel c;
     streamDescriptionModel := streamDescriptionModel c; gameModel := gameModel c;
     gameModel_options := gameModel_options c;
     doNotShowAgainModel := doNotShowAgainModel c;
     encoderProfile := profile; debounced := debounced c;
     streamInfoService := streamInfoService c;
     streamingService := streamingService c |}.

Definition set_debounced (search : option string) (c : Component) : Component :=
  {| searchingGames := searchingGames c; updatingInfo := updatingInfo c;
     updateError := updateError c; areAvailableProfiles := areAvailableProfiles c;
     useOptimizedProfile := useOptimizedProfile c;
     isGenericProfiles := isGenericProfiles c;
     streamTitleModel := streamTitleModel c;
     streamDescriptionModel := streamDescriptionModel c; gameModel := gameModel c;
     gameModel_options := gameModel_options c;
     doNotShowAgainModel := doNotShowAgainModel c;
     encoderProfile := encoderProfile c; debounced := search;
     streamInfoService := streamInfoService c;
     streamingService := streamingService c |}.

(** Calls into the two services. *)
Definition call_streamInfo {A} (m : StreamInfo.M A) : M A :=
  svc_lift streamInfoService set_streamInfoService streamInfo m.

Definition call_streaming {A} (m : Streaming.M A) : M A :=
  svc_lift streamingService set_streamingService streaming m.

(** ** Getters *)

Definition midStreamMode (c : Component) : bool :=
  Streaming.isStreaming (streamingService c).

Definition submitText (c : Component) : string :=
  if midStreamMode c then "Update" else "Confirm & Go Live".

Definition infoLoading (c : Component) : bool :=
  StreamInfo.fetching (StreamInfo.state (streamInfoService c)).

Definition infoError (c : Component) : bool :=
  StreamInfo.error (StreamInfo.state (streamInfoService c)).

Definition isTwitch (env : Env) : bool :=
  bool_decide (StreamInfo.platform (user env) = Some StreamInfo.TwitchService).

Definition isYoutube (env : Env) : bool :=
  bool_decide (StreamInfo.platform (user env) = Some StreamInfo.YoutubeService).

Definition isMixer (env : Env) : bool :=
  bool_decide (StreamInfo.platform (user env) = Some StreamInfo.MixerService).

Definition multiselect (preset : IEncoderPreset) : IMultiSelectProfiles :=
  {| value := preset;
     description := profile_description preset;
     longDescription := profile_longDescription preset |}.

(** The [profiles] getter: the profiles of the game, or the generic ones
    when the game has none. *)
Definition profiles (env : Env) (c : Component) : list IMultiSelectProfiles :=
  let profiles := getGameProfiles env (gameModel c) in
  let profiles :=
    if bool_decide (length profiles = 0) then getGameProfiles env "Generic"
    else profiles in
  multiselect <$> profiles.

(** ** Methods *)

(** [loadAvailableProfiles()] *)
Definition loadAvailableProfiles (env : Env) : M unit :=
  let* mid := svc_gets midStreamMode in
  svc_when (negb mid)
    (let* game := svc_gets gameModel in
     let availableProfiles := getGameProfiles env game in
     let genericProfiles := getGameProfiles env "Generic" in
     let available :=
       bool_decide (0 < length availableProfiles) ||
       bool_decide (0 < length genericProfiles) in
     if available then
       let profiles :=
         if bool_decide (0 < length availableProfiles) then availableProfiles
         else genericProfiles in
       let generic := negb (bool_decide (0 < length availableProfiles)) in
       let* first := svc_deref (head profiles) in
       svc_modify (set_profiles true generic (Some (multiselect first)))
     else
       let* generic := svc_gets isGenericProfiles in
       let* profile := svc_gets encoderProfile in
       svc_modify (set_profiles false generic profile)).

(** [populateModels()] *)
Definition populateModels (env : Env) : M unit :=
  let* info := svc_gets (λ c, StreamInfo.channelInfo (StreamInfo.state (streamInfoService c))) in
  let* info := svc_deref info in
  svc_modify (set_models (StreamInfo.title info) (StreamInfo.game info)
                [{| option_description := StreamInfo.game info;
                    option_value := StreamInfo.game info |}]);;
  loadAvailableProfiles env.

(** The handler of the promise of [refreshStreamInfo()] *)
Definition refreshStreamInfo_then (env : Env) : M unit :=
  let* info := svc_gets (λ c, StreamInfo.channelInfo (StreamInfo.state (streamInfoService c))) in
  svc_when (bool_decide (is_Some info)) (populateModels env).

(** [refreshStreamInfo()], up to the request; the result says whether the
    promise is pending. *)
Definition refreshStreamInfo (env : Env) : M bool :=
  call_streamInfo (StreamInfo.refreshStreamInfo (user env)).

(** [created()] *)
Definition created (env : Env) : M unit :=
  let* info := svc_gets (λ c, StreamInfo.channelInfo (StreamInfo.state (streamInfoService c))) in
  if bool_decide (is_Some info) then populateModels env
  else refreshStreamInfo env;; svc_ret tt.

(** A call of the debounced search: the search waits, the timer starts
    again. *)
Definition debouncedGameSearch (search : string) : M unit :=
  svc_modify (set_debounced (Some search));;
  svc_emit (debounce_schedule 500).

(** [onGameSearchChange(searchString)], up to the request. *)
Definition onGameSearchChange (env : Env) (searchString : string) : M unit :=
  svc_when (bool_decide (searchString ≠ ""))
    (svc_modify (λ c, set_flags true (updatingInfo c) (updateError c) c);;
     let* platform := svc_deref (StreamInfo.platform (user env)) in
     svc_modify (λ c, set_models (streamTitleModel c) (gameModel c) [] c);;
     svc_emit (platform_searchGames platform searchString)).

(** The timer of the debounce fires. *)
Definition debounce_fires (env : Env) : M unit :=
  let* search := svc_gets debounced in
  match search with
  | Some search =>
      svc_modify (set_debounced None);;
      onGameSearchChange env search
  | None => svc_ret tt
  end.

(** The handler of the promise of [searchGames]; [games] is [None] when the
    platform answers nothing. *)
Definition searchGames_then (games : option (list string)) : M unit :=
  svc_modify (λ c, set_flags false (updatingInfo c) (updateError c) c);;
  match games with
  | Some games =>
      svc_forEach games (λ game,
        svc_modify (λ c, set_models (streamTitleModel c) (gameModel c)
                           (gameModel_options c ++
                            [{| option_description := game; option_value := game |}]) c))
  | None => svc_ret tt
  end.

(** [onGameInput(gameModel)] *)
Definition onGameInput (env : Env) (game : string) (options : list IListOption) : M unit :=
  svc_modify (λ c, set_models (streamTitleModel c) game options c);;
  loadAvailableProfiles env.

(** [goLive()]; [startStreaming] is an alias of [toggleStreaming]. *)
Definition goLive (env : Env) (answer : bool) (blockerId : Z) : M unit :=
  call_streaming (Streaming.toggleStreaming (settings env) answer blockerId);;
  svc_emit (navigationService_navigate "Live");;
  svc_emit windowsService_closeChildWindow.

Definition cancel : M unit := svc_emit windowsService_closeChildWindow.

(** The three parts of [updateAndGoLive()] after it sets its flag: the
    farewell to the window, the request, the encoder profile. *)
Definition updateAndGoLive_farewell : M unit :=
  let* doNotShowAgain := svc_gets doNotShowAgainModel in
  svc_when doNotShowAgain
    (svc_emit (alert
       ("You will not be asked again to update your stream info when going live.  " +:+
        "You can re-enable this from the settings."));;
     svc_emit (customizationService_setUpdateStreamInfoOnLive false)).

Definition updateAndGoLive_request (env : Env) : M unit :=
  let* title := svc_gets streamTitleModel in
  let* description := svc_gets streamDescriptionModel in
  let* game := svc_gets gameModel in
  call_streamInfo (StreamInfo.setStreamInfo (user env) title description game).

Definition updateAndGoLive_profile : M unit :=
  let* available := svc_gets areAvailableProfiles in
  let* optimized := svc_gets useOptimizedProfile in
  svc_when (available && optimized)
    (let* profile := svc_gets encoderProfile in
     let* profile := svc_deref profile in
     svc_emit (videoEncodingOptimizationService_applyProfile (value profile))).

(** [updateAndGoLive()], up to the request. *)
Definition updateAndGoLive (env : Env) : M unit :=
  svc_modify (λ c, set_flags (searchingGames c) true (updateError c) c);;
  updateAndGoLive_farewell;;
  updateAndGoLive_request env;;
  updateAndGoLive_profile.

(** The handler of the promise of [setStreamInfo]. *)
Definition updateAndGoLive_then (env : Env) (success answer : bool) (blockerId : Z) :
    M unit :=
  if success then
    let* mid := svc_gets midStreamMode in
    if mid then svc_emit windowsService_closeChildWindow
    else goLive env answer blockerId
  else
    svc_modify (λ c, set_flags (searchingGames c) false true c).

(** ** The window as a transition system *)

Inductive Event : Type :=
| Created
| GameSearchInput (search : string)
| DebounceFires
| GamesFound (games : option (list string))
| GameInput (game : string) (options : list IListOption)
| ToggleOptimizedProfile
| EditTitle (title : string)
| EditDescription (description : string)
| ToggleDoNotShowAgain
| UpdateAndGoLive
| StreamInfoSet (success answer : bool) (blockerId : Z)
| StreamInfoRefreshed
| Cancel.

(** The edits of the form the template makes through [v-model]. *)
Definition set_useOptimizedProfile (b : bool) (c : Component) : Component :=
  {| searchingGames := searchingGames c; updatingInfo := updatingInfo c;
     updateError := updateError c; areAvailableProfiles := areAvailableProfiles c;
     useOptimizedProfile := b;
     isGenericProfiles := isGenericProfiles c;
     streamTitleModel := streamTitleModel c;
     streamDescriptionModel := streamDescriptionModel c; gameModel := gameModel c;
     gameModel_options := gameModel_options c;
     doNotShowAgainModel := doNotShowAgainModel c;
     encoderProfile := encoderProfile c; debounced := debounced c;
     streamInfoService := streamInfoService c;
     streamingService := streamingService c |}.

Definition set_description (d : string) (c : Component) : Component :=
  {| searchingGames := searchingGames c; updatingInfo := updatingInfo c;
     updateError := updateError c; areAvailableProfiles := areAvailableProfiles c;
     useOptimizedProfile := useOptimizedProfile c;
     isGenericProfiles := isGenericProfiles c;
     streamTitleModel := streamTitleModel c;
     streamDescriptionModel := d; gameModel := gameModel c;
     gameModel_options := gameModel_options c;
     doNotShowAgainModel := doNotShowAgainModel c;
     encoderProfile := encoderProfile c; debounced := debounced c;
     streamInfoService := streamInfoService c;
     streamingService := streamingService c |}.

Definition set_doNotShowAgain (b : bool) (c : Component) : Component :=
  {| searchingGames := searchingGames c; updatingInfo := updatingInfo c;
     updateError := updateError c; areAvailableProfiles := areAvailableProfiles c;
     useOptimizedProfile := useOptimizedProfile c;
     isGenericProfiles := isGenericProfiles c;
     streamTitleModel := streamTitleModel c;
     streamDescriptionModel := streamDescriptionModel c; gameModel := gameModel c;
     gameModel_options := gameModel_options c;
     doNotShowAgainModel := b;
     encoderProfile := encoderProfile c; debounced := debounced c;
     streamInfoService := streamInfoService c;
     streamingService := streamingService c |}.

Definition handle (env : Env) (ev : Event) : M unit :=
  match ev with
  | Created => created env
  | GameSearchInput search => debouncedGameSearch search
  | DebounceFires => debounce_fires env
  | GamesFound games => searchGames_then games
  | GameInput game options => onGameInput env game options
  | ToggleOptimizedProfile =>
      svc_modify (λ c, set_useOptimizedProfile (negb (useOptimizedProfile c)) c)
  | EditTitle title =>
      svc_modify (λ c, set_models title (gameModel c) (gameModel_options c) c)
  | EditDescription description => svc_modify (set_description description)
  | ToggleDoNotShowAgain =>
      svc_modify (λ c, set_doNotShowAgain (negb (doNotShowAgainModel c)) c)
  | UpdateAndGoLive => updateAndGoLive env
  | StreamInfoSet success answer blockerId =>
      updateAndGoLive_then env success answer blockerId
  | StreamInfoRefreshed => refreshStreamInfo_then env
  | Cancel => cancel
  end.

Inductive step : Component → Component → Prop :=
| step_event env ev c : step c (final (handle env ev c)).

(** Runs events one after the other, collecting the trace. *)
Definition run_events (env : Env) (evs : list Event) (c : Component) :
    Component * list EditEffect :=
  run_all (handle env) evs c.

(** The windows that can be reached from a new one. *)
Definition reachable (c : Component) : Prop :=
  ∃ info streaming, rtc step (initialComponent info streaming) c.

(** When profiles are said to be available, one is chosen. *)
Definition profile_ready (c : Component) : Prop :=
  areAvailableProfiles c = true → is_Some (encoderProfile c).

(** The profiles [loadAvailableProfiles] chooses from: those of the game,
    or the generic ones when the game has none. *)
Definition chosen_profiles (env : Env) (game : string) : list IEncoderPreset :=
  let availableProfiles := getGameProfiles env game in
  if bool_decide (0 < length availableProfiles) then availableProfiles
  else getGameProfiles env "Generic".

Definition as_option (game : string) : IListOption :=
  {| option_description := game; option_value := game |}.

(** ** Runs *)

Lemma call_streamInfo_run {A} (m : StreamInfo.M A) c :
  call_streamInfo m c =
    Run (result (m (streamInfoService c)))
      (set_streamInfoService (final (m (streamInfoService c))) c)
      (streamInfo <$> trace (m (streamInfoService c))).
Proof. done. Qed.

Lemma call_streaming_run {A} (m : Streaming.M A) c :
  call_streaming m c =
    Run (result (m (streamingService c)))
      (set_streamingService (final (m (streamingService c))) c)
      (streaming <$> trace (m (streamingService c))).
Proof. done. Qed.

(** [loadAvailableProfiles] never throws: the first profile is read only
    of a list that has one. *)
Lemma loadAvailableProfiles_run env c :
  loadAvailableProfiles env c =
    Run (Normal tt)
      (if midStreamMode c then c
       else match head (chosen_profiles env (gameModel c)) with
            | Some first =>
                set_profiles true
                  (negb (bool_decide (0 < length (getGameProfiles env (gameModel c)))))
                  (Some (multiselect first)) c
            | None => set_profiles false (isGenericProfiles c) (encoderProfile c) c
            end) [].
Proof.
  unfold loadAvailableProfiles, chosen_profiles. rewrite svc_bind_gets.
  destruct (midStreamMode c); [done|]. cbn [negb]. rewrite svc_when_true, svc_bind_gets.
  cbv zeta.
  destruct (getGameProfiles env (gameModel c)) as [|a l],
    (getGameProfiles env "Generic") as [|g l']; try done.
Qed.

(** The loop that appends the games found to the options. *)
Lemma add_games_run games c :
  svc_forEach (E := EditEffect) games (λ game,
    svc_modify (λ c, set_models (streamTitleModel c) (gameModel c)
                       (gameModel_options c ++ [as_option game]) c)) c =
  Run (Normal tt)
    (set_models (streamTitleModel c) (gameModel c)
       (gameModel_options c ++ (as_option <$> games)) c) [].
Proof.
  revert c. induction games as [|game games IH]; intros c; simpl.
  - rewrite app_nil_r. by destruct c.
  - rewrite svc_bind_modify, IH. simpl. by rewrite <- app_assoc.
Qed.

(** The handler of a game search appends the games found. *)
Lemma searchGames_then_run games c :
  searchGames_then games c =
    Run (Normal tt)
      (set_models (streamTitleModel c) (gameModel c)
         (gameModel_options c ++ (as_option <$> default [] games))
         (set_flags false (updatingInfo c) (updateError c) c)) [].
Proof.
  unfold searchGames_then. rewrite svc_bind_modify.
  destruct games as [games|]; simpl; [by rewrite add_games_run|].
  by rewrite app_nil_r.
Qed.

(** ** A chosen profile is there *)

Lemma call_streamInfo_ready {A} (m : StreamInfo.M A) :
  preserves profile_ready (call_streamInfo m).
Proof. by intros c Hc. Qed.

Lemma call_streaming_ready {A} (m : Streaming.M A) :
  preserves profile_ready (call_streaming m).
Proof. by intros c Hc. Qed.

Lemma loadAvailableProfiles_ready env :
  preserves profile_ready (loadAvailableProfiles env).
Proof.
  intros c Hc. rewrite loadAvailableProfiles_run. cbn [final].
  destruct (midStreamMode c); [done|].
  by destruct (head _); intros ?.
Qed.

(** A field update that leaves the profile alone keeps the invariant. *)
Lemma modify_ready (f : Component → Component) :
  (∀ c, areAvailableProfiles (f c) = areAvailableProfiles c ∧
        encoderProfile (f c) = encoderProfile c) →
  preserves profile_ready (svc_modify (E := EditEffect) f).
Proof.
  intros Hf. apply preserves_modify. intros c Hc. unfold profile_ready.
  destruct (Hf c) as [-> ->]. apply Hc.
Qed.

#[local] Hint Resolve call_streamInfo_ready call_streaming_ready
  loadAvailableProfiles_ready : svc.

Ltac ready_go :=
  preserves_go; try (apply modify_ready; by intros ?).

Lemma handle_ready env ev : preserves profile_ready (handle env ev).
Proof.
  destruct ev; unfold handle, created, populateModels, refreshStreamInfo,
    debouncedGameSearch, debounce_fires, onGameSearchChange, searchGames_then,
    onGameInput, updateAndGoLive, updateAndGoLive_farewell, updateAndGoLive_request,
    updateAndGoLive_profile, updateAndGoLive_then, goLive, cancel,
    refreshStreamInfo_then, populateModels; ready_go.
Qed.

Lemma reachable_ready c : reachable c → profile_ready c.
Proof.
  intros (info & streaming' & Hc). revert c Hc. apply rtc_ind_r; [done|].
  intros c c' _ [env ev c0] IH. by apply handle_ready.
Qed.

(** What follows a call into the stream-info service runs on the state it
    leaves. *)
Lemma call_streamInfo_bind {A B} (m : StreamInfo.M A) (f : A → M B) c a s' t :
  m (streamInfoService c) = Run (Normal a) s' t →
  svc_bind (call_streamInfo m) f c =
    prepend (streamInfo <$> t) (f a (set_streamInfoService s' c)).
Proof. intros Hm. apply svc_bind_run. by rewrite call_streamInfo_run, Hm. Qed.

Lemma call_streaming_bind {A B} (m : Streaming.M A) (f : A → M B) c a s' t :
  m (streamingService c) = Run (Normal a) s' t →
  svc_bind (call_streaming m) f c =
    prepend (streaming <$> t) (f a (set_streamingService s' c)).
Proof. intros Hm. apply svc_bind_run. by rewrite call_streaming_run, Hm. Qed.

(** The effects of [updateAndGoLive] before and after the request. *)
Definition farewell (c : Component) : list EditEffect :=
  if doNotShowAgainModel c then
    [alert ("You will not be asked again to update your stream info when going live.  " +:+
            "You can re-enable this from the settings.");
     customizationService_setUpdateStreamInfoOnLive false]
  else [].

Definition applied (c : Component) : list EditEffect :=
  if areAvailableProfiles c && useOptimizedProfile c then
    match encoderProfile c with
    | Some profile => [videoEncodingOptimizationService_applyProfile (value profile)]
    | None => []
    end
  else [].

Lemma updateAndGoLive_farewell_run c :
  updateAndGoLive_farewell c = Run (Normal tt) c (farewell c).
Proof.
  unfold updateAndGoLive_farewell, farewell. rewrite svc_bind_gets.
  by destruct (doNotShowAgainModel c).
Qed.

Lemma updateAndGoLive_profile_run c :
  profile_ready c → updateAndGoLive_profile c = Run (Normal tt) c (applied c).
Proof.
  intros Hready. unfold updateAndGoLive_profile, applied. rewrite !svc_bind_gets.
  destruct (areAvailableProfiles c) eqn:Havail; [|done].
  destruct (useOptimizedProfile c); [|done]. simpl.
  destruct (Hready Havail) as [profile Hprofile].
  by rewrite svc_bind_gets, Hprofile.
Qed.

Lemma updateAndGoLive_request_run env c p :
  StreamInfo.platform (user env) = Some p →
  updateAndGoLive_request env c =
    Run (Normal tt)
      (set_streamInfoService
         (StreamInfo.add_task (StreamInfo.AwaitPutChannelInfo (gameModel c))
            (streamInfoService c)) c)
      (streamInfo <$>
         StreamInfo.putChannelInfo p (streamTitleModel c) (gameModel c) ::
         if decide (p = StreamInfo.YoutubeService)
         then [StreamInfo.putChannelInfo p (streamTitleModel c) (streamDescriptionModel c)]
         else []).
Proof.
  intros Hp. unfold updateAndGoLive_request. rewrite !svc_bind_gets.
  by rewrite call_streamInfo_run, StreamInfo.setStreamInfo_run, Hp.
Qed.

Lemma updateAndGoLive_run env c p :
  StreamInfo.platform (user env) = Some p → profile_ready c →
  updateAndGoLive env c =
    Run (Normal tt)
      (set_streamInfoService
         (StreamInfo.add_task (StreamInfo.AwaitPutChannelInfo (gameModel c))
            (streamInfoService c))
         (set_flags (searchingGames c) true (updateError c) c))
      (farewell c ++
       (streamInfo <$>
          StreamInfo.putChannelInfo p (streamTitleModel c) (gameModel c) ::
          if decide (p = StreamInfo.YoutubeService)
          then [StreamInfo.putChannelInfo p (streamTitleModel c)
                  (streamDescriptionModel c)]
          else []) ++
       applied c).
Proof.
  intros Hp Hready. unfold updateAndGoLive. rewrite svc_bind_modify.
  rewrite (svc_bind_run _ _ _ _ _ _ (updateAndGoLive_farewell_run _)).
  rewrite (svc_bind_run _ _ _ _ _ _ (updateAndGoLive_request_run env _ p Hp)).
  by rewrite updateAndGoLive_profile_run.
Qed.

(** A search that is sent: the options are emptied and the flag is set. *)
Lemma onGameSearchChange_run env p search c :
  StreamInfo.platform (user env) = Some p → search ≠ "" →
  onGameSearchChange env search c =
    Run (Normal tt)
      (set_models (streamTitleModel c) (gameModel c) []
         (set_flags true (updatingInfo c) (updateError c) c))
      [platform_searchGames p search].
Proof.
  intros Hp Hsearch. unfold onGameSearchChange.
  rewrite bool_decide_eq_true_2, svc_when_true, svc_bind_modify, Hp by done.
  by rewrite svc_bind_deref_Some, svc_bind_modify.
Qed.

(** A search typed and let through by the debounce. *)
Lemma search_sent env p search c :
  StreamInfo.platform (user env) = Some p → search ≠ "" →
  run_events env [GameSearchInput search; DebounceFires] c =
    (set_models (streamTitleModel c) (gameModel c) []
       (set_flags true (updatingInfo c) (updateError c) (set_debounced None c)),
     [debounce_schedule 500; platform_searchGames p search]).
Proof.
  intros Hp Hsearch. unfold run_events. cbn [run_all handle].
  unfold debouncedGameSearch, debounce_fires.
  rewrite svc_bind_modify. cbn [final trace svc_emit]. rewrite svc_bind_gets.
  cbn [debounced set_debounced]. rewrite svc_bind_modify.
  by rewrite (onGameSearchChange_run env p).
Qed.

(** * Properties *)

(** C36: [updateAndGoLive] does not throw, and what it does.  In every
    window that can be reached, for a user with a platform,
    [updateAndGoLive] sets [updatingInfo], says farewell when asked not to
    show the window again, sends the requests of [setStreamInfo] and leaves
    its promise pending, then applies the chosen encoder profile when one is
    wanted: the profile it reads is there whenever profiles are said to be
    available. *)
Theorem updateAndGoLive_spec (env : Env) (c : Component) (p : StreamInfo.Platform) :
  reachable c → StreamInfo.platform (user env) = Some p →
  updateAndGoLive env c =
    Run (Normal tt)
      (set_streamInfoService
         (StreamInfo.add_task (StreamInfo.AwaitPutChannelInfo (gameModel c))
            (streamInfoService c))
         (set_flags (searchingGames c) true (updateError c) c))
      (farewell c ++
       (streamInfo <$>
          StreamInfo.putChannelInfo p (streamTitleModel c) (gameModel c) ::
          if decide (p = StreamInfo.YoutubeService)
          then [StreamInfo.putChannelInfo p (streamTitleModel c)
                  (streamDescriptionModel c)]
          else []) ++
       applied c).
Proof. intros Hc Hp. apply updateAndGoLive_run; [done | by apply reachable_ready]. Qed.

(** What the answer to [setStreamInfo] leads to.  After a success the
    window closes when a stream runs; when none runs it toggles the
    streaming service (which starts the stream, asking for confirmation if
    the settings say so), opens the Live page and closes.  After a failure
    it shows the error and stops updating; nothing is sent. *)
Theorem setStreamInfo_answered (env : Env) (success answer : bool) (blockerId : Z)
    (c : Component) :
  updateAndGoLive_then env success answer blockerId c =
    if success then
      if Streaming.isStreaming (streamingService c)
      then Run (Normal tt) c [windowsService_closeChildWindow]
      else
        let r := Streaming.toggleStreaming (settings env) answer blockerId
                   (streamingService c) in
        Run (Normal tt) (set_streamingService (final r) c)
          ((streaming <$> trace r) ++
           [navigationService_navigate "Live"; windowsService_closeChildWindow])
    else Run (Normal tt) (set_flags (searchingGames c) false true c) [].
Proof.
  unfold updateAndGoLive_then. destruct success; [|done].
  rewrite svc_bind_gets. unfold midStreamMode.
  destruct (Streaming.isStreaming (streamingService c)); [done|].
  unfold goLive. rewrite (svc_bind_normal _ _ _ tt);
    [done | apply Streaming.toggleStreaming_total].
Qed.

(** The answers of two game searches are mixed.  The options are
    emptied when a search is sent, not when its answer arrives: when a
    second search is sent before the first is answered, the games of both
    answers end up in the list, in the order the answers arrive. *)
Theorem searchGames_answers_mix (env : Env) (p : StreamInfo.Platform)
    (search1 search2 : string) (games1 games2 : list string) (c : Component) :
  StreamInfo.platform (user env) = Some p → search1 ≠ "" → search2 ≠ "" →
  let c' := (run_events env
    [GameSearchInput search1; DebounceFires; GameSearchInput search2; DebounceFires;
     GamesFound (Some games1); GamesFound (Some games2)] c).1 in
  gameModel_options c' = as_option <$> (games1 ++ games2) ∧
  searchingGames c' = false.
Proof.
  intros Hp Hs1 Hs2.
  pose proof (search_sent env p search1 c Hp Hs1) as H1.
  pose proof (λ c, search_sent env p search2 c Hp Hs2) as H2.
  unfold run_events in *.
  change [GameSearchInput search1; DebounceFires; GameSearchInput search2;
          DebounceFires; GamesFound (Some games1); GamesFound (Some games2)]
    with ([GameSearchInput search1; DebounceFires] ++
          [GameSearchInput search2; DebounceFires] ++
          [GamesFound (Some games1); GamesFound (Some games2)]).
  rewrite !run_all_app, H1, H2. cbn [run_all handle fst final].
  rewrite !searchGames_then_run. cbn. by rewrite fmap_app.
Qed.

(** ** The theorems at a concrete window *)

Definition fast : IEncoderPreset :=
  {| profile_description := "Fast"; profile_longDescription := "Low CPU usage" |}.

Definition test_env : Env :=
  {| user := StreamInfo.youtube_user;
     settings := Streaming.test_settings;
     getGameProfiles := λ game, if decide (game = "Tetris") then [fast] else [] |}.

(** The window opened on a service that knows the channel. *)
Definition known_channel : StreamInfo.Service :=
  {| StreamInfo.state :=
       {| StreamInfo.fetching := false; StreamInfo.error := false;
          StreamInfo.viewerCount := 0;
          StreamInfo.channelInfo := Some StreamInfo.some_info |};
     StreamInfo.pending := [] |}.

Definition opened : Component :=
  (run_events test_env [Created; ToggleOptimizedProfile]
     (initialComponent known_channel (Streaming.initialService 0))).1.

Lemma opened_reachable : reachable opened.
Proof.
  exists known_channel, (Streaming.initialService 0).
  eapply rtc_l; [apply (step_event test_env Created)|].
  eapply rtc_l; [apply (step_event test_env ToggleOptimizedProfile)|].
  apply rtc_refl.
Qed.

Lemma updateAndGoLive_spec_witness :
  trace (updateAndGoLive test_env opened) =
    [streamInfo (StreamInfo.putChannelInfo StreamInfo.YoutubeService "Speedrun" "Tetris");
     streamInfo (StreamInfo.putChannelInfo StreamInfo.YoutubeService "Speedrun" "");
     videoEncodingOptimizationService_applyProfile fast].
Proof.
  by rewrite (updateAndGoLive_spec test_env opened StreamInfo.YoutubeService
                opened_reachable).
Defined.

Lemma searchGames_answers_mix_witness :
  gameModel_options (run_events test_env
    [GameSearchInput "te"; DebounceFires; GameSearchInput "tet"; DebounceFires;
     GamesFound (Some ["Terraria"; "Tetris"]); GamesFound (Some ["Tetris"])] opened).1 =
  [as_option "Terraria"; as_option "Tetris"; as_option "Tetris"].
Proof.
  by destruct (searchGames_answers_mix test_env StreamInfo.YoutubeService "te" "tet"
                 ["Terraria"; "Tetris"] ["Tetris"] opened) as [-> _].
Defined.

End EditStreamInfo.
