(* ===== verification/JsNumber.v ===== *)
(** * JsNumber: numbers as the components print them

    Models [Number.prototype.toFixed], which the getters of
    [PerformanceMetrics] ([src/app/components/PerformanceMetrics.vue.ts],
    lines 13-33) call, and the test [x || 0] on a number.  A number is
    [NaN] or a rational: every finite double is a rational, and [toFixed] is
    defined on the exact value of the number, so nothing is rounded before
    the digits are taken.  [toFixed] follows the steps of the language
    definition: the sign, the integer nearest to the number times a power
    of ten (of two, the larger), its decimal digits, zeros in front up to
    one digit before the point, the point.  From 10^21 on the language
    prints a number in its shortest form, which is not modelled: [toFixed]
    is [None] there.

    [read_fixed] reads such a text back; the theorems show that reading
    what [toFixed] printed gives the number rounded to the digits asked
    for, at most half a unit of the last digit from the number. *)

From Stdlib Require Import ZArith QArith Qround Qabs Lia Lqa Ascii String.
From stdpp Require Import base tactics option list.
From S2P Require Import Prelude.

Local Open Scope Z_scope.

(** ** Numbers *)

Inductive JsNumber : Type :=
| NaN
| Num (q : Q).

(** [x || 0] on a number that may be [undefined]: [undefined], [NaN] and 0
    are falsy. *)
Definition or_zero (x : option JsNumber) : JsNumber :=
  match x with
  | Some (Num q) => if Qeq_bool q 0 then Num 0 else Num q
  | Some NaN | None => Num 0
  end.

(** ** Decimal digits *)

Definition digit_char (d : Z) : ascii := ascii_of_nat (48 + Z.to_nat d).

Definition is_digit (c : ascii) : bool :=
  (48 <=? nat_of_ascii c)%nat && (nat_of_ascii c <=? 57)%nat.

Definition digit_value (c : ascii) : Z := Z.of_nat (nat_of_ascii c) - 48.

(** The digits of [n], the last first, in front of [acc]. *)
Fixpoint digits_go (fuel : nat) (n : Z) (acc : list ascii) : list ascii :=
  match fuel with
  | O => acc
  | S fuel =>
      let acc := digit_char (n mod 10) :: acc in
      if n / 10 =? 0 then acc else digits_go fuel (n / 10) acc
  end.

(** The decimal digits of an integer that is not negative; a number has no
    more decimal digits than binary ones. *)
Definition digits (n : Z) : list ascii :=
  digits_go (S (Z.to_nat (Z.log2 n))) n [].

(** The number a list of digits stands for, after [acc]. *)
Definition digits_value_from (acc : Z) (l : list ascii) : Z :=
  foldl (λ acc c, 10 * acc + digit_value c) acc l.

Definition digits_value (l : list ascii) : Z := digits_value_from 0 l.

(** ** [toFixed] *)

(** The integer [n] for which [n / 10^f] is nearest to [x]; of two, the
    larger. *)
Definition nearest (f : nat) (x : Q) : Z :=
  Qfloor (x * inject_Z (10 ^ Z.of_nat f) + (1 # 2)).

(** Zeros in front, up to [f + 1] digits. *)
Definition pad_zeros (f : nat) (m : list ascii) : list ascii :=
  if decide (length m ≤ f)%nat
  then replicate (f + 1 - length m) "0"%char ++ m
  else m.

(** The digits of a number that is not negative, with [f] of them after
    the point. *)
Definition toFixed_digits (f : nat) (x : Q) : list ascii :=
  let m := digits (nearest f x) in
  match f with
  | O => m
  | _ =>
      let m := pad_zeros f m in
      let k := length m in
      take (k - f) m ++ "."%char :: drop (k - f) m
  end.

Definition sign_chars (q : Q) : list ascii :=
  if Qlt_le_dec q 0 then ["-"%char] else [].

(** [x.toFixed(f)]; [None] from 10^21 on. *)
Definition toFixed (f : nat) (x : JsNumber) : option string :=
  match x with
  | NaN => Some "NaN"%string
  | Num q =>
      if Qle_bool (inject_Z (10 ^ 21)) (Qabs q) then None
      else Some (string_of_list_ascii (sign_chars q ++ toFixed_digits f (Qabs q)))
  end.

(** ** Reading a number *)

(** The text before the first point, and the text after it if there is
    one. *)
Fixpoint split_point (l : list ascii) : list ascii * option (list ascii) :=
  match l with
  | [] => ([], None)
  | c :: l =>
      if Ascii.eqb c "."%char then ([], Some l)
      else let '(a, b) := split_point l in (c :: a, b)
  end.

Definition all_digits (l : list ascii) : bool :=
  bool_decide (l ≠ [] ∧ Forall (λ c, is_digit c = true) l).

(** The number of a text of digits with at most one point among them. *)
Definition read_unsigned (l : list ascii) : option Q :=
  match split_point l with
  | (a, None) =>
      if all_digits a then Some (inject_Z (digits_value a)) else None
  | (a, Some b) =>
      if all_digits a && all_digits b
      then Some (inject_Z (digits_value (a ++ b)) / inject_Z (10 ^ Z.of_nat (length b)))%Q
      else None
  end.

(** The number of a text as [toFixed] prints it. *)
Definition read_fixed (s : string) : option Q :=
  match list_ascii_of_string s with
  | c :: l =>
      if Ascii.eqb c "-"%char then Qopp <$> read_unsigned l else read_unsigned (c :: l)
  | [] => None
  end.

(** * Specification *)

(** One unit of the digit [f] places after the point. *)
Definition unit_of (f : nat) : Q := (1 / inject_Z (10 ^ Z.of_nat f))%Q.

(** [x] rounded to [f] digits after the point, a half rounded up. *)
Definition rounded (f : nat) (x : Q) : Q := (inject_Z (nearest f x) * unit_of f)%Q.

(** The number [toFixed] prints: the size rounded, with the sign. *)
Definition toFixed_value (f : nat) (q : Q) : Q :=
  if Qlt_le_dec q 0 then (- rounded f (Qabs q))%Q else rounded f (Qabs q).

(** A text of digits with [f] of them after a point, and at least one
    before it; without a point when [f] is 0. *)
Definition fixed_shape (f : nat) (l : list ascii) : Prop :=
  match f with
  | O => all_digits l = true
  | _ => ∃ a b, l = a ++ "."%char :: b ∧ all_digits a = true ∧ all_digits b = true ∧
                length b = f
  end.

(** * Lemmas *)

(** ** Digits *)

Lemma digit_value_char d : 0 ≤ d < 10 → digit_value (digit_char d) = d.
Proof.
  intros Hd. unfold digit_value, digit_char. rewrite nat_ascii_embedding by lia. lia.
Qed.

Lemma is_digit_char d : 0 ≤ d < 10 → is_digit (digit_char d) = true.
Proof.
  intros Hd. unfold is_digit, digit_char. rewrite nat_ascii_embedding by lia.
  apply andb_true_iff. split; apply Nat.leb_le; lia.
Qed.

Lemma digit_not_point c : is_digit c = true → Ascii.eqb c "."%char = false.
Proof.
  intros Hc. apply Ascii.eqb_neq. intros ->. by vm_compute in Hc.
Qed.

Lemma digits_value_from_shift acc l :
  digits_value_from acc l = acc * 10 ^ Z.of_nat (length l) + digits_value l.
Proof.
  unfold digits_value. revert acc. induction l as [|c l IH]; intros acc.
  - cbn. lia.
  - cbn [digits_value_from foldl length] in *. fold (digits_value_from (10 * acc + digit_value c) l).
    fold (digits_value_from (10 * 0 + digit_value c) l).
    rewrite (IH (10 * acc + _)), (IH (10 * 0 + _)), Nat2Z.inj_succ, Z.pow_succ_r by lia. lia.
Qed.

(** The value of a text in two parts. *)
Lemma digits_value_app l l' :
  digits_value (l ++ l') = digits_value l * 10 ^ Z.of_nat (length l') + digits_value l'.
Proof.
  unfold digits_value at 1, digits_value_from. rewrite foldl_app.
  apply digits_value_from_shift.
Qed.

Lemma digits_value_cons c l :
  digits_value (c :: l) = digit_value c * 10 ^ Z.of_nat (length l) + digits_value l.
Proof. apply (digits_value_app [c]). Qed.

Lemma digits_value_zeros k l : digits_value (replicate k "0"%char ++ l) = digits_value l.
Proof.
  induction k as [|k IH]; [done|]. cbn [replicate app].
  rewrite digits_value_cons, IH. by cbn.
Qed.

(** The digits printed after enough rounds stand for the number. *)
Lemma digits_go_value fuel n acc :
  0 ≤ n < 10 ^ Z.of_nat fuel →
  digits_value (digits_go fuel n acc) = n * 10 ^ Z.of_nat (length acc) + digits_value acc.
Proof.
  revert n acc. induction fuel as [|fuel IH]; intros n acc Hn.
  - assert (n = 0) as -> by (change (10 ^ Z.of_nat 0) with 1 in Hn; lia).
    cbn [digits_go]. lia.
  - cbn [digits_go]. rewrite Nat2Z.inj_succ, Z.pow_succ_r in Hn by lia.
    assert (digits_value (digit_char (n mod 10) :: acc) =
            n mod 10 * 10 ^ Z.of_nat (length acc) + digits_value acc) as Hacc.
    { rewrite digits_value_cons, digit_value_char; [done|]. by apply Z.mod_pos_bound. }
    destruct (n / 10 =? 0) eqn:Hdiv.
    + apply Z.eqb_eq in Hdiv. rewrite Hacc. f_equal. f_equal.
      rewrite (Z.div_mod n 10) at 2 by lia. lia.
    + rewrite IH by (split; [apply Z.div_pos | apply Z.div_lt_upper_bound]; lia).
      rewrite Hacc. cbn [length]. rewrite Nat2Z.inj_succ, Z.pow_succ_r by lia.
      rewrite (Z.div_mod n 10) at 3 by lia. lia.
Qed.

Lemma digits_go_all_digits fuel n acc :
  0 ≤ n → Forall (λ c, is_digit c = true) acc →
  Forall (λ c, is_digit c = true) (digits_go fuel n acc).
Proof.
  revert n acc. induction fuel as [|fuel IH]; intros n acc Hn Hacc; [done|].
  cbn [digits_go].
  assert (Forall (λ c, is_digit c = true) (digit_char (n mod 10) :: acc)) as Hacc'.
  { constructor; [|done]. by apply is_digit_char, Z.mod_pos_bound. }
  destruct (n / 10 =? 0); [done|]. apply IH; [|done]. apply Z.div_pos; lia.
Qed.

Lemma digits_go_length fuel n acc : (length acc ≤ length (digits_go fuel n acc))%nat.
Proof.
  revert n acc. induction fuel as [|fuel IH]; intros n acc; [done|]. cbn [digits_go].
  destruct (n / 10 =? 0); [cbn; lia|]. etrans; [|apply IH]. cbn. lia.
Qed.

(** The fuel of [digits] is enough. *)
Lemma digits_fuel n : 0 ≤ n → n < 10 ^ Z.of_nat (S (Z.to_nat (Z.log2 n))).
Proof.
  intros Hn. rewrite Nat2Z.inj_succ, Z2Nat.id by apply Z.log2_nonneg.
  destruct (decide (n = 0)) as [->|]; [done|].
  eapply Z.lt_le_trans; [apply Z.log2_spec; lia|].
  apply Z.pow_le_mono_l. lia.
Qed.

Lemma digits_value_digits n : 0 ≤ n → digits_value (digits n) = n.
Proof.
  intros Hn. unfold digits. rewrite digits_go_value by (split; [done|by apply digits_fuel]).
  cbn. lia.
Qed.

Lemma digits_all_digits n : 0 ≤ n → Forall (λ c, is_digit c = true) (digits n).
Proof. intros Hn. by apply digits_go_all_digits. Qed.

Lemma digits_nonempty n : digits n ≠ [].
Proof.
  unfold digits. cbn [digits_go]. destruct (n / 10 =? 0); [done|].
  intros Hnil. pose proof (digits_go_length (Z.to_nat (Z.log2 n)) (n / 10)
    [digit_char (n mod 10)]) as Hlen. rewrite Hnil in Hlen. cbn in Hlen. lia.
Qed.

Lemma all_digits_Forall l :
  l ≠ [] → Forall (λ c, is_digit c = true) l → all_digits l = true.
Proof. intros. by apply bool_decide_eq_true_2. Qed.

Lemma all_digits_inv l : all_digits l = true → l ≠ [] ∧ Forall (λ c, is_digit c = true) l.
Proof. apply bool_decide_eq_true_1. Qed.

(** ** Zeros in front *)

Lemma pad_zeros_value f m : digits_value (pad_zeros f m) = digits_value m.
Proof. unfold pad_zeros. case_decide; [apply digits_value_zeros | done]. Qed.

Lemma pad_zeros_length f m : (f < length (pad_zeros f m))%nat.
Proof.
  unfold pad_zeros. case_decide; [|lia]. rewrite length_app, length_replicate. lia.
Qed.

Lemma pad_zeros_all_digits f m :
  Forall (λ c, is_digit c = true) m → Forall (λ c, is_digit c = true) (pad_zeros f m).
Proof.
  intros Hm. unfold pad_zeros. case_decide; [|done].
  apply Forall_app. split; [|done]. by apply Forall_replicate.
Qed.

(** ** The text [toFixed] prints *)

(** With digits after the point, the text is the padded digits of the
    nearest integer, cut [f] digits before their end. *)
Lemma toFixed_digits_split f x :
  0 ≤ nearest (S f) x →
  ∃ a b, toFixed_digits (S f) x = a ++ "."%char :: b ∧
         all_digits a = true ∧ all_digits b = true ∧ length b = S f ∧
         digits_value (a ++ b) = nearest (S f) x.
Proof.
  intros Hn. unfold toFixed_digits. set (m := pad_zeros (S f) (digits (nearest (S f) x))).
  pose proof (pad_zeros_length (S f) (digits (nearest (S f) x))) as Hlen. fold m in Hlen.
  assert (Forall (λ c, is_digit c = true) m) as Hm
    by by apply pad_zeros_all_digits, digits_all_digits.
  exists (take (length m - S f) m), (drop (length m - S f) m). split_and!; [done|..].
  - apply all_digits_Forall; [|by apply Forall_take].
    intros Hnil%(f_equal length). rewrite length_take in Hnil. cbn in Hnil. lia.
  - apply all_digits_Forall; [|by apply Forall_drop].
    intros Hnil%(f_equal length). rewrite length_drop in Hnil. cbn in Hnil. lia.
  - rewrite length_drop. lia.
  - rewrite take_drop. unfold m. by rewrite pad_zeros_value, digits_value_digits.
Qed.

Lemma toFixed_digits_shape f x : 0 ≤ nearest f x → fixed_shape f (toFixed_digits f x).
Proof.
  intros Hn. destruct f as [|f]; cbn [fixed_shape].
  - apply all_digits_Forall; [apply digits_nonempty | by apply digits_all_digits].
  - destruct (toFixed_digits_split f x Hn) as (a & b & ? & ? & ? & ? & _). by exists a, b.
Qed.

(** ** Reading *)

Lemma split_point_digits a :
  Forall (λ c, is_digit c = true) a → split_point a = (a, None).
Proof.
  induction 1 as [|c a Hc _ IH]; [done|]. cbn [split_point].
  by rewrite (digit_not_point c Hc), IH.
Qed.

Lemma split_point_app a b :
  Forall (λ c, is_digit c = true) a → split_point (a ++ "."%char :: b) = (a, Some b).
Proof.
  induction 1 as [|c a Hc _ IH]; [done|]. cbn [split_point app].
  by rewrite (digit_not_point c Hc), IH.
Qed.

Lemma unit_of_pos f : (0 < inject_Z (10 ^ Z.of_nat f))%Q.
Proof. rewrite <- (Zlt_Qlt 0). apply Z.pow_pos_nonneg; lia. Qed.

(** Reading the digits [toFixed] printed gives the rounded number. *)
Lemma read_unsigned_toFixed_digits f x :
  0 ≤ nearest f x →
  ∃ v, read_unsigned (toFixed_digits f x) = Some v ∧ (v == rounded f x)%Q.
Proof.
  intros Hn. unfold read_unsigned, rounded, unit_of. destruct f as [|f].
  - cbn [toFixed_digits]. rewrite split_point_digits by by apply digits_all_digits.
    rewrite all_digits_Forall by (apply digits_nonempty || by apply digits_all_digits).
    eexists. split; [done|]. rewrite digits_value_digits by done.
    change (inject_Z (10 ^ Z.of_nat 0)) with 1%Q. field.
  - destruct (toFixed_digits_split f x Hn) as (a & b & -> & Ha & Hb & Hlen & Hval).
    rewrite split_point_app by apply (all_digits_inv a Ha). rewrite Ha, Hb.
    eexists. split; [done|]. rewrite Hval, Hlen. field.
    apply Qnot_eq_sym, Qlt_not_eq, unit_of_pos.
Qed.

Lemma fixed_shape_head f l :
  fixed_shape f l → ∃ c l', l = c :: l' ∧ is_digit c = true.
Proof.
  assert (∀ a, all_digits a = true → ∃ c a', a = c :: a' ∧ is_digit c = true) as Hhead.
  { intros [|c a'] [Hne Hall]%all_digits_inv; [done|]. exists c, a'.
    by apply Forall_cons in Hall as [? _]. }
  destruct f as [|f]; cbn [fixed_shape]; [apply Hhead|].
  intros (a & b & -> & (c & a' & -> & Hc)%Hhead & _). by exists c, (a' ++ "."%char :: b).
Qed.

Lemma read_fixed_unsigned f l :
  fixed_shape f l → read_fixed (string_of_list_ascii l) = read_unsigned l.
Proof.
  intros (c & l' & -> & Hc)%fixed_shape_head. unfold read_fixed.
  rewrite list_ascii_of_string_of_list_ascii.
  assert (Ascii.eqb c "-"%char = false) as ->; [|done].
  apply Ascii.eqb_neq. intros ->. by vm_compute in Hc.
Qed.

Lemma read_fixed_negative l :
  read_fixed (string_of_list_ascii ("-"%char :: l)) = Qopp <$> read_unsigned l.
Proof. unfold read_fixed. by rewrite list_ascii_of_string_of_list_ascii. Qed.

(** ** Rounding *)

Section Rounding.
Local Open Scope Q_scope.

Lemma nearest_bounds f x :
  x * inject_Z (10 ^ Z.of_nat f) - (1 # 2) < inject_Z (nearest f x) ∧
  inject_Z (nearest f x) <= x * inject_Z (10 ^ Z.of_nat f) + (1 # 2).
Proof.
  unfold nearest. generalize (x * inject_Z (10 ^ Z.of_nat f)). intros y.
  pose proof (Qfloor_le (y + (1 # 2))). pose proof (Qlt_floor (y + (1 # 2))) as Hlt.
  rewrite inject_Z_plus in Hlt. change (inject_Z 1) with 1 in Hlt. split; [|done]. lra.
Qed.

Lemma nearest_nonneg f x : 0 <= x → (0 ≤ nearest f x)%Z.
Proof.
  intros Hx. change 0%Z with (Qfloor 0). apply Qfloor_resp_le.
  pose proof (unit_of_pos f). nra.
Qed.

Lemma inject_Z_succ_le (a b : Z) : (a < b)%Z → inject_Z a + 1 <= inject_Z b.
Proof. intros Hab. change 1 with (inject_Z 1). rewrite <- inject_Z_plus, <- Zle_Qle. lia. Qed.

(** The integer [toFixed] takes is the one the language asks for: no
    integer is nearer to the number times the power of ten, and one that is
    as near is not larger. *)
Lemma nearest_closest f x (k : Z) :
  let y := x * inject_Z (10 ^ Z.of_nat f) in
  Qabs (inject_Z (nearest f x) - y) <= Qabs (inject_Z k - y) ∧
  (Qabs (inject_Z k - y) <= Qabs (inject_Z (nearest f x) - y) → (k ≤ nearest f x)%Z).
Proof.
  intros y. destruct (nearest_bounds f x) as [Hlo Hhi]. fold y in Hlo, Hhi.
  destruct (Z_le_gt_dec k (nearest f x)) as [Hle|Hgt].
  - split; [|done]. apply Z.le_lteq in Hle as [Hlt| ->]; [|apply Qle_refl].
    apply inject_Z_succ_le in Hlt.
    apply Qabs_Qle_condition. split; [|by apply Qabs_case; lra].
    apply Qabs_case; lra.
  - apply Z.gt_lt, inject_Z_succ_le in Hgt. split.
    + apply Qabs_Qle_condition. split; apply Qabs_case; lra.
    + intros Hnear. apply Qabs_Qle_condition in Hnear as [Hn1 Hn2].
      revert Hn1 Hn2. apply Qabs_case; lra.
Qed.

Lemma rounded_near f x : Qabs (rounded f x - x) <= (1 # 2) * unit_of f.
Proof.
  destruct (nearest_bounds f x) as [Hlo Hhi]. pose proof (unit_of_pos f) as Hpos.
  unfold rounded, unit_of. set (P := inject_Z (10 ^ Z.of_nat f)) in *.
  assert (inject_Z (nearest f x) * (1 / P) - x == (inject_Z (nearest f x) - x * P) / P) as ->
    by (field; lra).
  assert ((1 # 2) * (1 / P) == (1 # 2) / P) as -> by (field; lra).
  apply Qabs_Qle_condition. split.
  - apply Qle_shift_div_l; [done|]. assert (- ((1 # 2) / P) * P == - (1 # 2)) as -> by (field; lra).
    lra.
  - apply Qle_shift_div_r; [done|]. assert ((1 # 2) / P * P == 1 # 2) as -> by (field; lra).
    lra.
Qed.

End Rounding.

(** * Properties *)

(** Reading what [toFixed] printed gives the number rounded.  For a
    number below 10^21 in size, [toFixed(f)] prints a text; read as a
    decimal number, the text is the size rounded to [f] digits after the
    point, a half rounded up, with the sign of the number, and it is at
    most half a unit of the last digit from the number. *)
Theorem toFixed_roundtrip (f : nat) (q : Q) :
  (Qabs q < inject_Z (10 ^ 21))%Q →
  ∃ s v, toFixed f (Num q) = Some s ∧ read_fixed s = Some v ∧
         (v == toFixed_value f q)%Q ∧ (Qabs (v - q) <= (1 # 2) * unit_of f)%Q.
Proof.
  intros Hq. unfold toFixed, sign_chars, toFixed_value.
  assert (Qle_bool (inject_Z (10 ^ 21)) (Qabs q) = false) as ->.
  { destruct (Qle_bool _ _) eqn:Hle; [|done]. apply Qle_bool_iff in Hle. lra. }
  pose proof (nearest_nonneg f (Qabs q) (Qabs_nonneg q)) as Hn.
  destruct (read_unsigned_toFixed_digits f (Qabs q) Hn) as (v0 & Hread & Hv0).
  pose proof (rounded_near f (Qabs q)) as Hnear.
  destruct (Qlt_le_dec q 0) as [Hneg|Hpos]; eexists _, _; (split; [done|]).
  - cbn [app]. rewrite read_fixed_negative, Hread. split; [done|]. split; [by rewrite Hv0|].
    pose proof (Qabs_neg q (Qlt_le_weak _ _ Hneg)) as Habs.
    assert (- v0 - q == - (rounded f (Qabs q) - Qabs q))%Q as -> by lra.
    by rewrite Qabs_opp.
  - cbn [app]. rewrite (read_fixed_unsigned f) by by apply toFixed_digits_shape.
    split; [done|]. split; [done|].
    pose proof (Qabs_pos q Hpos) as Habs.
    by assert (v0 - q == rounded f (Qabs q) - Qabs q)%Q as -> by lra.
Qed.

(** The text of [toFixed] has the digits asked for.  For a number
    below 10^21 in size the text is a minus sign when the number is
    negative, then digits, at least one, and for [f] above 0 a point and
    exactly [f] digits.  A number that is not a number prints as NaN. *)
Theorem toFixed_shape (f : nat) (q : Q) :
  (Qabs q < inject_Z (10 ^ 21))%Q →
  ∃ l, toFixed f (Num q) = Some (string_of_list_ascii (sign_chars q ++ l)) ∧
       fixed_shape f l.
Proof.
  intros Hq. unfold toFixed.
  assert (Qle_bool (inject_Z (10 ^ 21)) (Qabs q) = false) as ->.
  { destruct (Qle_bool _ _) eqn:Hle; [|done]. apply Qle_bool_iff in Hle. lra. }
  eexists. split; [done|]. apply toFixed_digits_shape, nearest_nonneg, Qabs_nonneg.
Qed.

(** [toFixed] rounds as the language says.  The integer whose digits
    are printed is nearest to the number times 10^f: no integer is nearer,
    and an integer that is as near is not larger. *)
Theorem toFixed_nearest (f : nat) (x : Q) (k : Z) :
  let y := (x * inject_Z (10 ^ Z.of_nat f))%Q in
  (Qabs (inject_Z (nearest f x) - y) <= Qabs (inject_Z k - y))%Q ∧
  ((Qabs (inject_Z k - y) <= Qabs (inject_Z (nearest f x) - y))%Q → k ≤ nearest f x).
Proof. apply nearest_closest. Qed.

Lemma toFixed_roundtrip_witness :
  ∃ s v, toFixed 1 (Num (-(1234 # 100))) = Some s ∧ read_fixed s = Some v ∧
         (v == toFixed_value 1 (-(1234 # 100)))%Q ∧
         (Qabs (v - -(1234 # 100)) <= (1 # 2) * unit_of 1)%Q.
Proof. apply toFixed_roundtrip. by vm_compute. Defined.

Lemma toFixed_shape_witness :
  ∃ l, toFixed 2 (Num (59999 # 1000)) =
         Some (string_of_list_ascii (sign_chars (59999 # 1000) ++ l)) ∧
       fixed_shape 2 l.
Proof. apply toFixed_shape. by vm_compute. Defined.

(** What the language prints, on examples. *)
Example toFixed_examples :
  toFixed 1 (Num (12345 # 1000)) = Some "12.3"%string ∧
  toFixed 2 (Num (59999 # 1000)) = Some "60.00"%string ∧
  toFixed 1 (Num (5 # 100)) = Some "0.1"%string ∧
  toFixed 1 (Num (-(4 # 100))) = Some "-0.0"%string ∧
  toFixed 0 (Num (25 # 10)) = Some "3"%string ∧
  toFixed 2 (Num 0) = Some "0.00"%string ∧
  toFixed 1 NaN = Some "NaN"%string ∧
  toFixed 0 (Num (inject_Z (10 ^ 21))) = None.
Proof. by vm_compute. Qed.
