(* ===== verification/Views.v ===== *)
(** * The small views: TopNav, Main, PerformanceMetrics

    Models three components that hold little logic of their own:
    [TopNav] (the first document of [src/app/components/TopNav.vue.ts], lines
    1-92), [Main] ([src/app/components/windows/Main.vue.ts]) and
    [PerformanceMetrics] ([src/app/components/PerformanceMetrics.vue.ts]).
    What they read of the services is a record; what they call is an effect.
    [Main] reads the loading flag of the application service, so its lock of
    the content is tied to the start-up and the shut-down of [App].

    The getters of [PerformanceMetrics] print the numbers of the
    performance service with [toFixed] of [JsNumber.v]. *)

From Stdlib Require Import ZArith QArith Qabs Lqa String.
From stdpp Require Import base tactics option list strings.
From S2P Require Import Prelude.
From S2P Require Import App.
From S2P Require Import JsNumber.

Set Warnings "-clear-no-such-hyp".

Local Open Scope string_scope.
Local Open Scope list_scope.
Local Open Scope svc_scope.

(** ** TopNav *)

Module TopNav.

(** What the component holds and reads. *)
Record View : Type := mkView {
  slideOpen : bool;
  studioModeTooltip : string;
  locked : bool;
  studioMode : bool;
  nightMode : bool;
  currentPage : string;
  isLoggedIn : bool;
  devMode : bool;
}.

Definition initialView (locked' studio night loggedIn dev : bool) (page : string) : View :=
  {| slideOpen := false; studioModeTooltip := "Studio Mode"; locked := locked';
     studioMode := studio; nightMode := night; currentPage := page;
     isLoggedIn := loggedIn; devMode := dev |}.

Inductive TopNavEffect : Type :=
| navigationService_navigate (page : string)
| transitionsService_disableStudioMode
| transitionsService_enableStudioMode
| settingsService_showSettings
| customizationService_nightMode (night : bool)
| shell_openExternal (url : string)
| ipcRenderer_send (channel : string).

#[export] Instance TopNavEffect_eq_dec : EqDecision TopNavEffect.
Proof. solve_decision. Defined.

Definition M (A : Type) : Type := svc View TopNavEffect A.

Definition navigateStudio : M unit := svc_emit (navigationService_navigate "Studio").
Definition navigateDashboard : M unit := svc_emit (navigationService_navigate "Dashboard").
Definition navigateOverlays : M unit :=
  svc_emit (navigationService_navigate "BrowseOverlays").
Definition navigateLive : M unit := svc_emit (navigationService_navigate "Live").
Definition navigateOnboarding : M unit :=
  svc_emit (navigationService_navigate "Onboarding").

Definition studioModeToggle : M unit :=
  let* on := svc_gets studioMode in
  if on then svc_emit transitionsService_disableStudioMode
  else svc_emit transitionsService_enableStudioMode.

Definition studioModeEnabled (v : View) : bool := studioMode v.

Definition openSettingsWindow : M unit := svc_emit settingsService_showSettings.

(** The assignment to [customizationService.nightMode]: the setter of the
    service receives the negation of what its getter returns. *)
Definition toggleNightTheme : M unit :=
  let* night := svc_gets nightMode in
  svc_emit (customizationService_nightMode (negb night)).

Definition bugReport : M unit :=
  svc_emit (shell_openExternal "https://tracker.streamlabs.com").

Definition openDiscord : M unit :=
  svc_emit (shell_openExternal "https://discordapp.com/invite/stream").

Definition isDevMode (v : View) : bool := devMode v.

Definition openDevTools : M unit := svc_emit (ipcRenderer_send "openDevTools").

Definition page (v : View) : string := currentPage v.

Definition isUserLoggedIn (v : View) : bool := isLoggedIn v.

End TopNav.

(** ** Main *)

Module Main.

#[local] Existing Instance App.Task_eq_dec.

(** What the window reads of the services. *)
Record Services : Type := mkServices {
  main_title : string;
  currentPage : string;
  params : list (string * string);
  nightMode : bool;
  appService : App.IAppState;
  loggedIn : bool;
  leftDock : bool;
}.

Definition title (s : Services) : string := main_title s.
Definition page (s : Services) : string := currentPage s.
Definition nightTheme (s : Services) : bool := nightMode s.
Definition applicationLoading (s : Services) : bool := App.loading (appService s).
Definition isLoggedIn (s : Services) : bool := loggedIn s.
Definition isOnboarding (s : Services) : bool :=
  bool_decide (currentPage s = "Onboarding").

(** Only the Studio and the Live page are locked while the application
    loads. *)
Definition shouldLockContent (s : Services) : bool :=
  applicationLoading s &&
  (bool_decide (currentPage s = "Studio") || bool_decide (currentPage s = "Live")).

(** The window over a state of the application service. *)
Definition over (app : App.Service) (s : Services) : Services :=
  {| main_title := main_title s; currentPage := currentPage s; params := params s;
     nightMode := nightMode s; appService := App.state app; loggedIn := loggedIn s;
     leftDock := leftDock s |}.

(** The shut-down is under way: the store is loading and the start-up has
    no continuation left that would end the loading. *)
Definition shutting_down (app : App.Service) : Prop :=
  App.loading (App.state app) = true ∧ App.AfterInitialize ∉ App.tasks app.

(** An event of the shut-down: the message, or a continuation resumed. *)
Definition is_shutdown_event (ev : App.Event) : bool :=
  match ev with
  | App.ShutdownMessage | App.Resume _ _ => true
  | _ => false
  end.

Lemma handle_shutting_down ev :
  is_shutdown_event ev = true → preserves shutting_down (App.handle ev).
Proof.
  destruct ev as [| | | | |onboarded i]; try done; intros _ app [Hload Hno];
    cbn [App.handle].
  - rewrite App.deliver_shutdown_run. cbn [final].
    destruct (App.iter_shutdown (App.shutdownListeners app) app)
      as (Ht & _ & _ & Hl).
    split; [rewrite Hl; by case_decide|].
    rewrite Ht, elem_of_app, elem_of_replicate. naive_solver.
  - rewrite App.resume_run. destruct (App.tasks app !! i) as [task|] eqn:Hi; [|done].
    assert (App.AfterInitialize ∉ delete i (App.tasks app)) as Hdel
      by (intros ?%elem_of_delete_inv; done).
    assert (task ≠ App.AfterInitialize) as Htask
      by (intros ->; apply Hno; by eapply list_elem_of_lookup_2).
    rewrite App.run_task_run. destruct task; try done; split; try done;
      cbn; rewrite elem_of_app, list_elem_of_singleton; naive_solver.
Qed.

(** * Properties *)

(** The content stays locked during the shut-down.  Once the shut-down
    is under way, whatever shut-down messages arrive and whichever
    continuations are resumed, in any order, the application stays loading,
    so the Studio and the Live page stay locked until the window goes. *)
Theorem locked_during_shutdown (evs : list App.Event) (app : App.Service)
    (s : Services) :
  shutting_down app → forallb is_shutdown_event evs = true →
  currentPage s = "Studio" ∨ currentPage s = "Live" →
  shouldLockContent (over (App.run_events evs app).1 s) = true.
Proof.
  intros Hdown Hevs Hpage. unfold App.run_events.
  assert (shutting_down (run_all App.handle evs app).1) as [Hload _].
  { revert app Hdown. induction evs as [|ev evs IH]; intros app Hdown; [done|].
    apply andb_prop in Hevs as [Hev Hevs]. simpl.
    by apply IH, handle_shutting_down. }
  unfold shouldLockContent, applicationLoading. cbn [over appService currentPage].
  rewrite Hload. destruct Hpage as [-> | ->]; by vm_compute.
Qed.

Definition studio_window : Services :=
  {| main_title := "Streamlabs OBS"; currentPage := "Studio"; params := [];
     nightMode := true; appService := App.initialState; loggedIn := true;
     leftDock := false |}.

Lemma locked_during_shutdown_witness :
  shouldLockContent
    (over (App.run_events
             [App.ShutdownMessage; App.Resume true 0; App.Resume true 0]
             (final (App.handle App.ShutdownMessage App.loaded_service))).1
       studio_window) = true.
Proof.
  apply locked_during_shutdown; [|done|by left].
  split; [done | compute_done].
Defined.

End Main.

(** ** PerformanceMetrics *)

Module PerformanceMetrics.

(** What the component reads: the state of the performance service and the
    two facts about the stream.  The share of dropped frames may be
    missing, which is why its getter tests it. *)
Record Metrics : Type := mkMetrics {
  state_CPU : JsNumber;
  state_frameRate : JsNumber;
  numberDroppedFrames : Z;
  percentageDroppedFrames : option JsNumber;
  state_bandwidth : JsNumber;
  isStreaming : bool;
  streamOk : option bool;
}.

(** The getters answer a text; [None] is a number from 10^21 on, which
    [toFixed] of [JsNumber.v] does not print. *)
Definition cpuPercent (m : Metrics) : option string := toFixed 1 (state_CPU m).

Definition frameRate (m : Metrics) : option string := toFixed 2 (state_frameRate m).

Definition droppedFrames (m : Metrics) : Z := numberDroppedFrames m.

Definition percentDropped (m : Metrics) : option string :=
  toFixed 1 (or_zero (percentageDroppedFrames m)).

Definition bandwidth (m : Metrics) : option string := toFixed 0 (state_bandwidth m).

(** [streamStatusMsg]: [None] is [null]. *)
Definition streamStatusMsg (m : Metrics) : option string :=
  if isStreaming m && bool_decide (streamOk m ≠ None) then
    if bool_decide (streamOk m = Some true) then Some "Stream OK"
    else Some "Stream Error"
  else None.

(** ** Lemmas *)

Lemma or_zero_number x : ∃ q, or_zero x = Num q.
Proof. destruct x as [[|q]|]; cbn; [by eexists| |by eexists]. destruct (Qeq_bool q 0); by eexists. Qed.

Lemma or_zero_given q : ∃ q', or_zero (Some (Num q)) = Num q' ∧ (q' == q)%Q.
Proof.
  cbn. destruct (Qeq_bool q 0) eqn:Hq; [|by eexists]. apply Qeq_bool_iff in Hq.
  eexists. split; [done|]. by symmetry.
Qed.

(** ** Properties *)

(** C31: The share of dropped frames is always printed as a number.  When
    the performance service has no share, or one that is not a number, the
    getter prints 0.0; for a share from 0 to 100 it prints a text with one
    digit after the point which, read as a number, is at most 0.05 from
    the share. *)
Theorem percentDropped_printed (m : Metrics) :
  match percentageDroppedFrames m with
  | Some (Num q) =>
      (0 <= q)%Q → (q <= 100)%Q →
      ∃ s v, percentDropped m = Some s ∧ read_fixed s = Some v ∧
             (Qabs (v - q) <= 1 # 20)%Q
  | _ => percentDropped m = Some "0.0"
  end.
Proof.
  unfold percentDropped. destruct (percentageDroppedFrames m) as [[|q]|]; [done| |done].
  intros Hlo Hhi. destruct (or_zero_given q) as (q' & -> & Hq').
  destruct (toFixed_roundtrip 1 q') as (s & v & Hs & Hv & _ & Hnear).
  { apply Qabs_Qlt_condition. rewrite Hq'. split; [|eapply Qle_lt_trans; [done|done]].
    eapply Qlt_le_trans; [|done]. done. }
  exists s, v. split_and!; [done..|].
  assert (v - q == v - q')%Q as -> by lra. done.
Qed.

(** The other numbers are printed as they are: without a sample the
    component shows NaN. *)
Lemma unguarded_getters_print_NaN (m : Metrics) :
  state_CPU m = NaN → state_frameRate m = NaN → state_bandwidth m = NaN →
  cpuPercent m = Some "NaN" ∧ frameRate m = Some "NaN" ∧ bandwidth m = Some "NaN".
Proof. unfold cpuPercent, frameRate, bandwidth. by intros -> -> ->. Qed.

(** What the footer shows for a sample. *)
Definition sample : Metrics :=
  {| state_CPU := Num (12345 # 1000); state_frameRate := Num (59999 # 1000);
     numberDroppedFrames := 3; percentageDroppedFrames := Some (Num (125 # 100));
     state_bandwidth := Num (24995 # 10); isStreaming := true; streamOk := Some true |}.

Example sample_printed :
  cpuPercent sample = Some "12.3" ∧ frameRate sample = Some "60.00" ∧
  droppedFrames sample = 3%Z ∧ percentDropped sample = Some "1.3" ∧
  bandwidth sample = Some "2500" ∧ streamStatusMsg sample = Some "Stream OK".
Proof. by vm_compute. Qed.

Lemma percentDropped_printed_witness :
  ∃ s v, percentDropped sample = Some s ∧ read_fixed s = Some v ∧
         (Qabs (v - (125 # 100)) <= 1 # 20)%Q.
Proof. by apply (percentDropped_printed sample). Defined.

End PerformanceMetrics.
