(* ===== verification/MediaBackup.v ===== *)
(** * MediaBackupService: the cloud backup of media files

    Models [MediaBackupService] of [src/unnamed/part_003].  The service keeps
    a table of media files in its store slice; [createNewFile] uploads a
    file, [syncFile] checks a local copy against the server and downloads a
    new one when needed.  Both are [async]: between their awaits other calls
    run, and a call for a file that is still being handled supersedes the
    older one through the sync lock, a fresh string stored with the file.

    The model cuts each method at its awaits.  What waits is a [Task] in the
    state: the promise awaited, the locals the code after it reads, and the
    retries [withRetry] has left.  The environment settles a task with an
    [Answer]: the events of a stream, or the response to a request.  The
    file system, [path], the hosts and the user service are not among the
    sources: what the code reads of them is the record [Env], what it calls
    is an effect of the trace.  The value of [uuid()] is an argument of the
    call.  The body of a successful response is parsed by a function of
    [Env] at the type the code declares; when [JSON.parse] throws it gives
    [None].  The value a method's promise resolves with is recorded in the
    trace ([promise_resolved]). *)

From Stdlib Require Import ZArith Lia String.
From stdpp Require Import base tactics option list strings relations pretty.
From S2P Require Import Prelude.

Set Warnings "-clear-no-such-hyp".

Local Open Scope string_scope.
Local Open Scope list_scope.
Local Open Scope Z_scope.
Local Open Scope svc_scope.

Module MediaBackup.

(** ** Data *)

Inductive EMediaFileStatus : Type := Checking | Synced | Uploading | Downloading.

Inductive EGlobalSyncStatus : Type := GlobalSyncing | GlobalSynced.

Record IMediaFile : Type := mkMediaFile {
  id : string;
  serverId : option Z;
  name : string;
  status : EMediaFileStatus;
  filePath : string;
  syncLock : string;
}.

Record IMediaBackupState : Type := mkMediaBackupState {
  files : list IMediaFile;
}.

Record IMediaFileDataResponse : Type := mkMediaFileDataResponse {
  checksum : string;
  filename : string;
  modified : string;
  url : string;
}.

Definition initialState : IMediaBackupState := {| files := [] |}.

(** [Partial<IMediaFile>]: an object with some of the fields. *)
Record Partial_IMediaFile : Type := mkPatch {
  patch_id : option string;
  patch_serverId : option Z;
  patch_name : option string;
  patch_status : option EMediaFileStatus;
  patch_filePath : option string;
  patch_syncLock : option string;
}.

(** The object literal [{ status }]. *)
Definition status_patch (st : EMediaFileStatus) : Partial_IMediaFile :=
  {| patch_id := None; patch_serverId := None; patch_name := None;
     patch_status := Some st; patch_filePath := None; patch_syncLock := None |}.

(** A file passed where a patch is expected: every field it has. *)
Definition file_patch (file : IMediaFile) : Partial_IMediaFile :=
  {| patch_id := Some (id file); patch_serverId := serverId file;
     patch_name := Some (name file); patch_status := Some (status file);
     patch_filePath := Some (filePath file); patch_syncLock := Some (syncLock file) |}.

(** [Object.assign(file, patch)] *)
Definition Object_assign (file : IMediaFile) (patch : Partial_IMediaFile) : IMediaFile :=
  {| id := default (id file) (patch_id patch);
     serverId := match patch_serverId patch with
                 | Some n => Some n
                 | None => serverId file
                 end;
     name := default (name file) (patch_name patch);
     status := default (status file) (patch_status patch);
     filePath := default (filePath file) (patch_filePath patch);
     syncLock := default (syncLock file) (patch_syncLock patch) |}.

(** What a promise was rejected with: an error, shown by its text, or the
    response to a request. *)
Inductive Rejection : Type :=
| ErrorValue (text : string)
| ResponseValue (statusCode : Z) (body : string).

(** The rejection inside a template literal. *)
Definition to_string (e : Rejection) : string :=
  match e with
  | ErrorValue text => text
  | ResponseValue _ _ => "[object Object]"
  end.

(** [e.body] inside a template literal. *)
Definition body_of (e : Rejection) : string :=
  match e with
  | ErrorValue _ => "undefined"
  | ResponseValue _ body => body
  end.

(** A promise that is pending, with the locals the code after it reads and
    the retries left.  [file] is the local object of the method; its [id]
    and [syncLock] are the locals [localId] and [syncLock]. *)
Inductive Task : Type :=
| AwaitUpload (file : IMediaFile) (digest : option string) (retries : Z)
| AwaitFileData (file : IMediaFile) (serverId : Z) (retries : Z)
| AwaitChecksum (file : IMediaFile) (serverId : Z) (data : IMediaFileDataResponse)
    (fileToCheck : string) (rest : list string) (retries : Z)
| AwaitDownload (file : IMediaFile) (serverId : Z) (data : IMediaFileDataResponse)
    (retries : Z).

(** The file a task works for. *)
Definition task_file (task : Task) : IMediaFile :=
  match task with
  | AwaitUpload file _ _ | AwaitFileData file _ _ | AwaitChecksum file _ _ _ _ _
  | AwaitDownload file _ _ _ => file
  end.

(** The retries [withRetry] has left while the task waits. *)
Definition task_retries (task : Task) : Z :=
  match task with
  | AwaitUpload _ _ retries | AwaitFileData _ _ retries
  | AwaitChecksum _ _ _ _ _ retries | AwaitDownload _ _ _ retries => retries
  end.

#[export] Instance EMediaFileStatus_eq_dec : EqDecision EMediaFileStatus.
Proof. solve_decision. Defined.
#[export] Instance EGlobalSyncStatus_eq_dec : EqDecision EGlobalSyncStatus.
Proof. solve_decision. Defined.
#[export] Instance IMediaFile_eq_dec : EqDecision IMediaFile.
Proof. solve_decision. Defined.
#[export] Instance IMediaFileDataResponse_eq_dec : EqDecision IMediaFileDataResponse.
Proof. solve_decision. Defined.
#[export] Instance Rejection_eq_dec : EqDecision Rejection.
Proof. solve_decision. Defined.
#[export] Instance Task_eq_dec : EqDecision Task.
Proof. solve_decision. Defined.

(** The service: its store slice and the promises that are pending. *)
Record Service : Type := mkService {
  state : IMediaBackupState;
  pending : list Task;
}.

Definition initialService : Service := {| state := initialState; pending := [] |}.

(** What the service reads of the file system, of [path], of the hosts and
    the user service, of [electron] and of the clock. *)
Record Env : Type := mkEnv {
  path_base : string → completion string;
  path_join : string → string → string;
  existsSync : string → bool;
  hosts_media : string;
  apiToken : string;
  userData : string;
  now_ISO : string;
  parse_upload : string → option Z;
  parse_fileData : string → option IMediaFileDataResponse;
}.

(** What a method's promise resolves with. *)
Inductive Returned : Type :=
| ReturnFile (file : IMediaFile)
| ReturnNull
| ReturnUndefined.

Inductive MediaBackupEffect : Type :=
| console_warn (text : string)
| console_error (text : string)
| console_debug (text : string)
| fs_createReadStream (path : string)
| fs_createWriteStream (path : string)
| fs_mkdirSync (path : string)
| request_post (url authorization modified checksum file : string)
| request_get (url authorization : string)
| request_pipe (url path : string)
| promise_resolved (localId : string) (result : Returned).

#[export] Instance Returned_eq_dec : EqDecision Returned.
Proof. solve_decision. Defined.
#[export] Instance MediaBackupEffect_eq_dec : EqDecision MediaBackupEffect.
Proof. solve_decision. Defined.

Definition M (A : Type) : Type := svc Service MediaBackupEffect A.

(** ** Mutations and getters *)

Definition with_state (f : IMediaBackupState → IMediaBackupState) (s : Service) : Service :=
  {| state := f (state s); pending := pending s |}.

(** [INSERT_FILE(file)]: the file replaces the one of its id and goes last. *)
Definition INSERT_FILE (file : IMediaFile) : Service → Service :=
  with_state (λ st,
    {| files := filter (λ storeFile, id storeFile ≠ id file) (files st) ++ [file] |}).

(** [UPDATE_FILE(id, patch)] *)
Definition UPDATE_FILE (id' : string) (patch : Partial_IMediaFile) : Service → Service :=
  with_state (λ st,
    {| files := (λ file, if decide (id file = id') then Object_assign file patch
                         else file) <$> files st |}).

(** [getLocalFileId()]: the value of [uuid()]. *)
Definition getLocalFileId (uuid : string) : string := uuid.

(** [globalSyncStatus] *)
Definition globalSyncStatus (s : Service) : EGlobalSyncStatus :=
  match js_find (λ file, status file ≠ Synced) (files (state s)) with
  | Some _ => GlobalSyncing
  | None => GlobalSynced
  end.

(** [validateSyncLock(id, syncLock)] *)
Definition validateSyncLock (id' lock : string) (s : Service) : bool :=
  bool_decide (is_Some (js_find (λ file, id file = id' ∧ syncLock file = lock)
                          (files (state s)))).

Definition mediaDirectory (env : Env) : string := path_join env (userData env) "Media".

Definition getMediaFilePath (env : Env) (serverId' : Z) : string :=
  path_join env (mediaDirectory env) (pretty serverId').

Definition apiBase (env : Env) : string :=
  "https://" +:+ hosts_media env +:+ "/api/v5/slobs/media".

(** [authedHeaders]: the value of the [Authorization] header. *)
Definition authedHeaders (env : Env) : string := "Bearer " +:+ apiToken env.

Definition ensureMediaDirectory (env : Env) : M unit :=
  svc_when (negb (existsSync env (mediaDirectory env)))
    (svc_emit (fs_mkdirSync (mediaDirectory env))).

(** ** Pending promises *)

Definition add_task (task : Task) (s : Service) : Service :=
  {| state := state s; pending := pending s ++ [task] |}.

Definition remove_task (i : nat) (s : Service) : Service :=
  {| state := state s; pending := delete i (pending s) |}.

Definition defer (task : Task) : M unit := svc_modify (add_task task).

Definition resolve (file : IMediaFile) (result : Returned) : M unit :=
  svc_emit (promise_resolved (id file) result).

(** ** The executors, up to their first await *)

(** [getChecksum(filePath)]: the stream is opened; its events settle the
    promise. *)
Definition getChecksum (filePath' : string) : M unit :=
  svc_emit (fs_createReadStream filePath').

(** [uploadFile(filePath)], up to the await of the checksum. *)
Definition uploadFile (filePath' : string) : M unit := getChecksum filePath'.

(** [uploadFile], from the checksum to the request. *)
Definition uploadFile_post (env : Env) (filePath' digest : string) : M unit :=
  svc_emit (fs_createReadStream filePath');;
  svc_emit (request_post (apiBase env +:+ "/upload") (authedHeaders env) (now_ISO env)
              digest filePath').

(** [getFileData(id)] *)
Definition getFileData (env : Env) (id' : Z) : M unit :=
  svc_emit (request_get (apiBase env +:+ "/" +:+ pretty id') (authedHeaders env)).

(** [downloadFile(url, serverId)] *)
Definition downloadFile (env : Env) (url' : string) (serverId' : Z) : M unit :=
  ensureMediaDirectory env;;
  let filePath' := getMediaFilePath env serverId' in
  svc_emit (fs_createWriteStream filePath');;
  svc_emit (request_pipe url' filePath').

(** What the callback of a request does with the answer: resolve with the
    parsed body, reject with the response, or throw, in which case the
    promise is never settled. *)
Inductive Callback (A : Type) : Type :=
| Resolves (a : A)
| Rejects (e : Rejection)
| Throws.
Arguments Resolves {A} a.
Arguments Rejects {A} e.
Arguments Throws {A}.

Definition is_Throws {A} (c : Callback A) : bool :=
  match c with
  | Throws => true
  | _ => false
  end.

(** The events of a stream and the answers to a request. *)
Inductive Answer : Type :=
| StreamEnd (digest : string)
| StreamError (e : string)
| StreamFinish
| Response (statusCode : Z) (body : string)
| NoResponse.

#[export] Instance Answer_eq_dec : EqDecision Answer.
Proof. solve_decision. Defined.

(** The callback [(err, res, body) => ...] of [uploadFile] and
    [getFileData].  Without a response [res] is undefined and
    [res.statusCode] throws. *)
Definition request_callback {A} (parse : string → option A) (answer : Answer) :
    Callback A :=
  match answer with
  | Response statusCode body =>
      if bool_decide (statusCode / 100 = 2) then
        match parse body with
        | Some a => Resolves a
        | None => Throws
        end
      else Rejects (ResponseValue statusCode body)
  | _ => Throws
  end.

(** ** [withRetry] *)

(** One round of the loop of [withRetry]: the executor is called and its
    promise awaited. *)
Definition upload_attempt (file : IMediaFile) (retries : Z) : M unit :=
  uploadFile (filePath file);;
  defer (AwaitUpload file None retries).

Definition fileData_attempt (env : Env) (file : IMediaFile) (serverId' : Z)
    (retries : Z) : M unit :=
  getFileData env serverId';;
  defer (AwaitFileData file serverId' retries).

Definition checksum_attempt (file : IMediaFile) (serverId' : Z)
    (data : IMediaFileDataResponse) (fileToCheck : string) (rest : list string)
    (retries : Z) : M unit :=
  getChecksum fileToCheck;;
  defer (AwaitChecksum file serverId' data fileToCheck rest retries).

Definition download_attempt (env : Env) (file : IMediaFile) (serverId' : Z)
    (data : IMediaFileDataResponse) (retries : Z) : M unit :=
  downloadFile env (url data) serverId';;
  defer (AwaitDownload file serverId' data retries).

(** [withRetry(executor)]: the first round, with two retries left. *)
Definition withRetry (attempt : Z → M unit) : M unit := attempt 2.

(** The [catch] of the loop: rethrow when no retry is left, else count one
    down and go round. *)
Definition withRetry_catch (retries : Z) (e : Rejection) (attempt : Z → M unit)
    (rethrow : Rejection → M unit) : M unit :=
  if bool_decide (retries ≤ 0) then rethrow e else attempt (retries - 1).

(** ** [createNewFile] *)

(** The [catch] around the upload. *)
Definition createNewFile_catch (file : IMediaFile) (e : Rejection) : M unit :=
  svc_emit (console_error ("[Media Backup] Error uploading file: " +:+ to_string e));;
  let* valid := svc_gets (validateSyncLock (id file) (syncLock file)) in
  svc_when valid (svc_modify (UPDATE_FILE (id file) (status_patch Synced)));;
  resolve file ReturnNull.

(** After the upload. *)
Definition createNewFile_then (file : IMediaFile) (data_id : Z) : M unit :=
  let* valid := svc_gets (validateSyncLock (id file) (syncLock file)) in
  if valid then
    let file' := {| id := id file; serverId := Some data_id; name := name file;
                    status := Synced; filePath := filePath file;
                    syncLock := syncLock file |} in
    svc_modify (UPDATE_FILE (id file) (file_patch file'));;
    resolve file (ReturnFile file')
  else resolve file ReturnNull.

(** [createNewFile(localId, filePath)], up to the upload; [lock] is the
    value of [uuid()]. *)
Definition createNewFile (env : Env) (localId filePath' lock : string) : M unit :=
  match path_base env filePath' with
  | Throw _ =>
      svc_emit (console_warn ("[Media Backup] Got unparseable path " +:+ filePath'));;
      svc_emit (promise_resolved localId ReturnNull)
  | Normal name' =>
      let file := {| id := localId; serverId := None; name := name';
                     status := Uploading; filePath := filePath'; syncLock := lock |} in
      if negb (existsSync env filePath') then resolve file ReturnNull
      else
        svc_modify (INSERT_FILE file);;
        withRetry (upload_attempt file)
  end.

(** ** [syncFile] *)

Definition syncFile_data_catch (file : IMediaFile) (e : Rejection) : M unit :=
  svc_emit (console_error
              ("[Media Backup] Ran out of retries fetching data " +:+ body_of e));;
  let* valid := svc_gets (validateSyncLock (id file) (syncLock file)) in
  svc_when valid (svc_modify (UPDATE_FILE (id file) (status_patch Synced)));;
  resolve file ReturnNull.

Definition syncFile_download_catch (file : IMediaFile) (e : Rejection) : M unit :=
  svc_emit (console_error ("[Media Backup] Error downloading file: " +:+ body_of e));;
  let* valid := svc_gets (validateSyncLock (id file) (syncLock file)) in
  svc_when valid (svc_modify (UPDATE_FILE (id file) (status_patch Synced)));;
  resolve file ReturnNull.

(** After the download; when the lock is lost the method falls off its
    end. *)
Definition syncFile_download_then (file : IMediaFile) (downloadedPath : string) : M unit :=
  let* valid := svc_gets (validateSyncLock (id file) (syncLock file)) in
  if valid then
    let file' := {| id := id file; serverId := serverId file; name := name file;
                    status := Synced; filePath := downloadedPath;
                    syncLock := syncLock file |} in
    svc_modify (UPDATE_FILE (id file) (file_patch file'));;
    resolve file (ReturnFile file')
  else resolve file ReturnUndefined.

(** [syncFile], after the loop: a new copy is needed. *)
Definition syncFile_download (env : Env) (file : IMediaFile) (serverId' : Z)
    (data : IMediaFileDataResponse) : M unit :=
  let* valid := svc_gets (validateSyncLock (id file) (syncLock file)) in
  if negb valid then resolve file ReturnNull
  else
    svc_modify (UPDATE_FILE (id file) (status_patch Downloading));;
    withRetry (download_attempt env file serverId' data).

(** The loop over [filesToCheck], up to its next await. *)
Fixpoint syncFile_check (env : Env) (file : IMediaFile) (serverId' : Z)
    (data : IMediaFileDataResponse) (filesToCheck : list string) : M unit :=
  match filesToCheck with
  | [] => syncFile_download env file serverId' data
  | fileToCheck :: rest =>
      if existsSync env fileToCheck
      then withRetry (checksum_attempt file serverId' data fileToCheck rest)
      else syncFile_check env file serverId' data rest
  end.

(** The body of the loop after the checksum; [digest] is [None] when the
    checksum could not be computed. *)
Definition syncFile_checksum_then (env : Env) (file : IMediaFile) (serverId' : Z)
    (data : IMediaFileDataResponse) (fileToCheck : string) (rest : list string)
    (digest : option string) : M unit :=
  let mismatch :=
    svc_emit (console_debug ("[Media Backup] Got checksum mismatch: " +:+
                default "undefined" digest +:+ " =/= " +:+ checksum data));;
    syncFile_check env file serverId' data rest in
  let* valid := svc_gets (validateSyncLock (id file) (syncLock file)) in
  if from_option (λ c, truthy c && bool_decide (c = checksum data)) false digest && valid
  then
    let file' := {| id := id file; serverId := serverId file; name := name file;
                    status := Synced; filePath := fileToCheck;
                    syncLock := syncLock file |} in
    svc_modify (UPDATE_FILE (id file) (file_patch file'));;
    resolve file (ReturnFile file')
  else mismatch.

(** The [catch] around the checksum: the loop goes on without one. *)
Definition syncFile_checksum_catch (env : Env) (file : IMediaFile) (serverId' : Z)
    (data : IMediaFileDataResponse) (fileToCheck : string) (rest : list string)
    (e : Rejection) : M unit :=
  svc_emit (console_warn ("[Media Backup] Error calculating checksum: " +:+ to_string e));;
  syncFile_checksum_then env file serverId' data fileToCheck rest None.

(** After the data of the file arrived: the two places a copy may be. *)
Definition syncFile_data_then (env : Env) (file : IMediaFile) (serverId' : Z)
    (data : IMediaFileDataResponse) : M unit :=
  syncFile_check env file serverId' data [filePath file; getMediaFilePath env serverId'].

(** [syncFile(localId, serverId, originalFilePath)], up to the request of
    the data; [lock] is the value of [uuid()]. *)
Definition syncFile (env : Env) (localId : string) (serverId' : Z)
    (originalFilePath lock : string) : M unit :=
  let* name' := svc_try_gets (λ _, path_base env originalFilePath) in
  let file := {| id := localId; serverId := Some serverId'; name := name';
                 status := Checking; filePath := originalFilePath; syncLock := lock |} in
  svc_modify (INSERT_FILE file);;
  withRetry (fileData_attempt env file serverId').

(** ** The event loop *)

(** The code a settled promise runs. *)
Definition run_task (env : Env) (task : Task) (answer : Answer) : M unit :=
  match task, answer with
  | AwaitUpload file None retries, StreamEnd digest =>
      uploadFile_post env (filePath file) digest;;
      defer (AwaitUpload file (Some digest) retries)
  | AwaitUpload file None retries, StreamError e =>
      withRetry_catch retries (ErrorValue e) (upload_attempt file)
        (createNewFile_catch file)
  | AwaitUpload file (Some _) retries, (Response _ _ | NoResponse) =>
      match request_callback (parse_upload env) answer with
      | Resolves data_id => createNewFile_then file data_id
      | Rejects e =>
          withRetry_catch retries e (upload_attempt file) (createNewFile_catch file)
      | Throws => svc_throw TypeError
      end
  | AwaitFileData file serverId' retries, (Response _ _ | NoResponse) =>
      match request_callback (parse_fileData env) answer with
      | Resolves data => syncFile_data_then env file serverId' data
      | Rejects e =>
          withRetry_catch retries e (fileData_attempt env file serverId')
            (syncFile_data_catch file)
      | Throws => svc_throw TypeError
      end
  | AwaitChecksum file serverId' data fileToCheck rest retries, StreamEnd digest =>
      syncFile_checksum_then env file serverId' data fileToCheck rest (Some digest)
  | AwaitChecksum file serverId' data fileToCheck rest retries, StreamError e =>
      withRetry_catch retries (ErrorValue e)
        (checksum_attempt file serverId' data fileToCheck rest)
        (syncFile_checksum_catch env file serverId' data fileToCheck rest)
  | AwaitDownload file serverId' data retries, StreamFinish =>
      syncFile_download_then file (getMediaFilePath env serverId')
  | AwaitDownload file serverId' data retries, StreamError e =>
      withRetry_catch retries (ErrorValue e) (download_attempt env file serverId' data)
        (syncFile_download_catch file)
  | _, _ => svc_ret tt
  end.

(** The answer is of the kind the promise waits for. *)
Definition answers (task : Task) (answer : Answer) : bool :=
  match task, answer with
  | AwaitUpload _ None _, (StreamEnd _ | StreamError _)
  | AwaitUpload _ (Some _) _, (Response _ _ | NoResponse)
  | AwaitFileData _ _ _, (Response _ _ | NoResponse)
  | AwaitChecksum _ _ _ _ _ _, (StreamEnd _ | StreamError _)
  | AwaitDownload _ _ _ _, (StreamFinish | StreamError _) => true
  | _, _ => false
  end.

(** The [i]-th pending promise is answered. *)
Definition settle (env : Env) (i : nat) (answer : Answer) : M unit :=
  let* waiting := svc_gets pending in
  match waiting !! i with
  | Some task =>
      if answers task answer then
        svc_modify (remove_task i);;
        run_task env task answer
      else svc_ret tt
  | None => svc_ret tt
  end.

Inductive Event : Type :=
| CreateNewFile (localId filePath lock : string)
| SyncFile (localId : string) (serverId : Z) (originalFilePath lock : string)
| Settle (i : nat) (answer : Answer).

Definition handle (env : Env) (ev : Event) : M unit :=
  match ev with
  | CreateNewFile localId filePath' lock => createNewFile env localId filePath' lock
  | SyncFile localId serverId' originalFilePath lock =>
      syncFile env localId serverId' originalFilePath lock
  | Settle i answer => settle env i answer
  end.

(** Runs events one after the other, each under the environment it meets,
    collecting the trace. *)
Definition run_events (evs : list (Env * Event)) (s : Service) :
    Service * list MediaBackupEffect :=
  run_all (λ ev, handle ev.1 ev.2) evs s.

(** One step of the service: an event the predicate [ok] admits in the
    state, under some environment. *)
Inductive step (ok : Env → Service → Event → Prop) : Service → Service → Prop :=
| step_event env ev s : ok env s ev → step ok s (final (handle env ev s)).

Definition reachable (ok : Env → Service → Event → Prop) (s : Service) : Prop :=
  rtc (step ok) initialService s.

(** ** The abstract service

    What settling a promise may do to the service, seen from the table: the
    operation [file] belongs to lost the lock and writes nothing; it waits
    for another promise; it finishes and marks the file synced; or it starts
    the download. *)
Definition keeps_key (file : IMediaFile) (patch : Partial_IMediaFile) : Prop :=
  (patch_id patch = None ∨ patch_id patch = Some (id file)) ∧
  (patch_syncLock patch = None ∨ patch_syncLock patch = Some (syncLock file)).

Inductive outcome (file : IMediaFile) (s : Service) : Service → Prop :=
| outcome_lost :
    validateSyncLock (id file) (syncLock file) s = false → outcome file s s
| outcome_waits task :
    task_file task = file → 0 ≤ task_retries task ≤ 2 →
    outcome file s (add_task task s)
| outcome_synced patch :
    validateSyncLock (id file) (syncLock file) s = true →
    patch_status patch = Some Synced → keeps_key file patch →
    outcome file s (UPDATE_FILE (id file) patch s)
| outcome_downloads task :
    validateSyncLock (id file) (syncLock file) s = true →
    task_file task = file → 0 ≤ task_retries task ≤ 2 →
    outcome file s (add_task task (UPDATE_FILE (id file) (status_patch Downloading) s)).

(** The callback of the request the task waits for throws on the answer. *)
Definition hangs (env : Env) (task : Task) (answer : Answer) : bool :=
  match task with
  | AwaitUpload _ (Some _) _ =>
      is_Throws (request_callback (parse_upload env) answer)
  | AwaitFileData _ _ _ =>
      is_Throws (request_callback (parse_fileData env) answer)
  | _ => false
  end.

(** The key of a file in the table: its id and its lock. *)
Definition key (file : IMediaFile) : string * string := (id file, syncLock file).

(** The service is well formed: the ids of the table are distinct, and the
    retries of every pending promise are within those of [withRetry]. *)
Definition service_wf (s : Service) : Prop :=
  NoDup (id <$> files (state s)) ∧
  Forall (λ task, 0 ≤ task_retries task ≤ 2) (pending s).

(** Every file that is not synced is owed to a pending promise of the
    operation that holds its lock. *)
Definition owed (s : Service) : Prop :=
  ∀ file, file ∈ files (state s) → status file ≠ Synced →
    ∃ task, task ∈ pending s ∧ key (task_file task) = key file.

(** [owed], but for the files of the operation of [file0]. *)
Definition owed_except (file0 : IMediaFile) (s : Service) : Prop :=
  ∀ file, file ∈ files (state s) → status file ≠ Synced →
    key file = key file0 ∨ ∃ task, task ∈ pending s ∧ key (task_file task) = key file.

(** ** The table under the mutations *)

Lemma validateSyncLock_true id' lock s :
  validateSyncLock id' lock s = true ↔
  ∃ file, file ∈ files (state s) ∧ key file = (id', lock).
Proof.
  unfold validateSyncLock, key. rewrite bool_decide_eq_true. split.
  - intros [file [? [? ?]]%js_find_Some]. exists file. by simplify_eq.
  - intros (file & Hin & ?). simplify_eq. by eapply js_find_is_Some.
Qed.

Lemma validateSyncLock_false id' lock s :
  validateSyncLock id' lock s = false ↔
  ∀ file, file ∈ files (state s) → key file ≠ (id', lock).
Proof.
  rewrite <- not_true_iff_false, validateSyncLock_true. naive_solver.
Qed.

Lemma validateSyncLock_add_task id' lock task s :
  validateSyncLock id' lock (add_task task s) = validateSyncLock id' lock s.
Proof. done. Qed.

Lemma validateSyncLock_remove_task id' lock i s :
  validateSyncLock id' lock (remove_task i s) = validateSyncLock id' lock s.
Proof. done. Qed.

Lemma elem_of_INSERT_FILE file file' s :
  file' ∈ files (state (INSERT_FILE file s)) ↔
  file' = file ∨ (file' ∈ files (state s) ∧ id file' ≠ id file).
Proof.
  cbn. rewrite elem_of_app, list_elem_of_filter, list_elem_of_singleton. naive_solver.
Qed.

Lemma elem_of_UPDATE_FILE id' patch file' s :
  file' ∈ files (state (UPDATE_FILE id' patch s)) ↔
  ∃ file, file ∈ files (state s) ∧
    file' = if decide (id file = id') then Object_assign file patch else file.
Proof. cbn. rewrite list_elem_of_fmap. naive_solver. Qed.

Lemma ids_UPDATE_FILE file patch s :
  keeps_key file patch →
  id <$> files (state (UPDATE_FILE (id file) patch s)) = id <$> files (state s).
Proof.
  intros [Hid _]. cbn. rewrite <- list_fmap_compose. apply list_fmap_ext.
  intros _ file' _. cbn. case_decide; [|done]. cbn. by destruct Hid as [-> | ->].
Qed.

Lemma keeps_key_status file st : keeps_key file (status_patch st).
Proof. split; by left. Qed.

Lemma keeps_key_file file file' : key file' = key file → keeps_key file (file_patch file').
Proof. intros [= Hid Hlock]. split; right; cbn; congruence. Qed.

#[local] Hint Resolve keeps_key_status keeps_key_file : svc.

(** ** The handlers refine the abstract service *)

#[local] Arguments INSERT_FILE : simpl never.
#[local] Arguments UPDATE_FILE : simpl never.
#[local] Arguments add_task : simpl never.
#[local] Arguments remove_task : simpl never.
#[local] Arguments validateSyncLock : simpl never.

(** Runs a handler made of primitive steps to its final state. *)
Ltac run_go := repeat (progress (autorewrite with svc_rw; cbn)).

#[local] Hint Constructors outcome : svc.

(** Decides the lock test a handler makes and concludes by a constructor
    of [outcome]. *)
Ltac outcome_go :=
  run_go;
  repeat match goal with
    | |- context [validateSyncLock ?i ?l ?s] =>
        let Hvalid := fresh "Hvalid" in
        destruct (validateSyncLock i l s) eqn:Hvalid; run_go
    end;
  rewrite ?andb_false_r; run_go; eauto with svc.

Section Outcomes.
Context (env : Env) (file : IMediaFile).

Lemma createNewFile_catch_outcome e s :
  outcome file s (final (createNewFile_catch file e s)).
Proof. unfold createNewFile_catch, resolve. outcome_go. Qed.

Lemma syncFile_data_catch_outcome e s :
  outcome file s (final (syncFile_data_catch file e s)).
Proof. unfold syncFile_data_catch, resolve. outcome_go. Qed.

Lemma syncFile_download_catch_outcome e s :
  outcome file s (final (syncFile_download_catch file e s)).
Proof. unfold syncFile_download_catch, resolve. outcome_go. Qed.

Lemma createNewFile_then_outcome data_id s :
  outcome file s (final (createNewFile_then file data_id s)).
Proof. unfold createNewFile_then, resolve. outcome_go. Qed.

Lemma syncFile_download_then_outcome downloadedPath s :
  outcome file s (final (syncFile_download_then file downloadedPath s)).
Proof. unfold syncFile_download_then, resolve. outcome_go. Qed.

Lemma upload_attempt_outcome retries s :
  0 ≤ retries ≤ 2 → outcome file s (final (upload_attempt file retries s)).
Proof. intros. unfold upload_attempt, uploadFile, getChecksum, defer. outcome_go. Qed.

Lemma fileData_attempt_outcome serverId' retries s :
  0 ≤ retries ≤ 2 →
  outcome file s (final (fileData_attempt env file serverId' retries s)).
Proof. intros. unfold fileData_attempt, getFileData, defer. outcome_go. Qed.

Lemma checksum_attempt_outcome serverId' data fileToCheck rest retries s :
  0 ≤ retries ≤ 2 →
  outcome file s
    (final (checksum_attempt file serverId' data fileToCheck rest retries s)).
Proof. intros. unfold checksum_attempt, getChecksum, defer. outcome_go. Qed.

Lemma downloadFile_run url' serverId' s :
  downloadFile env url' serverId' s =
    Run (Normal tt) s
      ((if existsSync env (mediaDirectory env) then []
        else [fs_mkdirSync (mediaDirectory env)]) ++
       [fs_createWriteStream (getMediaFilePath env serverId');
        request_pipe url' (getMediaFilePath env serverId')]).
Proof.
  unfold downloadFile, ensureMediaDirectory.
  by destruct (existsSync env (mediaDirectory env)).
Qed.

Lemma download_attempt_final serverId' data retries s :
  final (download_attempt env file serverId' data retries s) =
  add_task (AwaitDownload file serverId' data retries) s.
Proof.
  unfold download_attempt. by rewrite (svc_bind_run _ _ _ _ _ _ (downloadFile_run _ _ _)).
Qed.

Lemma download_attempt_outcome serverId' data retries s :
  0 ≤ retries ≤ 2 →
  outcome file s (final (download_attempt env file serverId' data retries s)).
Proof. intros. rewrite download_attempt_final. eauto with svc. Qed.

Lemma syncFile_download_outcome serverId' data s :
  outcome file s (final (syncFile_download env file serverId' data s)).
Proof.
  unfold syncFile_download, withRetry. rewrite svc_bind_gets.
  destruct (validateSyncLock (id file) (syncLock file) s) eqn:Hvalid; cbn [negb].
  - rewrite svc_bind_modify, download_attempt_final. by apply outcome_downloads.
  - unfold resolve. outcome_go.
Qed.

Lemma syncFile_check_outcome serverId' data filesToCheck s :
  outcome file s (final (syncFile_check env file serverId' data filesToCheck s)).
Proof.
  induction filesToCheck as [|fileToCheck rest IH]; cbn [syncFile_check].
  - apply syncFile_download_outcome.
  - destruct (existsSync env fileToCheck); [by apply checksum_attempt_outcome | done].
Qed.

Lemma syncFile_checksum_then_outcome serverId' data fileToCheck rest digest s :
  outcome file s
    (final (syncFile_checksum_then env file serverId' data fileToCheck rest digest s)).
Proof.
  unfold syncFile_checksum_then. rewrite svc_bind_gets.
  destruct (_ && _) eqn:Hmatch.
  - apply andb_prop in Hmatch as [_ Hvalid]. unfold resolve. run_go. eauto with svc.
  - rewrite svc_bind_emit. apply syncFile_check_outcome.
Qed.

Lemma syncFile_checksum_catch_outcome serverId' data fileToCheck rest e s :
  outcome file s
    (final (syncFile_checksum_catch env file serverId' data fileToCheck rest e s)).
Proof.
  unfold syncFile_checksum_catch. rewrite svc_bind_emit.
  apply syncFile_checksum_then_outcome.
Qed.

Lemma syncFile_data_then_outcome serverId' data s :
  outcome file s (final (syncFile_data_then env file serverId' data s)).
Proof. apply syncFile_check_outcome. Qed.

Lemma uploadFile_post_outcome digest retries s :
  0 ≤ retries ≤ 2 →
  outcome file s
    (final ((uploadFile_post env (filePath file) digest;;
             defer (AwaitUpload file (Some digest) retries)) s)).
Proof. intros. unfold uploadFile_post, defer. outcome_go. Qed.

Lemma withRetry_catch_outcome retries e attempt rethrow s :
  0 ≤ retries ≤ 2 →
  (∀ retries' s', 0 ≤ retries' ≤ 2 → outcome file s' (final (attempt retries' s'))) →
  (∀ s', outcome file s' (final (rethrow e s'))) →
  outcome file s (final (withRetry_catch retries e attempt rethrow s)).
Proof.
  intros Hretries Hattempt Hrethrow. unfold withRetry_catch.
  case_bool_decide; [done | apply Hattempt; lia].
Qed.

End Outcomes.

#[local] Hint Resolve createNewFile_catch_outcome syncFile_data_catch_outcome
  syncFile_download_catch_outcome createNewFile_then_outcome
  syncFile_download_then_outcome upload_attempt_outcome fileData_attempt_outcome
  checksum_attempt_outcome download_attempt_outcome syncFile_download_outcome
  syncFile_check_outcome syncFile_checksum_then_outcome withRetry_catch_outcome
  syncFile_checksum_catch_outcome syncFile_data_then_outcome uploadFile_post_outcome : svc.

(** A settled promise whose callback does not throw takes one of the four
    steps of [outcome]. *)
Lemma run_task_outcome env task answer s :
  answers task answer = true → hangs env task answer = false →
  0 ≤ task_retries task ≤ 2 →
  outcome (task_file task) s (final (run_task env task answer s)).
Proof.
  intros Hanswers Hhangs Hretries.
  destruct task as [file [digest|] retries|file sid retries|file sid data f rest retries|
                    file sid data retries], answer;
    cbn [run_task task_file task_retries hangs answers] in *; try done.
  all: try destruct (request_callback _ _); try done; eauto with svc.
Qed.

(** A promise whose callback throws is dropped: nothing else happens. *)
Lemma run_task_hangs env task answer s :
  hangs env task answer = true → final (run_task env task answer s) = s.
Proof.
  destruct task as [file [digest|] retries|file sid retries|file sid data f rest retries|
                    file sid data retries], answer;
    cbn [run_task hangs]; try done; by destruct (request_callback _ _).
Qed.

(** The id and the lock a call brings. *)
Definition event_key (ev : Event) : option (string * string) :=
  match ev with
  | CreateNewFile localId _ lock | SyncFile localId _ _ lock => Some (localId, lock)
  | Settle _ _ => None
  end.

(** The abstract service: a call is refused, or inserts its file and waits;
    a settled promise takes a step of [outcome], or its callback throws and
    it is dropped. *)
Inductive abstract_step (env : Env) : Event → Service → Service → Prop :=
| abstract_skip ev s : abstract_step env ev s s
| abstract_call ev file task s :
    event_key ev = Some (key file) → status file ≠ Synced → task_file task = file →
    task_retries task = 2 →
    abstract_step env ev s (add_task task (INSERT_FILE file s))
| abstract_settle i answer task s s' :
    pending s !! i = Some task → hangs env task answer = false →
    (0 ≤ task_retries task ≤ 2 → outcome (task_file task) (remove_task i s) s') →
    abstract_step env (Settle i answer) s s'
| abstract_hang i answer task s :
    pending s !! i = Some task → hangs env task answer = true →
    abstract_step env (Settle i answer) s (remove_task i s).

#[local] Hint Constructors abstract_step : svc.

Lemma createNewFile_refines env localId filePath' lock s :
  abstract_step env (CreateNewFile localId filePath' lock) s
    (final (createNewFile env localId filePath' lock s)).
Proof.
  unfold createNewFile, withRetry, resolve.
  destruct (path_base env filePath'); [|apply abstract_skip].
  destruct (existsSync env filePath'); cbn [negb]; [|apply abstract_skip].
  unfold upload_attempt, uploadFile, getChecksum, defer. run_go.
  by eapply abstract_call.
Qed.

Lemma syncFile_refines env localId serverId' originalFilePath lock s :
  abstract_step env (SyncFile localId serverId' originalFilePath lock) s
    (final (syncFile env localId serverId' originalFilePath lock s)).
Proof.
  unfold syncFile, withRetry. rewrite svc_bind_try_gets.
  destruct (path_base env originalFilePath); [|apply abstract_skip].
  unfold fileData_attempt, getFileData, defer. run_go.
  by eapply abstract_call.
Qed.

Lemma settle_refines env i answer s :
  abstract_step env (Settle i answer) s (final (settle env i answer s)).
Proof.
  unfold settle. rewrite svc_bind_gets.
  destruct (pending s !! i) as [task|] eqn:Htask; [|apply abstract_skip].
  destruct (answers task answer) eqn:Hanswers; [|apply abstract_skip].
  rewrite svc_bind_modify.
  destruct (hangs env task answer) eqn:Hhangs.
  - rewrite run_task_hangs by done. by eapply abstract_hang.
  - eapply abstract_settle; [done..|]. intros. by apply run_task_outcome.
Qed.

Lemma handle_abstract env ev s : abstract_step env ev s (final (handle env ev s)).
Proof.
  destruct ev; [apply createNewFile_refines | apply syncFile_refines | apply settle_refines].
Qed.

(** ** Invariants of the abstract service *)

Lemma key_Object_assign file0 file patch :
  keeps_key file0 patch → id file = id file0 →
  key (Object_assign file patch) = key file ∨ key (Object_assign file patch) = key file0.
Proof.
  intros [[Hid | Hid] [Hlock | Hlock]] Hfile; unfold key; cbn; rewrite Hid, Hlock; cbn;
    rewrite <- ?Hfile; auto.
Qed.

Lemma key_status_patch file st : key (Object_assign file (status_patch st)) = key file.
Proof. done. Qed.

(** A file of the table with the id locked is the file that holds the lock. *)
Lemma service_wf_holder file0 file s :
  service_wf s → validateSyncLock (id file0) (syncLock file0) s = true →
  file ∈ files (state s) → id file = id file0 → key file = key file0.
Proof.
  intros [Hids _] (holder & Hin & Hkey)%validateSyncLock_true Hfile Hid.
  assert (file = holder) as ->; [|done].
  eapply (NoDup_fmap_elem_inj id); [done..|]. injection Hkey. congruence.
Qed.

Lemma INSERT_FILE_wf file s : service_wf s → service_wf (INSERT_FILE file s).
Proof.
  intros [Hids Hretries]. split; [|done].
  unfold INSERT_FILE, with_state. cbn. rewrite fmap_app. apply NoDup_app. split_and!.
  - eapply sublist_NoDup; [done|]. apply fmap_sublist, sublist_filter.
  - intros i (f & -> & [? _]%list_elem_of_filter)%list_elem_of_fmap
      ?%list_elem_of_singleton. done.
  - apply NoDup_singleton.
Qed.

Lemma add_task_wf task s :
  0 ≤ task_retries task ≤ 2 → service_wf s → service_wf (add_task task s).
Proof.
  intros Hretries [Hids Hall]. split; [done|].
  apply Forall_app. split; [done|]. by apply Forall_singleton.
Qed.

Lemma remove_task_wf i s : service_wf s → service_wf (remove_task i s).
Proof. intros [Hids Hall]. split; [done|]. by apply Forall_delete. Qed.

Lemma UPDATE_FILE_wf file patch s :
  keeps_key file patch → service_wf s → service_wf (UPDATE_FILE (id file) patch s).
Proof. intros Hpatch [Hids Hall]. split; [|done]. by rewrite ids_UPDATE_FILE. Qed.

#[local] Hint Resolve INSERT_FILE_wf add_task_wf remove_task_wf UPDATE_FILE_wf : svc.

Lemma outcome_wf file s s' : outcome file s s' → service_wf s → service_wf s'.
Proof. destruct 1; eauto with svc. Qed.

Lemma abstract_step_wf env ev s s' :
  abstract_step env ev s s' → service_wf s → service_wf s'.
Proof.
  destruct 1 as [| ? ? task ? _ _ _ Hretries | ? ? task ? ? Htask _ Houtcome |];
    intros Hwf; eauto with svc.
  - apply add_task_wf; [lia | eauto with svc].
  - eapply outcome_wf; [apply Houtcome | eauto with svc].
    destruct Hwf as [_ Hall]. by eapply (Forall_lookup_1 _ _ _ _ Hall).
Qed.

(** An operation that lost the lock leaves the table as it is. *)
Lemma outcome_lost_files file s s' :
  outcome file s s' → validateSyncLock (id file) (syncLock file) s = false →
  files (state s') = files (state s).
Proof. destruct 1; intros; done || congruence. Qed.

(** No step of [outcome] brings a key into the table. *)
Lemma outcome_keys file s s' k :
  outcome file s s' → k ∈ key <$> files (state s') → k ∈ key <$> files (state s).
Proof.
  assert (∀ patch, validateSyncLock (id file) (syncLock file) s = true →
    keeps_key file patch → k ∈ key <$> files (state (UPDATE_FILE (id file) patch s)) →
    k ∈ key <$> files (state s)) as Hupdate.
  { intros patch (holder & Hholder & Hkey)%validateSyncLock_true Hpatch.
    rewrite !list_elem_of_fmap.
    intros (file' & -> & (file1 & Hfile1 & ->)%elem_of_UPDATE_FILE).
    case_decide as Hid; [|by eauto].
    destruct (key_Object_assign file file1 patch Hpatch Hid) as [-> | ->]; [by eauto|].
    exists holder. by rewrite Hkey. }
  destruct 1 as [| |patch Hvalid _ Hpatch|task Hvalid]; [done..| |]; apply Hupdate;
    auto using keeps_key_status.
Qed.

Lemma abstract_step_keys env ev s s' k :
  abstract_step env ev s s' → service_wf s → event_key ev ≠ Some k →
  k ∈ key <$> files (state s') → k ∈ key <$> files (state s).
Proof.
  destruct 1 as [| ? file ? ? Hev | ? ? task ? ? Htask _ Houtcome |]; intros Hwf Hk;
    [done| | |done].
  - rewrite !list_elem_of_fmap.
    intros (file' & -> & [-> | [? _]]%elem_of_INSERT_FILE); [congruence | by eauto].
  - apply (outcome_keys (task_file task) (remove_task i s)), Houtcome.
    destruct Hwf as [_ Hall]. by eapply (Forall_lookup_1 _ _ _ _ Hall).
Qed.

(** The callback of no request throws on the event. *)
Definition responsive (env : Env) (s : Service) (ev : Event) : Prop :=
  match ev with
  | Settle i answer => ∀ task, pending s !! i = Some task → hangs env task answer = false
  | _ => True
  end.

Definition any_event (env : Env) (s : Service) (ev : Event) : Prop := True.

Lemma owed_remove_task i task s :
  pending s !! i = Some task → owed s → owed_except (task_file task) (remove_task i s).
Proof.
  intros Htask Howed file Hfile Hstatus.
  destruct (Howed file Hfile Hstatus) as (task' & Hin & Hkey).
  destruct (elem_of_delete_or _ _ _ _ Htask Hin) as [-> | Hin']; [by left|].
  right. by exists task'.
Qed.

Lemma owed_add_task file0 task s :
  task_file task = file0 → owed_except file0 s → owed (add_task task s).
Proof.
  intros <- Hexcept file Hfile Hstatus. unfold add_task. cbn.
  setoid_rewrite elem_of_app. setoid_rewrite list_elem_of_singleton.
  destruct (Hexcept file Hfile Hstatus) as [? | (task' & ? & ?)]; eauto.
Qed.

Lemma owed_except_weaken file0 s : owed s → owed_except file0 s.
Proof. intros Howed file Hfile Hstatus. right. by apply Howed. Qed.

(** Marking the files of the id synced pays what was owed for them. *)
Lemma owed_synced file0 patch s :
  patch_status patch = Some Synced → owed_except file0 s →
  owed (UPDATE_FILE (id file0) patch s).
Proof.
  intros Hpatch Hexcept file' (file & Hfile & ->)%elem_of_UPDATE_FILE Hstatus.
  case_decide as Hid; [by cbn in Hstatus; rewrite Hpatch in Hstatus|].
  destruct (Hexcept file Hfile Hstatus) as [[=] | ?]; done.
Qed.

(** Starting the download keeps the file owed to the operation. *)
Lemma owed_downloading file0 s :
  service_wf s → validateSyncLock (id file0) (syncLock file0) s = true →
  owed_except file0 s →
  owed_except file0 (UPDATE_FILE (id file0) (status_patch Downloading) s).
Proof.
  intros Hwf Hvalid Hexcept file' (file & Hfile & ->)%elem_of_UPDATE_FILE Hstatus.
  case_decide as Hid; [|by apply Hexcept].
  left. rewrite key_status_patch. by eapply service_wf_holder.
Qed.

Lemma outcome_owed file s s' :
  outcome file s s' → service_wf s → owed_except file s → owed s'.
Proof.
  destruct 1 as [Hlost|task Htask|patch Hvalid Hstatus|task Hvalid Htask];
    intros Hwf Hexcept.
  - intros file' Hfile Hstatus.
    destruct (Hexcept file' Hfile Hstatus) as [Hkey|]; [|done].
    rewrite validateSyncLock_false in Hlost. by destruct (Hlost file' Hfile).
  - by eapply owed_add_task.
  - by apply owed_synced.
  - eapply owed_add_task; [done|]. by apply owed_downloading.
Qed.

Lemma abstract_step_owed env ev s s' :
  abstract_step env ev s s' → responsive env s ev → service_wf s → owed s → owed s'.
Proof.
  destruct 1 as [| ? file task ? _ _ Htask _ | ? ? task ? ? Htask _ Houtcome |
                 ? ? task ? Htask Hhangs]; intros Hev Hwf Howed; [done| | |].
  - eapply owed_add_task; [done|].
    intros file' [-> | [Hfile _]]%elem_of_INSERT_FILE Hstatus; [by left|].
    right. by apply Howed.
  - eapply (outcome_owed (task_file task) (remove_task i s)).
    + apply Houtcome. destruct Hwf as [_ Hall]. by eapply (Forall_lookup_1 _ _ _ _ Hall).
    + by apply remove_task_wf.
    + by apply owed_remove_task.
  - by rewrite (Hev task Htask) in Hhangs.
Qed.

(** ** Reachable states *)

Lemma handle_wf env ev : preserves service_wf (handle env ev).
Proof. intros s Hs. eapply abstract_step_wf; [apply handle_abstract | done]. Qed.

Lemma initialService_wf : service_wf initialService.
Proof. split; [apply NoDup_nil_2 | apply Forall_nil_2]. Qed.

Lemma reachable_wf ok s : reachable ok s → service_wf s.
Proof.
  revert s. apply rtc_ind_r; [apply initialService_wf|].
  intros s s' _ [env ev s0 Hok] IH. by apply handle_wf.
Qed.

Lemma reachable_owed s : reachable responsive s → owed s.
Proof.
  revert s. apply rtc_ind_r; [by intros ? ?%elem_of_nil|].
  intros s s' Hreach Hstep IH. destruct Hstep as [env ev s Hok].
  eapply abstract_step_owed; [apply handle_abstract | done | | done].
  by apply (reachable_wf responsive).
Qed.

(** A key that is not in the table stays out while no call brings it. *)
Lemma handle_keeps_out k env ev :
  event_key ev ≠ Some k →
  preserves (λ s, service_wf s ∧ k ∉ key <$> files (state s)) (handle env ev).
Proof.
  intros Hev s [Hwf Hout]. split; [by apply handle_wf|].
  intros Hin. apply Hout. eapply abstract_step_keys; [apply handle_abstract|done..].
Qed.

Lemma validateSyncLock_out id' lock s :
  validateSyncLock id' lock s = false ↔ (id', lock) ∉ key <$> files (state s).
Proof.
  rewrite validateSyncLock_false, list_elem_of_fmap. naive_solver.
Qed.

(** A settled promise of an operation that lost the lock leaves the table
    as it is. *)
Lemma settle_lost_files env i answer task s :
  service_wf s → pending s !! i = Some task →
  validateSyncLock (id (task_file task)) (syncLock (task_file task)) s = false →
  files (state (final (settle env i answer s))) = files (state s).
Proof.
  intros [_ Hall] Htask Hlost.
  generalize (settle_refines env i answer s).
  generalize (final (settle env i answer s)). intros s' Hstep.
  inversion Hstep as [| |? ? task' ? ? Htask' _ Houtcome|]; simplify_eq; [done| |done].
  eapply (outcome_lost_files _ (remove_task i s)); [|done].
  apply Houtcome. by eapply (Forall_lookup_1 _ _ _ _ Hall).
Qed.

Lemma globalSyncStatus_synced s :
  globalSyncStatus s = GlobalSynced ↔ Forall (λ file, status file = Synced) (files (state s)).
Proof.
  unfold globalSyncStatus.
  destruct (js_find _ _) as [file|] eqn:Hfind.
  - apply js_find_Some in Hfind as [Hfile Hstatus]. split; [done|].
    rewrite Forall_forall. naive_solver.
  - apply js_find_None in Hfind. split; [intros _|done].
    eapply Forall_impl; [done|]. intros file Hfile. by destruct (decide (status file = Synced)).
Qed.

(** ** Runs *)

(** The events of a run are admitted, each in the state it meets. *)
Fixpoint run_ok (ok : Env → Service → Event → Prop) (evs : list (Env * Event))
    (s : Service) : Prop :=
  match evs with
  | [] => True
  | ev :: evs' => ok ev.1 s ev.2 ∧ run_ok ok evs' (final (handle ev.1 ev.2 s))
  end.

Lemma run_events_reachable ok evs s :
  reachable ok s → run_ok ok evs s → reachable ok (run_events evs s).1.
Proof.
  revert s. induction evs as [|[env ev] evs IH]; intros s Hs Hevs; [done|].
  destruct Hevs as [Hev Hevs]. apply IH; [|done].
  eapply rtc_r; [done|]. by apply (step_event ok env ev).
Qed.

(** The promise that was put aside last is settled. *)
Lemma settle_last env task answer s :
  answers task answer = true →
  settle env (length (pending s)) answer (add_task task s) = run_task env task answer s.
Proof.
  intros Hanswers. unfold settle. rewrite svc_bind_gets. unfold add_task at 1. cbn.
  rewrite lookup_app_r, Nat.sub_diag by done. cbn. rewrite Hanswers, svc_bind_modify.
  f_equal. unfold remove_task, add_task. cbn.
  rewrite delete_take_drop, take_app_length, drop_ge, app_nil_r;
    [by destruct s | rewrite length_app; cbn; lia].
Qed.

(** The promise of a round of [withRetry] for the await of [task]. *)
Definition with_retries (task : Task) (retries : Z) : Task :=
  match task with
  | AwaitUpload file _ _ => AwaitUpload file None retries
  | AwaitFileData file serverId' _ => AwaitFileData file serverId' retries
  | AwaitChecksum file serverId' data fileToCheck rest _ =>
      AwaitChecksum file serverId' data fileToCheck rest retries
  | AwaitDownload file serverId' data _ => AwaitDownload file serverId' data retries
  end.

(** The round [withRetry] runs for the await of [task], and the [catch] of
    its caller. *)
Definition task_attempt (env : Env) (task : Task) : Z → M unit :=
  match task with
  | AwaitUpload file _ _ => upload_attempt file
  | AwaitFileData file serverId' _ => fileData_attempt env file serverId'
  | AwaitChecksum file serverId' data fileToCheck rest _ =>
      checksum_attempt file serverId' data fileToCheck rest
  | AwaitDownload file serverId' data _ => download_attempt env file serverId' data
  end.

Definition task_catch (env : Env) (task : Task) : Rejection → M unit :=
  match task with
  | AwaitUpload file _ _ => createNewFile_catch file
  | AwaitFileData file _ _ => syncFile_data_catch file
  | AwaitChecksum file serverId' data fileToCheck rest _ =>
      syncFile_checksum_catch env file serverId' data fileToCheck rest
  | AwaitDownload file _ _ _ => syncFile_download_catch file
  end.

(** What calling the executor of [task] does. *)
Definition attempt_effects (env : Env) (task : Task) : list MediaBackupEffect :=
  match task with
  | AwaitUpload file _ _ => [fs_createReadStream (filePath file)]
  | AwaitFileData _ serverId' _ =>
      [request_get (apiBase env +:+ "/" +:+ pretty serverId') (authedHeaders env)]
  | AwaitChecksum _ _ _ fileToCheck _ _ => [fs_createReadStream fileToCheck]
  | AwaitDownload _ serverId' data _ =>
      (if existsSync env (mediaDirectory env) then []
       else [fs_mkdirSync (mediaDirectory env)]) ++
      [fs_createWriteStream (getMediaFilePath env serverId');
       request_pipe (url data) (getMediaFilePath env serverId')]
  end.

(** What the answer rejects the promise of [task] with, if it does. *)
Definition rejection (task : Task) (answer : Answer) : option Rejection :=
  match task, answer with
  | (AwaitUpload _ None _ | AwaitChecksum _ _ _ _ _ _ | AwaitDownload _ _ _ _),
    StreamError e => Some (ErrorValue e)
  | (AwaitUpload _ (Some _) _ | AwaitFileData _ _ _), Response statusCode body =>
      if bool_decide (statusCode / 100 = 2) then None
      else Some (ResponseValue statusCode body)
  | _, _ => None
  end.

Lemma rejection_answers task answer e :
  rejection task answer = Some e → answers task answer = true.
Proof. by destruct task as [? []| | |], answer. Qed.

(** A rejected promise runs the [catch] of the loop of [withRetry]. *)
Lemma run_task_rejected env task answer e :
  rejection task answer = Some e →
  run_task env task answer =
    withRetry_catch (task_retries task) e (task_attempt env task) (task_catch env task).
Proof.
  destruct task as [? []| | |], answer; cbn [rejection run_task]; intros Hrejected;
    try done; unfold request_callback; repeat case_bool_decide; by simplify_eq.
Qed.

Lemma task_attempt_run env task retries s :
  task_attempt env task retries s =
    Run (Normal tt) (add_task (with_retries task retries) s) (attempt_effects env task).
Proof.
  destruct task; try done. cbn [task_attempt with_retries attempt_effects].
  unfold download_attempt. rewrite (svc_bind_run _ _ _ _ _ _ (downloadFile_run _ _ _ _)).
  unfold defer, svc_modify, prepend. cbn. by rewrite app_nil_r.
Qed.

(** One more failure: the executor is called again while retries are
    left. *)
Lemma settle_retry env task (n : nat) answer e s :
  rejection (with_retries task 0) answer = Some e →
  settle env (length (pending s)) answer (add_task (with_retries task (Z.of_nat (S n))) s) =
  task_attempt env task (Z.of_nat n) s.
Proof.
  intros Hrejected.
  assert (rejection (with_retries task (Z.of_nat (S n))) answer = Some e) as Hrejected'
    by by destruct task.
  rewrite settle_last, (run_task_rejected _ _ _ e Hrejected')
    by by eapply rejection_answers.
  unfold withRetry_catch. case_bool_decide; [by destruct task; cbn in *; lia|].
  destruct task; cbn; f_equal; lia.
Qed.

Lemma settle_give_up env task answer e s :
  rejection (with_retries task 0) answer = Some e →
  settle env (length (pending s)) answer (add_task (with_retries task 0) s) =
  task_catch env task e s.
Proof.
  intros Hrejected.
  rewrite settle_last, (run_task_rejected _ _ _ e Hrejected) by by eapply rejection_answers.
  by destruct task.
Qed.

(** The answers, each settling the promise at [i]. *)
Definition settles (env : Env) (i : nat) (answers : list Answer) : list (Env * Event) :=
  (λ answer, (env, Settle i answer)) <$> answers.

(** The rounds of [withRetry]: [n] retries and then the [catch]. *)
Lemma withRetry_rounds (n : nat) env task answers last e s :
  length answers = n →
  Forall (λ answer, is_Some (rejection (with_retries task 0) answer)) answers →
  rejection (with_retries task 0) last = Some e →
  run_events (settles env (length (pending s)) (answers ++ [last]))
    (add_task (with_retries task (Z.of_nat n)) s) =
  (final (task_catch env task e s),
   concat (replicate n (attempt_effects env task)) ++ trace (task_catch env task e s)).
Proof.
  intros <- Hanswers Hlast.
  induction Hanswers as [|answer answers [e' Hanswer] _ IH];
    unfold run_events, settles in *;
    cbn [length fmap list_fmap app run_all fst snd handle replicate concat] in *.
  - rewrite (settle_give_up env task last e) by done. by rewrite app_nil_r.
  - rewrite (settle_retry env task _ answer e'), task_attempt_run by done.
    cbn [final trace fst snd]. by rewrite IH, <- app_assoc.
Qed.

Lemma createNewFile_run env localId filePath' lock name' s :
  path_base env filePath' = Normal name' → existsSync env filePath' = true →
  let file := {| id := localId; serverId := None; name := name'; status := Uploading;
                 filePath := filePath'; syncLock := lock |} in
  createNewFile env localId filePath' lock s =
    Run (Normal tt) (add_task (AwaitUpload file None 2) (INSERT_FILE file s))
      [fs_createReadStream filePath'].
Proof. intros Hname Hexists. unfold createNewFile. by rewrite Hname, Hexists. Qed.

Lemma uploadFile_post_run env file digest retries s :
  (uploadFile_post env (filePath file) digest;;
   defer (AwaitUpload file (Some digest) retries)) s =
    Run (Normal tt) (add_task (AwaitUpload file (Some digest) retries) s)
      [fs_createReadStream (filePath file);
       request_post (apiBase env +:+ "/upload") (authedHeaders env) (now_ISO env) digest
         (filePath file)].
Proof. done. Qed.

Lemma not_synced_syncing file s :
  file ∈ files (state s) → status file ≠ Synced → globalSyncStatus s = GlobalSyncing.
Proof.
  intros Hfile Hstatus. unfold globalSyncStatus.
  by destruct (js_find_is_Some (λ file, status file ≠ Synced) _ file Hfile Hstatus) as [? ->].
Qed.

(** With nothing pending, the answers that arrive find no promise. *)
Lemma idle_settles evs s :
  pending s = [] → Forall (λ ev, event_key ev.2 = None) evs → (run_events evs s).1 = s.
Proof.
  intros Hidle. induction 1 as [|[env [| |i answer]] evs Hev _ IH]; [done..|].
  unfold run_events in *. cbn [run_all handle fst snd]. unfold settle.
  rewrite svc_bind_gets, Hidle. done.
Qed.

(** Updating the file just inserted amounts to having inserted the updated
    file. *)
Lemma UPDATE_INSERT_FILE file patch s :
  id (Object_assign file patch) = id file →
  UPDATE_FILE (id file) patch (INSERT_FILE file s) = INSERT_FILE (Object_assign file patch) s.
Proof.
  intros Hid. unfold UPDATE_FILE, INSERT_FILE, with_state. rewrite Hid. cbn. do 2 f_equal.
  rewrite fmap_app. f_equal; [|cbn; by rewrite decide_True].
  rewrite <- (list_fmap_id (filter _ _)) at 2. apply list_fmap_ext.
  intros _ file1 [? _]%list_elem_of_lookup_2%list_elem_of_filter. by case_decide.
Qed.

Lemma checksum_attempt_run file serverId' data fileToCheck rest retries s :
  checksum_attempt file serverId' data fileToCheck rest retries s =
    Run (Normal tt) (add_task (AwaitChecksum file serverId' data fileToCheck rest retries) s)
      [fs_createReadStream fileToCheck].
Proof. done. Qed.

Lemma syncFile_run env localId serverId' originalFilePath lock name' s :
  path_base env originalFilePath = Normal name' →
  let file := {| id := localId; serverId := Some serverId'; name := name';
                 status := Checking; filePath := originalFilePath; syncLock := lock |} in
  syncFile env localId serverId' originalFilePath lock s =
    Run (Normal tt) (add_task (AwaitFileData file serverId' 2) (INSERT_FILE file s))
      [request_get (apiBase env +:+ "/" +:+ pretty serverId') (authedHeaders env)].
Proof. intros Hname. unfold syncFile. by rewrite svc_bind_try_gets, Hname. Qed.

Lemma validateSyncLock_INSERT_FILE file s :
  validateSyncLock (id file) (syncLock file) (INSERT_FILE file s) = true.
Proof. apply validateSyncLock_true. exists file. split; [apply elem_of_INSERT_FILE; by left | done]. Qed.

(** A run of the abstract service over the events. *)
Inductive abstract_run : list (Env * Event) → Service → Service → Prop :=
| abstract_run_nil s : abstract_run [] s s
| abstract_run_cons env ev evs s1 s2 s3 :
    abstract_step env ev s1 s2 → abstract_run evs s2 s3 →
    abstract_run ((env, ev) :: evs) s1 s3.

(** * Properties *)

(** C8: The service refines the abstract service.  Whatever the events and
    the environments they meet, the run of the handlers is a run of the
    abstract service: a call is refused or inserts its file and waits; a
    settled promise writes nothing when its operation lost the lock, waits
    again, marks its file synced or starts the download; a promise whose
    callback throws is dropped. *)
Theorem backup_refines (evs : list (Env * Event)) (s : Service) :
  abstract_run evs s (run_events evs s).1.
Proof.
  revert s. induction evs as [|[env ev] evs IH]; intros s; [constructor|].
  econstructor; [apply handle_abstract | apply IH].
Qed.

(** C29: Every state of the service is well formed.  Whatever the calls and
    the answers, in any order, the ids of the files of the table are
    distinct and every pending promise has between zero and two retries
    left. *)
Theorem backup_well_formed (ok : Env → Service → Event → Prop) (s : Service) :
  reachable ok s → service_wf s.
Proof.
  revert s. apply rtc_ind_r; [apply initialService_wf|].
  intros s s' _ [env ev s0 Hok] IH. by apply handle_wf.
Qed.

(** C23: An idle service is synced.  As long as no callback of a request
    throws, every file that is not synced has a pending promise of the
    operation holding its lock; so when nothing is pending every file is
    synced and the global status says so. *)
Theorem synced_when_idle (s : Service) :
  reachable responsive s → pending s = [] → globalSyncStatus s = GlobalSynced.
Proof.
  intros Howed%reachable_owed Hidle. apply globalSyncStatus_synced, Forall_forall.
  intros file Hfile. destruct (decide (status file = Synced)) as [|Hstatus]; [done|].
  destruct (Howed file Hfile Hstatus) as (task & Htask & _).
  rewrite Hidle in Htask. by apply elem_of_nil in Htask.
Qed.

(** C5: A superseded operation never writes.  Once the table does not hold
    the lock of an operation for its id, it never does again while no call
    brings the same lock, and whenever a promise of the operation is settled
    afterwards the table is left as it is. *)
Theorem superseded_never_writes (evs : list (Env * Event)) (env : Env) (i : nat)
    (task : Task) (answer : Answer) (s : Service) :
  service_wf s →
  validateSyncLock (id (task_file task)) (syncLock (task_file task)) s = false →
  Forall (λ ev, event_key ev.2 ≠ Some (key (task_file task))) evs →
  pending (run_events evs s).1 !! i = Some task →
  files (state (final (settle env i answer (run_events evs s).1))) =
    files (state (run_events evs s).1).
Proof.
  intros Hwf Hlost%validateSyncLock_out Hevs Htask.
  assert (service_wf (run_events evs s).1 ∧
          key (task_file task) ∉ key <$> files (state (run_events evs s).1)) as [Hwf' Hout].
  { apply (run_all_inv_Forall _ _ _ _ _ (λ ev, handle_keeps_out _ ev.1 ev.2) Hevs).
    by split. }
  eapply settle_lost_files; [done..|]. by apply validateSyncLock_out.
Qed.

(** [withRetry] gives up.  Whatever promise is awaited, with [n]
    retries left [n + 1] rejections in a row end the loop: the executor is
    called again [n] times, then the [catch] of the caller runs on the last
    rejection. *)
Theorem withRetry_gives_up (n : nat) (env : Env) (task : Task) (answers : list Answer)
    (last : Answer) (e : Rejection) (s : Service) :
  length answers = n →
  Forall (λ answer, is_Some (rejection (with_retries task 0) answer)) answers →
  rejection (with_retries task 0) last = Some e →
  run_events (settles env (length (pending s)) (answers ++ [last]))
    (add_task (with_retries task (Z.of_nat n)) s) =
  (final (task_catch env task e s),
   concat (replicate n (attempt_effects env task)) ++ trace (task_catch env task e s)).
Proof. apply withRetry_rounds. Qed.

(** A request without a response leaves the file uploading for ever.
    When the upload request of [createNewFile] fails without a response,
    the callback reads [statusCode] of [undefined] and throws: the promise
    is never settled, no [catch] runs, nothing is pending for the file and
    the file stays [Uploading], so the global status stays [Syncing]; no
    answer that arrives later changes that. *)
Theorem no_response_hangs (env : Env) (localId filePath' lock digest name' : string)
    (s : Service) :
  path_base env filePath' = Normal name' → existsSync env filePath' = true →
  let file := {| id := localId; serverId := None; name := name'; status := Uploading;
                 filePath := filePath'; syncLock := lock |} in
  let n := length (pending s) in
  let s' := (run_events [(env, CreateNewFile localId filePath' lock);
                         (env, Settle n (StreamEnd digest));
                         (env, Settle n NoResponse)] s).1 in
  s' = INSERT_FILE file s ∧ globalSyncStatus s' = GlobalSyncing ∧
  (pending s = [] → ∀ evs, Forall (λ ev, event_key ev.2 = None) evs →
     (run_events evs s').1 = s').
Proof.
  intros Hname Hexists file n s'.
  assert (s' = INSERT_FILE file s) as ->.
  { unfold s', run_events. cbn [run_all handle fst snd].
    rewrite (createNewFile_run env _ _ _ name') by done. cbn [final].
    rewrite (settle_last env _ _ (INSERT_FILE file s)) by done. cbn [run_task].
    rewrite uploadFile_post_run. cbn [final].
    by rewrite (settle_last env _ _ (INSERT_FILE file s)). }
  split_and!; [done| |].
  - apply not_synced_syncing with file; [apply elem_of_INSERT_FILE; by left | done].
  - intros Hidle evs Hevs. apply idle_settles; [done | by apply Forall_impl with (1 := Hevs)].
Qed.

(** An upload that succeeds.  For a path that parses and a file that
    exists, [createNewFile] inserts the file as [Uploading], computes the
    checksum, posts the file and, on a 2xx response whose body parses,
    stores the server id, marks the file [Synced] and resolves with it. *)
Theorem createNewFile_uploads (env : Env) (localId filePath' lock digest name' body : string)
    (statusCode data_id : Z) (s : Service) :
  path_base env filePath' = Normal name' → existsSync env filePath' = true →
  statusCode / 100 = 2 → parse_upload env body = Some data_id →
  let file' := {| id := localId; serverId := Some data_id; name := name';
                  status := Synced; filePath := filePath'; syncLock := lock |} in
  let n := length (pending s) in
  run_events [(env, CreateNewFile localId filePath' lock);
              (env, Settle n (StreamEnd digest));
              (env, Settle n (Response statusCode body))] s =
    (INSERT_FILE file' s,
     [fs_createReadStream filePath'; fs_createReadStream filePath';
      request_post (apiBase env +:+ "/upload") (authedHeaders env) (now_ISO env) digest
        filePath';
      promise_resolved localId (ReturnFile file')]).
Proof.
  intros Hname Hexists Hcode Hbody file' n.
  set (file := {| id := localId; serverId := None; name := name'; status := Uploading;
                  filePath := filePath'; syncLock := lock |}).
  unfold run_events. cbn [run_all handle fst snd].
  rewrite (createNewFile_run env _ _ _ name') by done. cbn [final trace].
  rewrite (settle_last env _ _ (INSERT_FILE file s)) by done. cbn [run_task].
  rewrite uploadFile_post_run. cbn [final trace].
  rewrite (settle_last env _ _ (INSERT_FILE file s)) by done. cbn [run_task].
  unfold request_callback. rewrite bool_decide_eq_true_2, Hbody by done.
  unfold createNewFile_then, resolve.
  rewrite svc_bind_gets, validateSyncLock_INSERT_FILE, svc_bind_modify.
  cbn. f_equal. by apply (UPDATE_INSERT_FILE file (file_patch file')).
Qed.


(** A reading error is swallowed.  When the file cannot be read three
    times in a row, [createNewFile] logs the last error, marks the file
    [Synced] although it never reached the server, and resolves with
    [null]. *)
Theorem failed_upload_reads_synced (env : Env) (localId filePath' lock name' : string)
    (e1 e2 e3 : string) (s : Service) :
  path_base env filePath' = Normal name' → existsSync env filePath' = true →
  let file' := {| id := localId; serverId := None; name := name';
                  status := Synced; filePath := filePath'; syncLock := lock |} in
  let n := length (pending s) in
  run_events ((env, CreateNewFile localId filePath' lock) ::
              settles env n [StreamError e1; StreamError e2; StreamError e3]) s =
    (INSERT_FILE file' s,
     [fs_createReadStream filePath'; fs_createReadStream filePath';
      fs_createReadStream filePath';
      console_error ("[Media Backup] Error uploading file: " +:+ e3);
      promise_resolved localId ReturnNull]).
Proof.
  intros Hname Hexists file' n.
  set (file := {| id := localId; serverId := None; name := name'; status := Uploading;
                  filePath := filePath'; syncLock := lock |}).
  unfold run_events. cbn [run_all handle fst snd].
  rewrite (createNewFile_run env _ _ _ name') by done. cbn [final trace]. fold file.
  assert (Forall (λ answer, is_Some (rejection (AwaitUpload file None 0) answer))
            [StreamError e1; StreamError e2]) as Hall by (repeat constructor; by eexists).
  rewrite (withRetry_rounds 2 env (AwaitUpload file None 2)
             [StreamError e1; StreamError e2] (StreamError e3)
             (ErrorValue e3) (INSERT_FILE file s) eq_refl Hall eq_refl
           : run_all _ (settles env n [StreamError e1; StreamError e2; StreamError e3])
               (add_task (AwaitUpload file None 2) (INSERT_FILE file s)) = _).
  cbn [task_catch fst snd]. unfold createNewFile_catch, resolve.
  rewrite !svc_bind_emit, svc_bind_gets, validateSyncLock_INSERT_FILE, svc_when_true.
  rewrite svc_bind_modify. cbn. f_equal.
  by apply (UPDATE_INSERT_FILE file (status_patch Synced)).
Qed.

(** A local copy that matches is kept.  When the data of the file
    arrives and the file at the original path has the checksum of the
    server, [syncFile] marks the file [Synced] at that path and resolves
    with it: the cache is not looked at and nothing is downloaded. *)
Theorem syncFile_keeps_local_copy (env : Env) (localId originalFilePath lock name' body : string)
    (serverId' statusCode : Z) (data : IMediaFileDataResponse) (s : Service) :
  path_base env originalFilePath = Normal name' →
  statusCode / 100 = 2 → parse_fileData env body = Some data →
  existsSync env originalFilePath = true → checksum data ≠ "" →
  let file' := {| id := localId; serverId := Some serverId'; name := name';
                  status := Synced; filePath := originalFilePath; syncLock := lock |} in
  let n := length (pending s) in
  run_events [(env, SyncFile localId serverId' originalFilePath lock);
              (env, Settle n (Response statusCode body));
              (env, Settle n (StreamEnd (checksum data)))] s =
    (INSERT_FILE file' s,
     [request_get (apiBase env +:+ "/" +:+ pretty serverId') (authedHeaders env);
      fs_createReadStream originalFilePath;
      promise_resolved localId (ReturnFile file')]).
Proof.
  intros Hname Hcode Hbody Hexists Hchecksum file' n.
  set (file := {| id := localId; serverId := Some serverId'; name := name';
                  status := Checking; filePath := originalFilePath; syncLock := lock |}).
  unfold run_events. cbn [run_all handle fst snd].
  rewrite (syncFile_run env _ _ _ _ name') by done. cbn [final trace].
  rewrite (settle_last env _ _ (INSERT_FILE file s)) by done. cbn [run_task].
  unfold request_callback. rewrite bool_decide_eq_true_2, Hbody by done.
  unfold syncFile_data_then. cbn [syncFile_check filePath file]. rewrite Hexists.
  unfold withRetry. fold file. rewrite checksum_attempt_run. cbn [final trace].
  rewrite (settle_last env _ _ (INSERT_FILE file s)) by done. cbn [run_task].
  unfold syncFile_checksum_then, resolve.
  rewrite svc_bind_gets, validateSyncLock_INSERT_FILE. cbn [from_option].
  rewrite (proj2 (truthy_true _) Hchecksum), bool_decide_eq_true_2 by done.
  cbn [andb]. rewrite svc_bind_modify. cbn. f_equal.
  by apply (UPDATE_INSERT_FILE file (file_patch file')).
Qed.

(** ** The theorems at a concrete service *)

Definition intro_data : IMediaFileDataResponse :=
  {| checksum := "9e107d9d372bb6826bd81d3542a419d6"; filename := "intro.mp4";
     modified := "2018-05-01T12:00:00.000Z";
     url := "https://cdn.streamlabs.com/media/7" |}.

Definition test_env : Env :=
  {| path_base := λ _, Normal "intro.mp4";
     path_join := λ a b, a +:+ "/" +:+ b;
     existsSync := λ p, bool_decide (p = "/videos/intro.mp4");
     hosts_media := "media.streamlabs.com";
     apiToken := "secret";
     userData := "/home/user/slobs";
     now_ISO := "2018-05-01T12:00:00.000Z";
     parse_upload := λ body, if bool_decide (body = "{id:7}") then Some 7 else None;
     parse_fileData := λ body, if bool_decide (body = "{...}") then Some intro_data
                               else None |}.

Definition create (lock : string) : Env * Event :=
  (test_env, CreateNewFile "intro" "/videos/intro.mp4" lock).

(** Two uploads of the same file, the second started while the first waits
    for its checksum. *)
Definition two_uploads : Service := (run_events [create "lock1"; create "lock2"] initialService).1.

Definition first_upload : Task :=
  AwaitUpload {| id := "intro"; serverId := None; name := "intro.mp4"; status := Uploading;
                 filePath := "/videos/intro.mp4"; syncLock := "lock1" |} None 2.

Lemma backup_well_formed_witness : service_wf two_uploads.
Proof.
  apply (backup_well_formed any_event), run_events_reachable; [apply rtc_refl | done].
Defined.

Lemma synced_when_idle_witness :
  globalSyncStatus
    (run_events [create "lock1"; (test_env, Settle 0 (StreamEnd "9e10"));
                 (test_env, Settle 0 (Response 200 "{id:7}"))] initialService).1 =
  GlobalSynced.
Proof.
  apply synced_when_idle; [|done].
  apply run_events_reachable; [apply rtc_refl|].
  repeat split; intros task; vm_compute; by intros [= <-].
Defined.

Lemma superseded_never_writes_witness :
  files (state (final (settle test_env 0 (StreamEnd "9e10")
    (run_events [(test_env, Settle 1 (StreamEnd "9e10"))] two_uploads).1))) =
  files (state (run_events [(test_env, Settle 1 (StreamEnd "9e10"))] two_uploads).1).
Proof.
  apply (superseded_never_writes _ _ _ first_upload); [|done| |done].
  - apply (reachable_wf any_event), run_events_reachable; [apply rtc_refl | done].
  - by repeat constructor.
Defined.

Lemma withRetry_gives_up_witness :
  run_events (settles test_env 0 ([StreamError "EBUSY"; StreamError "EBUSY"] ++
                                  [StreamError "ENOENT"]))
    (add_task first_upload initialService) =
  (final (task_catch test_env first_upload (ErrorValue "ENOENT") initialService),
   concat (replicate 2 (attempt_effects test_env first_upload)) ++
   trace (task_catch test_env first_upload (ErrorValue "ENOENT") initialService)).
Proof.
  apply (withRetry_gives_up 2 test_env first_upload
           [StreamError "EBUSY"; StreamError "EBUSY"] (StreamError "ENOENT")
           (ErrorValue "ENOENT") initialService); [done| |done].
  repeat constructor; by eexists.
Defined.

Lemma no_response_hangs_witness :
  let s' := (run_events [create "lock1"; (test_env, Settle 0 (StreamEnd "9e10"));
                         (test_env, Settle 0 NoResponse)] initialService).1 in
  s' = INSERT_FILE (task_file first_upload) initialService ∧
  globalSyncStatus s' = GlobalSyncing ∧
  (pending initialService = [] → ∀ evs, Forall (λ ev, event_key ev.2 = None) evs →
     (run_events evs s').1 = s').
Proof. by apply (no_response_hangs test_env "intro" "/videos/intro.mp4" "lock1" "9e10" "intro.mp4"). Defined.

Lemma createNewFile_uploads_witness :
  run_events [create "lock1"; (test_env, Settle 0 (StreamEnd "9e10"));
              (test_env, Settle 0 (Response 201 "{id:7}"))] initialService =
  (INSERT_FILE {| id := "intro"; serverId := Some 7; name := "intro.mp4"; status := Synced;
                  filePath := "/videos/intro.mp4"; syncLock := "lock1" |} initialService,
   [fs_createReadStream "/videos/intro.mp4"; fs_createReadStream "/videos/intro.mp4";
    request_post "https://media.streamlabs.com/api/v5/slobs/media/upload" "Bearer secret"
      "2018-05-01T12:00:00.000Z" "9e10" "/videos/intro.mp4";
    promise_resolved "intro"
      (ReturnFile {| id := "intro"; serverId := Some 7; name := "intro.mp4";
                     status := Synced; filePath := "/videos/intro.mp4";
                     syncLock := "lock1" |})]).
Proof. by apply (createNewFile_uploads test_env "intro" "/videos/intro.mp4" "lock1" "9e10"). Defined.

Lemma failed_upload_reads_synced_witness :
  run_events (create "lock1" ::
              settles test_env 0 [StreamError "EBUSY"; StreamError "EBUSY"; StreamError "EIO"])
    initialService =
  (INSERT_FILE {| id := "intro"; serverId := None; name := "intro.mp4"; status := Synced;
                  filePath := "/videos/intro.mp4"; syncLock := "lock1" |} initialService,
   [fs_createReadStream "/videos/intro.mp4"; fs_createReadStream "/videos/intro.mp4";
    fs_createReadStream "/videos/intro.mp4";
    console_error "[Media Backup] Error uploading file: EIO";
    promise_resolved "intro" ReturnNull]).
Proof. by apply (failed_upload_reads_synced test_env "intro" "/videos/intro.mp4" "lock1"). Defined.

Lemma syncFile_keeps_local_copy_witness :
  run_events [(test_env, SyncFile "intro" 7 "/videos/intro.mp4" "lock1");
              (test_env, Settle 0 (Response 200 "{...}"));
              (test_env, Settle 0 (StreamEnd (checksum intro_data)))] initialService =
  (INSERT_FILE {| id := "intro"; serverId := Some 7; name := "intro.mp4"; status := Synced;
                  filePath := "/videos/intro.mp4"; syncLock := "lock1" |} initialService,
   [request_get "https://media.streamlabs.com/api/v5/slobs/media/7" "Bearer secret";
    fs_createReadStream "/videos/intro.mp4";
    promise_resolved "intro"
      (ReturnFile {| id := "intro"; serverId := Some 7; name := "intro.mp4";
                     status := Synced; filePath := "/videos/intro.mp4";
                     syncLock := "lock1" |})]).
Proof.
  by apply (syncFile_keeps_local_copy test_env "intro" "/videos/intro.mp4" "lock1" "intro.mp4"
              "{...}" 7 200 intro_data).
Defined.

End MediaBackup.
