(* ===== verification/Settings.v ===== *)
(** * SettingsService: the settings of the output engine in the store

    Models [SettingsService], the second document of [src/unnamed/part_002]
    (lines 196-521).  The service reads the settings of the output engine
    category by category as forms, keeps their values in its store slice as
    a dictionary of dictionaries, and writes forms back.  The [Audio]
    category is not a category of the engine: its form is built from the
    audio devices and the sources that sit in the five audio channels, and
    writing it creates, updates or removes those sources.

    The engine ([nodeObs]), the conversions of [components/shared/forms/Input],
    the audio, sources, windows and encoding services are not among the
    sources: what the code reads of them is the record [Env], what it calls
    is an effect of the trace.  [null] as the value of a form input is
    [ObsNull].  The members of [E_AUDIO_CHANNELS] are imported; their values
    are the ones the code relies on ([channel = ind + 1] for the five
    parameters, [deviceInd = channel - 2] for the inputs).

    The sources of the channels are read from [Env] at each parameter of
    the audio form, as [getSources] is called in the loop: a source created
    or removed for one channel does not change what the model reads for a
    later channel of the same call.

    The type [IAudioDevice] is declared in the last document of
    [src/app/components/TopNav.vue.ts]. *)

From Stdlib Require Import ZArith Lia String.
From stdpp Require Import base tactics option list strings pretty.
From S2P Require Import Prelude JsObject.
From S2P Require Import Streaming.

Set Warnings "-clear-no-such-hyp".

Local Open Scope string_scope.
Local Open Scope list_scope.
Local Open Scope Z_scope.
Local Open Scope svc_scope.

Module Settings.

(** ** Data *)

(** [TObsValue], with the [null] of a form input that has no value. *)
Inductive TObsValue : Type :=
| ObsNumber (n : Z)
| ObsString (s : string)
| ObsBool (b : bool)
| ObsNull.

Record IListOption : Type := mkListOption {
  option_description : string;
  option_value : TObsValue;
}.

(** An input of a form ([TFormData] is a list of them). *)
Record IFormInput : Type := mkFormInput {
  name : string;
  value : TObsValue;
  description : string;
  type : string;
  enabled : bool;
  visible : bool;
  options : list IListOption;
}.

Record ISettingsSubCategory : Type := mkSubCategory {
  nameSubCategory : string;
  parameters : list IFormInput;
}.

(** [ISettingsState]: the values by category and by name.  The interface
    names the entries the application reads; the object holds whatever the
    forms of the engine contain. *)
Definition ISettingsState : Type := Dictionary (Dictionary TObsValue).

Definition TSettingsFormData : Type := Dictionary (list ISettingsSubCategory).

Definition initialState : ISettingsState := [].

Inductive AudioDeviceType : Type := input | output.

Record IAudioDevice : Type := mkAudioDevice {
  device_id : string;
  device_description : string;
  device_type : AudioDeviceType;
}.

(** What the service reads of a source: its id, its channel if it has one,
    and the [device_id] of its settings. *)
Record ISource : Type := mkSource {
  sourceId : string;
  channel : option Z;
  settings_device_id : TObsValue;
}.

Record IOutputSettings : Type := mkOutputSettings {
  presetField : string;
  encoderSettingsField : string;
}.

#[export] Instance TObsValue_eq_dec : EqDecision TObsValue.
Proof. solve_decision. Defined.
#[export] Instance IListOption_eq_dec : EqDecision IListOption.
Proof. solve_decision. Defined.
#[export] Instance IFormInput_eq_dec : EqDecision IFormInput.
Proof. solve_decision. Defined.
#[export] Instance ISettingsSubCategory_eq_dec : EqDecision ISettingsSubCategory.
Proof. solve_decision. Defined.
#[export] Instance AudioDeviceType_eq_dec : EqDecision AudioDeviceType.
Proof. solve_decision. Defined.
#[export] Instance IAudioDevice_eq_dec : EqDecision IAudioDevice.
Proof. solve_decision. Defined.
#[export] Instance ISource_eq_dec : EqDecision ISource.
Proof. solve_decision. Defined.

(** What the service reads of the engine and of the other services. *)
Record Env : Type := mkEnv {
  OBS_settings_getListCategories : list string;
  OBS_settings_getSettings : string → list ISettingsSubCategory;
  obsValuesToInputValues : list IFormInput → list string → list IFormInput;
  inputValuesToObsValues : list IFormInput → list IFormInput;
  isDevMode : bool;
  argv : list string;
  getIsUsingEncodingOptimizations : bool;
  getCurrentOutputSettings : IOutputSettings;
  getDevices : list IAudioDevice;
  getSources : list ISource;
}.

Inductive SettingsEffect : Type :=
| windowsService_showWindow (componentName : string) (categoryName : option string)
    (width height : Z)
| OBS_settings_saveSettings (categoryName : string) (dataToSave : list ISettingsSubCategory)
| sourcesService_removeSource (sourceId : string)
| sourcesService_createSource (name type : string) (settings : list (string * TObsValue))
    (channel : Z)
| source_updateSettings (sourceId : string) (device_id : TObsValue) (name : string).

#[export] Instance SettingsEffect_eq_dec : EqDecision SettingsEffect.
Proof. solve_decision. Defined.

Definition M (A : Type) : Type := svc ISettingsState SettingsEffect A.

(** ** The store *)

(** The body of the loops of [convertFormDataToState]: one parameter of a
    group. *)
Definition convert_parameter (groupName : string) (settingsState : ISettingsState)
    (parameter : IFormInput) : ISettingsState :=
  let group := default [] (dict_get settingsState groupName) in
  dict_set groupName (dict_set (name parameter) (value parameter) group) settingsState.

(** [SettingsService.convertFormDataToState(settingsFormData)] *)
Definition convertFormDataToState (settingsFormData : TSettingsFormData) : ISettingsState :=
  foldl (λ settingsState group,
           foldl (λ settingsState subGroup,
                    foldl (convert_parameter group.1) settingsState (parameters subGroup))
             settingsState group.2)
    [] settingsFormData.

(** [SET_SETTINGS(settingsData)] *)
Definition SET_SETTINGS (settingsData : ISettingsState) (state : ISettingsState) :
    ISettingsState :=
  dict_assign state settingsData.

(** ** Categories *)

(** [advancedSettingEnabled()] *)
Definition advancedSettingEnabled (env : Env) : bool :=
  isDevMode env || includes (argv env) "--adv-settings".

(** [getCategories()] *)
Definition getCategories (env : Env) : list string :=
  let categories := OBS_settings_getListCategories env in
  let categories :=
    categories ++ ["Scene Collections"; "Notifications"; "Appearance"; "Remote Control"] in
  if advancedSettingEnabled env then categories ++ ["API"; "Experimental"]
  else categories.

(** [showSettings(categoryName)] *)
Definition showSettings (categoryName : option string) : M unit :=
  svc_emit (windowsService_showWindow "Settings" categoryName 800 800).

(** ** The audio form *)

Definition OUTPUT_1 : Z := 1.
Definition OUTPUT_2 : Z := 2.
Definition INPUT_1 : Z := 3.
Definition INPUT_2 : Z := 4.
Definition INPUT_3 : Z := 5.

(** The channels from [first] to [last], as the [for] loops count them. *)
Definition channels (first last : Z) : list Z :=
  (λ k : nat, first + Z.of_nat k) <$> seq 0 (Z.to_nat (last - first + 1)).

(** The options of a device list: [Disabled] and the devices of the type. *)
Definition device_options (audioDevices : list IAudioDevice) (kind : AudioDeviceType) :
    list IListOption :=
  {| option_description := "Disabled"; option_value := ObsNull |} ::
  ((λ device, {| option_description := device_description device;
                 option_value := ObsString (device_id device) |}) <$>
   filter (λ device, device_type device = kind) audioDevices).

(** The parameter pushed for a channel; [label] and [title] are the two
    template literals up to the index. *)
Definition audio_parameter (sourcesInChannels : list ISource)
    (audioDevices : list IAudioDevice) (kind : AudioDeviceType)
    (title label : string) (channel' deviceInd : Z) : IFormInput :=
  let source := js_find (λ source, channel source = Some channel') sourcesInChannels in
  {| value := from_option settings_device_id ObsNull source;
     description := title +:+ pretty deviceInd;
     name := label +:+ (if bool_decide (1 < deviceInd) then pretty deviceInd else "");
     type := "OBS_PROPERTY_LIST";
     enabled := true;
     visible := true;
     options := device_options audioDevices kind |}.

(** [getAudioSettingsFormData()] *)
Definition getAudioSettingsFormData (env : Env) : list ISettingsSubCategory :=
  let audioDevices := getDevices env in
  let sourcesInChannels := filter (λ source, channel source ≠ None) (getSources env) in
  let outputs :=
    (λ channel', audio_parameter sourcesInChannels audioDevices output
                   "Desktop Audio Device " "Desktop Audio " channel' channel')
      <$> channels OUTPUT_1 OUTPUT_2 in
  let inputs :=
    (λ channel', audio_parameter sourcesInChannels audioDevices input
                   "Mic/Auxiliary device " "Mic/Aux " channel' (channel' - 2))
      <$> channels INPUT_1 INPUT_3 in
  [{| nameSubCategory := "Untitled"; parameters := outputs ++ inputs |}].

(** ** Reading a form *)

(** Names of settings that are disabled in the forms. *)
Definition BLACK_LIST_NAMES : list string :=
  ["SysTrayMinimizeToTray"; "ReplayBufferWhileStreaming"; "KeepReplayBufferStreamStops";
   "SysTrayEnabled"; "CenterSnapping"; "HideProjectorCursor"; "ProjectorAlwaysOnTop";
   "SaveProjectors"; "SysTrayWhenStarted"; "RecRBSuffix"; "LowLatencyEnable"; "BindIP";
   "FilenameFormatting"; "MaxRetries"; "NewSocketLoopEnable"; "OverwriteIfExists";
   "RecRBPrefix"; "Reconnect"; "RetryDelay"].

Definition set_visible (visible' : bool) (parameter : IFormInput) : IFormInput :=
  {| name := name parameter; value := value parameter;
     description := description parameter; type := type parameter;
     enabled := enabled parameter; visible := visible'; options := options parameter |}.

Definition set_value (value' : TObsValue) (parameter : IFormInput) : IFormInput :=
  {| name := name parameter; value := value'; description := description parameter;
     type := type parameter; enabled := enabled parameter; visible := visible parameter;
     options := options parameter |}.

Definition set_parameters (parameters' : list IFormInput) (group : ISettingsSubCategory) :
    ISettingsSubCategory :=
  {| nameSubCategory := nameSubCategory group; parameters := parameters' |}.

(** [parameters[parameters.indexOf(parameters.find(p => p.name === field))]
    .visible = false]: without such a parameter the index is -1 and the
    assignment is to a field of [undefined]. *)
Definition hide_parameter (field : string) (parameters' : list IFormInput) :
    completion (list IFormInput) :=
  match list_find (λ parameter, name parameter = field) parameters' with
  | Some (index, _) => Normal (alter (set_visible false) index parameters')
  | None => Throw TypeError
  end.

(** The block of [getSettingsFormData] that hides the encoder preset and the
    encoder settings of the [Streaming] group. *)
Definition hide_optimized (outputSettings : IOutputSettings)
    (settings : list ISettingsSubCategory) : completion (list ISettingsSubCategory) :=
  match list_find (λ category, nameSubCategory category = "Streaming") settings with
  | Some (indexSubCategory, category) =>
      match hide_parameter (presetField outputSettings) (parameters category) with
      | Normal hidden =>
          match hide_parameter (encoderSettingsField outputSettings) hidden with
          | Normal hidden' =>
              Normal (alter (set_parameters hidden') indexSubCategory settings)
          | Throw e => Throw e
          end
      | Throw e => Throw e
      end
  | None => Throw TypeError
  end.

(** [getSettingsFormData(categoryName)] *)
Definition getSettingsFormData (env : Env) (categoryName : string) :
    completion (list ISettingsSubCategory) :=
  if bool_decide (categoryName = "Audio") then Normal (getAudioSettingsFormData env)
  else
    let settings :=
      (λ group, set_parameters
                  (obsValuesToInputValues env (parameters group) BLACK_LIST_NAMES) group)
        <$> OBS_settings_getSettings env categoryName in
    if bool_decide (categoryName = "Output") && getIsUsingEncodingOptimizations env
    then hide_optimized (getCurrentOutputSettings env) settings
    else Normal settings.

(** ** Writing a form *)

(** The body of the loop of [setAudioSettings]: the parameter at index
    [ind]. *)
Definition setAudioSettings_device (env : Env) (ind : nat) (deviceForm : IFormInput) :
    M unit :=
  let channel' := Z.of_nat ind + 1 in
  let isOutput := includes [OUTPUT_1; OUTPUT_2] channel' in
  let source := js_find (λ source, channel source = Some channel') (getSources env) in
  match source, value deviceForm with
  | Some source, ObsNull => svc_emit (sourcesService_removeSource (sourceId source))
  | None, ObsNull => svc_ret tt
  | _, deviceValue =>
      let* device := svc_deref (js_find (λ device, ObsString (device_id device) = deviceValue)
                                  (getDevices env)) in
      let displayName :=
        if bool_decide (device_id device = "default") then name deviceForm
        else device_description device in
      match source with
      | None =>
          svc_emit (sourcesService_createSource displayName
                      (if isOutput then "wasapi_output_capture" else "wasapi_input_capture")
                      [] channel')
      | Some source =>
          svc_emit (source_updateSettings (sourceId source) deviceValue displayName)
      end
  end.

(** [setAudioSettings(settingsData)] *)
Definition setAudioSettings (env : Env) (settingsData : list ISettingsSubCategory) : M unit :=
  let* first := svc_deref (head settingsData) in
  svc_forEach (imap (λ ind deviceForm, (ind, deviceForm)) (parameters first))
    (λ item, setAudioSettings_device env item.1 item.2).

(** [setSettings(categoryName, settingsData)] *)
Definition setSettings (env : Env) (categoryName : string)
    (settingsData : list ISettingsSubCategory) : M unit :=
  if bool_decide (categoryName = "Audio") then setAudioSettings env settingsData
  else
    let dataToSave :=
      (λ subGroup, set_parameters (inputValuesToObsValues env (parameters subGroup)) subGroup)
        <$> settingsData in
    svc_emit (OBS_settings_saveSettings categoryName dataToSave);;
    svc_modify (SET_SETTINGS (convertFormDataToState [(categoryName, settingsData)])).

(** ** Loading *)

(** The loop of [loadSettingsIntoStore]: the forms of the categories, by
    category. *)
Fixpoint loadSettingsIntoStore_forms (env : Env) (categories : list string)
    (settingsFormData : TSettingsFormData) : completion TSettingsFormData :=
  match categories with
  | [] => Normal settingsFormData
  | categoryName :: categories' =>
      match getSettingsFormData env categoryName with
      | Normal form =>
          loadSettingsIntoStore_forms env categories'
            (dict_set categoryName form settingsFormData)
      | Throw e => Throw e
      end
  end.

(** [loadSettingsIntoStore()] *)
Definition loadSettingsIntoStore (env : Env) : M unit :=
  let* settingsFormData :=
    svc_try_gets (λ _, loadSettingsIntoStore_forms env (getCategories env) []) in
  svc_modify (SET_SETTINGS (convertFormDataToState settingsFormData)).

(** [init()] *)
Definition init (env : Env) : M unit := loadSettingsIntoStore env.

(** ** What the streaming service reads *)

Definition get_bool (st : ISettingsState) (category field : string) : option bool :=
  match dict_get st category ≫= (λ group, dict_get group field) with
  | Some (ObsBool b) => Some b
  | _ => None
  end.

Definition get_number (st : ISettingsState) (category field : string) : option Z :=
  match dict_get st category ≫= (λ group, dict_get group field) with
  | Some (ObsNumber n) => Some n
  | _ => None
  end.

(** The entries of [ISettingsState] the streaming service reads, when the
    store holds them at their declared types. *)
Definition streamSettings (st : ISettingsState) : option Streaming.StreamSettings :=
  warnStart ← get_bool st "General" "WarnBeforeStartingStream";
  record ← get_bool st "General" "RecordWhenStreaming";
  warnStop ← get_bool st "General" "WarnBeforeStoppingStream";
  keep ← get_bool st "General" "KeepRecordingWhenStreamStops";
  delayEnable ← get_bool st "Advanced" "DelayEnable";
  delaySec ← get_number st "Advanced" "DelaySec";
  Some {| Streaming.WarnBeforeStartingStream := warnStart;
          Streaming.RecordWhenStreaming := record;
          Streaming.WarnBeforeStoppingStream := warnStop;
          Streaming.KeepRecordingWhenStreamStops := keep;
          Streaming.DelayEnable := delayEnable;
          Streaming.DelaySec := delaySec |}.

(** ** The values of a form *)

(** All the parameters of a form, in order. *)
Definition form_parameters (settingsData : list ISettingsSubCategory) : list IFormInput :=
  settingsData ≫= parameters.

(** The values of the parameters by name, written over [group]. *)
Definition form_values (group : Dictionary TObsValue) (inputs : list IFormInput) :
    Dictionary TObsValue :=
  foldl (λ group parameter, dict_set (name parameter) (value parameter) group) group inputs.

(** * Specification *)

(** The source the forms read and write for a channel. *)
Definition channel_source (env : Env) (channel' : Z) : option ISource :=
  js_find (λ source, channel source = Some channel') (getSources env).

(** The device of a form value. *)
Definition value_device (env : Env) (deviceValue : TObsValue) : option IAudioDevice :=
  js_find (λ device, ObsString (device_id device) = deviceValue) (getDevices env).

(** What writing back the parameter read for a channel does. *)
Definition write_back (env : Env) (channel' : Z) (formName : string) : list SettingsEffect :=
  match channel_source env channel' with
  | Some source =>
      match value_device env (settings_device_id source) with
      | Some device =>
          [source_updateSettings (sourceId source) (settings_device_id source)
             (if bool_decide (device_id device = "default") then formName
              else device_description device)]
      | None => []
      end
  | None => []
  end.

(** The source of a channel sits on a device that is known. *)
Definition on_known_device (env : Env) (channel' : Z) : Prop :=
  ∀ source, channel_source env channel' = Some source →
    is_Some (value_device env (settings_device_id source)).

(** The five inputs of the audio form. *)
Definition audio_inputs (env : Env) : list IFormInput :=
  let audioDevices := getDevices env in
  let sourcesInChannels := filter (λ source, channel source ≠ None) (getSources env) in
  [audio_parameter sourcesInChannels audioDevices output
     "Desktop Audio Device " "Desktop Audio " 1 1;
   audio_parameter sourcesInChannels audioDevices output
     "Desktop Audio Device " "Desktop Audio " 2 2;
   audio_parameter sourcesInChannels audioDevices input
     "Mic/Auxiliary device " "Mic/Aux " 3 1;
   audio_parameter sourcesInChannels audioDevices input
     "Mic/Auxiliary device " "Mic/Aux " 4 2;
   audio_parameter sourcesInChannels audioDevices input
     "Mic/Auxiliary device " "Mic/Aux " 5 3].

(** The names of the five inputs of the audio form. *)
Definition audio_names : list string :=
  ["Desktop Audio "; "Desktop Audio 2"; "Mic/Aux "; "Mic/Aux 2"; "Mic/Aux 3"].

(** An input of the audio form at index [ind]: a list of devices that
    starts with [Disabled] and holds the device of the source of channel
    [ind + 1]. *)
Record audio_input_typed (env : Env) (ind : nat) (parameter : IFormInput) : Prop := {
  typed_name : audio_names !! ind = Some (name parameter);
  typed_type : type parameter = "OBS_PROPERTY_LIST";
  typed_shown : enabled parameter = true ∧ visible parameter = true;
  typed_disabled :
    head (options parameter) =
      Some {| option_description := "Disabled"; option_value := ObsNull |};
  typed_devices :
    option_value <$> tail (options parameter) =
      (λ device, ObsString (device_id device)) <$>
        filter (λ device, device_type device =
                            if bool_decide (ind < 2)%nat then output else input)
          (getDevices env);
  typed_value :
    value parameter =
      from_option settings_device_id ObsNull (channel_source env (Z.of_nat ind + 1));
}.

(** The loop body of [convertFormDataToState] for one category. *)
Definition convert_group (settingsState : ISettingsState)
    (group : string * list ISettingsSubCategory) : ISettingsState :=
  foldl (λ settingsState subGroup,
           foldl (convert_parameter group.1) settingsState (parameters subGroup))
    settingsState group.2.

(** The values the store holds for a form: none for a form without
    parameters. *)
Definition stored_values (group : Dictionary TObsValue)
    (settingsData : list ISettingsSubCategory) : option (Dictionary TObsValue) :=
  match form_parameters settingsData with
  | [] => None
  | inputs => Some (form_values group inputs)
  end.

(** The forms the loop of [loadSettingsIntoStore] has collected when every
    category has one. *)
Definition collect_forms (forms : string → list ISettingsSubCategory)
    (categories : list string) (settingsFormData : TSettingsFormData) : TSettingsFormData :=
  foldl (λ collected categoryName, dict_set categoryName (forms categoryName) collected)
    settingsFormData categories.

(** The search for [field] finds a parameter that is not shown. *)
Definition hidden_in (field : string) (parameters' : list IFormInput) : Prop :=
  ∃ index parameter,
    list_find (λ parameter, name parameter = field) parameters' = Some (index, parameter) ∧
    visible parameter = false.

(** The form holds [field] with value [v]. *)
Definition reads (settingsData : list ISettingsSubCategory) (field : string)
    (v : TObsValue) : Prop :=
  (field, v) ∈ (λ parameter, (name parameter, value parameter)) <$>
                 form_parameters settingsData.

(** The forms of [General] and of [Advanced] hold the settings of the
    streaming service at their declared types. *)
Record stream_forms (general advanced : list ISettingsSubCategory)
    (settings : Streaming.StreamSettings) : Prop := {
  general_names : NoDup (name <$> form_parameters general);
  advanced_names : NoDup (name <$> form_parameters advanced);
  reads_warnStart :
    reads general "WarnBeforeStartingStream"
      (ObsBool (Streaming.WarnBeforeStartingStream settings));
  reads_record :
    reads general "RecordWhenStreaming" (ObsBool (Streaming.RecordWhenStreaming settings));
  reads_warnStop :
    reads general "WarnBeforeStoppingStream"
      (ObsBool (Streaming.WarnBeforeStoppingStream settings));
  reads_keep :
    reads general "KeepRecordingWhenStreamStops"
      (ObsBool (Streaming.KeepRecordingWhenStreamStops settings));
  reads_delayEnable :
    reads advanced "DelayEnable" (ObsBool (Streaming.DelayEnable settings));
  reads_delaySec : reads advanced "DelaySec" (ObsNumber (Streaming.DelaySec settings));
}.

(** The form of a category as the engine gives it, converted for the
    inputs. *)
Definition engine_form (env : Env) (categoryName : string) : list ISettingsSubCategory :=
  (λ group, set_parameters
              (obsValuesToInputValues env (parameters group) BLACK_LIST_NAMES) group)
    <$> OBS_settings_getSettings env categoryName.

(** * Lemmas *)

Lemma getSettingsFormData_engine env categoryName :
  categoryName ≠ "Audio" → categoryName ≠ "Output" →
  getSettingsFormData env categoryName = Normal (engine_form env categoryName).
Proof.
  intros Haudio Houtput. unfold getSettingsFormData.
  by rewrite !bool_decide_eq_false_2.
Qed.


(** The parameters of a category, converted one after the other. *)
Lemma convert_parameters groupName settingsState parameter inputs :
  foldl (convert_parameter groupName) settingsState (parameter :: inputs) =
  dict_set groupName
    (form_values (default [] (dict_get settingsState groupName)) (parameter :: inputs))
    settingsState.
Proof.
  revert settingsState parameter.
  induction inputs as [|parameter' inputs IH]; intros settingsState parameter; [done|].
  change (foldl ?f ?a (parameter :: ?l)) with (foldl f (f a parameter) l).
  rewrite IH. unfold convert_parameter. by rewrite dict_get_set_eq, dict_set_set_eq.
Qed.

(** The state of one category. *)
Lemma convertFormDataToState_category categoryName settingsData :
  convertFormDataToState [(categoryName, settingsData)] =
    match form_parameters settingsData with
    | [] => []
    | inputs => [(categoryName, form_values [] inputs)]
    end.
Proof.
  unfold convertFormDataToState. cbn [foldl fst snd].
  rewrite (foldl_bind (convert_parameter categoryName) parameters).
  fold (form_parameters settingsData).
  destruct (form_parameters settingsData) as [|parameter inputs]; [done|].
  by rewrite convert_parameters.
Qed.

Lemma setSettings_engine_run env categoryName settingsData st :
  categoryName ≠ "Audio" →
  setSettings env categoryName settingsData st =
    Run (Normal tt)
      (match form_parameters settingsData with
       | [] => st
       | inputs => dict_set categoryName (form_values [] inputs) st
       end)
      [OBS_settings_saveSettings categoryName
         ((λ subGroup, set_parameters (inputValuesToObsValues env (parameters subGroup))
                         subGroup) <$> settingsData)].
Proof.
  intros Hcat. unfold setSettings. rewrite bool_decide_eq_false_2 by done.
  rewrite svc_bind_emit, convertFormDataToState_category.
  by destruct (form_parameters settingsData).
Qed.

Lemma getAudioSettingsFormData_inputs env :
  getAudioSettingsFormData env =
    [{| nameSubCategory := "Untitled"; parameters := audio_inputs env |}].
Proof. done. Qed.

Lemma audio_parameter_value env kind title label channel' deviceInd :
  value (audio_parameter (filter (λ source, channel source ≠ None) (getSources env))
           (getDevices env) kind title label channel' deviceInd) =
  from_option settings_device_id ObsNull (channel_source env channel').
Proof.
  unfold audio_parameter, channel_source. cbn [value].
  rewrite js_find_filter; [done|]. by intros source ->.
Qed.

Lemma value_device_not_null env deviceValue :
  is_Some (value_device env deviceValue) → deviceValue ≠ ObsNull.
Proof. by intros [device [_ <-]%js_find_Some]. Qed.

(** A parameter that holds the device of the source of its channel, written
    back at the index of the channel. *)
Lemma setAudioSettings_device_write_back env (ind : nat) deviceForm st :
  let channel' := Z.of_nat ind + 1 in
  value deviceForm = from_option settings_device_id ObsNull (channel_source env channel') →
  on_known_device env channel' →
  setAudioSettings_device env ind deviceForm st =
    Run (Normal tt) st (write_back env channel' (name deviceForm)).
Proof.
  intros channel' Hvalue Hknown. unfold setAudioSettings_device, write_back.
  fold channel'. fold (channel_source env channel'). rewrite Hvalue.
  destruct (channel_source env channel') as [source|] eqn:Hsource; [|done].
  pose proof (Hknown source Hsource) as Hdevice. cbn [from_option].
  pose proof (value_device_not_null _ _ Hdevice) as Hnull.
  destruct Hdevice as [device Hdevice]. unfold value_device in *. rewrite Hdevice.
  by destruct (settings_device_id source); cbn; rewrite ?Hdevice.
Qed.

Lemma audio_inputs_typed env ind parameter :
  audio_inputs env !! ind = Some parameter → audio_input_typed env ind parameter.
Proof.
  intros Hlookup. destruct ind as [|[|[|[|[|ind]]]]]; [..|done];
    injection Hlookup as <-; (split; [done..| |apply audio_parameter_value]);
    cbn; by rewrite <- list_fmap_compose.
Qed.

Lemma channels_lookup (ind : nat) :
  (ind < 5)%nat → channels OUTPUT_1 INPUT_3 !! ind = Some (Z.of_nat ind + 1).
Proof. intros Hind. by do 5 (destruct ind as [|ind]; [done|]); lia. Qed.

(** The loop of [setAudioSettings] over the form just read. *)
Lemma setAudioSettings_write_back env st :
  Forall (on_known_device env) (channels OUTPUT_1 INPUT_3) →
  setAudioSettings env (getAudioSettingsFormData env) st =
    Run (Normal tt) st
      (zip_with (write_back env) (channels OUTPUT_1 INPUT_3) audio_names ≫= id).
Proof.
  intros Hknown. unfold setAudioSettings. rewrite getAudioSettingsFormData_inputs.
  cbn [head]. rewrite svc_bind_deref_Some. cbn [parameters audio_inputs imap].
  rewrite (svc_forEach_reads
             (λ item, write_back env (Z.of_nat item.1 + 1) (name item.2))); [done|].
  repeat apply Forall_cons_2; [..|done]; cbn [fst snd];
    (apply setAudioSettings_device_write_back;
     [apply audio_parameter_value
     |eapply Forall_lookup_1; [exact Hknown | apply channels_lookup; cbn; lia]]).
Qed.

(** ** Loading *)

Lemma convert_group_run settingsState categoryName settingsData :
  convert_group settingsState (categoryName, settingsData) =
    match stored_values (default [] (dict_get settingsState categoryName)) settingsData with
    | Some group => dict_set categoryName group settingsState
    | None => settingsState
    end.
Proof.
  unfold convert_group, stored_values. cbn [fst snd].
  rewrite (foldl_bind (convert_parameter categoryName) parameters).
  fold (form_parameters settingsData).
  destruct (form_parameters settingsData) as [|parameter inputs]; [done|].
  by rewrite convert_parameters.
Qed.

Lemma convert_group_other settingsState group other :
  other ≠ group.1 →
  dict_get (convert_group settingsState group) other = dict_get settingsState other.
Proof.
  destruct group as [categoryName settingsData]. intros Hother.
  rewrite convert_group_run. destruct (stored_values _ _); [|done].
  by apply dict_get_set_ne.
Qed.

Lemma convert_group_wf settingsState group :
  dict_wf settingsState → dict_wf (convert_group settingsState group).
Proof.
  destruct group as [categoryName settingsData]. rewrite convert_group_run.
  destruct (stored_values _ _); auto using dict_wf_set.
Qed.

Lemma convertFormDataToState_wf settingsFormData :
  dict_wf (convertFormDataToState settingsFormData).
Proof.
  change (convertFormDataToState settingsFormData)
    with (foldl convert_group [] settingsFormData).
  generalize (dict_wf_nil (V:=Dictionary TObsValue)). generalize ([] : ISettingsState).
  induction settingsFormData as [|group forms IH]; intros settingsState Hwf; [done|].
  by apply IH, convert_group_wf.
Qed.

(** What the converted state holds under a category, from any state the
    conversion starts with. *)
Lemma foldl_convert_group settingsFormData settingsState categoryName :
  dict_wf settingsFormData →
  dict_get (foldl convert_group settingsState settingsFormData) categoryName =
    match dict_get settingsFormData categoryName ≫=
            stored_values (default [] (dict_get settingsState categoryName)) with
    | Some group => Some group
    | None => dict_get settingsState categoryName
    end.
Proof.
  revert settingsState.
  induction settingsFormData as [|[key settingsData] forms IH]; intros settingsState;
    [done|].
  intros [Hkey Hforms]%NoDup_cons. cbn [foldl dict_get]. rewrite IH by done.
  case_decide as Hcat; [subst key|].
  - assert (dict_get forms categoryName = None) as -> by by apply dict_get_None.
    cbn [mbind option_bind].
    rewrite convert_group_run. destruct (stored_values _ _); [|done].
    by rewrite dict_get_set_eq.
  - by rewrite convert_group_other.
Qed.

Lemma convertFormDataToState_get settingsFormData categoryName :
  dict_wf settingsFormData →
  dict_get (convertFormDataToState settingsFormData) categoryName =
    dict_get settingsFormData categoryName ≫= stored_values [].
Proof.
  intros Hwf. change (convertFormDataToState settingsFormData)
    with (foldl convert_group [] settingsFormData).
  rewrite foldl_convert_group by done. by destruct (_ ≫= _).
Qed.

Lemma loadSettingsIntoStore_forms_Normal env forms categories settingsFormData :
  Forall (λ categoryName, getSettingsFormData env categoryName = Normal (forms categoryName))
    categories →
  loadSettingsIntoStore_forms env categories settingsFormData =
    Normal (collect_forms forms categories settingsFormData).
Proof.
  intros Hforms. revert settingsFormData.
  induction Hforms as [|categoryName categories Hform _ IH]; intros settingsFormData;
    [done|].
  cbn [loadSettingsIntoStore_forms]. by rewrite Hform, IH.
Qed.

Lemma loadSettingsIntoStore_forms_Throw env categories categoryName e settingsFormData :
  categoryName ∈ categories → getSettingsFormData env categoryName = Throw e →
  ∃ e', loadSettingsIntoStore_forms env categories settingsFormData = Throw e'.
Proof.
  intros Hcat Hthrow. revert settingsFormData.
  induction categories as [|other categories IH]; intros settingsFormData;
    [by apply elem_of_nil in Hcat|].
  cbn [loadSettingsIntoStore_forms]. apply elem_of_cons in Hcat as [<-|Hcat];
    [rewrite Hthrow; by eexists|].
  destruct (getSettingsFormData env other); [by apply IH | by eexists].
Qed.

Lemma collect_forms_wf forms categories settingsFormData :
  dict_wf settingsFormData → dict_wf (collect_forms forms categories settingsFormData).
Proof.
  revert settingsFormData. induction categories as [|categoryName categories IH];
    intros settingsFormData Hwf; [done|].
  by apply IH, dict_wf_set.
Qed.

Lemma collect_forms_get forms categories settingsFormData categoryName :
  dict_get (collect_forms forms categories settingsFormData) categoryName =
    if bool_decide (categoryName ∈ categories) then Some (forms categoryName)
    else dict_get settingsFormData categoryName.
Proof.
  revert settingsFormData. induction categories as [|other categories IH];
    intros settingsFormData; [done|].
  change (collect_forms forms (other :: categories) settingsFormData)
    with (collect_forms forms categories (dict_set other (forms other) settingsFormData)).
  rewrite IH. destruct (decide (categoryName = other)) as [->|Hother].
  - rewrite dict_get_set_eq, (bool_decide_eq_true_2 (other ∈ other :: _)) by left.
    by case_bool_decide.
  - rewrite dict_get_set_ne by done.
    rewrite (bool_decide_ext (categoryName ∈ other :: categories) (categoryName ∈ categories));
      [done|]. rewrite elem_of_cons. naive_solver.
Qed.

(** ** Hiding the optimized fields *)

Lemma set_visible_name visible' field parameter :
  name (set_visible visible' parameter) = field ↔ name parameter = field.
Proof. done. Qed.

Lemma hide_parameter_hides field parameters' hidden :
  hide_parameter field parameters' = Normal hidden → hidden_in field hidden.
Proof.
  unfold hide_parameter.
  destruct (list_find _ parameters') as [[index parameter]|] eqn:Hfind; [|done].
  intros [= <-]. exists index, (set_visible false parameter).
  rewrite (list_find_alter_Some _ _ _ index index parameter) by done.
  by rewrite decide_True.
Qed.

Lemma hide_parameter_keeps field other parameters' hidden :
  hide_parameter field parameters' = Normal hidden →
  hidden_in other parameters' → hidden_in other hidden.
Proof.
  unfold hide_parameter.
  destruct (list_find _ parameters') as [[index parameter]|] eqn:Hfind; [|done].
  intros [= <-] (found & parameter' & Hother & Hvisible).
  eexists found, _. rewrite (list_find_alter_Some _ _ _ index found parameter') by done.
  split; [done|]. by case_decide.
Qed.

Lemma hide_parameter_Throw field parameters' :
  Forall (λ parameter, name parameter ≠ field) parameters' →
  hide_parameter field parameters' = Throw TypeError.
Proof.
  intros Hnone. unfold hide_parameter.
  by rewrite (proj2 (list_find_None (λ parameter, name parameter = field) _) Hnone).
Qed.

Lemma hide_optimized_hides outputSettings settings form :
  hide_optimized outputSettings settings = Normal form →
  ∃ index category,
    list_find (λ category, nameSubCategory category = "Streaming") form =
      Some (index, category) ∧
    hidden_in (presetField outputSettings) (parameters category) ∧
    hidden_in (encoderSettingsField outputSettings) (parameters category).
Proof.
  unfold hide_optimized.
  destruct (list_find _ settings) as [[index category]|] eqn:Hfind; [|done].
  destruct (hide_parameter (presetField _) _) as [hidden|] eqn:Hpreset; [|done].
  destruct (hide_parameter (encoderSettingsField _) _) as [hidden'|] eqn:Hencoder; [|done].
  intros [= <-]. exists index, (set_parameters hidden' category).
  rewrite (list_find_alter_Some _ _ _ index index category) by done.
  rewrite decide_True by done. split_and!; [done|..]; cbn [parameters set_parameters].
  - eapply hide_parameter_keeps, hide_parameter_hides; done.
  - by eapply hide_parameter_hides.
Qed.

(** ** What the streaming service reads of the forms *)

Lemma reads_stored st categoryName settingsData field v :
  dict_get st categoryName = stored_values [] settingsData →
  NoDup (name <$> form_parameters settingsData) → reads settingsData field v →
  dict_get st categoryName ≫= (λ group, dict_get group field) = Some v.
Proof.
  intros -> Hnames (parameter & [= -> ->] & Hparameter)%list_elem_of_fmap.
  unfold stored_values.
  destruct (form_parameters settingsData) as [|first inputs] eqn:Hform;
    [by apply elem_of_nil in Hparameter|].
  cbn [mbind option_bind]. by apply (dict_get_foldl_set name value).
Qed.

Lemma get_bool_stored st categoryName settingsData field b :
  dict_get st categoryName = stored_values [] settingsData →
  NoDup (name <$> form_parameters settingsData) → reads settingsData field (ObsBool b) →
  get_bool st categoryName field = Some b.
Proof.
  intros Hst Hnames Hreads. unfold get_bool.
  by rewrite (reads_stored _ _ settingsData _ (ObsBool b)).
Qed.

Lemma get_number_stored st categoryName settingsData field n :
  dict_get st categoryName = stored_values [] settingsData →
  NoDup (name <$> form_parameters settingsData) → reads settingsData field (ObsNumber n) →
  get_number st categoryName field = Some n.
Proof.
  intros Hst Hnames Hreads. unfold get_number.
  by rewrite (reads_stored _ _ settingsData _ (ObsNumber n)).
Qed.

(** A store that holds the two forms gives the streaming service its
    settings. *)
Lemma streamSettings_stored st general advanced settings :
  dict_get st "General" = stored_values [] general →
  dict_get st "Advanced" = stored_values [] advanced →
  stream_forms general advanced settings → streamSettings st = Some settings.
Proof.
  intros Hgeneral Hadvanced []. unfold streamSettings.
  repeat (erewrite get_bool_stored by done; cbn [mbind option_bind]).
  erewrite get_number_stored by done. by destruct settings.
Qed.

Lemma setSettings_stored env categoryName settingsData st :
  categoryName ≠ "Audio" → form_parameters settingsData ≠ [] →
  let st' := final (setSettings env categoryName settingsData st) in
  dict_get st' categoryName = stored_values [] settingsData ∧
  ∀ other, other ≠ categoryName → dict_get st' other = dict_get st other.
Proof.
  intros Hcat Hform st'. unfold st', stored_values. rewrite setSettings_engine_run by done.
  cbn [final]. destruct (form_parameters settingsData); [done|].
  rewrite dict_get_set_eq. split; [done|]. intros other Hother. by apply dict_get_set_ne.
Qed.

(** * Properties *)

(** C15: What is set is read back.  After [setSettings] of a category other
    than [Audio], the engine was handed the form converted back, and the
    store holds under the category exactly the values of the form by name:
    every parameter whose name occurs once in the form is read back with its
    value, the values the store held under the category before are gone, and
    the other categories are as they were. *)
Theorem setSettings_roundtrip (env : Env) (categoryName : string)
    (settingsData : list ISettingsSubCategory) (parameter : IFormInput)
    (st : ISettingsState) :
  categoryName ≠ "Audio" → parameter ∈ form_parameters settingsData →
  NoDup (name <$> form_parameters settingsData) →
  let st' := final (setSettings env categoryName settingsData st) in
  dict_get st' categoryName = Some (form_values [] (form_parameters settingsData)) ∧
  (dict_get st' categoryName ≫= λ group, dict_get group (name parameter)) =
    Some (value parameter) ∧
  ∀ other, other ≠ categoryName → dict_get st' other = dict_get st other.
Proof.
  intros Hcat Hparameter Hnames st'. unfold st'. rewrite setSettings_engine_run by done.
  cbn [final]. destruct (form_parameters settingsData) as [|first inputs] eqn:Hform;
    [by apply elem_of_nil in Hparameter|].
  rewrite dict_get_set_eq. split_and!; [done| |].
  - cbn [mbind option_bind]. by apply (dict_get_foldl_set name value).
  - intros other Hother. by apply dict_get_set_ne.
Qed.

(** C25: The audio form is well typed.  Whatever the devices and the sources,
    the form of the [Audio] category is one group, [Untitled], of five
    inputs; the input at index [ind] is the one written back for channel
    [ind + 1]: it has the name of that channel, is a shown and enabled list
    whose first option is [Disabled] with value [null] and whose other
    options are the devices of the kind of the channel (outputs for the
    first two, inputs for the others), in the order the audio service
    lists them, and its value is the device of the source that sits in the
    channel, or [null] when the channel has none. *)
Theorem audio_form_typed (env : Env) :
  ∃ inputs,
    getAudioSettingsFormData env =
      [{| nameSubCategory := "Untitled"; parameters := inputs |}] ∧
    length inputs = 5%nat ∧
    ∀ ind parameter, inputs !! ind = Some parameter → audio_input_typed env ind parameter.
Proof.
  exists (audio_inputs env). split_and!; [done..|]. apply audio_inputs_typed.
Qed.

(** Writing back the audio form that was just read creates and removes
    nothing.  When every source in one of the five channels sits on a device
    the audio service lists, [setSettings('Audio', form)] of the form
    [getSettingsFormData('Audio')] returned completes, leaves the store as it
    is, and its only calls are [updateSettings] of the sources already in
    the channels, each with the device it already has. *)
Theorem audio_write_back (env : Env) (st : ISettingsState) :
  Forall (on_known_device env) (channels OUTPUT_1 INPUT_3) →
  ∃ form,
    getSettingsFormData env "Audio" = Normal form ∧
    setSettings env "Audio" form st =
      Run (Normal tt) st
        (zip_with (write_back env) (channels OUTPUT_1 INPUT_3) audio_names ≫= id).
Proof.
  intros Hknown. exists (getAudioSettingsFormData env). split; [done|].
  by apply setAudioSettings_write_back.
Qed.

(** A source created for a channel does not get the chosen device.  When
    no source sits in channel [ind + 1] and the input at index [ind] holds
    the id of a listed device, the call made is [createSource] with the
    display name, the capture type of the channel and the channel, and with
    empty settings: the id chosen in the form is not handed on. *)
Theorem created_source_lacks_device (env : Env) (ind : nat) (deviceForm : IFormInput)
    (device : IAudioDevice) (st : ISettingsState) :
  channel_source env (Z.of_nat ind + 1) = None →
  value_device env (value deviceForm) = Some device →
  setAudioSettings_device env ind deviceForm st =
    Run (Normal tt) st
      [sourcesService_createSource
         (if bool_decide (device_id device = "default") then name deviceForm
          else device_description device)
         (if bool_decide (ind < 2)%nat then "wasapi_output_capture"
          else "wasapi_input_capture")
         [] (Z.of_nat ind + 1)].
Proof.
  intros Hsource Hdevice. unfold setAudioSettings_device.
  pose proof (value_device_not_null env _ (mk_is_Some _ _ Hdevice)) as Hnull.
  unfold channel_source, value_device in *. rewrite Hsource.
  assert (includes [OUTPUT_1; OUTPUT_2] (Z.of_nat ind + 1) = bool_decide (ind < 2)%nat)
    as ->.
  { unfold includes, OUTPUT_1, OUTPUT_2. apply bool_decide_ext.
    rewrite !elem_of_cons, elem_of_nil. lia. }
  by destruct (value deviceForm); cbn; rewrite ?Hdevice.
Qed.

(** An input that names a device the audio service does not list makes
    the write fail.  The parameter's value is not [null] and no device has
    it as id: [setAudioSettings] reads [device.id] of [undefined], a
    [TypeError], whether or not a source sits in the channel; nothing is
    called for this parameter and the store is as it was. *)
Theorem unknown_device_throws (env : Env) (ind : nat) (deviceForm : IFormInput)
    (st : ISettingsState) :
  value deviceForm ≠ ObsNull → value_device env (value deviceForm) = None →
  setAudioSettings_device env ind deviceForm st = Run (Throw TypeError) st [].
Proof.
  intros Hnull Hdevice. unfold setAudioSettings_device, value_device in *.
  by destruct (js_find _ (getSources env)), (value deviceForm); cbn; rewrite ?Hdevice.
Qed.

(** Loading puts the forms of all categories in the store.  When
    [getSettingsFormData] returns a form for every category of
    [getCategories], [loadSettingsIntoStore] completes without a call, and
    afterwards the store holds under each category that has a parameter the
    values of its form by name, and under any name that is not a category
    what it held before. *)
Theorem loadSettingsIntoStore_loads (env : Env)
    (forms : string → list ISettingsSubCategory) (st : ISettingsState) :
  Forall (λ categoryName, getSettingsFormData env categoryName = Normal (forms categoryName))
    (getCategories env) →
  let r := loadSettingsIntoStore env st in
  result r = Normal tt ∧ trace r = [] ∧
  ∀ categoryName,
    dict_get (final r) categoryName =
      if bool_decide (categoryName ∈ getCategories env ∧
                      form_parameters (forms categoryName) ≠ [])
      then stored_values [] (forms categoryName)
      else dict_get st categoryName.
Proof.
  intros Hforms r. unfold r, loadSettingsIntoStore.
  rewrite svc_bind_try_gets, (loadSettingsIntoStore_forms_Normal env forms) by done.
  split_and!; [done..|]. intros categoryName. unfold SET_SETTINGS, svc_modify.
  cbn [final].
  pose proof (collect_forms_wf forms (getCategories env) [] dict_wf_nil) as Hwf.
  rewrite dict_get_assign, convertFormDataToState_get, collect_forms_get by
    (done || by apply convertFormDataToState_wf).
  unfold stored_values. repeat case_bool_decide; try done; cbn [mbind option_bind];
    destruct (form_parameters _); naive_solver.
Qed.

(** A form that cannot be read keeps the store as it was.  When
    [getSettingsFormData] throws for one of the categories,
    [loadSettingsIntoStore], and so [init], throws: no mutation is
    committed, and the store holds none of the forms read before the one
    that failed. *)
Theorem load_failure_keeps_store (env : Env) (categoryName : string) (e : JsError)
    (st : ISettingsState) :
  categoryName ∈ getCategories env → getSettingsFormData env categoryName = Throw e →
  ∃ e', init env st = Run (Throw e') st [].
Proof.
  intros Hcat Hthrow. unfold init, loadSettingsIntoStore.
  destruct (loadSettingsIntoStore_forms_Throw env _ _ e [] Hcat Hthrow) as [e' He'].
  exists e'. by rewrite svc_bind_try_gets, He'.
Qed.

(** With the optimized encoding in use the Output form hides the two
    fields.  When [getSettingsFormData('Output')] returns, the first group
    named [Streaming] of the form is there and the search by name for the
    preset field and for the encoder settings field, as the form component
    does it, finds parameters that are not visible. *)
Theorem optimized_fields_hidden (env : Env) (form : list ISettingsSubCategory) :
  getIsUsingEncodingOptimizations env = true →
  getSettingsFormData env "Output" = Normal form →
  ∃ index category,
    list_find (λ category, nameSubCategory category = "Streaming") form =
      Some (index, category) ∧
    hidden_in (presetField (getCurrentOutputSettings env)) (parameters category) ∧
    hidden_in (encoderSettingsField (getCurrentOutputSettings env)) (parameters category).
Proof.
  unfold getSettingsFormData. intros ->. cbn. apply hide_optimized_hides.
Qed.

(** An Output form without the expected fields cannot be read.  With the
    optimized encoding in use, when the engine's Output form has no group
    named [Streaming], or its [Streaming] group has no parameter with the
    name of the preset field, [getSettingsFormData('Output')] throws a
    [TypeError] (the index is -1 and a field of [undefined] is read). *)
Theorem optimized_form_missing_throws (env : Env) :
  getIsUsingEncodingOptimizations env = true →
  let settings :=
    (λ group, set_parameters
                (obsValuesToInputValues env (parameters group) BLACK_LIST_NAMES) group)
      <$> OBS_settings_getSettings env "Output" in
  (∀ group, group ∈ settings → nameSubCategory group = "Streaming" →
     Forall (λ parameter, name parameter ≠ presetField (getCurrentOutputSettings env))
       (parameters group)) →
  getSettingsFormData env "Output" = Throw TypeError.
Proof.
  intros Hopt settings Hmissing. unfold getSettingsFormData. rewrite Hopt. cbn.
  fold settings. unfold hide_optimized.
  destruct (list_find _ settings) as [[index category]|] eqn:Hfind; [|done].
  apply list_find_Some in Hfind as (Hlookup%list_elem_of_lookup_2 & Hname & _).
  by rewrite hide_parameter_Throw by auto.
Qed.

(** C30: What is set reaches the streaming service.  After
    [setSettings('General', general)] and [setSettings('Advanced', advanced)]
    of forms whose parameter names are distinct and that hold the six
    settings the streaming service reads, each at its declared type, the
    store gives the streaming service exactly those settings. *)
Theorem set_settings_reach_streaming (env : Env)
    (general advanced : list ISettingsSubCategory)
    (settings : Streaming.StreamSettings) (st : ISettingsState) :
  stream_forms general advanced settings →
  streamSettings
    (final ((setSettings env "General" general;;
             setSettings env "Advanced" advanced) st)) = Some settings.
Proof.
  intros Hforms.
  assert (form_parameters general ≠ [] ∧ form_parameters advanced ≠ []) as [Hg Ha].
  { destruct Hforms as [_ _ Hg _ _ _ Ha _]. unfold reads in *.
    split; intros Hnil; rewrite Hnil in *; by eapply elem_of_nil. }
  rewrite (svc_bind_run _ _ _ _ _ _
             (setSettings_engine_run env "General" general st ltac:(done))).
  rewrite setSettings_engine_run, prepend_Run by done. cbn [final].
  apply (streamSettings_stored _ general advanced); [..|done]; unfold stored_values;
    destruct (form_parameters general), (form_parameters advanced); try done.
  - by rewrite dict_get_set_ne, dict_get_set_eq.
  - by rewrite dict_get_set_eq.
Qed.

(** ** The theorems at a concrete installation *)

Definition bool_input (field : string) (b : bool) : IFormInput :=
  {| name := field; value := ObsBool b; description := field; type := "OBS_PROPERTY_BOOL";
     enabled := true; visible := true; options := [] |}.

Definition text_input (field text : string) : IFormInput :=
  {| name := field; value := ObsString text; description := field;
     type := "OBS_PROPERTY_EDIT_TEXT"; enabled := true; visible := true; options := [] |}.

Definition general_form : list ISettingsSubCategory :=
  [{| nameSubCategory := "Output";
      parameters := [bool_input "WarnBeforeStartingStream" true;
                     bool_input "WarnBeforeStoppingStream" false;
                     bool_input "RecordWhenStreaming" true;
                     bool_input "KeepRecordingWhenStreamStops" false] |}].

Definition advanced_form : list ISettingsSubCategory :=
  [{| nameSubCategory := "Stream Delay";
      parameters := [bool_input "DelayEnable" true;
                     {| name := "DelaySec"; value := ObsNumber 20; description := "Duration";
                        type := "OBS_PROPERTY_INT"; enabled := true; visible := true;
                        options := [] |}] |}].

Definition output_form : list ISettingsSubCategory :=
  [{| nameSubCategory := "Untitled"; parameters := [text_input "Mode" "Simple"] |};
   {| nameSubCategory := "Streaming";
      parameters := [text_input "VBitrate" "2500"; text_input "Preset" "veryfast";
                     text_input "x264Settings" ""] |}].

Definition test_env : Env :=
  {| OBS_settings_getListCategories := ["General"; "Output"; "Advanced"];
     OBS_settings_getSettings := λ categoryName,
       if bool_decide (categoryName = "General") then general_form
       else if bool_decide (categoryName = "Output") then output_form
       else if bool_decide (categoryName = "Advanced") then advanced_form
       else [];
     obsValuesToInputValues := λ inputs _, inputs;
     inputValuesToObsValues := λ inputs, inputs;
     isDevMode := false;
     argv := [];
     getIsUsingEncodingOptimizations := true;
     getCurrentOutputSettings :=
       {| presetField := "Preset"; encoderSettingsField := "x264Settings" |};
     getDevices :=
       [{| device_id := "default"; device_description := "Default";
           device_type := output |};
        {| device_id := "mic-1"; device_description := "Microphone";
           device_type := input |}];
     getSources :=
       [{| sourceId := "desktop"; channel := Some 1;
           settings_device_id := ObsString "default" |};
        {| sourceId := "webcam"; channel := None; settings_device_id := ObsNull |};
        {| sourceId := "mic"; channel := Some 3;
           settings_device_id := ObsString "mic-1" |}] |}.

(** The engine of [test_env] with an Output form that has no [Streaming]
    group. *)
Definition simple_output_env : Env :=
  {| OBS_settings_getListCategories := OBS_settings_getListCategories test_env;
     OBS_settings_getSettings := λ categoryName,
       if bool_decide (categoryName = "Output") then take 1 output_form
       else OBS_settings_getSettings test_env categoryName;
     obsValuesToInputValues := obsValuesToInputValues test_env;
     inputValuesToObsValues := inputValuesToObsValues test_env;
     isDevMode := false;
     argv := [];
     getIsUsingEncodingOptimizations := true;
     getCurrentOutputSettings := getCurrentOutputSettings test_env;
     getDevices := getDevices test_env;
     getSources := getSources test_env |}.

Definition test_settings : Streaming.StreamSettings :=
  {| Streaming.WarnBeforeStartingStream := true;
     Streaming.RecordWhenStreaming := true;
     Streaming.WarnBeforeStoppingStream := false;
     Streaming.KeepRecordingWhenStreamStops := false;
     Streaming.DelayEnable := true;
     Streaming.DelaySec := 20 |}.

Lemma test_env_known : Forall (on_known_device test_env) (channels OUTPUT_1 INPUT_3).
Proof.
  repeat apply Forall_cons_2; [..|done]; intros source Hsource; vm_compute in Hsource;
    simplify_eq; by eexists.
Defined.

Lemma test_stream_forms : stream_forms general_form advanced_form test_settings.
Proof.
  split; unfold reads; compute_done.
Defined.

Lemma setSettings_roundtrip_witness :
  let st' := final (setSettings test_env "General" general_form initialState) in
  dict_get st' "General" = Some (form_values [] (form_parameters general_form)) ∧
  (dict_get st' "General" ≫= λ group, dict_get group "RecordWhenStreaming") =
    Some (ObsBool true) ∧
  ∀ other, other ≠ "General" → dict_get st' other = dict_get initialState other.
Proof.
  apply (setSettings_roundtrip test_env "General" general_form
           (bool_input "RecordWhenStreaming" true) initialState); compute_done.
Defined.

Lemma audio_write_back_witness :
  ∃ form,
    getSettingsFormData test_env "Audio" = Normal form ∧
    setSettings test_env "Audio" form initialState =
      Run (Normal tt) initialState
        [source_updateSettings "desktop" (ObsString "default") "Desktop Audio ";
         source_updateSettings "mic" (ObsString "mic-1") "Microphone"].
Proof. exact (audio_write_back test_env initialState test_env_known). Defined.

Lemma created_source_lacks_device_witness :
  setAudioSettings_device test_env 3
    {| name := "Mic/Aux 2"; value := ObsString "mic-1";
       description := "Mic/Auxiliary device 2"; type := "OBS_PROPERTY_LIST";
       enabled := true; visible := true; options := [] |} initialState =
    Run (Normal tt) initialState
      [sourcesService_createSource "Microphone" "wasapi_input_capture" [] 4].
Proof.
  by apply (created_source_lacks_device test_env 3 _
              {| device_id := "mic-1"; device_description := "Microphone";
                 device_type := input |}).
Defined.

Lemma unknown_device_throws_witness :
  setAudioSettings_device test_env 0 (text_input "Desktop Audio " "unplugged")
    initialState = Run (Throw TypeError) initialState [].
Proof. by apply unknown_device_throws. Defined.

Lemma loadSettingsIntoStore_loads_witness :
  let r := loadSettingsIntoStore test_env initialState in
  result r = Normal tt ∧ trace r = [] ∧
  ∀ categoryName,
    dict_get (final r) categoryName =
      if bool_decide (categoryName ∈ getCategories test_env ∧
                      form_parameters
                        (default [] (completion_value
                           (getSettingsFormData test_env categoryName))) ≠ [])
      then stored_values []
             (default [] (completion_value (getSettingsFormData test_env categoryName)))
      else dict_get initialState categoryName.
Proof.
  apply (loadSettingsIntoStore_loads test_env
           (λ categoryName,
              default [] (completion_value (getSettingsFormData test_env categoryName)))).
  by repeat apply Forall_cons_2.
Defined.

Lemma load_failure_keeps_store_witness :
  ∃ e', init simple_output_env initialState = Run (Throw e') initialState [].
Proof. apply (load_failure_keeps_store simple_output_env "Output" TypeError); compute_done. Defined.

Lemma optimized_fields_hidden_witness :
  ∃ index category,
    list_find (λ category, nameSubCategory category = "Streaming")
      (alter (set_parameters
                [text_input "VBitrate" "2500";
                 set_visible false (text_input "Preset" "veryfast");
                 set_visible false (text_input "x264Settings" "")]) 1%nat output_form) =
      Some (index, category) ∧
    hidden_in "Preset" (parameters category) ∧
    hidden_in "x264Settings" (parameters category).
Proof. by apply (optimized_fields_hidden test_env). Defined.

Lemma optimized_form_missing_throws_witness :
  getSettingsFormData simple_output_env "Output" = Throw TypeError.
Proof.
  apply optimized_form_missing_throws; [done|].
  intros group [->|[]%elem_of_nil]%elem_of_cons. by intros [=].
Defined.

Lemma set_settings_reach_streaming_witness :
  streamSettings
    (final ((setSettings test_env "General" general_form;;
             setSettings test_env "Advanced" advanced_form) initialState)) =
  Some test_settings.
Proof. exact (set_settings_reach_streaming test_env _ _ _ initialState test_stream_forms). Defined.

End Settings.
