(* ===== verification/Mixer.v ===== *)
(** * MixerService: the Mixer platform

    Models [MixerService], the first document of [src/unnamed/part_002]
    (lines 1-194): the service that talks to the API of the Mixer platform
    for the application.  Its store slice is the map [typeIdMap] from the
    names of games to their ids on the platform, filled by [searchGames] and
    read by [putChannelInfo].

    Every method but the getters starts a request with [fetch] and returns a
    promise.  The model keeps the promises that are pending in the state
    ([pending]); the environment settles one with the event [Settle], giving
    the parsed body of the response, or [Failure] when [fetch] rejected or
    [handleErrors] rejected the response.  What the caller of a method gets
    is an effect of the trace ([promise_resolved], [promise_rejected]); a
    rejection nobody handles is [unhandled_rejection].

    [setupStreamSettings] writes the stream key into the settings of the
    output engine: the service holds the store of [Settings.v] as a part of
    its state and runs [Settings.setSettings] on it ([svc_lift]).

    The user service, the hosts service, [fetch], and the decorator
    [requiresToken] and the function [handleErrors] of [util/requests] are
    not among the sources.  What the code reads of them is the record [Env];
    what it calls is an effect.  The methods are modelled as they are
    written; the answer a pending request is settled with is the outcome of
    the decorated call, and a request the decorator may repeat is not in the
    trace.  Properties that [typeIdMap] inherits from [Object.prototype]
    are not modelled. *)

From Stdlib Require Import ZArith Lia String.
From stdpp Require Import base tactics option list strings pretty.
From S2P Require Import Prelude JsObject.
From S2P Require Import StreamInfo Settings.

Set Warnings "-clear-no-such-hyp".

Local Open Scope string_scope.
Local Open Scope list_scope.
Local Open Scope Z_scope.
Local Open Scope svc_scope.

Module Mixer.

(** ** Data *)

Record IMixerServiceState : Type := mkState {
  typeIdMap : Dictionary Z;
}.

Definition initialState : IMixerServiceState := {| typeIdMap := [] |}.

(** What the service reads of [userService.platform]. *)
Record IPlatformAuth : Type := mkPlatformAuth {
  username : string;
  token : string;
  id : string;
}.

(** [json.type] of the details of a channel. *)
Record IChannelType : Type := mkChannelType {
  type_name : string;
}.

(** What the service reads of the details of a channel. *)
Record IChannelDetails : Type := mkChannelDetails {
  json_id : Z;
  json_streamKey : string;
  json_name : string;
  json_type : option IChannelType;
}.

(** A game of the answer to a search. *)
Record IGame : Type := mkGame {
  game_name : string;
  game_id : Z;
}.

(** The data [putChannelInfo] sends; [typeId] is [None] when the object has
    no such property. *)
Record IPatchData : Type := mkPatchData {
  data_name : string;
  data_typeId : option Z;
}.

Definition Headers : Type := list (string * string).

(** The method that waits for the details of the channel. *)
Inductive Caller : Type :=
| by_fetchRawChannelInfo
| by_fetchStreamKey
| by_setupStreamSettings
| by_fetchChannelInfo
| by_getChatUrl.

(** A promise that is pending, with what its handlers need. *)
Inductive Task : Type :=
| AwaitChannelDetails (caller : Caller)
| AwaitNewToken
| AwaitViewerCount
| AwaitPatch
| AwaitGames.

(** What a promise is resolved with. *)
Inductive Value : Type :=
| VUndefined
| VBool (b : bool)
| VNumber (n : Z)
| VString (s : string)
| VChannelInfo (info : StreamInfo.IChannelInfo)
| VChannelDetails (json : IChannelDetails)
| VGames (games : list IGame).

(** The answer to a request: the parsed body, or [Failure] when the chain
    up to [response.json()] rejected. *)
Inductive Answer : Type :=
| ChannelDetails (json : IChannelDetails)
| NewToken (access_token : string)
| ViewerCount (viewersCurrent : Z)
| Patched
| Games (response : list IGame)
| Failure.

Record Service : Type := mkService {
  state : IMixerServiceState;
  settings : Settings.ISettingsState;
  pending : list Task;
}.

Definition initialService : Service :=
  {| state := initialState; settings := Settings.initialState; pending := [] |}.

(** What the service reads of the user, of the hosts and of the clock, and
    what the settings service reads. *)
Record Env : Type := mkEnv {
  hosts_streamlabs : string;
  Date_now : Z;
  user_platform : option IPlatformAuth;
  user_widgetToken : string;
  user_channelId : string;
  settingsEnv : Settings.Env;
}.

Inductive MixerEffect : Type :=
| fetch (url method : string) (headers : Headers) (body : option IPatchData)
| userService_updatePlatformToken (access_token : string)
| userService_updatePlatformChannelId (id : Z)
| settingsService (effect : Settings.SettingsEffect)
| promise_resolved (task : Task) (value : Value)
| promise_rejected (task : Task)
| unhandled_rejection (task : Task).

#[export] Instance IPlatformAuth_eq_dec : EqDecision IPlatformAuth.
Proof. solve_decision. Defined.
#[export] Instance IChannelType_eq_dec : EqDecision IChannelType.
Proof. solve_decision. Defined.
#[export] Instance IChannelDetails_eq_dec : EqDecision IChannelDetails.
Proof. solve_decision. Defined.
#[export] Instance IGame_eq_dec : EqDecision IGame.
Proof. solve_decision. Defined.
#[export] Instance IPatchData_eq_dec : EqDecision IPatchData.
Proof. solve_decision. Defined.
#[export] Instance Caller_eq_dec : EqDecision Caller.
Proof. solve_decision. Defined.
#[export] Instance Task_eq_dec : EqDecision Task.
Proof. solve_decision. Defined.
#[local] Existing Instance StreamInfo.IChannelInfo_eq_dec.
#[local] Existing Instance Settings.SettingsEffect_eq_dec.
#[local] Existing Instance Settings.TObsValue_eq_dec.
#[local] Existing Instance Settings.IListOption_eq_dec.
#[local] Existing Instance Settings.IFormInput_eq_dec.
#[export] Instance Value_eq_dec : EqDecision Value.
Proof. solve_decision. Defined.
#[export] Instance Answer_eq_dec : EqDecision Answer.
Proof. solve_decision. Defined.
#[export] Instance MixerEffect_eq_dec : EqDecision MixerEffect.
Proof. solve_decision. Defined.

Definition M (A : Type) : Type := svc Service MixerEffect A.

(** ** The store *)

Definition with_state (f : IMixerServiceState → IMixerServiceState) (s : Service) :
    Service :=
  {| state := f (state s); settings := settings s; pending := pending s |}.

Definition with_settings (st : Settings.ISettingsState) (s : Service) : Service :=
  {| state := state s; settings := st; pending := pending s |}.

(** [ADD_GAME_MAPPING(game, id)] *)
Definition ADD_GAME_MAPPING (game : string) (id' : Z) : Service → Service :=
  with_state (λ st, {| typeIdMap := dict_set game id' (typeIdMap st) |}).

(** ** Getters *)

Definition apiBase : string := "https://mixer.com/api/v1/".

(** [authUrl] *)
Definition authUrl (env : Env) : string :=
  let host := hosts_streamlabs env in
  let query :=
    "_=" +:+ pretty (Date_now env) +:+
    "&skip_splash=true&external=electron&mixer&force_verify&origin=slobs" in
  "https://" +:+ host +:+ "/slobs/login?" +:+ query.

(** [userService.platform.<field>]: a [TypeError] without a platform. *)
Definition platform_field (field : IPlatformAuth → string) (env : Env) :
    completion string :=
  match user_platform env with
  | Some platform => Normal (field platform)
  | None => Throw TypeError
  end.

Definition oauthToken : Env → completion string := platform_field token.

Definition mixerUsername : Env → completion string := platform_field username.

Definition mixerId : Env → completion string := platform_field id.

Definition widgetToken (env : Env) : string := user_widgetToken env.

Definition channelId (env : Env) : string := user_channelId env.

(** [getHeaders(authorized = false)] *)
Definition getHeaders (env : Env) (authorized : bool) : completion Headers :=
  let headers := [("Content-Type", "application/json")] in
  if authorized then
    match oauthToken env with
    | Normal token' => Normal (headers ++ [("Authorization", "Bearer " +:+ token')])
    | Throw e => Throw e
    end
  else Normal headers.

(** ** Pending promises *)

Definition add_task (task : Task) (s : Service) : Service :=
  {| state := state s; settings := settings s; pending := pending s ++ [task] |}.

Definition remove_task (i : nat) (s : Service) : Service :=
  {| state := state s; settings := settings s; pending := delete i (pending s) |}.

Definition defer (task : Task) : M unit := svc_modify (add_task task).

(** ** The methods, up to the request *)

(** [fetchNewToken()] *)
Definition fetchNewToken (env : Env) : M unit :=
  let host := hosts_streamlabs env in
  let url :=
    "https://" +:+ host +:+ "/api/v5/slobs/mixer/refresh?token=" +:+ widgetToken env in
  svc_emit (fetch url "GET" [] None);;
  defer AwaitNewToken.

(** [fetchRawChannelInfo()], for the method [caller] that chains on it. *)
Definition fetchRawChannelInfo (env : Env) (caller : Caller) : M unit :=
  let* headers := svc_try_gets (λ _, getHeaders env true) in
  let* username' := svc_try_gets (λ _, mixerUsername env) in
  svc_emit (fetch (apiBase +:+ "channels/" +:+ username' +:+ "/details") "GET"
              headers None);;
  defer (AwaitChannelDetails caller).

(** [fetchStreamKey()] *)
Definition fetchStreamKey (env : Env) : M unit :=
  fetchRawChannelInfo env by_fetchStreamKey.

(** [setupStreamSettings(auth)] *)
Definition setupStreamSettings (env : Env) : M unit :=
  fetchRawChannelInfo env by_setupStreamSettings.

(** [fetchChannelInfo()] *)
Definition fetchChannelInfo (env : Env) : M unit :=
  fetchRawChannelInfo env by_fetchChannelInfo.

(** [fetchViewerCount()] *)
Definition fetchViewerCount (env : Env) : M unit :=
  let* headers := svc_try_gets (λ _, getHeaders env false) in
  let* username' := svc_try_gets (λ _, mixerUsername env) in
  svc_emit (fetch (apiBase +:+ "channels/" +:+ username') "GET" headers None);;
  defer AwaitViewerCount.

(** [this.state.typeIdMap[streamGame]], when it is truthy. *)
Definition mapped_typeId (st : IMixerServiceState) (streamGame : string) : option Z :=
  match dict_get (typeIdMap st) streamGame with
  | Some id' => if bool_decide (id' ≠ 0) then Some id' else None
  | None => None
  end.

(** [putChannelInfo(streamTitle, streamGame)] *)
Definition putChannelInfo (env : Env) (streamTitle streamGame : string) : M unit :=
  let* headers := svc_try_gets (λ _, getHeaders env true) in
  let* typeId := svc_gets (λ s, mapped_typeId (state s) streamGame) in
  let data := {| data_name := streamTitle; data_typeId := typeId |} in
  svc_emit (fetch (apiBase +:+ "channels/" +:+ channelId env) "PATCH" headers (Some data));;
  defer AwaitPatch.

(** [searchGames(searchString)] *)
Definition searchGames (env : Env) (searchString : string) : M unit :=
  let* headers := svc_try_gets (λ _, getHeaders env false) in
  svc_emit (fetch (apiBase +:+ "types?limit=10&noCount=1&scope=all&query=" +:+ searchString)
              "GET" headers None);;
  defer AwaitGames.

(** [getChatUrl(mode)]: what the executor throws rejects the promise. *)
Definition getChatUrl (env : Env) (mode : string) : M unit :=
  svc_catch (fetchRawChannelInfo env by_getChatUrl)
    (λ _, svc_emit (promise_rejected (AwaitChannelDetails by_getChatUrl))).

(** ** The handlers of the promises *)

(** The handler of [fetchStreamKey]: the key of the stream. *)
Definition streamKey (json : IChannelDetails) : string :=
  pretty (json_id json) +:+ "-" +:+ json_streamKey json.

(** The handler of [fetchChannelInfo] *)
Definition channelInfo (json : IChannelDetails) : StreamInfo.IChannelInfo :=
  let gameTitle :=
    match json_type json with
    | Some type' => if bool_decide (type_name type' ≠ "") then type_name type' else ""
    | None => ""
    end in
  {| StreamInfo.title := json_name json; StreamInfo.game := gameTitle |}.

(** The body of the inner loop of [setupStreamSettings]. *)
Definition setup_parameter (key : string) (parameter : Settings.IFormInput) :
    Settings.IFormInput :=
  let parameter :=
    if bool_decide (Settings.name parameter = "service")
    then Settings.set_value (Settings.ObsString "Mixer.com - FTL") parameter
    else parameter in
  if bool_decide (Settings.name parameter = "key")
  then Settings.set_value (Settings.ObsString key) parameter
  else parameter.

(** The handler of [setupStreamSettings], given the key. *)
Definition setupStreamSettings_then (env : Env) (key : string) : M unit :=
  let* form :=
    svc_try_gets (λ _, Settings.getSettingsFormData (settingsEnv env) "Stream") in
  let form :=
    (λ subCategory,
       Settings.set_parameters
         (setup_parameter key <$> Settings.parameters subCategory) subCategory) <$> form in
  svc_lift settings with_settings settingsService
    (Settings.setSettings (settingsEnv env) "Stream" form).

(** The handlers chained on [fetchRawChannelInfo], by the method that
    chained them. *)
Definition channelDetails_then (env : Env) (caller : Caller) (json : IChannelDetails) :
    M unit :=
  let task := AwaitChannelDetails caller in
  svc_emit (userService_updatePlatformChannelId (json_id json));;
  match caller with
  | by_fetchRawChannelInfo => svc_emit (promise_resolved task (VChannelDetails json))
  | by_fetchStreamKey => svc_emit (promise_resolved task (VString (streamKey json)))
  | by_setupStreamSettings => setupStreamSettings_then env (streamKey json)
  | by_fetchChannelInfo =>
      svc_emit (promise_resolved task (VChannelInfo (channelInfo json)))
  | by_getChatUrl =>
      svc_emit (promise_resolved task
                  (VString ("https://mixer.com/embed/chat/" +:+ pretty (json_id json))))
  end.

(** A rejection of [fetchRawChannelInfo]: [setupStreamSettings] and
    [getChatUrl] chain no handler for it. *)
Definition channelDetails_rejected (caller : Caller) : M unit :=
  let task := AwaitChannelDetails caller in
  match caller with
  | by_setupStreamSettings | by_getChatUrl => svc_emit (unhandled_rejection task)
  | _ => svc_emit (promise_rejected task)
  end.

(** The handler of [searchGames] *)
Definition searchGames_then (response : list IGame) : M unit :=
  svc_forEach response (λ game, svc_modify (ADD_GAME_MAPPING (game_name game) (game_id game)));;
  svc_emit (promise_resolved AwaitGames (VGames response)).

(** ** The event loop *)

(** The code a settled promise runs. *)
Definition run_task (env : Env) (task : Task) (answer : Answer) : M unit :=
  match task, answer with
  | AwaitChannelDetails caller, ChannelDetails json => channelDetails_then env caller json
  | AwaitChannelDetails caller, Failure => channelDetails_rejected caller
  | AwaitNewToken, NewToken access_token =>
      svc_emit (userService_updatePlatformToken access_token);;
      svc_emit (promise_resolved task VUndefined)
  | AwaitViewerCount, ViewerCount viewersCurrent =>
      svc_emit (promise_resolved task (VNumber viewersCurrent))
  | AwaitPatch, Patched => svc_emit (promise_resolved task (VBool true))
  | AwaitGames, Games response => searchGames_then response
  | (AwaitNewToken | AwaitViewerCount | AwaitPatch | AwaitGames), Failure =>
      svc_emit (promise_rejected task)
  | _, _ => svc_ret tt
  end.

(** The answer is of the kind the promise waits for. *)
Definition answers (task : Task) (answer : Answer) : bool :=
  match task, answer with
  | AwaitChannelDetails _, ChannelDetails _
  | AwaitNewToken, NewToken _
  | AwaitViewerCount, ViewerCount _
  | AwaitPatch, Patched
  | AwaitGames, Games _
  | _, Failure => true
  | _, _ => false
  end.

(** The [i]-th pending promise is answered. *)
Definition settle (env : Env) (i : nat) (answer : Answer) : M unit :=
  let* waiting := svc_gets pending in
  match waiting !! i with
  | Some task =>
      if answers task answer then
        svc_modify (remove_task i);;
        run_task env task answer
      else svc_ret tt
  | None => svc_ret tt
  end.

Inductive Event : Type :=
| SetupStreamSettings
| FetchNewToken
| FetchRawChannelInfo
| FetchStreamKey
| FetchChannelInfo
| FetchViewerCount
| PutChannelInfo (streamTitle streamGame : string)
| SearchGames (searchString : string)
| GetChatUrl (mode : string)
| Settle (i : nat) (answer : Answer).

Definition handle (env : Env) (ev : Event) : M unit :=
  match ev with
  | SetupStreamSettings => setupStreamSettings env
  | FetchNewToken => fetchNewToken env
  | FetchRawChannelInfo => fetchRawChannelInfo env by_fetchRawChannelInfo
  | FetchStreamKey => fetchStreamKey env
  | FetchChannelInfo => fetchChannelInfo env
  | FetchViewerCount => fetchViewerCount env
  | PutChannelInfo streamTitle streamGame => putChannelInfo env streamTitle streamGame
  | SearchGames searchString => searchGames env searchString
  | GetChatUrl mode => getChatUrl env mode
  | Settle i answer => settle env i answer
  end.

(** Runs events one after the other, each under the environment it meets,
    collecting the trace. *)
Definition run_events (evs : list (Env * Event)) (s : Service) :
    Service * list MixerEffect :=
  run_all (λ ev, handle ev.1 ev.2) evs s.

(** * Specification *)

(** The games a trace has delivered to the callers of [searchGames], in
    order. *)
Definition delivered (e : MixerEffect) : list IGame :=
  match e with
  | promise_resolved _ (VGames response) => response
  | _ => []
  end.

(** The map after the games of a list were added. *)
Definition add_games (map : Dictionary Z) (games : list IGame) : Dictionary Z :=
  foldl (λ map game, dict_set (game_name game) (game_id game) map) map games.

(** The header that carries the token of the user. *)
Definition authorized (headers : Headers) : Prop :=
  "Authorization" ∈ headers.*1.

(** A request that carries the token of the user goes to the API of the
    platform. *)
Definition token_stays (e : MixerEffect) : Prop :=
  match e with
  | fetch url _ headers _ =>
      authorized headers → ∃ path, url = apiBase +:+ path
  | _ => True
  end.

(** The user is logged in on the platform. *)
Definition logged_in (env : Env) (platform : IPlatformAuth) : Prop :=
  user_platform env = Some platform.

(** The headers of a request of the user [platform] that carries the
    token. *)
Definition authorized_headers (platform : IPlatformAuth) : Headers :=
  [("Content-Type", "application/json");
   ("Authorization", "Bearer " +:+ token platform)].

(** The call on the platform service behind an effect of the stream info
    service, when the platform is Mixer. *)
Definition platform_call (e : StreamInfo.StreamInfoEffect) : option Event :=
  match e with
  | StreamInfo.fetchChannelInfo StreamInfo.MixerService => Some FetchChannelInfo
  | StreamInfo.putChannelInfo StreamInfo.MixerService streamTitle streamGame =>
      Some (PutChannelInfo streamTitle streamGame)
  | StreamInfo.fetchViewerCount StreamInfo.MixerService => Some FetchViewerCount
  | _ => None
  end.

(** The events that need the platform of the user before their request. *)
Definition needs_platform (ev : Event) : bool :=
  match ev with
  | SetupStreamSettings | FetchRawChannelInfo | FetchStreamKey | FetchChannelInfo
  | FetchViewerCount | PutChannelInfo _ _ => true
  | _ => false
  end.

(** The form [setupStreamSettings] writes back. *)
Definition setup_form (key : string) (form : list Settings.ISettingsSubCategory) :
    list Settings.ISettingsSubCategory :=
  (λ subCategory,
     Settings.set_parameters
       (setup_parameter key <$> Settings.parameters subCategory) subCategory) <$> form.

(** The map moves by the games the effects deliver; the requests keep the
    token where it belongs. *)
Definition event_ok (s : Service) (r : run Service MixerEffect unit) : Prop :=
  typeIdMap (state (final r)) =
    foldl (λ map e, add_games map (delivered e)) (typeIdMap (state s)) (trace r) ∧
  Forall token_stays (trace r).

(** * Lemmas *)

(** ** The methods under a user *)

Lemma getHeaders_authorized env platform :
  logged_in env platform → getHeaders env true = Normal (authorized_headers platform).
Proof. unfold logged_in, getHeaders, oauthToken, platform_field. by intros ->. Qed.

Lemma getHeaders_plain env :
  getHeaders env false = Normal [("Content-Type", "application/json")].
Proof. done. Qed.

Lemma fetchRawChannelInfo_run env platform caller s :
  logged_in env platform →
  fetchRawChannelInfo env caller s =
    Run (Normal tt) (add_task (AwaitChannelDetails caller) s)
      [fetch (apiBase +:+ "channels/" +:+ username platform +:+ "/details") "GET"
         (authorized_headers platform) None].
Proof.
  intros Hlogged. unfold fetchRawChannelInfo.
  rewrite svc_bind_try_gets, (getHeaders_authorized env platform) by done.
  unfold mixerUsername, platform_field. by rewrite Hlogged.
Qed.

Lemma fetchRawChannelInfo_throws env caller s :
  user_platform env = None →
  fetchRawChannelInfo env caller s = Run (Throw TypeError) s [].
Proof.
  intros Hnone. unfold fetchRawChannelInfo, getHeaders, oauthToken, platform_field.
  by rewrite Hnone.
Qed.

Lemma putChannelInfo_run env platform streamTitle streamGame s :
  logged_in env platform →
  putChannelInfo env streamTitle streamGame s =
    Run (Normal tt) (add_task AwaitPatch s)
      [fetch (apiBase +:+ "channels/" +:+ channelId env) "PATCH"
         (authorized_headers platform)
         (Some {| data_name := streamTitle;
                  data_typeId := mapped_typeId (state s) streamGame |})].
Proof.
  intros Hlogged. unfold putChannelInfo.
  by rewrite svc_bind_try_gets, (getHeaders_authorized env platform).
Qed.

(** ** The map of the games *)

Lemma ADD_GAME_MAPPING_forEach response s :
  svc_forEach (E:=MixerEffect) response
    (λ game, svc_modify (ADD_GAME_MAPPING (game_name game) (game_id game))) s =
  Run (Normal tt)
    (with_state (λ st, {| typeIdMap := add_games (typeIdMap st) response |}) s) [].
Proof.
  revert s. induction response as [|game response IH]; intros s;
    [by destruct s as [[]]|].
  cbn [svc_forEach]. by rewrite svc_bind_modify, IH.
Qed.

Lemma searchGames_resolved_run response s :
  searchGames_then response s =
    Run (Normal tt)
      (with_state (λ st, {| typeIdMap := add_games (typeIdMap st) response |}) s)
      [promise_resolved AwaitGames (VGames response)].
Proof.
  unfold searchGames_then.
  by rewrite (svc_bind_run _ _ _ _ _ _ (ADD_GAME_MAPPING_forEach response s)).
Qed.

Lemma add_games_get map games game :
  NoDup (game_name <$> games) → game ∈ games →
  dict_get (add_games map games) (game_name game) = Some (game_id game).
Proof. apply (dict_get_foldl_set game_name game_id). Qed.

(** ** The key in the settings *)

Lemma setupStreamSettings_then_run env key s :
  let form := setup_form key (Settings.engine_form (settingsEnv env) "Stream") in
  setupStreamSettings_then env key s =
    Run (Normal tt)
      (with_settings
         (final (Settings.setSettings (settingsEnv env) "Stream" form (settings s))) s)
      [settingsService
         (Settings.OBS_settings_saveSettings "Stream"
            ((λ subGroup,
                Settings.set_parameters
                  (Settings.inputValuesToObsValues (settingsEnv env)
                     (Settings.parameters subGroup)) subGroup) <$> form))].
Proof.
  intros form. unfold setupStreamSettings_then.
  rewrite svc_bind_try_gets, Settings.getSettingsFormData_engine by done.
  fold (setup_form key (Settings.engine_form (settingsEnv env) "Stream")). fold form.
  unfold svc_lift. by rewrite Settings.setSettings_engine_run by done.
Qed.

(** ** What every event does to the map and to the requests *)

Lemma event_ok_call s s' (c : completion unit) url method headers body :
  typeIdMap (state s') = typeIdMap (state s) →
  (authorized headers → ∃ path, url = apiBase +:+ path) →
  event_ok s (Run c s' [fetch url method headers body]).
Proof. intros Hmap Hurl. split; [done|]. by apply Forall_singleton. Qed.

Lemma event_ok_quiet s s' (c : completion unit) (t : list MixerEffect) :
  typeIdMap (state s') = typeIdMap (state s) →
  Forall (λ e, delivered e = [] ∧ token_stays e) t →
  event_ok s (Run c s' t).
Proof.
  intros Hmap Ht. split; cbn [final trace]; [|by eapply Forall_impl; [done|intros ? []]].
  rewrite Hmap. generalize (typeIdMap (state s)).
  induction Ht as [|e t [He _] _ IH]; intros map; [done|]. cbn [foldl]. by rewrite He.
Qed.

Lemma fetchRawChannelInfo_ok env caller s : event_ok s (fetchRawChannelInfo env caller s).
Proof.
  destruct (user_platform env) as [platform|] eqn:Hplatform.
  - rewrite (fetchRawChannelInfo_run env platform) by done.
    apply event_ok_call; [done|]. by eexists.
  - rewrite fetchRawChannelInfo_throws by done. by apply event_ok_quiet.
Qed.

Lemma call_ok env ev s :
  (∀ i answer, ev ≠ Settle i answer) → event_ok s (handle env ev s).
Proof.
  intros Hcall. destruct ev; cbn [handle]; try apply fetchRawChannelInfo_ok;
    [| | | | |by destruct (Hcall i answer)].
  - apply event_ok_call; [done|]. by intros []%elem_of_nil.
  - unfold fetchViewerCount, mixerUsername, platform_field.
    destruct (user_platform env); [apply event_ok_call | apply event_ok_quiet];
      by eauto.
  - unfold putChannelInfo, getHeaders, oauthToken, platform_field.
    destruct (user_platform env); [apply event_ok_call | apply event_ok_quiet];
      by eauto.
  - apply event_ok_call; by eauto.
  - unfold getChatUrl. destruct (user_platform env) as [platform|] eqn:Hplatform.
    + rewrite (svc_catch_run _ _ _ _ _ _ (fetchRawChannelInfo_run env platform _ s Hplatform)).
      apply event_ok_call; by eauto.
    + rewrite (svc_catch_run_throw _ _ _ _ _ _
                 (fetchRawChannelInfo_throws env _ s Hplatform)).
      apply event_ok_quiet; [done|]. by apply Forall_singleton.
Qed.

Lemma event_ok_bind s s' (t : list MixerEffect) (m : M unit) :
  typeIdMap (state s') = typeIdMap (state s) →
  Forall (λ e, delivered e = [] ∧ token_stays e) t →
  event_ok s' (m s') → event_ok s (prepend t (m s')).
Proof.
  intros Hmap Ht [Hfinal Htrace]. destruct (event_ok_quiet s s' (Normal tt) t Hmap Ht)
    as [Hquiet Htoken]. cbn [final trace] in *.
  split; unfold prepend; cbn [final trace]; [|by apply Forall_app_2].
  by rewrite foldl_app, <- Hquiet.
Qed.

Lemma channelDetails_then_ok env caller json s :
  event_ok s (channelDetails_then env caller json s).
Proof.
  unfold channelDetails_then. rewrite svc_bind_emit.
  apply event_ok_bind; [done|by apply Forall_singleton|].
  destruct caller; rewrite ?setupStreamSettings_then_run;
    by apply event_ok_quiet; [|apply Forall_singleton].
Qed.

Lemma run_task_ok env task answer s : event_ok s (run_task env task answer s).
Proof.
  destruct task as [caller| | | |], answer;
    try (by apply event_ok_quiet; [|repeat apply Forall_cons_2]);
    try apply channelDetails_then_ok.
  - by destruct caller; (apply event_ok_quiet; [|apply Forall_singleton]).
  - cbn [run_task]. rewrite searchGames_resolved_run. split; [done|].
    by apply Forall_singleton.
Qed.

Lemma settle_ok env i answer s : event_ok s (settle env i answer s).
Proof.
  unfold settle. rewrite svc_bind_gets.
  destruct (pending s !! i) as [task|]; [|by apply event_ok_quiet].
  destruct (answers task answer); [|by apply event_ok_quiet].
  rewrite svc_bind_modify. apply (event_ok_bind _ _ []); [done..|]. apply run_task_ok.
Qed.

Lemma handle_ok env ev s : event_ok s (handle env ev s).
Proof.
  destruct ev; try (by apply call_ok). apply settle_ok.
Qed.

Lemma settle_pending_run env i task answer s :
  pending s !! i = Some task → answers task answer = true →
  settle env i answer s = run_task env task answer (remove_task i s).
Proof.
  intros Htask Hanswers. unfold settle.
  by rewrite svc_bind_gets, Htask, Hanswers, svc_bind_modify.
Qed.

(** ** The settings after [setupStreamSettings] *)

Lemma setup_parameter_name key parameter :
  Settings.name (setup_parameter key parameter) = Settings.name parameter.
Proof. unfold setup_parameter. by repeat case_bool_decide. Qed.

Lemma setup_parameter_value key parameter :
  Settings.value (setup_parameter key parameter) =
    if bool_decide (Settings.name parameter = "key") then Settings.ObsString key
    else if bool_decide (Settings.name parameter = "service")
         then Settings.ObsString "Mixer.com - FTL"
         else Settings.value parameter.
Proof. unfold setup_parameter. by repeat (case_bool_decide; cbn in * ). Qed.

Lemma setup_form_parameters key form :
  Settings.form_parameters (setup_form key form) =
    setup_parameter key <$> Settings.form_parameters form.
Proof.
  unfold Settings.form_parameters, setup_form.
  induction form as [|subCategory form IH]; [done|].
  cbn [fmap list_fmap mbind list_bind]. by rewrite fmap_app, <- IH.
Qed.

Lemma setup_form_names key form :
  Settings.name <$> Settings.form_parameters (setup_form key form) =
    Settings.name <$> Settings.form_parameters form.
Proof.
  rewrite setup_form_parameters, <- list_fmap_compose.
  apply list_fmap_ext. intros _ parameter _. apply setup_parameter_name.
Qed.

(** What the store of the settings holds after the form was written back. *)
Lemma setup_form_stored env key parameter st :
  let form := Settings.engine_form env "Stream" in
  NoDup (Settings.name <$> Settings.form_parameters form) →
  parameter ∈ Settings.form_parameters form →
  dict_get (final (Settings.setSettings env "Stream" (setup_form key form) st)) "Stream"
    ≫= (λ group, dict_get group (Settings.name parameter)) =
  Some (Settings.value (setup_parameter key parameter)).
Proof.
  intros form Hnames Hparameter.
  assert (setup_parameter key parameter ∈ Settings.form_parameters (setup_form key form))
    as Hin by (rewrite setup_form_parameters; by apply list_elem_of_fmap_2).
  destruct (Settings.setSettings_stored env "Stream" (setup_form key form) st)
    as [Hstored _]; [done|by intros Hnil; rewrite Hnil in Hin; apply elem_of_nil in Hin|].
  rewrite <- (setup_parameter_name key parameter).
  apply (Settings.reads_stored _ _ (setup_form key form)); [done|by rewrite setup_form_names|].
  by apply (list_elem_of_fmap_2
              (λ parameter, (Settings.name parameter, Settings.value parameter))) in Hin.
Qed.

(** * Properties *)

(** C14: The map of the games is what the searches delivered.  Over any
    events, under any environments and from any state, [typeIdMap] at the end
    is the map at the start with the games of every answer that
    [searchGames] resolved to added in order, a later game of a name
    replacing an earlier one: no other method writes the map, and no answer
    is delivered to the caller without its games being in the map. *)
Theorem typeIdMap_follows_answers (evs : list (Env * Event)) (s : Service) :
  typeIdMap (state (run_events evs s).1) =
    foldl (λ map e, add_games map (delivered e)) (typeIdMap (state s))
      (run_events evs s).2.
Proof.
  apply (run_all_trace_fold _ (λ s, typeIdMap (state s))
           (λ map e, add_games map (delivered e))).
  intros [env ev] s'. apply handle_ok.
Qed.

(** C24: The token of the user goes to the platform only.  Over any events,
    every request whose headers carry [Authorization] is a request to the
    API of Mixer; the request to the Streamlabs host that refreshes the
    token carries no such header. *)
Theorem token_stays_on_platform (evs : list (Env * Event)) (s : Service) :
  Forall token_stays (run_events evs s).2.
Proof. apply run_all_trace_Forall. intros [env ev] s'. apply handle_ok. Qed.

(** A game that was found is sent by its id.  After the answer to a
    search was handled, [putChannelInfo(title, name)] for the name of a game
    of the answer (names distinct within the answer) sends a [PATCH] of the
    channel with the title and the id of that game as [typeId]; a game whose
    id is 0 is sent without [typeId], because the id is tested for truth. *)
Theorem searched_game_is_sent (env env' : Env) (platform : IPlatformAuth) (i : nat)
    (response : list IGame) (game : IGame) (streamTitle : string) (s : Service) :
  pending s !! i = Some AwaitGames → NoDup (game_name <$> response) →
  game ∈ response → logged_in env' platform →
  let s' := final (settle env i (Games response) s) in
  trace (putChannelInfo env' streamTitle (game_name game) s') =
    [fetch (apiBase +:+ "channels/" +:+ channelId env') "PATCH"
       (authorized_headers platform)
       (Some {| data_name := streamTitle;
                data_typeId := if bool_decide (game_id game ≠ 0)
                               then Some (game_id game) else None |})].
Proof.
  intros Htask Hnames Hgame Hlogged s'. unfold s'.
  rewrite (settle_pending_run env i AwaitGames) by done. cbn [run_task].
  rewrite searchGames_resolved_run, (putChannelInfo_run env' platform) by done.
  cbn [trace final state with_state]. unfold mapped_typeId. cbn [typeIdMap].
  by rewrite add_games_get.
Qed.

(** C26: [setupStreamSettings] stores the key of the stream.  When the
    details of the channel arrive for [setupStreamSettings], and the names of
    the parameters of the engine's [Stream] form are distinct, the store of
    the settings holds afterwards, under [Stream], for every parameter of
    that form: the key [<id>-<streamKey>] if it is named [key], the service
    [Mixer.com - FTL] if it is named [service], and its value otherwise; the
    map of the games is as before and the promise is no longer pending. *)
Theorem setup_stores_stream_key (env : Env) (i : nat) (json : IChannelDetails)
    (parameter : Settings.IFormInput) (s : Service) :
  pending s !! i = Some (AwaitChannelDetails by_setupStreamSettings) →
  NoDup (Settings.name <$>
           Settings.form_parameters (Settings.engine_form (settingsEnv env) "Stream")) →
  parameter ∈ Settings.form_parameters (Settings.engine_form (settingsEnv env) "Stream") →
  let s' := final (settle env i (ChannelDetails json) s) in
  dict_get (settings s') "Stream" ≫= (λ group, dict_get group (Settings.name parameter)) =
    Some (if bool_decide (Settings.name parameter = "key")
          then Settings.ObsString (pretty (json_id json) +:+ "-" +:+ json_streamKey json)
          else if bool_decide (Settings.name parameter = "service")
               then Settings.ObsString "Mixer.com - FTL"
               else Settings.value parameter) ∧
  state s' = state s ∧ pending s' = delete i (pending s).
Proof.
  intros Htask Hnames Hparameter s'. unfold s'.
  rewrite (settle_pending_run env i (AwaitChannelDetails by_setupStreamSettings)) by done.
  cbn [run_task]. unfold channelDetails_then.
  rewrite svc_bind_emit, setupStreamSettings_then_run. split; [|done].
  cbn [prepend final settings with_settings].
  rewrite (setup_form_stored (settingsEnv env)) by done. by rewrite setup_parameter_value.
Qed.

(** [getChatUrl] never settles when the request fails.  When the request
    for the details of the channel that [getChatUrl] made is rejected, the
    promise [getChatUrl] returned is neither resolved nor rejected: the only
    effect is the rejection nobody handles, and the promise is no longer
    among the pending ones, so that no later event settles it. *)
Theorem chat_url_never_settles (env : Env) (i : nat) (s : Service) :
  pending s !! i = Some (AwaitChannelDetails by_getChatUrl) →
  settle env i Failure s =
    Run (Normal tt) (remove_task i s)
      [unhandled_rejection (AwaitChannelDetails by_getChatUrl)].
Proof. intros Htask. by rewrite (settle_pending_run env i (AwaitChannelDetails by_getChatUrl)). Qed.

(** Without a platform the methods throw before any request.  When no
    user is logged in ([userService.platform] is undefined), each of
    [setupStreamSettings], [fetchRawChannelInfo], [fetchStreamKey],
    [fetchChannelInfo], [fetchViewerCount] and [putChannelInfo] throws a
    [TypeError] when called: no request is sent, no promise is returned and
    the state is as it was.  [getChatUrl] returns a promise that is rejected,
    because the throw is in its executor. *)
Theorem logged_out_calls_throw (env : Env) (ev : Event) (mode : string) (s : Service) :
  user_platform env = None → needs_platform ev = true →
  handle env ev s = Run (Throw TypeError) s [] ∧
  handle env (GetChatUrl mode) s =
    Run (Normal tt) s [promise_rejected (AwaitChannelDetails by_getChatUrl)].
Proof.
  intros Hnone Hneeds. split.
  - destruct ev; try done; cbn [handle];
      unfold setupStreamSettings, fetchStreamKey, fetchChannelInfo;
      rewrite ?fetchRawChannelInfo_throws by done; try done.
    + unfold fetchViewerCount, mixerUsername, platform_field. by rewrite Hnone.
    + unfold putChannelInfo, getHeaders, oauthToken, platform_field. by rewrite Hnone.
  - cbn [handle]. unfold getChatUrl.
    by rewrite (svc_catch_run_throw _ _ _ _ _ _
                  (fetchRawChannelInfo_throws env _ s Hnone)).
Qed.

(** The title the stream info service sets reaches Mixer.  For a user
    whose platform is Mixer, the calls [setStreamInfo(title, description,
    game)] of the stream info service makes on the platform service are one
    [putChannelInfo(title, game)], and the Mixer service turns it into one
    [PATCH] of the channel with the title, and the id of the game when the
    map has a truthy one for it; the description is not sent. *)
Theorem stream_info_reaches_mixer (user : StreamInfo.UserEnv) (env : Env)
    (platform : IPlatformAuth) (streamTitle description streamGame : string)
    (info : StreamInfo.Service) (s : Service) :
  StreamInfo.platform user = Some StreamInfo.MixerService → logged_in env platform →
  let calls :=
    omap platform_call
      (trace (StreamInfo.setStreamInfo user streamTitle description streamGame info)) in
  run_events ((λ ev, (env, ev)) <$> calls) s =
    (add_task AwaitPatch s,
     [fetch (apiBase +:+ "channels/" +:+ channelId env) "PATCH"
        (authorized_headers platform)
        (Some {| data_name := streamTitle;
                 data_typeId := mapped_typeId (state s) streamGame |})]).
Proof.
  intros Hmixer Hlogged calls. unfold calls.
  rewrite StreamInfo.setStreamInfo_run, Hmixer. cbn.
  by rewrite (putChannelInfo_run env platform).
Qed.

(** The channel info of Mixer.  When the details of the channel arrive
    for [fetchChannelInfo], the platform id of the channel is handed to the
    user service and the promise resolves to the name of the channel as
    title and the name of its type as game, the empty string when the
    channel has no type. *)
Theorem fetchChannelInfo_resolves (env : Env) (i : nat) (json : IChannelDetails)
    (s : Service) :
  pending s !! i = Some (AwaitChannelDetails by_fetchChannelInfo) →
  settle env i (ChannelDetails json) s =
    Run (Normal tt) (remove_task i s)
      [userService_updatePlatformChannelId (json_id json);
       promise_resolved (AwaitChannelDetails by_fetchChannelInfo)
         (VChannelInfo
            {| StreamInfo.title := json_name json;
               StreamInfo.game := from_option type_name "" (json_type json) |})].
Proof.
  intros Htask. rewrite (settle_pending_run env i (AwaitChannelDetails by_fetchChannelInfo)) by done.
  cbn [run_task]. unfold channelDetails_then, channelInfo. rewrite svc_bind_emit.
  destruct (json_type json) as [[name]|]; [|done].
  cbn. by case_bool_decide; simplify_eq.
Qed.

(** ** The theorems at a concrete channel *)

Definition stream_form : list Settings.ISettingsSubCategory :=
  [{| Settings.nameSubCategory := "Untitled";
      Settings.parameters :=
        [Settings.text_input "service" "Twitch";
         Settings.text_input "server" "auto";
         Settings.text_input "key" "live_123"] |}].

Definition stream_settingsEnv : Settings.Env :=
  {| Settings.OBS_settings_getListCategories := ["Stream"];
     Settings.OBS_settings_getSettings := λ categoryName,
       if bool_decide (categoryName = "Stream") then stream_form else [];
     Settings.obsValuesToInputValues := λ inputs _, inputs;
     Settings.inputValuesToObsValues := λ inputs, inputs;
     Settings.isDevMode := false;
     Settings.argv := [];
     Settings.getIsUsingEncodingOptimizations := false;
     Settings.getCurrentOutputSettings :=
       {| Settings.presetField := "Preset";
          Settings.encoderSettingsField := "x264Settings" |};
     Settings.getDevices := [];
     Settings.getSources := [] |}.

Definition streamer : IPlatformAuth :=
  {| username := "streamer"; token := "oauth-1"; id := "42" |}.

Definition test_env : Env :=
  {| hosts_streamlabs := "streamlabs.com";
     Date_now := 1500000000000;
     user_platform := Some streamer;
     user_widgetToken := "widget-1";
     user_channelId := "77";
     settingsEnv := stream_settingsEnv |}.

Definition logged_out_env : Env :=
  {| hosts_streamlabs := "streamlabs.com";
     Date_now := 1500000000000;
     user_platform := None;
     user_widgetToken := "widget-1";
     user_channelId := "77";
     settingsEnv := stream_settingsEnv |}.

Definition test_details : IChannelDetails :=
  {| json_id := 77; json_streamKey := "abcdef"; json_name := "Speedruns";
     json_type := Some {| type_name := "Celeste" |} |}.

Definition test_games : list IGame :=
  [{| game_name := "Celeste"; game_id := 551 |};
   {| game_name := "Web Show"; game_id := 0 |}].

(** The service with one promise of the method [caller] pending. *)
Definition waiting (task : Task) : Service :=
  {| state := initialState; settings := Settings.initialState; pending := [task] |}.

Definition mixer_user : StreamInfo.UserEnv :=
  {| StreamInfo.isLoggedIn := true; StreamInfo.platform := Some StreamInfo.MixerService;
     StreamInfo.apiToken := "api-1"; StreamInfo.overlays := "overlays.streamlabs.com" |}.

Lemma searched_game_is_sent_witness :
  trace (putChannelInfo test_env "Any%" "Web Show"
           (final (settle test_env 0 (Games test_games) (waiting AwaitGames)))) =
    [fetch "https://mixer.com/api/v1/channels/77" "PATCH"
       [("Content-Type", "application/json"); ("Authorization", "Bearer oauth-1")]
       (Some {| data_name := "Any%"; data_typeId := None |})].
Proof.
  apply (searched_game_is_sent test_env test_env streamer 0 test_games
           {| game_name := "Web Show"; game_id := 0 |} "Any%" (waiting AwaitGames));
    compute_done.
Defined.

Lemma setup_stores_stream_key_witness :
  let s' := final (settle test_env 0 (ChannelDetails test_details)
                     (waiting (AwaitChannelDetails by_setupStreamSettings))) in
  dict_get (settings s') "Stream" ≫= (λ group, dict_get group "key") =
    Some (Settings.ObsString "77-abcdef") ∧
  state s' = initialState ∧ pending s' = [].
Proof.
  apply (setup_stores_stream_key test_env 0 test_details
           (Settings.text_input "key" "live_123")
           (waiting (AwaitChannelDetails by_setupStreamSettings))); compute_done.
Defined.

Lemma chat_url_never_settles_witness :
  settle test_env 0 Failure (waiting (AwaitChannelDetails by_getChatUrl)) =
    Run (Normal tt) initialService
      [unhandled_rejection (AwaitChannelDetails by_getChatUrl)].
Proof. by apply chat_url_never_settles. Defined.

Lemma logged_out_calls_throw_witness :
  handle logged_out_env (PutChannelInfo "Any%" "Celeste") initialService =
    Run (Throw TypeError) initialService [] ∧
  handle logged_out_env (GetChatUrl "day") initialService =
    Run (Normal tt) initialService
      [promise_rejected (AwaitChannelDetails by_getChatUrl)].
Proof. by apply logged_out_calls_throw. Defined.

Lemma stream_info_reaches_mixer_witness :
  run_events
    ((λ ev, (test_env, ev)) <$>
     omap platform_call
       (trace (StreamInfo.setStreamInfo mixer_user "Any%" "a run" "Celeste"
                 StreamInfo.initialService)))
    initialService =
  (waiting AwaitPatch,
   [fetch "https://mixer.com/api/v1/channels/77" "PATCH"
      [("Content-Type", "application/json"); ("Authorization", "Bearer oauth-1")]
      (Some {| data_name := "Any%"; data_typeId := None |})]).
Proof. by apply (stream_info_reaches_mixer mixer_user test_env streamer). Defined.

Lemma fetchChannelInfo_resolves_witness :
  settle test_env 0 (ChannelDetails test_details)
    (waiting (AwaitChannelDetails by_fetchChannelInfo)) =
  Run (Normal tt) initialService
    [userService_updatePlatformChannelId 77;
     promise_resolved (AwaitChannelDetails by_fetchChannelInfo)
       (VChannelInfo {| StreamInfo.title := "Speedruns"; StreamInfo.game := "Celeste" |})].
Proof. by apply fetchChannelInfo_resolves. Defined.

End Mixer.
