(* ===== verification/Components.v ===== *)
(** * The overlay settings and the studio footer

    Models two components of [src/unnamed/part_001]: [OverlaySettings]
    (lines 313-400) and [StudioFooterComponent] (lines 401-472).

    [OverlaySettings] holds a flag [busy] and a [message], and starts three
    operations of other services that return promises: saving an overlay,
    loading an overlay and loading a widget.  The handler chained on each
    promise runs when the environment fulfils it (event [Settle]); a
    promise that is rejected runs nothing, because no handler is chained for
    that.  The dialogs, [path] and the services are the record [Env] and the
    effects of the trace.

    [StudioFooterComponent] has no state of its own: it toggles the
    recording of the streaming service of [Streaming.v] and reads its
    status, and asks the platform service whether the user may stream when
    the platform is Youtube. *)

From Stdlib Require Import ZArith String.
From stdpp Require Import base tactics option list strings.
From S2P Require Import Prelude Streaming StreamInfo.

Set Warnings "-clear-no-such-hyp".

Local Open Scope string_scope.
Local Open Scope list_scope.
Local Open Scope svc_scope.

(** ** OverlaySettings *)

Module OverlaySettings.

(** [IFormInput<boolean>], the fields the getter fills in. *)
Record IFormInput : Type := mkFormInput {
  name : string;
  description : string;
  value : bool;
}.

(** A promise the component waits for, with what its handler needs. *)
Inductive Task : Type :=
| AwaitSaveOverlay (chosenPath : string)
| AwaitLoadOverlay (filename : string)
| AwaitLoadWidget.

Record Component : Type := mkComponent {
  busy : bool;
  message : string;
  pending : list Task;
}.

Definition initialComponent : Component :=
  {| busy := false; message := ""; pending := [] |}.

(** What the component reads: the answers of the two dialogs ([None] when a
    dialog is dismissed), [path.parse], the state of the customization
    service, the name the scene collections service suggests and the id of
    the active scene. *)
Record Env : Type := mkEnv {
  customization_mediaBackupOptOut : bool;
  showSaveDialog : option string;
  showOpenDialog : option (list string);
  path_parse_base : string → string;
  path_parse_name : string → string;
  suggestName : string → string;
  scenesService_activeSceneId : string;
}.

Inductive OverlayEffect : Type :=
| dialog_showSaveDialog (filterName extension : string)
| dialog_showOpenDialog (filterName extension : string)
| customizationService_setMediaBackupOptOut (optOut : bool)
| overlaysPersistenceService_saveOverlay (chosenPath : string)
| sceneCollectionsService_loadOverlay (chosenPath configName : string)
| widgetsService_loadWidgetFile (chosenPath : option string) (sceneId : string)
| unhandled_rejection (task : Task).

#[export] Instance IFormInput_eq_dec : EqDecision IFormInput.
Proof. solve_decision. Defined.
#[export] Instance Task_eq_dec : EqDecision Task.
Proof. solve_decision. Defined.
#[export] Instance Component_eq_dec : EqDecision Component.
Proof. solve_decision. Defined.
#[export] Instance OverlayEffect_eq_dec : EqDecision OverlayEffect.
Proof. solve_decision. Defined.

Definition M (A : Type) : Type := svc Component OverlayEffect A.

Definition set_busy (busy' : bool) (c : Component) : Component :=
  {| busy := busy'; message := message c; pending := pending c |}.

Definition set_message (message' : string) (c : Component) : Component :=
  {| busy := busy c; message := message'; pending := pending c |}.

Definition add_task (task : Task) (c : Component) : Component :=
  {| busy := busy c; message := message c; pending := pending c ++ [task] |}.

Definition remove_task (i : nat) (c : Component) : Component :=
  {| busy := busy c; message := message c; pending := delete i (pending c) |}.

Definition defer (task : Task) : M unit := svc_modify (add_task task).

(** [mediaBackupOptOut] *)
Definition mediaBackupOptOut (env : Env) : IFormInput :=
  {| name := "media_backup_opt_out";
     description := "Do not back up my media files in the cloud (requires app restart)";
     value := customization_mediaBackupOptOut env |}.

(** [setMediaBackupOptOut(model)] *)
Definition setMediaBackupOptOut (model : IFormInput) : M unit :=
  svc_emit (customizationService_setMediaBackupOptOut (value model)).

(** [saveOverlay()], up to the promise. *)
Definition saveOverlay (env : Env) : M unit :=
  svc_emit (dialog_showSaveDialog "Overlay File" "overlay");;
  match showSaveDialog env with
  | Some chosenPath =>
      if truthy chosenPath then
        svc_modify (set_busy true);;
        svc_modify (set_message "");;
        svc_emit (overlaysPersistenceService_saveOverlay chosenPath);;
        defer (AwaitSaveOverlay chosenPath)
      else svc_ret tt
  | None => svc_ret tt
  end.

(** The handler of the promise of [saveOverlay]. *)
Definition saveOverlay_then (env : Env) (chosenPath : string) : M unit :=
  svc_modify (set_busy false);;
  svc_modify (set_message ("Successfully saved " +:+ path_parse_base env chosenPath)).

(** [loadOverlay()], up to the promise; [chosenPath[0]] of an empty array is
    [undefined], which [path.parse] refuses. *)
Definition loadOverlay (env : Env) : M unit :=
  svc_emit (dialog_showOpenDialog "Overlay File" "overlay");;
  match showOpenDialog env with
  | Some chosenPath =>
      svc_modify (set_busy true);;
      svc_modify (set_message "");;
      let* first := svc_deref (head chosenPath) in
      let filename := path_parse_name env first in
      let configName := suggestName env filename in
      svc_emit (sceneCollectionsService_loadOverlay first configName);;
      defer (AwaitLoadOverlay filename)
  | None => svc_ret tt
  end.

(** The handler of the promise of [loadOverlay]. *)
Definition loadOverlay_then (filename : string) : M unit :=
  svc_modify (set_busy false);;
  svc_modify (set_message ("Successfully loaded " +:+ filename +:+ ".overlay")).

(** [loadWidget()], up to the promise. *)
Definition loadWidget (env : Env) : M unit :=
  svc_emit (dialog_showOpenDialog "Widget File" "widget");;
  match showOpenDialog env with
  | Some chosenPath =>
      svc_modify (set_busy true);;
      svc_emit (widgetsService_loadWidgetFile (head chosenPath)
                  (scenesService_activeSceneId env));;
      defer AwaitLoadWidget
  | None => svc_ret tt
  end.

(** The handler of the promise of [loadWidget]. *)
Definition loadWidget_then : M unit := svc_modify (set_busy false).

(** The code a fulfilled promise runs. *)
Definition run_task (env : Env) (task : Task) : M unit :=
  match task with
  | AwaitSaveOverlay chosenPath => saveOverlay_then env chosenPath
  | AwaitLoadOverlay filename => loadOverlay_then filename
  | AwaitLoadWidget => loadWidget_then
  end.

(** The [i]-th pending promise is fulfilled, or rejected. *)
Definition settle (env : Env) (i : nat) (fulfilled : bool) : M unit :=
  let* waiting := svc_gets pending in
  match waiting !! i with
  | Some task =>
      svc_modify (remove_task i);;
      if fulfilled then run_task env task else svc_emit (unhandled_rejection task)
  | None => svc_ret tt
  end.

Inductive Event : Type :=
| SetMediaBackupOptOut (model : IFormInput)
| SaveOverlay
| LoadOverlay
| LoadWidget
| Settle (i : nat) (fulfilled : bool).

Definition handle (env : Env) (ev : Event) : M unit :=
  match ev with
  | SetMediaBackupOptOut model => setMediaBackupOptOut model
  | SaveOverlay => saveOverlay env
  | LoadOverlay => loadOverlay env
  | LoadWidget => loadWidget env
  | Settle i fulfilled => settle env i fulfilled
  end.

Definition run_events (evs : list (Env * Event)) (c : Component) :
    Component * list OverlayEffect :=
  run_all (λ ev, handle ev.1 ev.2) evs c.

(** * Specification *)

(** Why [busy] may be set with nothing pending: a promise was rejected, or
    [loadOverlay] was given an empty selection. *)
Definition stuck (evs : list (Env * Event)) (t : list OverlayEffect) : Prop :=
  (∃ task, unhandled_rejection task ∈ t) ∨
  (∃ env, (env, LoadOverlay) ∈ evs ∧ showOpenDialog env = Some []).

(** [busy] is owed to a pending promise, or to what got the component
    stuck. *)
Definition busy_owed (evs : list (Env * Event)) (c : Component)
    (t : list OverlayEffect) : Prop :=
  busy c = true → pending c ≠ [] ∨ stuck evs t.

Definition is_settle (ev : Env * Event) : Prop :=
  match ev.2 with
  | Settle _ _ => True
  | _ => False
  end.

(** * Lemmas *)

Lemma stuck_mono evs evs' t t' : stuck evs t → stuck (evs ++ evs') (t ++ t').
Proof.
  intros [[task Htask]|(env & Hev & Hempty)]; [left|right].
  - exists task. apply elem_of_app. by left.
  - exists env. split; [|done]. apply elem_of_app. by left.
Qed.

Lemma saveOverlay_run env c :
  saveOverlay env c =
    match showSaveDialog env with
    | Some chosenPath =>
        if truthy chosenPath then
          Run (Normal tt)
            (add_task (AwaitSaveOverlay chosenPath) (set_message "" (set_busy true c)))
            [dialog_showSaveDialog "Overlay File" "overlay";
             overlaysPersistenceService_saveOverlay chosenPath]
        else Run (Normal tt) c [dialog_showSaveDialog "Overlay File" "overlay"]
    | None => Run (Normal tt) c [dialog_showSaveDialog "Overlay File" "overlay"]
    end.
Proof.
  unfold saveOverlay. rewrite svc_bind_emit.
  destruct (showSaveDialog env) as [chosenPath|]; [|done]. by destruct (truthy chosenPath).
Qed.

Lemma loadOverlay_run env c :
  loadOverlay env c =
    match showOpenDialog env with
    | Some (first :: _) =>
        Run (Normal tt)
          (add_task (AwaitLoadOverlay (path_parse_name env first))
             (set_message "" (set_busy true c)))
          [dialog_showOpenDialog "Overlay File" "overlay";
           sceneCollectionsService_loadOverlay first
             (suggestName env (path_parse_name env first))]
    | Some [] =>
        Run (Throw TypeError) (set_message "" (set_busy true c))
          [dialog_showOpenDialog "Overlay File" "overlay"]
    | None => Run (Normal tt) c [dialog_showOpenDialog "Overlay File" "overlay"]
    end.
Proof.
  unfold loadOverlay. rewrite svc_bind_emit.
  by destruct (showOpenDialog env) as [[|first chosenPath]|].
Qed.

Lemma loadWidget_run env c :
  loadWidget env c =
    match showOpenDialog env with
    | Some chosenPath =>
        Run (Normal tt) (add_task AwaitLoadWidget (set_busy true c))
          [dialog_showOpenDialog "Widget File" "widget";
           widgetsService_loadWidgetFile (head chosenPath) (scenesService_activeSceneId env)]
    | None => Run (Normal tt) c [dialog_showOpenDialog "Widget File" "widget"]
    end.
Proof. unfold loadWidget. rewrite svc_bind_emit. by destruct (showOpenDialog env). Qed.

Lemma settle_overlay_run env i fulfilled c :
  settle env i fulfilled c =
    match pending c !! i with
    | Some task =>
        if fulfilled then run_task env task (remove_task i c)
        else Run (Normal tt) (remove_task i c) [unhandled_rejection task]
    | None => Run (Normal tt) c []
    end.
Proof.
  unfold settle. rewrite svc_bind_gets. destruct (pending c !! i) as [task|]; [|done].
  rewrite svc_bind_modify. by destruct fulfilled.
Qed.

Lemma run_task_idle env task c : busy (final (run_task env task c)) = false.
Proof. by destruct task. Qed.

Lemma add_task_pending task c : pending (add_task task c) ≠ [].
Proof. cbn. by destruct (pending c). Qed.

(** Every event keeps [busy] accounted for. *)
Lemma handle_busy_owed evs env ev c t :
  busy_owed evs c t →
  busy_owed (evs ++ [(env, ev)]) (final (handle env ev c)) (t ++ trace (handle env ev c)).
Proof.
  intros Howed. assert (busy_owed (evs ++ [(env, ev)]) c (t ++ trace (handle env ev c)))
    as Hkept by (intros [?|?]%Howed; [by left | by right; apply stuck_mono]).
  destruct ev as [model| | | |i fulfilled]; cbn [handle] in *; [done|..].
  - rewrite saveOverlay_run in *. destruct (showSaveDialog env) as [chosenPath|]; [|done].
    destruct (truthy chosenPath); [|done]. intros _. left. apply add_task_pending.
  - rewrite loadOverlay_run in *.
    destruct (showOpenDialog env) as [[|first chosenPath]|] eqn:Hdialog; [| |done].
    + intros _. right. right. exists env. split; [|done]. apply elem_of_app. right. by left.
    + intros _. left. apply add_task_pending.
  - rewrite loadWidget_run in *. destruct (showOpenDialog env); [|done].
    intros _. left. apply add_task_pending.
  - rewrite settle_overlay_run in *. destruct (pending c !! i) as [task|]; [|done].
    destruct fulfilled; [intros Hbusy; by rewrite run_task_idle in Hbusy|].
    intros _. right. left. exists task. apply elem_of_app. right. by left.
Qed.

Lemma settle_idle env i fulfilled c :
  pending c = [] → settle env i fulfilled c = Run (Normal tt) c [].
Proof. intros Hidle. rewrite settle_overlay_run, Hidle. by destruct i. Qed.

(** Settlements do nothing when nothing is pending. *)
Lemma settles_idle evs c :
  pending c = [] → Forall is_settle evs → run_events evs c = (c, []).
Proof.
  intros Hidle Hevs. induction Hevs as [|[env ev] evs Hev _ IH]; [done|].
  destruct ev; try done. unfold run_events in *. cbn [run_all handle fst snd].
  rewrite settle_idle by done. cbn [final trace]. by rewrite IH.
Qed.

(** * Properties *)

(** C18: [busy] is never set without a cause.  After any events from the
    initial component, when [busy] is set either a promise is still pending,
    or one of the two things happened that leave the component stuck: a
    promise was rejected (no handler is chained for that), or [loadOverlay]
    was given an empty selection and threw after it had set the flag. *)
Theorem busy_is_owed (evs : list (Env * Event)) :
  busy_owed evs (run_events evs initialComponent).1 (run_events evs initialComponent).2.
Proof.
  apply (run_all_hist_inv (λ ev, handle ev.1 ev.2) busy_owed); [done|].
  intros evs' [env ev] c t. apply handle_busy_owed.
Qed.

(** A rejected operation leaves the component busy for good.  When the
    only pending promise is rejected while [busy] is set, [busy] stays set
    and nothing is pending; no later settlement changes that, whatever the
    environment. *)
Theorem rejection_stays_busy (env : Env) (task : Task) (c : Component)
    (evs : list (Env * Event)) :
  busy c = true → pending c = [task] → Forall is_settle evs →
  let c' := final (settle env 0 false c) in
  trace (settle env 0 false c) = [unhandled_rejection task] ∧
  run_events evs c' = (c', []) ∧ busy c' = true ∧ pending c' = [].
Proof.
  intros Hbusy Hpending Hevs c'. unfold c'. rewrite settle_overlay_run, Hpending.
  cbn [lookup list_lookup final trace]. split; [done|].
  assert (pending (remove_task 0 c) = []) as Hidle by (cbn; by rewrite Hpending).
  split; [by apply settles_idle | done].
Qed.

(** Two operations at once clear [busy] too early.  When a widget is
    loaded while an overlay is being saved, the fulfilment of the save clears
    [busy] and announces the save while the load of the widget is still
    pending. *)
Theorem overlapping_operations_clear_busy (env : Env) (chosenPath : string)
    (selection : list string) (c : Component) :
  showSaveDialog env = Some chosenPath → truthy chosenPath = true →
  showOpenDialog env = Some selection → pending c = [] →
  let c' := (run_events [(env, SaveOverlay); (env, LoadWidget); (env, Settle 0 true)] c).1 in
  busy c' = false ∧ pending c' = [AwaitLoadWidget] ∧
  message c' = "Successfully saved " +:+ path_parse_base env chosenPath.
Proof.
  intros Hsave Htruthy Hopen Hidle c'. unfold c'. cbn [run_events run_all handle fst snd].
  rewrite saveOverlay_run, Hsave, Htruthy. cbn [final].
  rewrite loadWidget_run, Hopen. cbn [final]. rewrite settle_overlay_run.
  destruct c as [busy0 message0 pending0]. cbn in Hidle. by subst pending0.
Qed.

(** Saving an overlay.  With a path chosen in the dialog, [saveOverlay]
    sets [busy], clears the message and asks the persistence service to save
    to the path; when the promise is fulfilled [busy] is cleared and the
    message names the base of the path.  Without a path nothing changes. *)
Theorem saveOverlay_fulfilled (env : Env) (c : Component) :
  pending c = [] →
  let r := saveOverlay env c in
  match showSaveDialog env with
  | Some chosenPath =>
      if truthy chosenPath then
        busy (final r) = true ∧ message (final r) = "" ∧
        pending (final r) = [AwaitSaveOverlay chosenPath] ∧
        overlaysPersistenceService_saveOverlay chosenPath ∈ trace r ∧
        final (settle env 0 true (final r)) =
          {| busy := false;
             message := "Successfully saved " +:+ path_parse_base env chosenPath;
             pending := [] |}
      else final r = c
  | None => final r = c
  end.
Proof.
  intros Hidle r. unfold r. rewrite saveOverlay_run.
  destruct (showSaveDialog env) as [chosenPath|]; [|done].
  destruct (truthy chosenPath); [|done]. rewrite settle_overlay_run.
  destruct c as [busy0 message0 pending0]. cbn in Hidle. subst pending0.
  split_and!; try done. apply list_elem_of_further, list_elem_of_here.
Qed.

(** [loadWidget] keeps the message of the operation before it.  A widget
    loaded after an overlay was saved leaves the message of the save in
    place while it is busy and after it is done: [loadWidget] does not clear
    the message and its handler does not set one. *)
Theorem loadWidget_keeps_message (env : Env) (selection : list string) (c : Component) :
  showOpenDialog env = Some selection → pending c = [] →
  let r := loadWidget env c in
  message (final r) = message c ∧ busy (final r) = true ∧
  message (final (settle env 0 true (final r))) = message c ∧
  busy (final (settle env 0 true (final r))) = false.
Proof.
  intros Hopen Hidle r. unfold r. rewrite loadWidget_run, Hopen, settle_overlay_run.
  destruct c as [busy0 message0 pending0]. cbn in Hidle. by subst pending0.
Qed.

(** ** The theorems at concrete dialogs *)

Definition test_env : Env :=
  {| customization_mediaBackupOptOut := false;
     showSaveDialog := Some "C:/overlays/night.overlay";
     showOpenDialog := Some ["C:/widgets/alerts.widget"];
     path_parse_base := λ _, "night.overlay";
     path_parse_name := λ _, "alerts";
     suggestName := λ filename, filename;
     scenesService_activeSceneId := "scene1" |}.

Definition saving : Component :=
  {| busy := true; message := ""; pending := [AwaitSaveOverlay "C:/overlays/night.overlay"] |}.

Lemma busy_is_owed_witness :
  busy_owed [(test_env, SaveOverlay); (test_env, Settle 0 false)]
    {| busy := true; message := ""; pending := [] |}
    [dialog_showSaveDialog "Overlay File" "overlay";
     overlaysPersistenceService_saveOverlay "C:/overlays/night.overlay";
     unhandled_rejection (AwaitSaveOverlay "C:/overlays/night.overlay")].
Proof. exact (busy_is_owed [(test_env, SaveOverlay); (test_env, Settle 0 false)]). Defined.

Lemma rejection_stays_busy_witness :
  let c' := final (settle test_env 0 false saving) in
  trace (settle test_env 0 false saving) =
    [unhandled_rejection (AwaitSaveOverlay "C:/overlays/night.overlay")] ∧
  run_events [(test_env, Settle 0 true); (test_env, Settle 1 false)] c' = (c', []) ∧
  busy c' = true ∧ pending c' = [].
Proof.
  apply (rejection_stays_busy test_env (AwaitSaveOverlay "C:/overlays/night.overlay")
           saving [(test_env, Settle 0 true); (test_env, Settle 1 false)]); try done.
  by repeat constructor.
Defined.

Lemma overlapping_operations_clear_busy_witness :
  let c' := (run_events [(test_env, SaveOverlay); (test_env, LoadWidget);
                         (test_env, Settle 0 true)] initialComponent).1 in
  busy c' = false ∧ pending c' = [AwaitLoadWidget] ∧
  message c' = "Successfully saved night.overlay".
Proof.
  by apply (overlapping_operations_clear_busy test_env "C:/overlays/night.overlay"
              ["C:/widgets/alerts.widget"] initialComponent).
Defined.

Lemma saveOverlay_fulfilled_witness :
  let r := saveOverlay test_env initialComponent in
  busy (final r) = true ∧ message (final r) = "" ∧
  pending (final r) = [AwaitSaveOverlay "C:/overlays/night.overlay"] ∧
  overlaysPersistenceService_saveOverlay "C:/overlays/night.overlay" ∈ trace r ∧
  final (settle test_env 0 true (final r)) =
    {| busy := false; message := "Successfully saved night.overlay"; pending := [] |}.
Proof. by apply (saveOverlay_fulfilled test_env initialComponent). Defined.

Lemma loadWidget_keeps_message_witness :
  let c := {| busy := false; message := "Successfully saved night.overlay"; pending := [] |} in
  let r := loadWidget test_env c in
  message (final r) = "Successfully saved night.overlay" ∧ busy (final r) = true ∧
  message (final (settle test_env 0 true (final r))) = "Successfully saved night.overlay" ∧
  busy (final (settle test_env 0 true (final r))) = false.
Proof.
  by apply (loadWidget_keeps_message test_env ["C:/widgets/alerts.widget"]).
Defined.

End OverlaySettings.

(** ** StudioFooterComponent *)

Module StudioFooter.

(** The state of the Youtube platform service the component reads. *)
Record IYoutubeServiceState : Type := mkYoutubeState {
  liveStreamingEnabled : bool;
}.

(** What the component reads of the user service and of the platform
    service. *)
Record Env : Type := mkEnv {
  userService_isLoggedIn : bool;
  userService_platform : option StreamInfo.Platform;
  youtubeState : IYoutubeServiceState;
}.

Inductive FooterEffect : Type :=
| streamingService (effect : Streaming.StreamingEffect)
| shell_openExternal (url : string)
| youtubeService_verifyAbleToStream.

#[local] Existing Instance StreamInfo.Platform_eq_dec.

Definition M (A : Type) : Type := svc Streaming.Service FooterEffect A.

(** [mounted()] calls [confirmYoutubeEnabled()]. *)
Definition confirmYoutubeEnabled (env : Env) : M unit :=
  match userService_platform env with
  | Some StreamInfo.YoutubeService => svc_emit youtubeService_verifyAbleToStream
  | _ => svc_ret tt
  end.

Definition mounted (env : Env) : M unit := confirmYoutubeEnabled env.

(** [toggleRecording()] *)
Definition toggleRecording : M unit :=
  svc_lift (λ s, s) (λ s' _, s') streamingService Streaming.toggleRecording.

(** [recording] *)
Definition recording (s : Streaming.Service) : bool := Streaming.isRecording s.

(** [loggedIn] *)
Definition loggedIn (env : Env) : bool := userService_isLoggedIn env.

(** [youtubeEnabled] *)
Definition youtubeEnabled (env : Env) : bool :=
  match userService_platform env with
  | Some StreamInfo.YoutubeService => liveStreamingEnabled (youtubeState env)
  | _ => true
  end.

(** [openYoutubeEnable()] *)
Definition openYoutubeEnable : M unit :=
  svc_emit (shell_openExternal "https://youtube.com/live_dashboard_splash").

Definition recordTooltip : string := "Set path in Settings > Output.".

(** * Lemmas *)

Lemma toggleRecording_footer_run s :
  toggleRecording s =
    Run (Normal tt) s (streamingService <$> trace (Streaming.toggleRecording s)).
Proof.
  unfold toggleRecording, svc_lift. by rewrite Streaming.toggleRecording_run.
Qed.

(** * Properties *)

(** The record button follows the engine.  Pressing the button while
    nothing is recorded asks the engine to start recording and changes
    nothing the footer shows: [recording] is still false.  It becomes true
    when the engine signals that the recording output started, and a second
    press then asks the engine to stop. *)
Theorem record_button_follows_engine (s : Streaming.Service) (time : Z) :
  Streaming.recordingStatus (Streaming.state s) = Streaming.RecOffline →
  let started :=
    {| Streaming.info_type := Streaming.OutRecording;
       Streaming.info_signal := Streaming.SigStart;
       Streaming.info_code := Streaming.Success; Streaming.info_error := "" |} in
  let s' := final (Streaming.handleOBSOutputSignal started time (final (toggleRecording s))) in
  trace (toggleRecording s) = [streamingService Streaming.OBS_service_startRecording] ∧
  recording (final (toggleRecording s)) = false ∧
  recording s' = true ∧
  trace (toggleRecording s') = [streamingService Streaming.OBS_service_stopRecording].
Proof.
  intros Hoffline started s'. unfold s'.
  rewrite !toggleRecording_footer_run, !Streaming.toggleRecording_run,
    Streaming.handleOBSOutputSignal_run.
  cbn. unfold recording, Streaming.isRecording. by rewrite Hoffline.
Qed.

(** Only Youtube can disable streaming.  [youtubeEnabled] is false
    exactly when the platform of the user is Youtube and its service says
    live streaming is not enabled; [mounted] asks the platform service to
    verify exactly when the platform is Youtube, and touches nothing of the
    streaming service. *)
Theorem youtube_gate (env : Env) (s : Streaming.Service) :
  (youtubeEnabled env = false ↔
     userService_platform env = Some StreamInfo.YoutubeService ∧
     liveStreamingEnabled (youtubeState env) = false) ∧
  mounted env s =
    Run (Normal tt) s
      (if bool_decide (userService_platform env = Some StreamInfo.YoutubeService)
       then [youtubeService_verifyAbleToStream] else []).
Proof.
  unfold youtubeEnabled, mounted, confirmYoutubeEnabled.
  destruct (userService_platform env) as [[]|]; cbn; naive_solver.
Qed.

Lemma record_button_follows_engine_witness :
  let started :=
    {| Streaming.info_type := Streaming.OutRecording;
       Streaming.info_signal := Streaming.SigStart;
       Streaming.info_code := Streaming.Success; Streaming.info_error := "" |} in
  let s := Streaming.initialService 0 in
  let s' := final (Streaming.handleOBSOutputSignal started 5 (final (toggleRecording s))) in
  trace (toggleRecording s) = [streamingService Streaming.OBS_service_startRecording] ∧
  recording (final (toggleRecording s)) = false ∧
  recording s' = true ∧
  trace (toggleRecording s') = [streamingService Streaming.OBS_service_stopRecording].
Proof. by apply (record_button_follows_engine (Streaming.initialService 0) 5). Defined.

End StudioFooter.
