(* ===== verification/Release.v ===== *)
(** * The release script

    Models the interactive release script, the first document of
    [src/unnamed/part_001] (lines 1-312): a sequence of shell commands,
    prompts and uploads that takes a branch of the repository to a published
    release.  The script is sequential; what makes it worth a model is what
    it does when something fails or the operator declines, and what it has
    published by then.

    The script is a computation in the service monad whose store is the
    number of shell commands run so far.  [sh.exit(code)] ends the process:
    it is the abrupt completion [ProcessExit code], which nothing in the
    script handles (the only [try] block contains one [await]).  The
    operator, the shell, the file system, [semver], [path], the environment
    variables and the upload are the record [Env]: the exit code of a command
    is a function of its position among the commands run and of its text, so
    that the same command may succeed once and fail later; the answer to a
    prompt is a function of the prompt.  What the script does to the outside
    is the trace.

    [semver.inc] is taken to return a version (the version of
    [package.json] is a valid one); the progress of an upload is only
    displayed and is not modelled beyond the creation of the bar. *)

From Stdlib Require Import ZArith Lia Ascii String.
From stdpp Require Import base tactics option list strings.
From S2P Require Import Prelude.

Set Warnings "-clear-no-such-hyp".

Local Open Scope string_scope.
Local Open Scope list_scope.
Local Open Scope Z_scope.
Local Open Scope svc_scope.

Module Release.

(** ** Data *)

(** A text given to [sh.echo], with the colours of [colors/safe]. *)
Inductive Text : Type :=
| plain (s : string)
| magenta (t : Text)
| red (t : Text).

(** What the script reads of the operator and of the machine. *)
Record Env : Type := mkEnv {
  confirm_answer : string → bool;
  prompt_answer : string → string;
  exec_code : nat → string → Z;
  process_env : string → option string;
  package_version : string;
  semver_inc : string → string → option string → string;
  path_join : list string → string;
  path_resolve : list string → string;
  path_parse_base : string → string;
  ls : string → list string;
  channel_path : string → string;
  existsSync : string → bool;
  upload_result : string → option string;
}.

Inductive ReleaseEffect : Type :=
| echo (text : Text)
| exec (cmd : string)
| rm (flags path : string)
| prompt_confirm (message : string)
| prompt_list (name message : string) (choices : list (string * string))
| writeFile (path version : string)
| createReadStream (filePath : string)
| progressBar (format : string)
| s3_upload (bucket key acl filePath : string).

#[export] Instance Text_eq_dec : EqDecision Text.
Proof. solve_decision. Defined.
#[export] Instance ReleaseEffect_eq_dec : EqDecision ReleaseEffect.
Proof. solve_decision. Defined.

(** The store is the number of commands run so far. *)
Definition M (A : Type) : Type := svc nat ReleaseEffect A.

(** The double quote character, and a text between two of them. *)
Definition quote : string := String "034"%char EmptyString.

Definition quoted (s : string) : string := quote +:+ s +:+ quote.

(** ** Configuration *)

Definition s3Bucket : string := "streamlabs-obs".
Definition sentryOrg : string := "streamlabs-obs".
Definition sentryProject : string := "streamlabs-obs".

(** ** The helpers *)

(** [info(msg)] *)
Definition info (msg : Text) : M unit := svc_emit (echo (magenta msg)).

(** [error(msg)] *)
Definition error (msg : string) : M unit :=
  svc_emit (echo (red (plain ("ERROR: " +:+ msg)))).

(** [sh.exit(code)] *)
Definition exit {A} (code : Z) : M A := svc_throw (ProcessExit code).

(** [executeCmd(cmd)] *)
Definition executeCmd (env : Env) (cmd : string) : M unit :=
  let* n := svc_gets (λ n, n) in
  svc_modify S;;
  svc_emit (exec cmd);;
  if bool_decide (exec_code env n cmd ≠ 0) then
    error ("Command Failed >>> " +:+ cmd);;
    exit 1
  else svc_ret tt.

(** [sentryCli(cmd)] *)
Definition sentryCli (env : Env) (cmd : string) : M unit :=
  let sentryPath :=
    path_join env ["bin"; "node_modules"; "sentry-cli-binary"; "bin"; "sentry-cli"] in
  executeCmd env
    (sentryPath +:+ " releases --org " +:+ quoted sentryOrg +:+ " --project " +:+
     quoted sentryProject +:+ " " +:+ cmd).

(** [confirm(msg)] *)
Definition confirm (env : Env) (msg : string) : M bool :=
  svc_emit (prompt_confirm msg);;
  svc_ret (confirm_answer env msg).

(** [checkEnv(varName)] *)
Definition checkEnv (env : Env) (varName : string) : M unit :=
  if truthy (default "" (process_env env varName)) then svc_ret tt
  else
    error ("Missing environment variable " +:+ varName);;
    exit 1.

(** [uploadS3File(name, filePath)] *)
Definition uploadS3File (env : Env) (name filePath : string) : M unit :=
  info (plain ("Starting upload of " +:+ name +:+ "..."));;
  svc_emit (createReadStream filePath);;
  svc_emit (progressBar (name +:+ " [:bar] :percent :etas"));;
  svc_emit (s3_upload s3Bucket name "public-read" filePath);;
  match upload_result env name with
  | None => svc_ret tt
  | Some err =>
      error ("Upload of " +:+ name +:+ " failed");;
      svc_emit (echo (plain err));;
      exit 1
  end.

(** ** The script, by its parts *)

(** What the operator chose: the kind of release and the two branches. *)
Record Choice : Type := mkChoice {
  isPreview : bool;
  sourceBranch : string;
  targetBranch : string;
}.

(** [runScript]: the banner, the first confirmation and the environment. *)
Definition check_environment (env : Env) : M unit :=
  info (magenta (plain "|-------------------------------------------|"));;
  info (magenta (plain "| Streamlabs OBS Interactive Release Script |"));;
  info (magenta (plain "|-------------------------------------------|"));;
  let* sure := confirm env "Are you sure you want to release?" in
  (if negb sure then exit 0 else svc_ret tt);;
  checkEnv env "AWS_ACCESS_KEY_ID";;
  checkEnv env "AWS_SECRET_ACCESS_KEY";;
  checkEnv env "CSC_LINK";;
  checkEnv env "CSC_KEY_PASSWORD";;
  checkEnv env "SENTRY_AUTH_TOKEN".

(** [runScript]: the kind of release and the branches. *)
Definition choose_release (env : Env) : M Choice :=
  svc_emit (prompt_list "releaseType" "Which type of release would you like to do?"
              [("Normal release (All users will receive this release)", "normal");
               ("Preview release", "preview")]);;
  let isPreview' := bool_decide (prompt_answer env "releaseType" = "preview") in
  if isPreview' then
    svc_ret {| isPreview := true; sourceBranch := "staging"; targetBranch := "preview" |}
  else
    svc_emit (prompt_list "branch" "Which branch would you like to release from?"
                [("preview", "preview"); ("staging", "staging");
                 ("master (hotfix releases only)", "master")]);;
    svc_ret {| isPreview := false; sourceBranch := prompt_answer env "branch";
               targetBranch := "master" |}.

(** The four commands that bring a branch to the state of the origin. *)
Definition sync_branch (env : Env) (branch : string) : M unit :=
  info (plain ("Syncing " +:+ branch +:+ " with the origin..."));;
  executeCmd env "git fetch";;
  executeCmd env ("git checkout " +:+ branch);;
  executeCmd env "git pull";;
  executeCmd env ("git reset --hard origin/" +:+ branch).

(** [runScript]: a clean tree, both branches synced, the source merged. *)
Definition sync_branches (env : Env) (choice : Choice) : M unit :=
  info (plain "Stashing all uncommitted changes...");;
  executeCmd env "git add -A";;
  executeCmd env "git stash";;
  sync_branch env (sourceBranch choice);;
  if bool_decide (sourceBranch choice ≠ targetBranch choice) then
    sync_branch env (targetBranch choice);;
    info (plain ("Merging " +:+ sourceBranch choice +:+ " into " +:+
                 targetBranch choice +:+ "..."));;
    executeCmd env ("git merge " +:+ sourceBranch choice)
  else svc_ret tt.

(** [runScript]: packages, plugins, compilation and tests. *)
Definition build_and_test (env : Env) : M unit :=
  info (plain "Ensuring submodules are up to date...");;
  executeCmd env "git submodule update --init --recursive";;
  info (plain "Removing old packages...");;
  svc_emit (rm "-rf" "node_modules");;
  info (plain "Installing fresh packages...");;
  executeCmd env "yarn install";;
  info (plain "Installing OBS plugins...");;
  executeCmd env "yarn install-plugins";;
  info (plain "Compiling assets...");;
  executeCmd env "yarn compile:production";;
  info (plain "Running tests...");;
  executeCmd env "yarn test";;
  info (plain "The current revision has passed testing and is ready to be");;
  info (plain "packaged and released").

(** [[...new Set(l)]]: the elements in the order of their first occurrence. *)
Definition uniq (l : list string) : list string :=
  foldl (λ seen x, if bool_decide (x ∈ seen) then seen else seen ++ [x]) [] l.

(** The versions the operator may choose from. *)
Definition versionOptions (env : Env) (isPreview' : bool) : list string :=
  let currentVersion := package_version env in
  uniq
    (if isPreview' then
       [semver_inc env currentVersion "prerelease" (Some "preview");
        semver_inc env currentVersion "prepatch" (Some "preview");
        semver_inc env currentVersion "preminor" (Some "preview");
        semver_inc env currentVersion "premajor" (Some "preview")]
     else
       [semver_inc env currentVersion "patch" None;
        semver_inc env currentVersion "minor" None;
        semver_inc env currentVersion "major" None]).

(** [runScript]: the new version, confirmed. *)
Definition choose_version (env : Env) (choice : Choice) : M string :=
  info (plain ("The current application version is " +:+ package_version env));;
  svc_emit (prompt_list "newVersion" "What should the new version number be?"
              ((λ v, (v, v)) <$> versionOptions env (isPreview choice)));;
  let newVersion := prompt_answer env "newVersion" in
  let* sure :=
    confirm env ("Are you sure you want to package version " +:+ newVersion +:+ "?") in
  (if negb sure then exit 0 else svc_ret tt);;
  svc_ret newVersion.

(** [runScript]: the version written, the application packaged, and the
    last confirmation. *)
Definition package_app (env : Env) (choice : Choice) (newVersion : string) : M unit :=
  info (plain ("Writing " +:+ newVersion +:+ " to package.json..."));;
  svc_emit (writeFile "package.json" newVersion);;
  info (plain "Packaging the app...");;
  executeCmd env ("yarn package" +:+ (if isPreview choice then ":preview" else ""));;
  info (plain ("Version " +:+ newVersion +:+ " is ready to be deployed."));;
  info (plain "You can find the packaged app at dist/win-unpacked.");;
  info (plain "Please run the packaged application now to ensure it starts up properly.");;
  info (plain "When you have confirmed the packaged app works properly, you");;
  info (plain "can continue with the deploy.");;
  let* ready := confirm env "Are you ready to deploy?" in
  if negb ready then exit 0 else svc_ret tt.

(** [runScript]: the commit, the tag and the registration with sentry. *)
Definition deploy (env : Env) (newVersion : string) : M unit :=
  info (plain "Committing changes...");;
  executeCmd env "git add -A";;
  executeCmd env ("git commit -m " +:+ quoted ("Release version " +:+ newVersion));;
  info (plain "Pushing changes...");;
  executeCmd env "git push origin HEAD";;
  info (plain ("Tagging version " +:+ newVersion +:+ "..."));;
  executeCmd env ("git tag -f v" +:+ newVersion);;
  executeCmd env "git push --tags";;
  info (plain ("Registering " +:+ newVersion +:+ " with sentry..."));;
  sentryCli env ("new " +:+ quoted newVersion);;
  sentryCli env ("set-commits --auto " +:+ quoted newVersion);;
  info (plain "Uploading compiled source to sentry...");;
  let sourcePath := path_join env ["bundles"; "renderer.js"] in
  let sourceMapPath := path_join env ["bundles"; "renderer.js.map"] in
  sentryCli env ("files " +:+ quoted newVersion +:+ " delete --all");;
  sentryCli env ("files " +:+ quoted newVersion +:+ " upload " +:+ quoted sourcePath);;
  sentryCli env ("files " +:+ quoted newVersion +:+ " upload " +:+ quoted sourceMapPath).

(** [runScript]: the artifacts found and uploaded, the release finalized. *)
Definition publish (env : Env) (newVersion : string) : M unit :=
  info (plain "Discovering publishing artifacts...");;
  let distDir := path_resolve env ["."; "dist"] in
  let* first := svc_deref (head (ls env (path_join env [distDir; "*.yml"]))) in
  let channelFileName := path_parse_base env first in
  let channelFilePath := path_join env [distDir; channelFileName] in
  info (plain ("Discovered " +:+ channelFileName));;
  let installerFileName := channel_path env channelFilePath in
  let installerFilePath := path_join env [distDir; installerFileName] in
  (if negb (existsSync env installerFilePath) then
     error ("Could not find " +:+ path_resolve env [installerFilePath]);;
     exit 1
   else svc_ret tt);;
  info (plain ("Disovered " +:+ installerFileName));;
  info (plain "Uploading publishing artifacts...");;
  uploadS3File env installerFileName installerFilePath;;
  uploadS3File env channelFileName channelFilePath;;
  info (plain "Finalizing release with sentry...");;
  sentryCli env ("finalize " +:+ quote +:+ newVersion).

(** [runScript]: the target merged back into staging. *)
Definition merge_back (env : Env) (choice : Choice) (newVersion : string) : M unit :=
  info (plain ("Merging " +:+ targetBranch choice +:+ " back into staging..."));;
  executeCmd env "git checkout staging";;
  executeCmd env ("git merge " +:+ targetBranch choice);;
  executeCmd env "git push origin HEAD";;
  info (plain ("Version " +:+ newVersion +:+ " released successfully!")).

(** What comes before anything leaves the machine: up to the last
    confirmation. *)
Definition prepare (env : Env) : M (Choice * string) :=
  check_environment env;;
  let* choice := choose_release env in
  sync_branches env choice;;
  build_and_test env;;
  let* newVersion := choose_version env choice in
  package_app env choice newVersion;;
  svc_ret (choice, newVersion).

(** What follows the last confirmation. *)
Definition release (env : Env) (choice : Choice) (newVersion : string) : M unit :=
  deploy env newVersion;;
  publish env newVersion;;
  merge_back env choice newVersion.

(** [runScript()] *)
Definition runScript (env : Env) : M unit :=
  let* chosen := prepare env in
  release env chosen.1 chosen.2.

(** [runScript().then(() => { sh.exit(0); })] *)
Definition main (env : Env) : M unit :=
  runScript env;;
  exit 0.

(** * Specification *)

(** The commands of a trace, in order. *)
Definition execs (t : list ReleaseEffect) : list string :=
  omap (λ e, match e with exec cmd => Some cmd | _ => None end) t.

(** What [executeCmd] emits for a command that fails. *)
Definition command_failure (cmd : string) : list ReleaseEffect :=
  [exec cmd; echo (red (plain ("ERROR: Command Failed >>> " +:+ cmd)))].

(** A run that starts at the [n]-th command is disciplined: the commands
    are counted, and a command that fails is the last thing the script does
    before it reports the failure and exits with code 1. *)
Record disciplined {A} (env : Env) (n : nat) (r : run nat ReleaseEffect A) : Prop := {
  counted : final r = (n + length (execs (trace r)))%nat;
  stops : ∀ i cmd,
    execs (trace r) !! i = Some cmd → exec_code env (n + i) cmd ≠ 0 →
    result r = Throw (ProcessExit 1) ∧
    ∃ before, trace r = before ++ command_failure cmd ∧ length (execs before) = i;
}.

(** An effect that leaves the machine: a push to the origin or an upload. *)
Definition publishes (e : ReleaseEffect) : Prop :=
  match e with
  | exec cmd => cmd = "git push origin HEAD" ∨ cmd = "git push --tags"
  | s3_upload _ _ _ _ => True
  | _ => False
  end.

(** The variables the script requires. *)
Definition required_variables : list string :=
  ["AWS_ACCESS_KEY_ID"; "AWS_SECRET_ACCESS_KEY"; "CSC_LINK"; "CSC_KEY_PASSWORD";
   "SENTRY_AUTH_TOKEN"].

(** The operator agreed three times, and the environment is configured. *)
Record consented (env : Env) : Prop := {
  sure_release : confirm_answer env "Are you sure you want to release?" = true;
  sure_version :
    confirm_answer env
      ("Are you sure you want to package version " +:+ prompt_answer env "newVersion" +:+
       "?") = true;
  ready_deploy : confirm_answer env "Are you ready to deploy?" = true;
  configured :
    Forall (λ varName, truthy (default "" (process_env env varName)) = true)
      required_variables;
}.

(** The choice the answers of the operator make. *)
Definition chosen (env : Env) : Choice :=
  if bool_decide (prompt_answer env "releaseType" = "preview")
  then {| isPreview := true; sourceBranch := "staging"; targetBranch := "preview" |}
  else {| isPreview := false; sourceBranch := prompt_answer env "branch";
          targetBranch := "master" |}.

(** [m] completes with [c] after it ran exactly the commands [cmds],
    whatever the number of commands run before. *)
Definition performs {A} (m : M A) (c : completion A) (cmds : list string) : Prop :=
  ∀ n, result (m n) = c ∧ execs (trace (m n)) = cmds.

(** An upload. *)
Definition uploads (e : ReleaseEffect) : Prop :=
  match e with
  | s3_upload _ _ _ _ => True
  | _ => False
  end.

(** The number of double quote characters of a text. *)
Fixpoint quotes (s : string) : nat :=
  match s with
  | EmptyString => 0
  | String c s' => (if Ascii.eqb c "034" then 1 else 0) + quotes s'
  end.

(** The channel file and the installer the script discovers. *)
Definition distDir (env : Env) : string := path_resolve env ["."; "dist"].

Definition channelFiles (env : Env) : list string :=
  ls env (path_join env [distDir env; "*.yml"]).

Definition installerFilePath (env : Env) (first : string) : string :=
  path_join env
    [distDir env;
     channel_path env (path_join env [distDir env; path_parse_base env first])].

(** The operator agrees and every command succeeds. *)
Record calm (env : Env) : Prop := {
  calm_consented : consented env;
  calm_commands : ∀ n cmd, exec_code env n cmd = 0;
}.

(** A release in which nothing goes wrong: moreover the artifacts are there
    and the uploads go through. *)
Record smooth (env : Env) : Prop := {
  smooth_calm : calm env;
  smooth_channel : is_Some (head (channelFiles env));
  smooth_installer :
    ∀ first, head (channelFiles env) = Some first →
      existsSync env (installerFilePath env first) = true;
  smooth_uploads : ∀ name, upload_result env name = None;
}.

(** The commands that bring a branch to the state of the origin. *)
Definition sync_commands (branch : string) : list string :=
  ["git fetch"; "git checkout " +:+ branch; "git pull";
   "git reset --hard origin/" +:+ branch].

(** A command of the sentry client. *)
Definition sentry (env : Env) (cmd : string) : string :=
  path_join env ["bin"; "node_modules"; "sentry-cli-binary"; "bin"; "sentry-cli"] +:+
  " releases --org " +:+ quoted sentryOrg +:+ " --project " +:+ quoted sentryProject +:+
  " " +:+ cmd.

(** The commands of the preparation, for what the operator chose. *)
Definition prepare_plan (env : Env) : list string :=
  let choice := chosen env in
  ["git add -A"; "git stash"] ++
  sync_commands (sourceBranch choice) ++
  (if bool_decide (sourceBranch choice ≠ targetBranch choice)
   then sync_commands (targetBranch choice) ++ ["git merge " +:+ sourceBranch choice]
   else []) ++
  ["git submodule update --init --recursive"; "yarn install"; "yarn install-plugins";
   "yarn compile:production"; "yarn test";
   "yarn package" +:+ (if isPreview choice then ":preview" else "")].

(** The commands that follow the last confirmation. *)
Definition release_plan (env : Env) : list string :=
  let choice := chosen env in
  let newVersion := prompt_answer env "newVersion" in
  ["git add -A";
   "git commit -m " +:+ quoted ("Release version " +:+ newVersion);
   "git push origin HEAD";
   "git tag -f v" +:+ newVersion;
   "git push --tags";
   sentry env ("new " +:+ quoted newVersion);
   sentry env ("set-commits --auto " +:+ quoted newVersion);
   sentry env ("files " +:+ quoted newVersion +:+ " delete --all");
   sentry env ("files " +:+ quoted newVersion +:+ " upload " +:+
               quoted (path_join env ["bundles"; "renderer.js"]));
   sentry env ("files " +:+ quoted newVersion +:+ " upload " +:+
               quoted (path_join env ["bundles"; "renderer.js.map"]));
   sentry env ("finalize " +:+ quote +:+ newVersion);
   "git checkout staging";
   "git merge " +:+ targetBranch choice;
   "git push origin HEAD"].

(** The commands of a release. *)
Definition plan (env : Env) : list string := prepare_plan env ++ release_plan env.

(** * Lemmas *)

(** ** Commands *)

Lemma execs_app t1 t2 : execs (t1 ++ t2) = execs t1 ++ execs t2.
Proof. apply omap_app. Qed.

Lemma executeCmd_run env cmd n :
  executeCmd env cmd n =
    if bool_decide (exec_code env n cmd ≠ 0)
    then Run (Throw (ProcessExit 1)) (S n) (command_failure cmd)
    else Run (Normal tt) (S n) [exec cmd].
Proof.
  unfold executeCmd. rewrite svc_bind_gets, svc_bind_modify, svc_bind_emit.
  by case_bool_decide.
Qed.

Lemma quotes_app s1 s2 : quotes (s1 +:+ s2) = (quotes s1 + quotes s2)%nat.
Proof. induction s1 as [|c s1 IH]; [done|]. simpl. rewrite IH. lia. Qed.

(** ** Duplicates removed *)

Lemma uniq_snoc l x :
  uniq (l ++ [x]) = if bool_decide (x ∈ uniq l) then uniq l else uniq l ++ [x].
Proof. unfold uniq. by rewrite foldl_app. Qed.

Lemma uniq_remove_dups l : uniq l = reverse (remove_dups (reverse l)).
Proof.
  induction l as [|x l IH] using rev_ind; [done|].
  rewrite uniq_snoc, reverse_snoc, IH. cbn [remove_dups].
  rewrite (bool_decide_ext _ (x ∈ reverse l)).
  - unfold bool_decide. destruct (decide_rel _ _ _); [done|]. by rewrite reverse_cons.
  - by rewrite elem_of_reverse, elem_of_remove_dups.
Qed.

Lemma uniq_NoDup l : NoDup (uniq l).
Proof. rewrite uniq_remove_dups, reverse_Permutation. apply NoDup_remove_dups. Qed.

Lemma uniq_elem_of l x : x ∈ uniq l ↔ x ∈ l.
Proof. by rewrite uniq_remove_dups, elem_of_reverse, elem_of_remove_dups, elem_of_reverse. Qed.

Lemma uniq_from_head x (seen l : list string) :
  head (foldl (λ seen x, if bool_decide (x ∈ seen) then seen else seen ++ [x])
          (x :: seen) l) = Some x.
Proof.
  induction l as [|y l IH] in seen |- *; [done|]. cbn [foldl]. case_bool_decide; apply IH.
Qed.

Lemma uniq_head x l : head (uniq (x :: l)) = Some x.
Proof.
  unfold uniq. cbn [foldl]. rewrite bool_decide_eq_false_2 by apply not_elem_of_nil.
  apply uniq_from_head.
Qed.

(** ** Discipline *)

Lemma disciplined_quiet {A} env n (c : completion A) t :
  execs t = [] → disciplined env n (Run c n t).
Proof.
  intros Ht. split; cbn [final trace result]; rewrite Ht; [cbn; lia | by intros []].
Qed.

Lemma disciplined_executeCmd env cmd n : disciplined env n (executeCmd env cmd n).
Proof.
  rewrite executeCmd_run. case_bool_decide as Hcode; split; cbn; try lia.
  - intros [|i] cmd' [= <-] _. split; [done|]. by exists [].
  - intros [|i] cmd' [= <-]. by rewrite Nat.add_0_r.
Qed.

Lemma disciplined_bind {A B} env n (m : M A) (f : A → M B) :
  disciplined env n (m n) →
  (∀ a n', disciplined env n' (f a n')) →
  disciplined env n (svc_bind m f n).
Proof.
  intros [Hcount Hstops] Hf. unfold svc_bind.
  destruct (result (m n)) as [a|e] eqn:Hresult.
  2: { split; [done|]. intros i cmd Hi Hcode.
       by destruct (Hstops i cmd Hi Hcode) as [[= ->] Hbefore]. }
  destruct (Hf a (final (m n))) as [Hcount' Hstops']. split; cbn [final trace result].
  - rewrite execs_app, length_app. lia.
  - intros i cmd. rewrite execs_app. intros Hi Hcode.
    destruct (decide (i < length (execs (trace (m n))))%nat) as [Hlt|Hge].
    + rewrite lookup_app_l in Hi by done. by destruct (Hstops i cmd Hi Hcode) as [[=] _].
    + rewrite lookup_app_r in Hi by lia.
      destruct (Hstops' _ cmd Hi) as (Hthrow & before & Htrace & Hbefore).
      { by replace (final (m n) + (i - length (execs (trace (m n)))))%nat
          with (n + i)%nat by lia. }
      split; [done|]. exists (trace (m n) ++ before).
      rewrite Htrace, execs_app, length_app, <- app_assoc. split; [done | lia].
Qed.

Create HintDb release discriminated.

Lemma disciplined_emit env n e :
  execs [e] = [] → disciplined env n (svc_emit e n).
Proof. apply disciplined_quiet. Qed.

Lemma disciplined_info env n msg : disciplined env n (info msg n).
Proof. by apply disciplined_quiet. Qed.

Lemma disciplined_error env n msg : disciplined env n (error msg n).
Proof. by apply disciplined_quiet. Qed.

Lemma disciplined_exit {A} env n code : disciplined env n (exit (A:=A) code n).
Proof. by apply disciplined_quiet. Qed.

Lemma disciplined_ret {A} env n (a : A) : disciplined env n (svc_ret a n).
Proof. by apply disciplined_quiet. Qed.

Lemma disciplined_confirm env n msg : disciplined env n (confirm env msg n).
Proof. by apply disciplined_quiet. Qed.

Lemma disciplined_deref {A} env n (o : option A) : disciplined env n (svc_deref o n).
Proof. destruct o; by apply disciplined_quiet. Qed.

#[export] Hint Resolve disciplined_info disciplined_error disciplined_exit disciplined_ret
  disciplined_confirm disciplined_deref disciplined_executeCmd : release.

(** Decomposes a goal [disciplined env n (m n)] along the structure of
    [m]. *)
Ltac disciplined_go :=
  repeat match goal with
    | |- ∀ _, _ => intro
    | |- disciplined _ _ (svc_bind _ _ _) => apply disciplined_bind
    | |- disciplined _ _ (sentryCli _ _ _) => apply disciplined_executeCmd
    | |- disciplined _ _ (svc_emit _ _) => apply disciplined_emit; reflexivity
    | |- disciplined _ _ ((if ?b then _ else _) _) => destruct b
    | |- disciplined _ _ ((match ?x with _ => _ end) _) => destruct x
    | |- disciplined _ _ _ => solve [auto with release]
    end.

Lemma disciplined_checkEnv env varName n : disciplined env n (checkEnv env varName n).
Proof. unfold checkEnv. disciplined_go. Qed.

Lemma disciplined_uploadS3File env name filePath n :
  disciplined env n (uploadS3File env name filePath n).
Proof. unfold uploadS3File. disciplined_go. Qed.

Lemma disciplined_sync_branch env branch n : disciplined env n (sync_branch env branch n).
Proof. unfold sync_branch. disciplined_go. Qed.

#[export] Hint Resolve disciplined_checkEnv disciplined_uploadS3File
  disciplined_sync_branch : release.

Lemma disciplined_prepare env n : disciplined env n (prepare env n).
Proof.
  unfold prepare, check_environment, choose_release, sync_branches, build_and_test,
    choose_version, package_app.
  disciplined_go.
Qed.

Lemma disciplined_release env choice newVersion n :
  disciplined env n (release env choice newVersion n).
Proof. unfold release, deploy, publish, merge_back. disciplined_go. Qed.

#[export] Hint Resolve disciplined_prepare disciplined_release : release.

Lemma disciplined_main env n : disciplined env n (main env n).
Proof. unfold main, runScript. disciplined_go. Qed.

(** ** What stays on the machine *)

Lemma executeCmd_emits (P : ReleaseEffect → Prop) env cmd :
  P (exec cmd) → (∀ text, P (echo text)) → emits_only P (executeCmd env cmd).
Proof.
  intros Hcmd Hecho n. rewrite executeCmd_run.
  case_bool_decide; repeat (apply Forall_cons_2 || apply Forall_nil_2); auto.
Qed.

(** A command that is not one of the two pushes, by its text. *)
Ltac not_push :=
  let H := fresh in intros [H|H]; cbn in H; discriminate H.

(** Decomposes a goal [emits_only P m], for [P] the effects that do not
    publish or the effects that do not upload, along the structure of [m]. *)
Ltac local_go :=
  repeat match goal with
    | |- ∀ _, _ => intro
    | |- emits_only _ (svc_bind _ _) => apply emits_only_bind
    | |- emits_only _ (executeCmd _ _) =>
        apply executeCmd_emits; [first [not_push | by intros []] | by intros ? []]
    | |- emits_only _ (sentryCli _ _) => unfold sentryCli
    | |- emits_only _ (svc_emit _) => apply emits_only_emit; by intros []
    | |- emits_only _ (info _) => apply emits_only_emit; by intros []
    | |- emits_only _ (error _) => apply emits_only_emit; by intros []
    | |- emits_only _ (exit _) => apply emits_only_throw
    | |- emits_only _ (svc_ret _) => apply emits_only_ret
    | |- emits_only _ (svc_deref _) => apply emits_only_deref
    | |- emits_only _ (confirm _ _) => unfold confirm
    | |- emits_only _ (checkEnv _ _) => unfold checkEnv
    | |- emits_only _ (sync_branch _ _) => unfold sync_branch
    | |- emits_only _ (if ?b then _ else _) => destruct b
    | |- emits_only _ (match ?x with _ => _ end) => destruct x
    end.

Lemma prepare_local env : emits_only (λ e, ¬ publishes e) (prepare env).
Proof.
  unfold prepare, check_environment, choose_release, sync_branches, build_and_test,
    choose_version, package_app.
  local_go.
Qed.

Lemma uploads_publishes e : uploads e → publishes e.
Proof. by destruct e. Qed.

Lemma deploy_uploads_nothing env newVersion :
  emits_only (λ e, ¬ uploads e) (deploy env newVersion).
Proof. unfold deploy. local_go. Qed.

(** ** What a normal return of the preparation means *)

Lemma returns_confirm env msg :
  returns (confirm env msg) (λ answer, answer = confirm_answer env msg).
Proof. by intros n answer [= <-]. Qed.

Lemma returns_checkEnv env varName :
  returns (checkEnv env varName)
    (λ _, truthy (default "" (process_env env varName)) = true).
Proof. intros n []. unfold checkEnv. by destruct (truthy _). Qed.

Lemma returns_unless_exit (b : bool) :
  b = true → returns (if negb b then exit 0 else svc_ret tt) (λ _, True).
Proof. intros ->. apply returns_True. Qed.

(** A confirmation followed by the exit when it is declined. *)
Lemma returns_confirmed {B} env msg (f : unit → M B) (Q : B → Prop) :
  (confirm_answer env msg = true → ∀ u, returns (f u) Q) →
  returns (let* sure := confirm env msg in
           (if negb sure then exit 0 else svc_ret tt);; f tt) Q.
Proof.
  intros Hf. eapply returns_bind; [apply returns_confirm|]. intros sure ->.
  destruct (confirm_answer env msg); [|by intros n b].
  apply returns_seq. intros _. by apply Hf.
Qed.

Lemma returns_check_environment env :
  returns (check_environment env)
    (λ _, confirm_answer env "Are you sure you want to release?" = true ∧
          Forall (λ varName, truthy (default "" (process_env env varName)) = true)
            required_variables).
Proof.
  unfold check_environment. do 3 (apply returns_seq; intros _).
  apply (returns_confirmed env _ (λ _, _)). intros Hsure _.
  do 4 (apply (returns_bind _ _ _ _ (returns_checkEnv env _)); intros [] ?).
  eapply returns_mono; [|apply returns_checkEnv]. intros [] ?.
  split; [done|]. by repeat apply Forall_cons_2.
Qed.

Lemma returns_choose_release env :
  returns (choose_release env) (λ choice, choice = chosen env).
Proof.
  unfold choose_release, chosen. apply returns_seq. intros _.
  case_bool_decide; [by apply returns_ret|]. apply returns_seq. intros _.
  by apply returns_ret.
Qed.

Lemma returns_choose_version env choice :
  returns (choose_version env choice)
    (λ newVersion,
       newVersion = prompt_answer env "newVersion" ∧
       confirm_answer env
         ("Are you sure you want to package version " +:+ prompt_answer env "newVersion" +:+
          "?") = true).
Proof.
  unfold choose_version. do 2 (apply returns_seq; intros _).
  apply (returns_confirmed env _ (λ _, _)). intros Hsure _. by apply returns_ret.
Qed.

Lemma returns_package_app env choice newVersion :
  returns (package_app env choice newVersion)
    (λ _, confirm_answer env "Are you ready to deploy?" = true).
Proof.
  unfold package_app. do 9 (apply returns_seq; intros _).
  eapply returns_bind; [apply returns_confirm|]. intros ready ->.
  by destruct (confirm_answer env _); [apply returns_ret | intros n a].
Qed.

(** The preparation returns only with the consent of the operator, and
    returns what was chosen. *)
Lemma returns_prepare env :
  returns (prepare env)
    (λ r, consented env ∧ r = (chosen env, prompt_answer env "newVersion")).
Proof.
  unfold prepare.
  apply (returns_bind _ _ _ _ (returns_check_environment env)). intros [] [Hsure Hvars].
  apply (returns_bind _ _ _ _ (returns_choose_release env)). intros choice ->.
  do 2 (apply returns_seq; intros _).
  apply (returns_bind _ _ _ _ (returns_choose_version env _)). intros v [-> Hversion].
  apply (returns_bind _ _ _ _ (returns_package_app env _ _)). intros [] Hready.
  by apply returns_ret.
Qed.

(** The commands of a disciplined run that returns all succeeded. *)
Lemma disciplined_Normal {A} env n (r : run nat ReleaseEffect A) a i cmd :
  disciplined env n r → result r = Normal a → execs (trace r) !! i = Some cmd →
  exec_code env (n + i) cmd = 0.
Proof.
  intros [_ Hstops] Hresult Hi. destruct (decide (exec_code env (n + i) cmd = 0)) as [|Hcode];
    [done|]. destruct (Hstops i cmd Hi Hcode) as [Hthrow _]. congruence.
Qed.

(** The script is the preparation, then the release when the preparation
    returns. *)
Lemma main_run env n :
  main env n =
    match result (prepare env n) with
    | Normal (choice, newVersion) =>
        prepend (trace (prepare env n))
          ((release env choice newVersion;; exit 0) (final (prepare env n)))
    | Throw e => Run (Throw e) (final (prepare env n)) (trace (prepare env n))
    end.
Proof.
  unfold main, runScript. rewrite svc_bind_assoc. unfold svc_bind at 1.
  by destruct (result (prepare env n)) as [[choice newVersion]|e].
Qed.

(** ** Runs in which the commands succeed *)

Lemma performs_bind {A B} (m : M A) (f : A → M B) a c cmds cmds' :
  performs m (Normal a) cmds → performs (f a) c cmds' →
  performs (svc_bind m f) c (cmds ++ cmds').
Proof.
  intros Hm Hf n. destruct (Hm n) as [Ha Hcmds]. unfold svc_bind. rewrite Ha.
  destruct (Hf (final (m n))) as [Hb Hcmds']. cbn [result trace].
  by rewrite execs_app, Hcmds, Hcmds'.
Qed.

Lemma performs_bind_throw {A B} (m : M A) (f : A → M B) e cmds :
  performs m (Throw e) cmds → performs (svc_bind m f) (Throw e) cmds.
Proof. intros Hm n. destruct (Hm n) as [He Hcmds]. unfold svc_bind. by rewrite He. Qed.

Lemma performs_emit e : execs [e] = [] → performs (svc_emit e) (Normal tt) [].
Proof. by intros He n. Qed.

Lemma performs_ret {A} (a : A) : performs (svc_ret a) (Normal a) [].
Proof. by intros n. Qed.

Lemma performs_exit {A} code : performs (exit (A:=A) code) (Throw (ProcessExit code)) [].
Proof. by intros n. Qed.

Lemma performs_eq {A} (m : M A) c cmds cmds' :
  performs m c cmds → cmds = cmds' → performs m c cmds'.
Proof. by intros Hm <-. Qed.

Lemma performs_if {A} (b : bool) (m1 m2 : M A) c cmds1 cmds2 :
  performs m1 c cmds1 → performs m2 c cmds2 →
  performs (if b then m1 else m2) c (if b then cmds1 else cmds2).
Proof. by destruct b. Qed.

Lemma performs_confirm env msg :
  performs (confirm env msg) (Normal (confirm_answer env msg)) [].
Proof. by intros n. Qed.

Section Calm.
Context (env : Env) (Hcalm : calm env).

Lemma performs_executeCmd cmd : performs (executeCmd env cmd) (Normal tt) [cmd].
Proof.
  intros n. rewrite executeCmd_run, bool_decide_eq_false_2; [done|].
  rewrite (calm_commands env Hcalm). by intros Hcode.
Qed.

Lemma performs_checkEnv varName :
  varName ∈ required_variables → performs (checkEnv env varName) (Normal tt) [].
Proof.
  intros Hvar n. unfold checkEnv.
  by rewrite (proj1 (Forall_forall _ _) (configured env (calm_consented env Hcalm))).
Qed.

Lemma performs_choose_release : performs (choose_release env) (Normal (chosen env)) [].
Proof. intros n. unfold choose_release, chosen. by case_bool_decide. Qed.

(** Runs a goal [performs m c ?cmds] along the structure of [m]. *)
Ltac performs_go :=
  lazymatch goal with
  | |- performs (svc_bind _ _) _ _ =>
      eapply performs_bind; [performs_go | cbn beta; performs_go]
  | |- performs (executeCmd _ _) _ _ => apply performs_executeCmd
  | |- performs (sentryCli _ _) _ _ => apply performs_executeCmd
  | |- performs (info _) _ _ => by apply performs_emit
  | |- performs (error _) _ _ => by apply performs_emit
  | |- performs (svc_emit _) _ _ => by apply performs_emit
  | |- performs (svc_ret _) _ _ => apply performs_ret
  | |- performs (exit _) _ _ => apply performs_exit
  | |- performs (confirm _ _) _ _ => apply performs_confirm
  | |- performs (checkEnv _ _) _ _ => apply performs_checkEnv; compute_done
  | |- performs (choose_release _) _ _ => apply performs_choose_release
  | |- performs (if negb (confirm_answer _ _) then _ else _) _ _ =>
      rewrite ?(sure_release env (calm_consented env Hcalm)),
        ?(sure_version env (calm_consented env Hcalm)),
        ?(ready_deploy env (calm_consented env Hcalm));
      apply performs_ret
  end.

Lemma performs_sync_branch branch :
  performs (sync_branch env branch) (Normal tt) (sync_commands branch).
Proof. unfold sync_branch. eapply performs_eq; [performs_go | done]. Qed.

Lemma performs_sync_branches choice :
  performs (sync_branches env choice) (Normal tt)
    (["git add -A"; "git stash"] ++ sync_commands (sourceBranch choice) ++
     (if bool_decide (sourceBranch choice ≠ targetBranch choice)
      then sync_commands (targetBranch choice) ++ ["git merge " +:+ sourceBranch choice]
      else [])).
Proof.
  unfold sync_branches. eapply performs_eq.
  - do 3 (eapply performs_bind; [performs_go|]).
    eapply performs_bind; [apply performs_sync_branch|]. cbn beta.
    apply performs_if; [|apply performs_ret].
    eapply performs_bind; [apply performs_sync_branch | performs_go].
  - done.
Qed.

Lemma performs_prepare :
  performs (prepare env) (Normal (chosen env, prompt_answer env "newVersion"))
    (prepare_plan env).
Proof.
  unfold prepare. eapply performs_eq.
  - eapply performs_bind; [unfold check_environment; performs_go|]. cbn beta.
    eapply performs_bind; [performs_go|]. cbn beta.
    eapply performs_bind; [apply performs_sync_branches|]. cbn beta.
    unfold build_and_test, choose_version, package_app. performs_go.
  - unfold prepare_plan. cbn [app]. by rewrite <- !app_assoc.
Qed.

Lemma performs_deploy newVersion :
  performs (deploy env newVersion) (Normal tt)
    ["git add -A";
     "git commit -m " +:+ quoted ("Release version " +:+ newVersion);
     "git push origin HEAD";
     "git tag -f v" +:+ newVersion;
     "git push --tags";
     sentry env ("new " +:+ quoted newVersion);
     sentry env ("set-commits --auto " +:+ quoted newVersion);
     sentry env ("files " +:+ quoted newVersion +:+ " delete --all");
     sentry env ("files " +:+ quoted newVersion +:+ " upload " +:+
                 quoted (path_join env ["bundles"; "renderer.js"]));
     sentry env ("files " +:+ quoted newVersion +:+ " upload " +:+
                 quoted (path_join env ["bundles"; "renderer.js.map"]))].
Proof. unfold deploy. eapply performs_eq; [performs_go | done]. Qed.

(** The artifacts are discovered and the installer is not there. *)
Lemma performs_publish_missing newVersion first :
  head (channelFiles env) = Some first →
  existsSync env (installerFilePath env first) = false →
  performs (publish env newVersion) (Throw (ProcessExit 1)) [].
Proof.
  intros Hfirst Hinstaller. unfold publish, channelFiles, installerFilePath, distDir in *.
  rewrite Hfirst. eapply performs_eq.
  - eapply performs_bind; [performs_go|]. cbn beta.
    eapply performs_bind; [apply performs_ret|]. cbn beta zeta.
    eapply performs_bind; [performs_go|]. cbn beta. rewrite Hinstaller. cbn [negb].
    apply performs_bind_throw. performs_go.
  - done.
Qed.

Section Smooth.
Context (Hchannel : is_Some (head (channelFiles env)))
  (Hinstaller : ∀ first, head (channelFiles env) = Some first →
                  existsSync env (installerFilePath env first) = true)
  (Huploads : ∀ name, upload_result env name = None).

Lemma performs_uploadS3File name filePath :
  performs (uploadS3File env name filePath) (Normal tt) [].
Proof. intros n. unfold uploadS3File. by rewrite Huploads. Qed.

Lemma performs_publish newVersion :
  performs (publish env newVersion) (Normal tt)
    [sentry env ("finalize " +:+ quote +:+ newVersion)].
Proof.
  unfold publish. destruct Hchannel as [first Hfirst].
  pose proof (Hinstaller first Hfirst) as Hexists.
  unfold channelFiles, installerFilePath, distDir in *. rewrite Hfirst.
  eapply performs_eq.
  - eapply performs_bind; [performs_go|]. cbn beta.
    eapply performs_bind; [apply performs_ret|]. cbn beta zeta.
    eapply performs_bind; [performs_go|]. cbn beta. rewrite Hexists. cbn [negb].
    eapply performs_bind; [apply performs_ret|]. cbn beta.
    do 2 (eapply performs_bind; [performs_go|]; cbn beta).
    do 2 (eapply performs_bind; [apply performs_uploadS3File|]; cbn beta).
    performs_go.
  - done.
Qed.

Lemma performs_release :
  performs (release env (chosen env) (prompt_answer env "newVersion")) (Normal tt)
    (release_plan env).
Proof.
  unfold release. eapply performs_eq.
  - eapply performs_bind; [apply performs_deploy|]. cbn beta.
    eapply performs_bind; [apply performs_publish|]. cbn beta.
    unfold merge_back. performs_go.
  - done.
Qed.

(** The whole script. *)
Lemma performs_main : performs (main env) (Throw (ProcessExit 0)) (plan env).
Proof.
  unfold main, runScript. eapply performs_eq.
  - eapply performs_bind; [|apply performs_exit].
    eapply performs_bind; [apply performs_prepare | apply performs_release].
  - apply app_nil_r.
Qed.

End Smooth.

(** The script when the installer is missing. *)
Lemma performs_main_missing first :
  head (channelFiles env) = Some first →
  existsSync env (installerFilePath env first) = false →
  performs (main env) (Throw (ProcessExit 1))
    (prepare_plan env ++ take 10 (release_plan env)).
Proof.
  intros Hfirst Hinstaller. unfold main, runScript, release.
  apply performs_bind_throw. eapply performs_eq.
  - eapply performs_bind; [apply performs_prepare|]. cbn beta.
    eapply performs_bind; [apply performs_deploy|]. cbn beta.
    by eapply performs_bind_throw, performs_publish_missing.
  - by rewrite app_nil_r.
Qed.

Lemma publish_missing_uploads_nothing newVersion first :
  head (channelFiles env) = Some first →
  existsSync env (installerFilePath env first) = false →
  emits_only (λ e, ¬ uploads e) (publish env newVersion).
Proof.
  intros Hfirst Hinstaller. unfold publish, channelFiles, installerFilePath, distDir in *.
  rewrite Hfirst. apply emits_only_bind; [local_go|]. intros _. cbn zeta.
  apply (emits_only_bind_returns _ _ _ (λ a, a = first)); [local_go|by apply returns_ret|].
  intros _ ->. apply emits_only_bind; [local_go|]. intros _. rewrite Hinstaller. cbn [negb].
  apply (emits_only_bind_returns _ _ _ (λ _, False)); [local_go| |done].
  apply returns_seq. intros _. apply returns_throw.
Qed.

Lemma main_missing_uploads_nothing first :
  head (channelFiles env) = Some first →
  existsSync env (installerFilePath env first) = false →
  emits_only (λ e, ¬ uploads e) (main env).
Proof.
  intros Hfirst Hinstaller. unfold main, runScript, release.
  apply emits_only_bind; [|local_go]. apply emits_only_bind.
  - eapply emits_only_mono, prepare_local. intros e He Hup. by apply He, uploads_publishes.
  - intros [choice newVersion]. apply emits_only_bind; [apply deploy_uploads_nothing|].
    intros _. apply (emits_only_bind_returns _ _ _ (λ _, False)); [| |done].
    + by eapply publish_missing_uploads_nothing.
    + intros n a Ha.
      by rewrite (proj1 (performs_publish_missing _ first Hfirst Hinstaller n)) in Ha.
Qed.

End Calm.

(** * Properties *)

(** C17: A command that fails ends the script.  Whatever the operator, the
    shell and the environment do, when a command the script runs returns an
    exit code other than 0, the script prints the error for that command
    and exits with code 1: the failed command is the last command it runs,
    and the error is the last thing it prints. *)
Theorem failed_command_ends_script (env : Env) (i : nat) (cmd : string) :
  execs (trace (main env 0%nat)) !! i = Some cmd → exec_code env i cmd ≠ 0 →
  result (main env 0%nat) = Throw (ProcessExit 1) ∧
  ∃ before,
    trace (main env 0%nat) = before ++ command_failure cmd ∧ length (execs before) = i.
Proof. apply (stops env 0 _ (disciplined_main env 0)). Qed.

(** C16: Nothing leaves the machine without consent.  When the script pushes
    to the origin or uploads a file, the operator has confirmed the release,
    the version and the deploy, the five variables of the environment are
    set, and every command of the preparation, the tests among them,
    returned exit code 0. *)
Theorem published_only_with_consent (env : Env) (e : ReleaseEffect) :
  e ∈ trace (main env 0%nat) → publishes e →
  consented env ∧
  result (prepare env 0%nat) = Normal (chosen env, prompt_answer env "newVersion") ∧
  ∀ i cmd, execs (trace (prepare env 0%nat)) !! i = Some cmd → exec_code env i cmd = 0.
Proof.
  intros He Hpublishes. rewrite main_run in He.
  destruct (result (prepare env 0%nat)) as [[choice newVersion]|err] eqn:Hprepare.
  - destruct (returns_prepare env _ _ Hprepare) as [Hconsented [= -> ->]].
    split_and!; [done..|]. intros i cmd.
    exact (disciplined_Normal env 0 _ _ i cmd (disciplined_prepare env 0) Hprepare).
  - cbn in He. by destruct (proj1 (Forall_forall _ _) (prepare_local env 0%nat) e He).
Qed.

(** C27: A release in which nothing goes wrong.  When the operator agrees
    three times, the environment is configured, every command succeeds, the
    channel file and the installer are found and both uploads go through,
    the script exits with code 0 after it ran exactly the commands of the
    plan, in their order: the branches synchronised (the target merged only
    when it differs from the source), the build and the tests, the package,
    the commit, the push, the tag, the sentry release and the merge back
    into staging. *)
Theorem smooth_release_runs_plan (env : Env) :
  smooth env →
  result (main env 0%nat) = Throw (ProcessExit 0) ∧
  execs (trace (main env 0%nat)) = plan env.
Proof.
  intros [Hcalm Hchannel Hinstaller Huploads].
  apply (performs_main env Hcalm Hchannel Hinstaller Huploads).
Qed.

(** A missing installer is found out after the push.  When the operator
    agrees and every command succeeds but the installer the channel file
    names is not in the distribution directory, the script exits with code
    1 after the release commit and the tag were pushed and the release was
    registered with sentry, and it uploads nothing. *)
Theorem missing_installer_after_push (env : Env) (first : string) :
  calm env → head (channelFiles env) = Some first →
  existsSync env (installerFilePath env first) = false →
  result (main env 0%nat) = Throw (ProcessExit 1) ∧
  execs (trace (main env 0%nat)) = prepare_plan env ++ take 10 (release_plan env) ∧
  Forall (λ e, ¬ uploads e) (trace (main env 0%nat)).
Proof.
  intros Hcalm Hfirst Hinstaller.
  destruct (performs_main_missing env Hcalm first Hfirst Hinstaller 0%nat) as [-> ->].
  split_and!; [done..|]. by eapply main_missing_uploads_nothing.
Qed.

(** The command that finalizes the release has an unbalanced quote.
    In a release in which nothing goes wrong, for a version and a path of
    the sentry client without quote characters, the script runs the
    finalize command with five double quotes: the quote that opens the
    version is never closed. *)
Theorem finalize_quote_unbalanced (env : Env) :
  smooth env →
  quotes (path_join env ["bin"; "node_modules"; "sentry-cli-binary"; "bin"; "sentry-cli"])
    = 0%nat →
  quotes (prompt_answer env "newVersion") = 0%nat →
  let cmd := sentry env ("finalize " +:+ quote +:+ prompt_answer env "newVersion") in
  cmd ∈ execs (trace (main env 0%nat)) ∧ quotes cmd = 5%nat.
Proof.
  intros [Hcalm Hchannel Hinstaller Huploads] Hpath Hversion cmd. split.
  - rewrite (proj2 (performs_main env Hcalm Hchannel Hinstaller Huploads 0%nat)).
    unfold plan, release_plan. apply elem_of_app. right.
    by apply (list_elem_of_lookup_2 _ 10%nat).
  - unfold cmd, sentry. by rewrite !quotes_app, Hpath, Hversion.
Qed.

(** The versions offered are distinct.  The list the operator chooses
    the new version from has no duplicates, starts with the smallest
    increment of the current version, and holds exactly the increments of
    the kind of the release. *)
Theorem versionOptions_distinct (env : Env) (isPreview' : bool) :
  let incs kinds pre := (λ kind, semver_inc env (package_version env) kind pre) <$> kinds in
  let candidates :=
    if isPreview' then incs ["prerelease"; "prepatch"; "preminor"; "premajor"] (Some "preview")
    else incs ["patch"; "minor"; "major"] None in
  NoDup (versionOptions env isPreview') ∧
  head (versionOptions env isPreview') = head candidates ∧
  ∀ v, v ∈ versionOptions env isPreview' ↔ v ∈ candidates.
Proof.
  unfold versionOptions. split_and!; [apply uniq_NoDup| |intros v; rewrite uniq_elem_of].
  - destruct isPreview'; apply uniq_head.
  - by destruct isPreview'.
Qed.

(** * Test data *)

Definition test_env : Env := {|
  confirm_answer _ := true;
  prompt_answer name :=
    if bool_decide (name = "releaseType") then "normal"
    else if bool_decide (name = "branch") then "staging" else "0.8.1";
  exec_code _ _ := 0;
  process_env _ := Some "set";
  package_version := "0.8.0";
  semver_inc v kind _ := v +:+ "+" +:+ kind;
  path_join parts := foldr (λ part rest, part +:+ "/" +:+ rest) "" parts;
  path_resolve parts := foldr (λ part rest, part +:+ "/" +:+ rest) "" parts;
  path_parse_base p := p;
  ls _ := ["latest.yml"];
  channel_path _ := "setup.exe";
  existsSync _ := true;
  upload_result _ := None;
|}.

(** The tests fail. *)
Definition failing_env : Env :=
  mkEnv (confirm_answer test_env) (prompt_answer test_env)
    (λ _ cmd, if bool_decide (cmd = "yarn test") then 1 else 0)
    (process_env test_env) (package_version test_env) (semver_inc test_env)
    (path_join test_env) (path_resolve test_env) (path_parse_base test_env) (ls test_env)
    (channel_path test_env) (existsSync test_env) (upload_result test_env).

(** The installer is not there. *)
Definition missing_env : Env :=
  mkEnv (confirm_answer test_env) (prompt_answer test_env) (exec_code test_env)
    (process_env test_env) (package_version test_env) (semver_inc test_env)
    (path_join test_env) (path_resolve test_env) (path_parse_base test_env) (ls test_env)
    (channel_path test_env) (λ _, false) (upload_result test_env).

Lemma test_env_calm : calm test_env.
Proof. split; [split; [done..|by repeat constructor]|done]. Defined.

Lemma test_env_smooth : smooth test_env.
Proof. split; [apply test_env_calm|by eexists|done..]. Defined.

Lemma failed_command_ends_script_witness :
  result (main failing_env 0%nat) = Throw (ProcessExit 1) ∧
  ∃ before,
    trace (main failing_env 0%nat) = before ++ command_failure "yarn test" ∧
    length (execs before) = 15%nat.
Proof. by apply (failed_command_ends_script failing_env 15 "yarn test"). Defined.

Lemma published_only_with_consent_witness :
  consented test_env ∧
  result (prepare test_env 0%nat) = Normal (chosen test_env, "0.8.1") ∧
  ∀ i cmd, execs (trace (prepare test_env 0%nat)) !! i = Some cmd →
    exec_code test_env i cmd = 0.
Proof.
  apply (published_only_with_consent test_env (exec "git push --tags")); [|by right].
  apply (bool_decide_unpack _). by vm_compute.
Defined.

Lemma smooth_release_runs_plan_witness :
  result (main test_env 0%nat) = Throw (ProcessExit 0) ∧
  execs (trace (main test_env 0%nat)) = plan test_env.
Proof. apply smooth_release_runs_plan, test_env_smooth. Defined.

Lemma missing_installer_after_push_witness :
  result (main missing_env 0%nat) = Throw (ProcessExit 1) ∧
  execs (trace (main missing_env 0%nat)) =
    prepare_plan missing_env ++ take 10 (release_plan missing_env) ∧
  Forall (λ e, ¬ uploads e) (trace (main missing_env 0%nat)).
Proof.
  apply (missing_installer_after_push missing_env "latest.yml"); [|done..].
  split; [split; [done..|by repeat constructor]|done].
Defined.

Lemma finalize_quote_unbalanced_witness :
  sentry test_env ("finalize " +:+ quote +:+ "0.8.1") ∈ execs (trace (main test_env 0%nat)) ∧
  quotes (sentry test_env ("finalize " +:+ quote +:+ "0.8.1")) = 5%nat.
Proof. by apply (finalize_quote_unbalanced test_env test_env_smooth). Defined.

End Release.
