(* ===== verification/Transform.v ===== *)
(** * Transform: position, scale, rotation and crop of a scene item

    Models the transform subsystem: [SceneItem.setTransform],
    [setVisibility] and [setLocked].  The class [SceneItem] is not among the
    sources; the operations are modelled from the specification (sections
    3, 4.2 and 8), and the last API test of [src/unnamed/part_000]
    (lines 160-193) is replayed on them.

    Numbers are rationals ([Q]): the values the test and the specification
    give are decimal fractions, and the two rules of the subsystem (a
    rotation is reduced into the range from 0 to 360, a crop is rounded to an
    integer that is not negative) are exact on them.  [%] is the remainder of
    JavaScript, which truncates the quotient towards zero; [Math.round]
    rounds a half up.  Two transforms are equivalent ([≡]) when their fields
    are equal as rationals; the operations respect the equivalence.

    The operations on an item of the store go through [setSettings] of
    [SceneNodes.v], which replaces the settings of the item and tells the
    observers. *)

From Stdlib Require Import ZArith QArith Qround Lia Lqa.
From stdpp Require Import base tactics option list strings.
From S2P Require Import Prelude JsObject Scenes SceneNodes.

Set Warnings "-clear-no-such-hyp".

Local Open Scope string_scope.
Local Open Scope list_scope.
Local Open Scope nat_scope.
Local Open Scope svc_scope.

Module Transform.

(** ** Data *)

Record IVec2 : Type := mkVec2 {
  x : Q;
  y : Q;
}.

Record ICrop : Type := mkCrop {
  top : Q;
  bottom : Q;
  left : Q;
  right : Q;
}.

Record ITransform : Type := mkTransform {
  position : IVec2;
  scale : IVec2;
  crop : ICrop;
  rotation : Q;
}.

(** A patch: the fields that are given. *)
Record IPartialVec2 : Type := mkPartialVec2 {
  patch_x : option Q;
  patch_y : option Q;
}.

Record IPartialCrop : Type := mkPartialCrop {
  patch_top : option Q;
  patch_bottom : option Q;
  patch_left : option Q;
  patch_right : option Q;
}.

Record IPartialTransform : Type := mkPartialTransform {
  patch_position : option IPartialVec2;
  patch_scale : option IPartialVec2;
  patch_crop : option IPartialCrop;
  patch_rotation : option Q;
}.

(** The settings of an item. *)
Record ISceneItemSettings : Type := mkSettings {
  transform : ITransform;
  visible : bool;
  locked : bool;
}.

(** The settings of a new item: in the corner, at its native size. *)
Definition default_transform : ITransform :=
  {| position := {| x := 0; y := 0 |};
     scale := {| x := 1; y := 1 |};
     crop := {| top := 0; bottom := 0; left := 0; right := 0 |};
     rotation := 0 |}.

Definition default_settings : ISceneItemSettings :=
  {| transform := default_transform; visible := true; locked := false |}.

(** ** Numbers *)

(** The integer part of a rational, towards zero. *)
Definition Qtruncate (q : Q) : Z :=
  if Qle_bool 0 q then Qfloor q else Qceiling q.

(** [a % b] *)
Definition js_rem (a b : Q) : Q := (a - b * inject_Z (Qtruncate (a / b)))%Q.

(** [Math.round(q)] *)
Definition Math_round (q : Q) : Z := Qfloor (q + (1 # 2)).

(** ** The two rules *)

(** [((r % 360) + 360) % 360] *)
Definition normalize_rotation (r : Q) : Q := js_rem (js_rem r 360 + 360) 360.

(** A crop is rounded, and not negative. *)
Definition round_crop (c : Q) : Q := inject_Z (Z.max 0 (Math_round c)).

(** ** Merging a patch *)

Definition merge_field (f : Q → Q) (given : option Q) (old : Q) : Q :=
  match given with
  | Some v => f v
  | None => old
  end.

Definition merge_vec2 (patch : option IPartialVec2) (v : IVec2) : IVec2 :=
  match patch with
  | Some p =>
      {| x := merge_field id (patch_x p) (x v); y := merge_field id (patch_y p) (y v) |}
  | None => v
  end.

Definition merge_crop (patch : option IPartialCrop) (c : ICrop) : ICrop :=
  match patch with
  | Some p =>
      {| top := merge_field round_crop (patch_top p) (top c);
         bottom := merge_field round_crop (patch_bottom p) (bottom c);
         left := merge_field round_crop (patch_left p) (left c);
         right := merge_field round_crop (patch_right p) (right c) |}
  | None => c
  end.

(** The transform [setTransform(patch)] stores. *)
Definition merge_transform (patch : IPartialTransform) (t : ITransform) : ITransform :=
  {| position := merge_vec2 (patch_position patch) (position t);
     scale := merge_vec2 (patch_scale patch) (scale t);
     crop := merge_crop (patch_crop patch) (crop t);
     rotation := merge_field normalize_rotation (patch_rotation patch) (rotation t) |}.

Definition with_transform (t : ITransform) (s : ISceneItemSettings) : ISceneItemSettings :=
  {| transform := t; visible := visible s; locked := locked s |}.

Definition with_visible (b : bool) (s : ISceneItemSettings) : ISceneItemSettings :=
  {| transform := transform s; visible := b; locked := locked s |}.

Definition with_locked (b : bool) (s : ISceneItemSettings) : ISceneItemSettings :=
  {| transform := transform s; visible := visible s; locked := b |}.

(** ** The operations on an item of the store *)

Abbreviation State := (@IScenesState ISceneItemSettings).
Abbreviation Item := (@ISceneItem ISceneItemSettings).
Abbreviation M := (@Scenes.M ISceneItemSettings).

(** Changes the settings of the item, if the scene has it. *)
Definition update_settings (scene : Scene) (id : string)
    (f : ISceneItemSettings → ISceneItemSettings) : M unit :=
  let* item := svc_gets (λ st, Scene_getItem st scene id) in
  match item with
  | Some item => SceneNodes.setSettings scene id (f (item_settings item))
  | None => svc_ret tt
  end.

(** [item.setTransform(patch)] *)
Definition setTransform (scene : Scene) (id : string) (patch : IPartialTransform) :
    M unit :=
  update_settings scene id (λ s, with_transform (merge_transform patch (transform s)) s).

(** [item.setVisibility(visible)] *)
Definition setVisibility (scene : Scene) (id : string) (visible' : bool) : M unit :=
  update_settings scene id (with_visible visible').

(** [item.setLocked(locked)] *)
Definition setLocked (scene : Scene) (id : string) (locked' : bool) : M unit :=
  update_settings scene id (with_locked locked').

(** An item with its lock replaced. *)
Definition lock_item (locked' : bool) (item : Item) : Item :=
  with_settings (with_locked locked' (item_settings item)) item.

(** [scene.setLockOnAllItems(locked)] *)
Definition setLockOnAllItems (scene : Scene) (locked' : bool) : M unit :=
  let* items := svc_gets (λ st, Scene_getItems st scene) in
  svc_forEach items (λ item, setLocked scene (sceneItemId item) locked').

(** [setLockOnAllScenes(locked)] of the scenes service: the scenes of the
    display order, one after the other; a [null] among them throws. *)
Definition setLockOnAllScenes (locked' : bool) : M unit :=
  let* sceneList := svc_gets scenes_getter in
  svc_forEach sceneList (λ scene,
    let* scene := svc_deref scene in
    setLockOnAllItems scene locked').

(** The calls on the items of the store. *)
Inductive Call : Type :=
| SetTransform (scene : Scene) (id : string) (patch : IPartialTransform)
| SetVisibility (scene : Scene) (id : string) (visible' : bool)
| SetLocked (scene : Scene) (id : string) (locked' : bool)
| SetLockOnAllScenes (locked' : bool)
| AddSource (scene : Scene) (src uuid : string)
| RemoveItem (scene : Scene) (id : string).

Definition call (c : Call) : M unit :=
  match c with
  | SetTransform scene id patch => setTransform scene id patch
  | SetVisibility scene id visible' => setVisibility scene id visible'
  | SetLocked scene id locked' => setLocked scene id locked'
  | SetLockOnAllScenes locked' => setLockOnAllScenes locked'
  | AddSource scene src uuid =>
      SceneNodes.addSource default_settings scene src uuid;; svc_ret tt
  | RemoveItem scene id => SceneNodes.removeItem scene id
  end.

Definition run_calls (calls : list Call) (st : State) : State * list ScenesEffect :=
  run_all call calls st.

(** [item.getModel().transform] *)
Definition getModel_transform (st : State) (scene : Scene) (id : string) :
    option ITransform :=
  (λ item, transform (item_settings item)) <$> Scene_getItem st scene id.

(** * Specification *)

(** The remainder of the division that rounds down. *)
Definition Qmod (a b : Q) : Q := (a - b * inject_Z (Qfloor (a / b)))%Q.

(** A rational that is an integer and not negative. *)
Definition whole (q : Q) : Prop := ∃ n : Z, (0 ≤ n)%Z ∧ q = inject_Z n.

(** The fields of a stored transform are within their ranges. *)
Record transform_wf (t : ITransform) : Prop := {
  rotation_range : (0 <= rotation t)%Q ∧ (rotation t < 360)%Q;
  top_whole : whole (top (crop t));
  bottom_whole : whole (bottom (crop t));
  left_whole : whole (left (crop t));
  right_whole : whole (right (crop t));
}.

(** Every item of every scene has a transform within its ranges. *)
Definition items_wf (st : State) : Prop :=
  ∀ scene item, item ∈ Scene_getItems st scene → transform_wf (transform (item_settings item)).

(** Equal as numbers, field by field. *)
Definition vec2_equiv (v v' : IVec2) : Prop := (x v == x v')%Q ∧ (y v == y v')%Q.

Definition crop_equiv (c c' : ICrop) : Prop :=
  (top c == top c')%Q ∧ (bottom c == bottom c')%Q ∧ (left c == left c')%Q ∧
  (right c == right c')%Q.

#[export] Instance transform_equiv : Equiv ITransform := λ t t',
  vec2_equiv (position t) (position t') ∧ vec2_equiv (scale t) (scale t') ∧
  crop_equiv (crop t) (crop t') ∧ (rotation t == rotation t')%Q.

(** * Lemmas *)

Section Numbers.
Local Open Scope Q_scope.

(** ** Floor, ceiling and truncation *)

Lemma Qfloor_bounds q : inject_Z (Qfloor q) <= q ∧ q < inject_Z (Qfloor q) + 1.
Proof.
  split; [apply Qfloor_le|]. pose proof (Qlt_floor q) as Hq.
  by rewrite inject_Z_plus in Hq.
Qed.

Lemma Qceiling_bounds q : inject_Z (Qceiling q) - 1 < q ∧ q <= inject_Z (Qceiling q).
Proof.
  split; [|apply Qle_ceiling]. pose proof (Qceiling_lt q) as Hq.
  unfold Z.sub in Hq. by rewrite inject_Z_plus in Hq.
Qed.

Lemma inject_Z_le_close (j k : Z) : inject_Z j < inject_Z k + 1 → (j ≤ k)%Z.
Proof. change 1 with (inject_Z 1). rewrite <- inject_Z_plus, <- Zlt_Qlt. lia. Qed.

(** Two integers less than one apart are equal. *)
Lemma inject_Z_close (j k : Z) :
  inject_Z j < inject_Z k + 1 → inject_Z k < inject_Z j + 1 → j = k.
Proof. intros ?%inject_Z_le_close ?%inject_Z_le_close. lia. Qed.

Lemma Qfloor_unique q (k : Z) : inject_Z k <= q → q < inject_Z k + 1 → Qfloor q = k.
Proof.
  intros Hle Hlt. destruct (Qfloor_bounds q). apply inject_Z_close; lra.
Qed.

Lemma Qtruncate_nonneg q :
  0 <= q → inject_Z (Qtruncate q) <= q ∧ q < inject_Z (Qtruncate q) + 1.
Proof.
  intros Hq%Qle_bool_iff. unfold Qtruncate. rewrite Hq. apply Qfloor_bounds.
Qed.

Lemma Qtruncate_neg q :
  q < 0 → inject_Z (Qtruncate q) - 1 < q ∧ q <= inject_Z (Qtruncate q).
Proof.
  intros Hq. unfold Qtruncate. destruct (Qle_bool 0 q) eqn:Hle.
  - apply Qle_bool_iff in Hle. lra.
  - apply Qceiling_bounds.
Qed.

#[export] Instance Qtruncate_proper : Proper (Qeq ==> eq) Qtruncate.
Proof.
  intros q q' Hq. unfold Qtruncate.
  by rewrite Hq, (Qfloor_comp _ _ Hq), (Qceiling_comp _ _ Hq).
Qed.

#[export] Instance js_rem_proper : Proper (Qeq ==> Qeq ==> Qeq) js_rem.
Proof.
  intros a a' Ha b b' Hb. unfold js_rem.
  assert (a / b == a' / b') as Hdiv by (by rewrite Ha, Hb).
  rewrite (Qtruncate_proper _ _ Hdiv). by rewrite Ha, Hb.
Qed.

#[export] Instance Math_round_proper : Proper (Qeq ==> eq) Math_round.
Proof.
  intros q q' Hq. unfold Math_round. apply Qfloor_comp. by rewrite Hq.
Qed.

(** ** The remainder by 360 *)

Lemma js_rem_360_nonneg a :
  0 <= a → 0 <= js_rem a 360 ∧ js_rem a 360 < 360 ∧ js_rem a 360 == Qmod a 360.
Proof.
  intros Ha. unfold js_rem, Qmod.
  assert (a == 360 * (a / 360)) as Hdiv by field.
  assert (0 <= a / 360) as Hq by lra.
  destruct (Qtruncate_nonneg _ Hq).
  apply Qle_bool_iff in Hq. unfold Qtruncate in *. rewrite Hq in *. lra.
Qed.

Lemma js_rem_360_neg a : a < 0 → -360 < js_rem a 360 ∧ js_rem a 360 <= 0.
Proof.
  intros Ha. unfold js_rem.
  assert (a == 360 * (a / 360)) as Hdiv by field.
  assert (a / 360 < 0) as Hq by lra.
  destruct (Qtruncate_neg _ Hq). lra.
Qed.

Lemma js_rem_360_range a : -360 < js_rem a 360 ∧ js_rem a 360 < 360.
Proof.
  destruct (Qlt_le_dec a 0) as [Ha|Ha].
  - destruct (js_rem_360_neg a Ha). lra.
  - destruct (js_rem_360_nonneg a Ha) as (? & ? & _). lra.
Qed.

(** The remainder differs from the dividend by a multiple of the divisor. *)
Lemma js_rem_multiple a b : ∃ k : Z, js_rem a b == a + b * inject_Z k.
Proof.
  exists (- Qtruncate (a / b))%Z. unfold js_rem. rewrite inject_Z_opp. ring.
Qed.

Lemma normalize_rotation_range r :
  0 <= normalize_rotation r ∧ normalize_rotation r < 360.
Proof.
  unfold normalize_rotation. destruct (js_rem_360_range r).
  by destruct (js_rem_360_nonneg (js_rem r 360 + 360)) as (? & ? & _); [lra|].
Qed.

Lemma normalize_rotation_multiple r :
  ∃ k : Z, normalize_rotation r == r + 360 * inject_Z k.
Proof.
  unfold normalize_rotation.
  destruct (js_rem_multiple r 360) as [k1 Hk1].
  destruct (js_rem_multiple (js_rem r 360 + 360) 360) as [k2 Hk2].
  exists (k1 + 1 + k2)%Z. rewrite Hk2, Hk1, !inject_Z_plus. change (inject_Z 1) with 1. ring.
Qed.

Lemma Qmod_360_range a : 0 <= Qmod a 360 ∧ Qmod a 360 < 360.
Proof.
  unfold Qmod. assert (a == 360 * (a / 360)) as Hdiv by field.
  destruct (Qfloor_bounds (a / 360)). lra.
Qed.

(** Two numbers of the range that differ by a multiple of 360 are equal. *)
Lemma range_360_unique u v (k : Z) :
  0 <= u → u < 360 → 0 <= v → v < 360 → u == v + 360 * inject_Z k → u == v.
Proof.
  intros ? ? ? ? Hk. assert (k = 0%Z) as ->; [|rewrite Hk; change (inject_Z 0) with 0; ring].
  apply inject_Z_close; change (inject_Z 0) with 0; lra.
Qed.

Lemma normalize_rotation_Qmod r : normalize_rotation r == Qmod r 360.
Proof.
  destruct (normalize_rotation_range r), (Qmod_360_range r).
  destruct (normalize_rotation_multiple r) as [k Hk].
  apply (range_360_unique _ _ (k + Qfloor (r / 360))); [done..|].
  rewrite Hk. unfold Qmod. rewrite inject_Z_plus. ring.
Qed.

#[export] Instance normalize_rotation_proper : Proper (Qeq ==> Qeq) normalize_rotation.
Proof. intros r r' Hr. unfold normalize_rotation. by rewrite Hr. Qed.

(** A rotation of the range is left as it is. *)
Lemma normalize_rotation_id r : 0 <= r → r < 360 → normalize_rotation r == r.
Proof.
  intros ? ?. destruct (normalize_rotation_range r).
  destruct (normalize_rotation_multiple r) as [k Hk]. by apply (range_360_unique _ _ k).
Qed.

(** ** Rounding a crop *)

Lemma Math_round_near c :
  c - (1 # 2) < inject_Z (Math_round c) ∧ inject_Z (Math_round c) <= c + (1 # 2).
Proof. unfold Math_round. destruct (Qfloor_bounds (c + (1 # 2))). lra. Qed.

Lemma Math_round_nonneg c : 0 <= c → (0 ≤ Math_round c)%Z.
Proof.
  intros Hc. destruct (Math_round_near c) as [Hlt _].
  apply inject_Z_le_close. change (inject_Z 0) with 0. lra.
Qed.

Lemma round_crop_whole c : whole (round_crop c).
Proof. exists (Z.max 0 (Math_round c)). split; [lia | done]. Qed.

Lemma round_crop_nonneg c : 0 <= c → round_crop c = inject_Z (Math_round c).
Proof. intros Hc%Math_round_nonneg. unfold round_crop. f_equal. lia. Qed.

Lemma round_crop_neg c : c <= 0 → round_crop c = 0.
Proof.
  intros Hc. unfold round_crop. destruct (Math_round_near c) as [_ Hle].
  assert (Math_round c ≤ 0)%Z; [|by rewrite Z.max_l].
  apply inject_Z_le_close. change (inject_Z 0) with 0. lra.
Qed.

Lemma round_crop_idem c : whole c → round_crop c = c.
Proof.
  intros (n & Hn & ->). unfold round_crop, Math_round.
  rewrite (Qfloor_unique _ n); [by rewrite Z.max_r | lra..].
Qed.

#[export] Instance round_crop_proper : Proper (Qeq ==> eq) round_crop.
Proof. intros c c' Hc. unfold round_crop. by rewrite (Math_round_proper _ _ Hc). Qed.

End Numbers.

(** ** Transforms in range *)

Lemma default_transform_wf : transform_wf default_transform.
Proof. split; [by split|by exists 0%Z..]. Qed.

Lemma merge_field_whole given old :
  whole old → whole (merge_field round_crop given old).
Proof. destruct given; [intros _; apply round_crop_whole | done]. Qed.

Lemma merge_transform_wf patch t : transform_wf t → transform_wf (merge_transform patch t).
Proof.
  intros [Hrotation Htop Hbottom Hleft Hright]. split; cbn.
  - destruct (patch_rotation patch); [apply normalize_rotation_range | done].
  - destruct (patch_crop patch); [by apply merge_field_whole | done].
  - destruct (patch_crop patch); [by apply merge_field_whole | done].
  - destruct (patch_crop patch); [by apply merge_field_whole | done].
  - destruct (patch_crop patch); [by apply merge_field_whole | done].
Qed.

(** ** A patch applied twice *)

Lemma merge_field_idem f given old :
  merge_field f given (merge_field f given old) = merge_field f given old.
Proof. by destruct given. Qed.

Lemma merge_vec2_idem patch v : merge_vec2 patch (merge_vec2 patch v) = merge_vec2 patch v.
Proof. destruct patch; [|done]. cbn. by rewrite !merge_field_idem. Qed.

Lemma merge_crop_idem patch c : merge_crop patch (merge_crop patch c) = merge_crop patch c.
Proof. destruct patch; [|done]. cbn. by rewrite !merge_field_idem. Qed.

Lemma merge_transform_idem patch t :
  merge_transform patch (merge_transform patch t) = merge_transform patch t.
Proof.
  unfold merge_transform. cbn.
  by rewrite !merge_vec2_idem, merge_crop_idem, merge_field_idem.
Qed.

(** ** The equivalence of transforms *)

#[export] Instance vec2_equiv_equivalence : Equivalence vec2_equiv.
Proof.
  split.
  - by intros v.
  - by intros v v' [??].
  - intros v1 v2 v3 [??] [??]. split; by etrans.
Qed.

#[export] Instance crop_equiv_equivalence : Equivalence crop_equiv.
Proof.
  split.
  - by intros c.
  - by intros c c' (?&?&?&?).
  - intros c1 c2 c3 (?&?&?&?) (?&?&?&?). split_and!; by etrans.
Qed.

#[export] Instance transform_equivalence : Equivalence (≡@{ITransform}).
Proof.
  split.
  - by intros t.
  - by intros t t' (?&?&?&?).
  - intros t1 t2 t3 (?&?&?&?) (?&?&?&?). split_and!; by etrans.
Qed.

Lemma merge_field_equiv f given old old' :
  (old == old')%Q → (merge_field f given old == merge_field f given old')%Q.
Proof. by destruct given. Qed.

#[export] Instance merge_vec2_proper patch : Proper (vec2_equiv ==> vec2_equiv) (merge_vec2 patch).
Proof. intros v v' [??]. destruct patch; [|done]. split; by apply merge_field_equiv. Qed.

#[export] Instance merge_crop_proper patch : Proper (crop_equiv ==> crop_equiv) (merge_crop patch).
Proof.
  intros c c' (?&?&?&?). destruct patch; [|done]. split_and!; by apply merge_field_equiv.
Qed.

#[export] Instance merge_transform_proper patch : Proper ((≡) ==> (≡)) (merge_transform patch).
Proof.
  intros t t' (Hposition & Hscale & Hcrop & Hrotation). split_and!; cbn.
  - by rewrite Hposition.
  - by rewrite Hscale.
  - by rewrite Hcrop.
  - by apply merge_field_equiv.
Qed.

(** ** The operations on the store *)

Lemma update_settings_run scene id f (st : State) :
  update_settings scene id f st =
    match Scene_getItem st scene id with
    | Some item => SceneNodes.setSettings scene id (f (item_settings item)) st
    | None => Run (Normal tt) st []
    end.
Proof. unfold update_settings. rewrite svc_bind_gets. by destruct (Scene_getItem st scene id). Qed.

(** The items after a change of settings: the items of the scene under the
    id are given the settings computed from the first of them. *)
Lemma update_settings_items scene id f (st : State) other :
  Scene_getItems (final (update_settings scene id f st)) other =
    match Scene_getItem st scene id with
    | Some item =>
        (λ item', if decide (other = scene ∧ sceneItemId item' = id)
                  then with_settings (f (item_settings item)) item' else item')
          <$> Scene_getItems st other
    | None => Scene_getItems st other
    end.
Proof.
  rewrite update_settings_run. destruct (Scene_getItem st scene id); [|done].
  rewrite setSettings_run. apply getItems_UPDATE_SETTINGS.
Qed.

Lemma update_settings_wf scene id f :
  (∀ s, transform_wf (transform s) → transform_wf (transform (f s))) →
  preserves items_wf (update_settings scene id f).
Proof.
  intros Hf st Hwf other item'. rewrite update_settings_items.
  destruct (Scene_getItem st scene id) as [item|] eqn:Hitem; [|apply Hwf].
  intros (item0 & -> & Hitem0)%list_elem_of_fmap. case_decide; [|by eapply Hwf].
  apply Hf, (Hwf scene). by apply js_find_Some in Hitem as [? _].
Qed.

Lemma addSource_wf scene src uuid :
  preserves items_wf (SceneNodes.addSource default_settings scene src uuid).
Proof.
  intros st Hwf other item. rewrite addSource_run.
  destruct (dict_get (scenes st) scene) eqn:Hscene; [|apply Hwf].
  destruct (canAddSource st scene src); [|apply Hwf].
  cbn [final]. rewrite getItems_ADD_SOURCE by eauto. case_decide; [|apply Hwf].
  intros [->|Hitem]%elem_of_cons; [apply default_transform_wf | by eapply Hwf].
Qed.

Lemma removeItem_wf scene id : preserves items_wf (SceneNodes.removeItem scene id).
Proof.
  intros st Hwf other item. rewrite removeItem_run. cbn [final].
  rewrite getItems_REMOVE_NODE. intros [_ Hitem]%list_elem_of_filter. by eapply Hwf.
Qed.

(** ** Locking every item *)

Lemma fmap_unchanged {A} (f : A → A) (l : list A) : (∀ x, x ∈ l → f x = x) → f <$> l = l.
Proof.
  intros Hf. rewrite <- (list_fmap_id l) at 2. apply list_fmap_ext.
  intros _ x Hx%list_elem_of_lookup_2. by apply Hf.
Qed.

Lemma setLocked_wf scene id locked' : preserves items_wf (setLocked scene id locked').
Proof. by apply update_settings_wf. Qed.

Lemma setLockOnAllItems_wf scene locked' :
  preserves items_wf (setLockOnAllItems scene locked').
Proof.
  apply preserves_bind; [apply preserves_gets|]. intros items. apply preserves_forEach.
  intros item _. apply setLocked_wf.
Qed.

Lemma setLockOnAllScenes_wf locked' : preserves items_wf (setLockOnAllScenes locked').
Proof.
  apply preserves_bind; [apply preserves_gets|]. intros sceneList.
  apply preserves_forEach. intros scene _.
  apply preserves_bind; [apply preserves_deref|]. intros ?. apply setLockOnAllItems_wf.
Qed.

Lemma lock_item_id locked' item : sceneItemId (lock_item locked' item) = sceneItemId item.
Proof. done. Qed.

Lemma lock_item_idem locked' item :
  lock_item locked' (lock_item locked' item) = lock_item locked' item.
Proof. done. Qed.

(** The items after [setLocked], in a scene whose item ids are distinct: the
    item under the id is locked or unlocked, and nothing else changes. *)
Lemma setLocked_items scene id locked' (st : State) other :
  NoDup (sceneItemId <$> Scene_getItems st scene) →
  Scene_getItems (final (setLocked scene id locked' st)) other =
    (λ item, if decide (other = scene ∧ sceneItemId item = id)
             then lock_item locked' item else item) <$> Scene_getItems st other.
Proof.
  intros Hids. unfold setLocked. rewrite update_settings_items.
  destruct (Scene_getItem st scene id) as [item|] eqn:Hitem.
  - apply js_find_Some in Hitem as [Hin Hid]. apply list_fmap_ext.
    intros _ item' Hin'%list_elem_of_lookup_2. case_decide as Hsame; [|done].
    destruct Hsame as [-> Hid'].
    by rewrite (NoDup_fmap_elem_inj sceneItemId _ item' item Hids Hin' Hin) by congruence.
  - symmetry. apply fmap_unchanged. intros item' Hin'. case_decide as Hsame; [|done].
    destruct Hsame as [-> Hid']. apply js_find_None in Hitem.
    by destruct (proj1 (Forall_forall _ _) Hitem _ Hin').
Qed.

(** Locking the items of a list, one after the other. *)
Lemma forEach_setLocked_items scene locked' (l : list Item) (st : State) other :
  NoDup (sceneItemId <$> Scene_getItems st scene) →
  let r := svc_forEach l (λ item, setLocked scene (sceneItemId item) locked') st in
  result r = Normal tt ∧
  Scene_getItems (final r) other =
    (λ item, if decide (other = scene ∧ sceneItemId item ∈ sceneItemId <$> l)
             then lock_item locked' item else item) <$> Scene_getItems st other.
Proof.
  revert st. induction l as [|x l IH]; intros st Hids; cbn [svc_forEach].
  - split; [done|]. symmetry. apply fmap_unchanged. intros item _.
    case_decide as H; [|done]. by destruct H as [_ ?%elem_of_nil].
  - set (r1 := setLocked scene (sceneItemId x) locked' st).
    assert (result r1 = Normal tt) as Hr1.
    { unfold r1, setLocked. rewrite update_settings_run.
      destruct (Scene_getItem st scene (sceneItemId x)); [|done]. by rewrite setSettings_run. }
    rewrite (svc_bind_normal _ _ _ _ Hr1). cbn [prepend result final].
    destruct (IH (final r1)) as [Hres Hitems].
    { unfold r1. rewrite setLocked_items, <- list_fmap_compose by done.
      rewrite (list_fmap_ext _ sceneItemId); [done|]. intros _ item _. cbn. by destruct (decide _). }
    split; [done|]. fold r1. rewrite Hitems. unfold r1. rewrite setLocked_items by done.
    rewrite <- list_fmap_compose. apply list_fmap_ext. intros _ item _. cbn [compose fmap list_fmap].
    destruct (decide (other = scene ∧ sceneItemId item = sceneItemId x)) as [[-> Hx]|Hx];
      repeat destruct (decide _); rewrite ?lock_item_id, ?fmap_cons, ?elem_of_cons in *;
      naive_solver.
Qed.

Lemma setLockOnAllItems_items scene locked' (st : State) other :
  NoDup (sceneItemId <$> Scene_getItems st scene) →
  result (setLockOnAllItems scene locked' st) = Normal tt ∧
  Scene_getItems (final (setLockOnAllItems scene locked' st)) other =
    if decide (other = scene) then lock_item locked' <$> Scene_getItems st other
    else Scene_getItems st other.
Proof.
  intros Hids. unfold setLockOnAllItems. rewrite svc_bind_gets.
  destruct (forEach_setLocked_items scene locked' (Scene_getItems st scene) st other Hids)
    as [-> ->].
  split; [done|]. case_decide as Hsame.
  - subst other. apply list_fmap_ext. intros _ item Hin%list_elem_of_lookup_2.
    rewrite decide_True; [done|]. split; [done|]. by apply list_elem_of_fmap_2.
  - apply fmap_unchanged. intros item _. by rewrite decide_False by naive_solver.
Qed.

(** Locking the items of the scenes of a list, one scene after the other. *)
Lemma forEach_setLockOnAllItems locked' (l : list Scene) (st : State) other :
  item_ids_unique st → NoDup l →
  let r := svc_forEach (Some <$> l)
             (λ scene, let* scene := svc_deref scene in setLockOnAllItems scene locked') st in
  result r = Normal tt ∧
  Scene_getItems (final r) other =
    if decide (other ∈ l) then lock_item locked' <$> Scene_getItems st other
    else Scene_getItems st other.
Proof.
  revert st. induction l as [|x l IH]; intros st Hids Hl; [done|].
  apply NoDup_cons in Hl as [Hx Hl]. cbn [fmap list_fmap svc_forEach].
  set (r1 := svc_bind (svc_deref (Some x)) (λ scene, setLockOnAllItems scene locked') st).
  assert (∀ k, result r1 = Normal tt ∧
            Scene_getItems (final r1) k =
              if decide (k = x) then lock_item locked' <$> Scene_getItems st k
              else Scene_getItems st k) as Hr1.
  { intros k. unfold r1, svc_deref. rewrite svc_bind_ret_l. by apply setLockOnAllItems_items. }
  rewrite (svc_bind_normal _ _ _ _ (proj1 (Hr1 other))). cbn [prepend result final].
  destruct (IH (final r1)) as [Hres Hitems]; [|done|].
  { intros k. rewrite (proj2 (Hr1 k)). destruct (decide (k = x)); [|apply Hids].
    rewrite <- list_fmap_compose. apply (Hids k). }
  split; [done|]. fold r1. rewrite Hitems, (proj2 (Hr1 other)).
  repeat destruct (decide _); rewrite ?elem_of_cons in *; naive_solver.
Qed.

(** ** The calls leave the scenes alone *)

Section Frame.
Context (st0 : State).

Lemma update_settings_frame scene id f :
  preserves (same_frame st0) (update_settings scene id f).
Proof.
  intros st Hst. rewrite update_settings_run. destruct (Scene_getItem st scene id); [|done].
  eapply same_frame_trans; [done | apply nodes_setSettings_frame].
Qed.

Lemma setLockOnAllScenes_frame locked' :
  preserves (same_frame st0) (setLockOnAllScenes locked').
Proof.
  apply preserves_bind; [apply preserves_gets|]. intros sceneList.
  apply preserves_forEach. intros scene _.
  apply preserves_bind; [apply preserves_deref|]. intros ?.
  apply preserves_bind; [apply preserves_gets|]. intros items.
  apply preserves_forEach. intros item _. apply update_settings_frame.
Qed.

Lemma call_frame c : preserves (same_frame st0) (call c).
Proof.
  destruct c; cbn [call]; try apply update_settings_frame.
  - apply setLockOnAllScenes_frame.
  - intros st Hst. rewrite final_bind_ret.
    eapply same_frame_trans; [done | apply nodes_addSource_frame].
  - intros st Hst. eapply same_frame_trans; [done | apply nodes_removeItem_frame].
Qed.

End Frame.

Lemma run_calls_frame calls (st : State) : same_frame st (run_calls calls st).1.
Proof. apply (run_all_inv call (same_frame st)); [apply call_frame | apply same_frame_refl]. Qed.

(** Item ids are distinct when they are in the scenes of the store. *)
Lemma item_ids_unique_keys (st : State) :
  Forall (λ k, NoDup (sceneItemId <$> Scene_getItems st k)) (dict_keys (scenes st)) →
  item_ids_unique st.
Proof.
  intros Hkeys k. destruct (decide (k ∈ dict_keys (scenes st))) as [Hk|Hk].
  - by apply (proj1 (Forall_forall _ _) Hkeys).
  - unfold Scene_getItems. apply dict_get_None in Hk. rewrite Hk. constructor.
Qed.

Lemma call_wf c : preserves items_wf (call c).
Proof.
  destruct c; cbn [call].
  - apply update_settings_wf. intros s. apply merge_transform_wf.
  - by apply update_settings_wf.
  - by apply update_settings_wf.
  - apply setLockOnAllScenes_wf.
  - intros st Hwf. rewrite final_bind_ret. by apply addSource_wf.
  - apply removeItem_wf.
Qed.

(** * The API test *)

#[local] Instance test_api : @SceneApi ISceneItemSettings := SceneNodesApi default_settings.

(** The store the application starts with: one scene. *)
Definition test_store : State :=
  final (createScene "Scene"
           {| duplicateSourcesFromScene := None; sceneId := None; makeActive := false |}
           "1" (λ _, "") initialState).

Definition rotation_patch (r : Q) : IPartialTransform :=
  {| patch_position := None; patch_scale := None; patch_crop := None;
     patch_rotation := Some r |}.

Definition crop_patch (top' bottom' left' right' : Q) : IPartialTransform :=
  {| patch_position := None; patch_scale := None;
     patch_crop := Some {| patch_top := Some top'; patch_bottom := Some bottom';
                           patch_left := Some left'; patch_right := Some right' |};
     patch_rotation := None |}.

(** The test [SceneItem.setSettings()]: the transforms it reads after each
    [setTransform]. *)
Definition setSettings_test : M (list (option ITransform)) :=
  let* scene := svc_gets activeSceneId in
  SceneNodes.addSource default_settings scene "MyColorSource" "item1";;
  setTransform scene "item1" (rotation_patch 90);;
  let* t1 := svc_gets (λ st, getModel_transform st scene "item1") in
  setTransform scene "item1" (rotation_patch (360 + 90));;
  let* t2 := svc_gets (λ st, getModel_transform st scene "item1") in
  setTransform scene "item1" (crop_patch (12 # 10) (56 # 10) (71 # 10) 10);;
  let* t3 := svc_gets (λ st, getModel_transform st scene "item1") in
  svc_ret [t1; t2; t3].

(** * Properties *)

(** C19: Stored transforms stay within their ranges.  Whatever transforms,
    flags, additions and removals are asked for, in any order, every item of
    every scene keeps a rotation from 0 up to but not 360 and a crop of
    whole numbers that are not negative. *)
Theorem transforms_stay_in_range (calls : list Call) (st : State) :
  items_wf st → items_wf (run_calls calls st).1.
Proof. apply run_all_inv, call_wf. Qed.

(** A rotation is reduced modulo 360.  For every number given,
    [setTransform] stores the one number from 0 up to but not 360 that
    differs from it by a multiple of 360: the remainder of the division that
    rounds down, although [%] truncates. *)
Theorem rotation_normalized (r : Q) :
  (0 <= normalize_rotation r)%Q ∧ (normalize_rotation r < 360)%Q ∧
  (normalize_rotation r == Qmod r 360)%Q ∧
  ∃ k : Z, (normalize_rotation r == r + 360 * inject_Z k)%Q.
Proof.
  destruct (normalize_rotation_range r).
  split_and!; [done..|apply normalize_rotation_Qmod|apply normalize_rotation_multiple].
Qed.

(** A crop is rounded to the nearest whole number.  A crop that is not
    negative is stored as the whole number nearest to it, a half rounded up;
    a negative crop is stored as 0; a whole number is stored as it is. *)
Theorem crop_rounded (c : Q) :
  whole (round_crop c) ∧
  (if Qle_bool 0 c
   then (c - (1 # 2) < round_crop c)%Q ∧ (round_crop c <= c + (1 # 2))%Q
   else round_crop c = 0%Q) ∧
  (whole c ↔ round_crop c = c).
Proof.
  split_and!.
  - apply round_crop_whole.
  - destruct (Qle_bool 0 c) eqn:Hc.
    + apply Qle_bool_iff in Hc. rewrite round_crop_nonneg by done. apply Math_round_near.
    + apply round_crop_neg. destruct (Qlt_le_dec c 0) as [|Hle]; [lra|].
      apply Qle_bool_iff in Hle. congruence.
  - split; [apply round_crop_idem|]. intros <-. apply round_crop_whole.
Qed.

(** [setTransform] merges the patch into the item.  When the scene has
    an item under the id, [setTransform] gives every item of the scene under
    that id the transform of the first of them with the fields of the patch
    written over it, the rotation reduced and the crop rounded; it leaves the
    flags, the other items and the other scenes as they are, and tells the
    observers once for each item it changed.  Without such an item nothing
    happens. *)
Theorem setTransform_spec (scene : Scene) (id : string) (patch : IPartialTransform)
    (st : State) (other : Scene) :
  let r := setTransform scene id patch st in
  result r = Normal tt ∧
  match Scene_getItem st scene id with
  | Some item =>
      let settings :=
        with_transform (merge_transform patch (transform (item_settings item)))
          (item_settings item) in
      Scene_getItems (final r) other =
        (λ item', if decide (other = scene ∧ sceneItemId item' = id)
                  then with_settings settings item' else item') <$> Scene_getItems st other ∧
      trace r =
        itemUpdated <$>
          filter (λ item', sceneItemId item' = id) (Scene_getItems (final r) scene)
  | None => final r = st ∧ trace r = []
  end.
Proof.
  intros r. unfold r, setTransform. rewrite (update_settings_items _ _ _ _ other).
  rewrite update_settings_run. destruct (Scene_getItem st scene id); [|done].
  by rewrite setSettings_run.
Qed.

(** A patch applied twice is applied once.  Giving the same patch again
    changes no transform, and patches respect the equality of numbers:
    equivalent transforms stay equivalent. *)
Theorem setTransform_idempotent (patch : IPartialTransform) (t t' : ITransform) :
  merge_transform patch (merge_transform patch t) = merge_transform patch t ∧
  (t ≡ t' → merge_transform patch t ≡ merge_transform patch t').
Proof. split; [apply merge_transform_idem | apply merge_transform_proper]. Qed.

(** C32: [setLockOnAllScenes] locks every item.  In a store whose display
    order lists the scenes and whose items have distinct ids within their
    scene, [setLockOnAllScenes(locked)] does not throw, and afterwards every
    scene has the items it had, in their order, each with [locked] as given
    and with its transform and its visibility as before. *)
Theorem setLockOnAllScenes_spec (locked' : bool) (st : State) (scene : Scene) :
  store_wf st → item_ids_unique st →
  result (setLockOnAllScenes locked' st) = Normal tt ∧
  Scene_getItems (final (setLockOnAllScenes locked' st)) scene =
    lock_item locked' <$> Scene_getItems st scene.
Proof.
  intros Hwf Hids. unfold setLockOnAllScenes. rewrite svc_bind_gets.
  assert (scenes_getter st = Some <$> displayOrder st) as ->.
  { apply list_fmap_ext. intros _ k Hk%list_elem_of_lookup_2. unfold getScene.
    rewrite (wf_order _ Hwf) in Hk. by apply dict_get_is_Some in Hk as [? ->]. }
  destruct (forEach_setLockOnAllItems locked' (displayOrder st) st scene Hids)
    as [Hres Hitems].
  { rewrite (wf_order _ Hwf). apply Hwf. }
  split; [exact Hres|]. etrans; [exact Hitems|]. clear Hres Hitems.
  case_decide as Hin; [done|]. unfold Scene_getItems.
  destruct (dict_get (scenes st) scene) eqn:Hget; [|done].
  destruct Hin. rewrite (wf_order _ Hwf). by apply dict_get_is_Some.
Qed.

(** The test of the repository passes.  After a rotation of 90 the item
    reads 90; after a rotation of 360 + 90 it reads 90; after a crop of 1.2,
    5.6, 7.1 and 10 it reads 1, 6, 7 and 10. *)
Theorem setSettings_test_passes :
  ∃ t1 t2 t3,
    result (setSettings_test test_store) = Normal [Some t1; Some t2; Some t3] ∧
    rotation t1 = 90%Q ∧ rotation t2 = 90%Q ∧
    crop t3 = {| top := 1; bottom := 6; left := 7; right := 10 |} ∧
    rotation t3 = 90%Q.
Proof. do 3 eexists. split; [by vm_compute | done]. Qed.

(** ** The theorems at the store of the test *)

Lemma test_store_wf : items_wf test_store.
Proof.
  intros scene item. unfold Scene_getItems.
  destruct (dict_get (scenes test_store) scene) as [model|] eqn:Hget;
    [|by intros ?%elem_of_nil].
  vm_compute in Hget. case_match; [|done]. injection Hget as <-. by intros ?%elem_of_nil.
Qed.

Lemma transforms_stay_in_range_witness :
  items_wf
    (run_calls [AddSource "scene_1" "MyColorSource" "item1";
                SetTransform "scene_1" "item1" (rotation_patch (-10));
                SetVisibility "scene_1" "item1" false] test_store).1.
Proof. apply transforms_stay_in_range, test_store_wf. Defined.

(** A store with two items, the first of them locked. *)
Definition lock_store : State :=
  (run_calls [AddSource "scene_1" "MyColorSource" "item1";
              AddSource "scene_1" "MyColorSource" "item2";
              SetLocked "scene_1" "item1" true] test_store).1.

Lemma test_store_inv : scenes_inv test_store.
Proof. by apply createScene_inv; [|apply initialState_inv]. Qed.

Lemma lock_store_wf : store_wf lock_store.
Proof. eapply same_frame_store_wf; [apply run_calls_frame | apply test_store_inv]. Qed.

Lemma lock_store_ids : item_ids_unique lock_store.
Proof. apply item_ids_unique_keys, (bool_decide_unpack _). by vm_compute. Qed.

Lemma setLockOnAllScenes_spec_witness :
  result (setLockOnAllScenes false lock_store) = Normal tt ∧
  Scene_getItems (final (setLockOnAllScenes false lock_store)) "scene_1" =
    lock_item false <$> Scene_getItems lock_store "scene_1".
Proof. apply setLockOnAllScenes_spec; [apply lock_store_wf | apply lock_store_ids]. Defined.

Lemma setTransform_idempotent_witness :
  merge_transform (rotation_patch 450) (merge_transform (rotation_patch 450) default_transform) =
    merge_transform (rotation_patch 450) default_transform ∧
  (default_transform ≡ default_transform →
   merge_transform (rotation_patch 450) default_transform ≡
     merge_transform (rotation_patch 450) default_transform).
Proof. apply setTransform_idempotent. Defined.

End Transform.
