(* ===== verification/Nodes.v ===== *)
(** * Nodes: items and folders of a scene, and reparenting

    Models the node abstraction: a scene holds items and folders; every
    node may have a parent folder, and a folder lists its children.  The
    node classes are not among the sources; the types are those of
    [Scenes.v] and the operations are modelled from the specification
    (sections 3 and 4.2): [setParent] moves a node into a folder, and
    refuses a move that would make a folder its own descendant.  The
    scene after a move is [reparent_with], which [Ordering.v] uses again
    for a node placed beside another.

    The parent of a node is read from the node itself; the list of children
    of a folder is kept beside it and [children_ok] says that the two agree.
    The walk from a node towards the root ([has_ancestor_in]) is given as
    fuel the number of nodes of the scene, which is enough on every scene,
    a forest or not ([has_ancestor_in_spec]). *)

From stdpp Require Import base tactics option list strings relations.
From S2P Require Import Prelude JsObject Scenes SceneNodes.

Set Warnings "-clear-no-such-hyp".

Local Open Scope string_scope.
Local Open Scope list_scope.
Local Open Scope nat_scope.
Local Open Scope svc_scope.

Module Nodes.
Section Nodes.
Context {Settings : Type}.

Local Abbreviation State := (@IScenesState Settings).
Local Abbreviation Node := (@TSceneNode Settings).
Local Abbreviation M := (@Scenes.M Settings).

(** ** Reading the nodes *)

Definition node_id (node : Node) : string :=
  match node with
  | ItemNode item => sceneItemId item
  | FolderNode folder => folder_id folder
  end.

Definition node_parentId (node : Node) : option string :=
  match node with
  | ItemNode item => item_parentId item
  | FolderNode folder => folder_parentId folder
  end.

Definition node_folder (node : Node) : option ISceneItemFolder :=
  match node with
  | ItemNode _ => None
  | FolderNode folder => Some folder
  end.

(** [scene.getNodes()] *)
Definition getNodes (st : State) (scene : Scene) : list Node :=
  match dict_get (scenes st) scene with
  | Some model => scene_nodes model
  | None => []
  end.

(** [scene.getNodesIds()] *)
Definition getNodesIds (st : State) (scene : Scene) : list string :=
  node_id <$> getNodes st scene.

(** [scene.getNode(id)] *)
Definition getNode (st : State) (scene : Scene) (id : string) : option Node :=
  js_find (λ node, node_id node = id) (getNodes st scene).

(** [scene.getFolder(id)] *)
Definition getFolder (st : State) (scene : Scene) (id : string) :
    option ISceneItemFolder :=
  getNode st scene id ≫= node_folder.

(** The id of the parent of a node of the scene. *)
Definition parent_of (st : State) (scene : Scene) (id : string) : option string :=
  getNode st scene id ≫= node_parentId.

(** Some node on the way from the parent of [id] to the root is one of
    [ids]. *)
Fixpoint has_ancestor_in (fuel : nat) (st : State) (scene : Scene)
    (ids : list string) (id : string) : bool :=
  match fuel with
  | 0 => false
  | S fuel' =>
      match parent_of st scene id with
      | Some p => bool_decide (p ∈ ids) || has_ancestor_in fuel' st scene ids p
      | None => false
      end
  end.

(** [ancestor] is the parent of [id], or the parent of its parent, and so
    on. *)
Definition isAncestor (st : State) (scene : Scene) (ancestor id : string) : bool :=
  has_ancestor_in (length (getNodes st scene)) st scene [ancestor] id.

(** ** Reparenting *)

Definition with_parent (parentId : option string) (node : Node) : Node :=
  match node with
  | ItemNode item =>
      ItemNode
        {| sceneItemId := sceneItemId item; item_sceneId := item_sceneId item;
           sourceId := sourceId item; item_parentId := parentId;
           item_settings := item_settings item |}
  | FolderNode folder =>
      FolderNode
        {| folder_id := folder_id folder; folder_sceneId := folder_sceneId folder;
           folder_name := folder_name folder; folder_parentId := parentId;
           folder_childrenIds := folder_childrenIds folder |}
  end.

Definition with_children (f : list string → list string) (node : Node) : Node :=
  match node with
  | ItemNode item => ItemNode item
  | FolderNode folder =>
      FolderNode
        {| folder_id := folder_id folder; folder_sceneId := folder_sceneId folder;
           folder_name := folder_name folder; folder_parentId := folder_parentId folder;
           folder_childrenIds := f (folder_childrenIds folder) |}
  end.

(** A node after [id] was given the parent [p]: the node itself has the
    new parent, and no folder lists it but the new parent, in whose list
    [put] places it. *)
Definition reparent_with (put : list string → list string) (id : string)
    (p : option string) (node : Node) : Node :=
  if decide (node_id node = id) then
    with_parent p (with_children (λ children, without children id) node)
  else if decide (Some (node_id node) = p) then
    with_children (λ children, put (without children id)) node
  else with_children (λ children, without children id) node.

(** The nodes after [id] moved into [folderId], which lists it last. *)
Definition reparent (id folderId : string) : Node → Node :=
  reparent_with (λ children, children ++ [id]) id (Some folderId).

(** A node may move into a folder of its scene that is neither the node
    itself nor below it. *)
Definition canSetParent (st : State) (scene : Scene) (id folderId : string) : bool :=
  bool_decide (is_Some (getNode st scene id)) &&
  bool_decide (is_Some (getFolder st scene folderId)) &&
  negb (bool_decide (folderId = id)) &&
  negb (isAncestor st scene id folderId).

(** [node.setParent(folderId)]; tells whether the node was moved. *)
Definition setParent (scene : Scene) (id folderId : string) : M bool :=
  let* ok := svc_gets (λ st, canSetParent st scene id folderId) in
  if ok then
    svc_modify (update_nodes scene (fmap (reparent id folderId)));;
    svc_ret true
  else svc_ret false.

(** * Specification *)

(** [child] has the parent [p] in the scene. *)
Definition parent (st : State) (scene : Scene) : relation string :=
  λ child p, parent_of st scene child = Some p.

(** No node of the scene is its own ancestor. *)
Definition forest (st : State) (scene : Scene) : Prop :=
  ∀ id, ¬ tc (parent st scene) id id.

(** The folders list their children: a folder lists a node exactly when it
    is the parent of the node, and lists no node twice. *)
Definition children_ok (st : State) (scene : Scene) : Prop :=
  ∀ folder, FolderNode folder ∈ getNodes st scene →
    NoDup (folder_childrenIds folder) ∧
    ∀ child, child ∈ folder_childrenIds folder ↔ parent st scene child (folder_id folder).

(** The nodes of a scene are well formed. *)
Record nodes_wf (st : State) (scene : Scene) : Prop := {
  ids_unique : NoDup (getNodesIds st scene);
  parents_acyclic : forest st scene;
  parents_folders :
    ∀ child p, parent st scene child p → is_Some (getFolder st scene p);
  children_listed : children_ok st scene;
}.

(** A move asked for: the scene, the node and the folder. *)
Record Move : Type := mkMove {
  move_scene : Scene;
  move_id : string;
  move_folderId : string;
}.

Definition run_moves (moves : list Move) (st : State) : State * list ScenesEffect :=
  run_all
    (λ move, setParent (move_scene move) (move_id move) (move_folderId move);; svc_ret tt)
    moves st.

(** No node of the scene is found on the way from its parent to the root. *)
Definition forest_check (st : State) (scene : Scene) : bool :=
  forallb (λ id, negb (isAncestor st scene id id)) (getNodesIds st scene).

(** The folders list exactly the nodes whose parent they are. *)
Definition children_check (st : State) (scene : Scene) : bool :=
  forallb
    (λ folder,
       bool_decide (NoDup (folder_childrenIds folder)) &&
       forallb (λ child, bool_decide (parent_of st scene child = Some (folder_id folder)))
         (folder_childrenIds folder) &&
       forallb
         (λ child,
            bool_decide (parent_of st scene child = Some (folder_id folder) →
                         child ∈ folder_childrenIds folder))
         (getNodesIds st scene))
    (omap node_folder (getNodes st scene)).

(** The parents are folders of the scene. *)
Definition parents_check (st : State) (scene : Scene) : bool :=
  forallb
    (λ child,
       match parent_of st scene child with
       | Some p => bool_decide (is_Some (getFolder st scene p))
       | None => true
       end)
    (getNodesIds st scene).

Definition nodes_wf_check (st : State) (scene : Scene) : bool :=
  bool_decide (NoDup (getNodesIds st scene)) && forest_check st scene &&
  parents_check st scene && children_check st scene.

(** * Lemmas *)

(** ** The parents of the nodes *)

Lemma parent_det st scene child p1 p2 :
  parent st scene child p1 → parent st scene child p2 → p1 = p2.
Proof. unfold parent. congruence. Qed.

Lemma getNode_Some st scene id node :
  getNode st scene id = Some node → node ∈ getNodes st scene ∧ node_id node = id.
Proof. intros Hnode. by apply js_find_Some in Hnode. Qed.

Lemma getNode_known st scene id :
  is_Some (getNode st scene id) ↔ id ∈ getNodesIds st scene.
Proof.
  unfold getNodesIds. rewrite list_elem_of_fmap. split.
  - intros [node [? ?]%getNode_Some]. by exists node.
  - intros (node & -> & Hnode). by eapply js_find_is_Some.
Qed.

Lemma parent_known st scene child p :
  parent st scene child p → child ∈ getNodesIds st scene.
Proof.
  unfold parent, parent_of. intros Hp. apply getNode_known.
  by destruct (getNode st scene child).
Qed.

(** With fuel [n] the walk finds exactly the ancestors at most [n] steps
    away. *)
Lemma has_ancestor_in_nsteps n st scene ids id :
  has_ancestor_in n st scene ids id = true ↔
  ∃ m a, 0 < m ≤ n ∧ nsteps (parent st scene) m id a ∧ a ∈ ids.
Proof.
  revert id. induction n as [|n IH]; intros id; cbn [has_ancestor_in].
  { split; [done | intros (m & a & ? & _); lia]. }
  destruct (parent_of st scene id) as [p|] eqn:Hp.
  - rewrite orb_true_iff, bool_decide_eq_true, IH. split.
    + intros [Hsel|(m & a & Hm & Hpath & Hsel)].
      * exists 1, p. split_and!; [lia..|by apply nsteps_once|done].
      * exists (S m), a. split_and!; [lia..|by econstructor|done].
    + intros (m & a & Hm & Hpath & Hsel).
      destruct Hpath as [|m id p' a Hid Hpath]; [lia|].
      rewrite (parent_det _ _ _ _ _ Hid Hp) in Hpath.
      destruct m as [|m]; [left; by inv Hpath|].
      right. exists (S m), a. split_and!; [lia..|done|done].
  - split; [done|]. intros (m & a & Hm & Hpath & _).
    destruct Hpath as [|m id p' a Hid Hpath]; [lia|]. unfold parent in Hid. congruence.
Qed.

(** The number of nodes is fuel enough. *)
Lemma has_ancestor_in_spec st scene ids id :
  has_ancestor_in (length (getNodes st scene)) st scene ids id = true ↔
  ∃ a, tc (parent st scene) id a ∧ a ∈ ids.
Proof.
  rewrite has_ancestor_in_nsteps. split.
  - intros (m & a & Hm & Hpath & Hsel). exists a. split; [|done].
    apply tc_nsteps. exists m. split; [lia | done].
  - intros (a & Hpath & Hsel).
    destruct (tc_short (parent st scene) (getNodesIds st scene) id a)
      as (m & Hm & Hshort); [apply parent_known | done |].
    unfold getNodesIds in Hm. rewrite length_fmap in Hm. by exists m, a.
Qed.

Lemma isAncestor_spec st scene a id :
  isAncestor st scene a id = true ↔ tc (parent st scene) id a.
Proof.
  unfold isAncestor. rewrite has_ancestor_in_spec. split.
  - by intros (a' & Hpath & ->%list_elem_of_singleton).
  - intros Hpath. exists a. split; [done | apply list_elem_of_here].
Qed.

Lemma forest_check_spec st scene : forest_check st scene = true ↔ forest st scene.
Proof.
  unfold forest_check. rewrite forallb_forall. split.
  - intros Hcheck id Hcycle.
    assert (id ∈ getNodesIds st scene) as Hid%list_elem_of_In.
    { apply tc_nsteps in Hcycle as (m & Hm & Hsteps).
      inversion Hsteps as [|m' ? p' ? Hp _]; subst; [lia | by eapply parent_known]. }
    apply Hcheck, negb_true_iff, not_true_iff_false in Hid. by apply Hid, isAncestor_spec.
  - intros Hforest id _. apply negb_true_iff, not_true_iff_false.
    rewrite isAncestor_spec. apply Hforest.
Qed.

(** The chain of the ancestors of a node of a forest is no longer than the
    scene has nodes. *)
Lemma forest_chain_bound st scene m id a :
  forest st scene → nsteps (parent st scene) m id a → m ≤ length (getNodesIds st scene).
Proof. intros Hforest. apply chain_bound; [apply parent_det | apply parent_known | done]. Qed.

(** ** Checking a scene *)

Lemma node_folder_Some node folder : node_folder node = Some folder ↔ node = FolderNode folder.
Proof. destruct node; naive_solver. Qed.

Lemma children_check_spec st scene : children_check st scene = true → children_ok st scene.
Proof.
  unfold children_check. rewrite forallb_forall. intros Hcheck folder Hfolder.
  destruct (proj1 (andb_true_iff _ _) (Hcheck folder ltac:(
    apply list_elem_of_In, list_elem_of_omap; by exists (FolderNode folder))))
    as [[Hnodup Hlisted]%andb_true_iff Hparents].
  apply bool_decide_eq_true in Hnodup. rewrite forallb_forall in Hlisted, Hparents.
  split; [done|]. intros child. split.
  - by intros ?%list_elem_of_In%Hlisted%bool_decide_eq_true.
  - intros Hp. pose proof (parent_known _ _ _ _ Hp) as Hknown%list_elem_of_In%Hparents.
    apply bool_decide_eq_true in Hknown. by apply Hknown.
Qed.

Lemma parents_check_spec st scene child p :
  parents_check st scene = true → parent st scene child p →
  is_Some (getFolder st scene p).
Proof.
  unfold parents_check. rewrite forallb_forall. intros Hcheck Hp.
  pose proof (parent_known _ _ _ _ Hp) as Hknown%list_elem_of_In%Hcheck.
  unfold parent in Hp. rewrite Hp in Hknown. by apply bool_decide_eq_true in Hknown.
Qed.

Lemma nodes_wf_check_spec st scene : nodes_wf_check st scene = true → nodes_wf st scene.
Proof.
  unfold nodes_wf_check. rewrite !andb_true_iff, bool_decide_eq_true.
  intros [[[? ?%forest_check_spec] ?] ?%children_check_spec]. split; [done..| |done].
  intros child p. by apply parents_check_spec.
Qed.

(** ** What depends on the nodes of the scene only *)

Lemma getNode_ext st st' scene id :
  getNodes st' scene = getNodes st scene → getNode st' scene id = getNode st scene id.
Proof. unfold getNode. by intros ->. Qed.

Lemma parent_ext st st' scene child p :
  getNodes st' scene = getNodes st scene →
  parent st' scene child p ↔ parent st scene child p.
Proof. intros Hnodes. unfold parent, parent_of. by rewrite (getNode_ext st st'). Qed.

Lemma nodes_wf_ext st st' scene :
  getNodes st' scene = getNodes st scene → nodes_wf st scene → nodes_wf st' scene.
Proof.
  intros Hnodes [Hids Hforest Hfolders Hchildren]. split.
  - unfold getNodesIds. by rewrite Hnodes.
  - unfold forest. apply (acyclic_subrel (parent st scene) (parent st' scene)); [|done].
    intros ? ?. by apply parent_ext.
  - intros child p Hp%(parent_ext st st'); [|done].
    unfold getFolder. rewrite (getNode_ext st st') by done. by eapply Hfolders.
  - intros folder. rewrite Hnodes. intros [? Hlisted]%Hchildren. split; [done|].
    intros child. by rewrite Hlisted, (parent_ext st st').
Qed.

(** A scene without nodes is well formed. *)
Lemma nodes_wf_empty st scene : getNodes st scene = [] → nodes_wf st scene.
Proof.
  intros Hnodes.
  assert (∀ child p, ¬ parent st scene child p) as Hnone.
  { intros child p Hp%parent_known. unfold getNodesIds in Hp. rewrite Hnodes in Hp.
    by apply elem_of_nil in Hp. }
  split.
  - unfold getNodesIds. rewrite Hnodes. apply NoDup_nil_2.
  - intros id Hid. inv Hid; by eapply Hnone.
  - intros child p Hp. by destruct (Hnone child p).
  - intros folder. rewrite Hnodes. by intros ?%elem_of_nil.
Qed.

(** ** The nodes after a move *)

Lemma getNodes_update_nodes scene (g : Node → Node) (st : State) other :
  getNodes (update_nodes scene (fmap g) st) other =
    if decide (other = scene) then g <$> getNodes st scene else getNodes st other.
Proof.
  unfold update_nodes, getNodes.
  destruct (dict_get (scenes st) scene) as [model|] eqn:Hscene; cbn.
  - case_decide as Hother; [subst; by rewrite dict_get_set_eq|].
    by rewrite dict_get_set_ne.
  - case_decide; [by subst; rewrite Hscene | done].
Qed.

Section Moved.
Context (st : State) (scene : Scene) (put : list string → list string)
  (id : string) (p : option string).

Lemma node_id_reparent node : node_id (reparent_with put id p node) = node_id node.
Proof. unfold reparent_with. repeat case_decide; by destruct node. Qed.

Lemma node_parentId_reparent node :
  node_parentId (reparent_with put id p node) =
    if decide (node_id node = id) then p else node_parentId node.
Proof. unfold reparent_with. repeat case_decide; by destruct node. Qed.

Lemma node_folder_reparent node :
  is_Some (node_folder (reparent_with put id p node)) ↔ is_Some (node_folder node).
Proof. unfold reparent_with. repeat case_decide; by destruct node. Qed.

(** The store after the move. *)
Let moved : State := update_nodes scene (fmap (reparent_with put id p)) st.

Lemma getNodes_moved other :
  getNodes moved other =
    if decide (other = scene) then reparent_with put id p <$> getNodes st scene
    else getNodes st other.
Proof. apply getNodes_update_nodes. Qed.

Lemma getNodesIds_moved : getNodesIds moved scene = getNodesIds st scene.
Proof.
  unfold getNodesIds. rewrite getNodes_moved, decide_True by done.
  rewrite <- list_fmap_compose. apply list_fmap_ext. intros ? node _. apply node_id_reparent.
Qed.

Lemma getNode_moved child :
  getNode moved scene child = reparent_with put id p <$> getNode st scene child.
Proof.
  unfold getNode. rewrite getNodes_moved, decide_True by done.
  apply js_find_fmap. intros node. by rewrite node_id_reparent.
Qed.

Lemma parent_of_moved child :
  parent_of moved scene child =
    if decide (child = id) then getNode st scene id ≫= λ _, p
    else parent_of st scene child.
Proof.
  unfold parent_of. rewrite getNode_moved.
  destruct (getNode st scene child) as [node|] eqn:Hnode; cbn.
  - pose proof (getNode_Some _ _ _ _ Hnode) as [_ Hchild].
    rewrite node_parentId_reparent, Hchild. case_decide; [subst; by rewrite Hnode | done].
  - case_decide; [by subst; rewrite Hnode | done].
Qed.

Lemma parent_moved child q :
  parent moved scene child q →
  parent st scene child q ∨ (child = id ∧ p = Some q).
Proof.
  unfold parent. rewrite parent_of_moved. case_decide; [|by left].
  destruct (getNode st scene id); [|done]. cbn. intros ->. by right.
Qed.

Lemma getFolder_moved q :
  is_Some (getFolder moved scene q) ↔ is_Some (getFolder st scene q).
Proof.
  unfold getFolder. rewrite getNode_moved. destruct (getNode st scene q); cbn; [|done].
  apply node_folder_reparent.
Qed.

Lemma reparent_folder node folder' :
  reparent_with put id p node = FolderNode folder' →
  ∃ folder,
    node = FolderNode folder ∧ folder_id folder' = folder_id folder ∧
    folder_childrenIds folder' =
      if decide (folder_id folder = id) then without (folder_childrenIds folder) id
      else if decide (Some (folder_id folder) = p)
           then put (without (folder_childrenIds folder) id)
           else without (folder_childrenIds folder) id.
Proof.
  unfold reparent_with. destruct node as [item|folder]; cbn.
  - repeat case_decide; intros [=].
  - intros Heq. exists folder.
    by destruct (decide (folder_id folder = id)), (decide (Some (folder_id folder) = p));
      injection Heq as <-.
Qed.

(** The move is one the operations make: the node is in the scene, the
    new parent, if there is one, is a folder that is neither the node nor
    below it, and [put] adds the node to the list of the new parent. *)
Context (Hwf : nodes_wf st scene) (Hnode : is_Some (getNode st scene id))
  (Hparent : ∀ q, p = Some q →
     is_Some (getFolder st scene q) ∧ q ≠ id ∧ ¬ tc (parent st scene) q id)
  (Hput : ∀ folder, FolderNode folder ∈ getNodes st scene → Some (folder_id folder) = p →
     put (without (folder_childrenIds folder) id) ≡ₚ
       id :: without (folder_childrenIds folder) id).

Lemma moved_forest : forest moved scene.
Proof.
  unfold forest. assert (p = None ∨ ∃ q, p = Some q) as [Hp|[q Hp]] by (destruct p; eauto).
  - apply (acyclic_subrel (parent st scene)); [|apply Hwf].
    intros child q [?|[_ ?]]%parent_moved; [done | congruence].
  - destruct (Hparent q Hp) as (_ & Hne & Hbelow).
    apply (acyclic_add_edge (parent st scene) _ id q); [|by intros [?|?]%rtc_tc|apply Hwf].
    intros child q' [?|[-> ?]]%parent_moved; [by left | right; split; congruence].
Qed.

Lemma moved_children_ok : children_ok moved scene.
Proof.
  intros folder'. rewrite getNodes_moved, decide_True by done.
  intros (node & (folder & -> & Hid & Hchildren)%eq_sym%reparent_folder & Hin)%list_elem_of_fmap.
  destruct (children_listed _ _ Hwf folder Hin) as [Hnodup Hlisted].
  assert (id ∉ without (folder_childrenIds folder) id) as Hout
    by by intros [_ ?]%elem_of_without.
  assert (∀ child, parent moved scene child (folder_id folder) ↔
            if decide (child = id) then p = Some (folder_id folder)
            else child ∈ folder_childrenIds folder) as Hmoved.
  { intros child. unfold parent at 1. rewrite parent_of_moved.
    destruct Hnode as [? ->]. destruct (decide (child = id)); [done|]. by rewrite Hlisted. }
  rewrite Hchildren, Hid. setoid_rewrite Hmoved. clear Hmoved.
  destruct (decide (folder_id folder = id)) as [Hself|_].
  { split; [by apply NoDup_without|]. intros child. rewrite elem_of_without.
    destruct (decide (child = id)); [|naive_solver]. subst. split; [naive_solver|].
    by intros (_ & ? & _)%Hparent. }
  destruct (decide (Some (folder_id folder) = p)) as [Hp|Hp].
  - split.
    + rewrite (Hput folder Hin Hp). apply NoDup_cons. split; [done | by apply NoDup_without].
    + intros child. rewrite (Hput folder Hin Hp), elem_of_cons, elem_of_without.
      destruct (decide (child = id)); naive_solver.
  - split; [by apply NoDup_without|]. intros child. rewrite elem_of_without.
    destruct (decide (child = id)); naive_solver.
Qed.

Lemma moved_wf : nodes_wf moved scene.
Proof.
  split.
  - rewrite getNodesIds_moved. apply Hwf.
  - apply moved_forest.
  - intros child q [Hq|[-> Hq]]%parent_moved; apply getFolder_moved.
    + by eapply (parents_folders _ _ Hwf).
    + by apply Hparent.
  - apply moved_children_ok.
Qed.

End Moved.

(** ** The run of [setParent] *)

Lemma canSetParent_spec st scene id folderId :
  canSetParent st scene id folderId = true ↔
  is_Some (getNode st scene id) ∧ is_Some (getFolder st scene folderId) ∧
  folderId ≠ id ∧ ¬ tc (parent st scene) folderId id.
Proof.
  unfold canSetParent.
  rewrite !andb_true_iff, !negb_true_iff, !bool_decide_eq_true, bool_decide_eq_false.
  rewrite <- not_true_iff_false, isAncestor_spec. tauto.
Qed.

Lemma setParent_run scene id folderId st :
  setParent scene id folderId st =
    if canSetParent st scene id folderId
    then Run (Normal true) (update_nodes scene (fmap (reparent id folderId)) st) []
    else Run (Normal false) st [].
Proof.
  unfold setParent. rewrite svc_bind_gets.
  destruct (canSetParent st scene id folderId); [|done]. by rewrite svc_bind_modify.
Qed.

Lemma setParent_wf scene id folderId other :
  preserves (λ st, nodes_wf st other) (setParent scene id folderId).
Proof.
  intros st Hwf. rewrite setParent_run.
  destruct (canSetParent st scene id folderId) eqn:Hcan; [|done].
  apply canSetParent_spec in Hcan as (? & ? & ? & ?). cbn [final].
  destruct (decide (other = scene)) as [->|Hother].
  { apply moved_wf; [done..|by intros ? [= <-]|]. intros folder _ _.
    by rewrite Permutation_app_comm. }
  eapply nodes_wf_ext; [|done]. by rewrite getNodes_update_nodes, decide_False.
Qed.

(** * Properties *)

(** C10: Reparenting keeps the scenes forests.  Whatever moves are asked
    for, in any order and in any scenes, every scene that was well formed
    stays well formed: no node is listed twice, no folder becomes its own
    descendant, every parent is a folder of the scene, and every folder lists
    exactly its children, each once. *)
Theorem reparenting_keeps_forest (moves : list Move) (st : State) (scene : Scene) :
  nodes_wf st scene → nodes_wf (run_moves moves st).1 scene.
Proof.
  apply (run_all_inv _ (λ st, nodes_wf st scene)). intros move st' Hwf.
  rewrite final_bind_ret. by apply setParent_wf.
Qed.

(** A move into the node itself or below it is refused.  When the
    folder is the node, or lies below the node, [setParent] answers false
    and leaves the store as it is. *)
Theorem setParent_refuses_cycle (st : State) (scene : Scene) (id folderId : string) :
  folderId = id ∨ tc (parent st scene) folderId id →
  setParent scene id folderId st = Run (Normal false) st [].
Proof.
  intros Hcycle. rewrite setParent_run.
  destruct (canSetParent st scene id folderId) eqn:Hcan; [|done].
  apply canSetParent_spec in Hcan. naive_solver.
Qed.

(** A move puts the node into the folder.  When the node and the folder
    are in the scene and the folder is neither the node nor below it,
    [setParent] answers true; afterwards the node has the folder as its
    parent, every other node has the parent it had, the scene has the same
    ids in the same order, and the other scenes have the nodes they had. *)
Theorem setParent_moves (st : State) (scene : Scene) (id folderId : string) :
  is_Some (getNode st scene id) → is_Some (getFolder st scene folderId) →
  folderId ≠ id → ¬ tc (parent st scene) folderId id →
  let r := setParent scene id folderId st in
  result r = Normal true ∧ trace r = [] ∧
  parent_of (final r) scene id = Some folderId ∧
  (∀ other, other ≠ id → parent_of (final r) scene other = parent_of st scene other) ∧
  getNodesIds (final r) scene = getNodesIds st scene ∧
  ∀ other, other ≠ scene → getNodes (final r) other = getNodes st other.
Proof.
  intros Hnode Hfolder Hne Hbelow r. unfold r. rewrite setParent_run.
  rewrite (proj2 (canSetParent_spec st scene id folderId)) by done. cbn. unfold reparent.
  split_and!; [done..| | | |].
  - rewrite parent_of_moved, decide_True by done. by destruct Hnode as [node ->].
  - intros other Hother. by rewrite parent_of_moved, decide_False.
  - apply getNodesIds_moved.
  - intros other Hother. by rewrite getNodes_update_nodes, decide_False.
Qed.

(** The walk towards the root is exact.  On every scene, a forest or
    not, [isAncestor] with the number of nodes as fuel says true exactly
    when the one node is reached from the other through parents. *)
Theorem isAncestor_exact (st : State) (scene : Scene) (ancestor id : string) :
  isAncestor st scene ancestor id = true ↔ tc (parent st scene) id ancestor.
Proof. apply isAncestor_spec. Qed.

End Nodes.

(** * Test data *)

Definition test_item {Settings} (settings : Settings) (id : string)
    (parentId : option string) : @TSceneNode Settings :=
  ItemNode
    {| sceneItemId := id; item_sceneId := "scene"; sourceId := "source of " +:+ id;
       item_parentId := parentId; item_settings := settings |}.

Definition test_folder {Settings} (id : string) (parentId : option string)
    (childrenIds : list string) : @TSceneNode Settings :=
  FolderNode
    {| folder_id := id; folder_sceneId := "scene"; folder_name := id;
       folder_parentId := parentId; folder_childrenIds := childrenIds |}.

Definition scene_of {Settings} (nodes : list (@TSceneNode Settings)) :
    @IScenesState Settings :=
  {| activeSceneId := "scene";
     displayOrder := ["scene"];
     scenes :=
       dict_set "scene"
         {| scene_id := "scene"; scene_name := "Scene"; scene_resourceId := "";
            scene_nodes := nodes |} [] |}.

Lemma scene_of_items {Settings} (nodes : list (@TSceneNode Settings)) k :
  Scene_getItems (scene_of nodes) k =
    if decide (k = "scene") then omap node_item nodes else [].
Proof.
  unfold Scene_getItems, scene_of. cbn [scenes]. case_decide as Hk.
  - subst. by rewrite dict_get_set_eq.
  - by rewrite dict_get_set_ne.
Qed.

(** A store of one scene satisfies the invariant of the store when the
    items know their scene, and nests nothing when no item shows the
    scene. *)
Lemma scene_of_inv {Settings} (nodes : list (@TSceneNode Settings)) :
  Forall (λ item, item_sceneId item = "scene") (omap node_item nodes) →
  scenes_inv (scene_of nodes).
Proof.
  intros Hitems. split_and!.
  - split; [apply NoDup_singleton | done |]. intros k sc. unfold scene_of. cbn [scenes].
    destruct (decide (k = "scene")) as [->|Hk].
    + rewrite dict_get_set_eq. by intros [= <-].
    + by rewrite dict_get_set_ne.
  - left. apply list_elem_of_here.
  - intros k item. rewrite scene_of_items.
    case_decide; [subst|by intros ?%elem_of_nil]. rewrite Forall_forall in Hitems.
    apply Hitems.
Qed.

Lemma scene_of_acyclic {Settings} (nodes : list (@TSceneNode Settings)) :
  Forall (λ item, sourceId item ≠ "scene") (omap node_item nodes) →
  acyclic (scene_of nodes).
Proof.
  intros Hitems id Hid.
  assert (unshown "scene" (scene_of nodes)) as Hu.
  { intros k. rewrite scene_of_items. by case_decide. }
  destruct (decide (id = "scene")) as [->|Hne]; [by eapply unshown_not_nested|].
  assert (∃ z, nests (scene_of nodes) id z) as [z Hz] by (inv Hid; eauto).
  unfold nests in Hz. rewrite scene_of_items, decide_False in Hz by done.
  by apply elem_of_nil in Hz.
Qed.

(** The nodes of the comment on [getRootNodes] in the interface of the
    selection: two folders at the top, one of them with a folder inside. *)
Definition doc_nodes {Settings} (settings : Settings) : list (@TSceneNode Settings) :=
  [test_folder "Folder1" None ["Item1"; "Folder2"];
   test_item settings "Item1" (Some "Folder1");
   test_folder "Folder2" (Some "Folder1") [];
   test_item settings "Item3" None;
   test_folder "Folder3" None ["Item3 of Folder3"; "Item4"];
   test_item settings "Item3 of Folder3" (Some "Folder3");
   test_item settings "Item4" (Some "Folder3")].

(** The nodes of the comment, with no settings. *)
Definition doc_scene : @IScenesState unit := scene_of (doc_nodes tt).

Lemma doc_scene_wf : nodes_wf doc_scene "scene".
Proof. by apply nodes_wf_check_spec. Defined.

Lemma reparenting_keeps_forest_witness :
  nodes_wf
    (run_moves [mkMove "scene" "Folder3" "Folder2"; mkMove "scene" "Folder1" "Folder3";
                mkMove "scene" "Item3" "Folder1"] doc_scene).1 "scene".
Proof. apply reparenting_keeps_forest, doc_scene_wf. Defined.

Lemma setParent_refuses_cycle_witness :
  setParent "scene" "Folder1" "Folder2" doc_scene = Run (Normal false) doc_scene [].
Proof.
  apply setParent_refuses_cycle. right. by apply tc_once.
Defined.

Lemma setParent_moves_witness :
  let r := setParent "scene" "Item3" "Folder2" doc_scene in
  result r = Normal true ∧ trace r = [] ∧
  parent_of (final r) "scene" "Item3" = Some "Folder2" ∧
  (∀ other, other ≠ "Item3" →
     parent_of (final r) "scene" other = parent_of doc_scene "scene" other) ∧
  getNodesIds (final r) "scene" = getNodesIds doc_scene "scene" ∧
  ∀ other, other ≠ "scene" → getNodes (final r) other = getNodes doc_scene other.
Proof.
  apply (setParent_moves doc_scene "scene" "Item3" "Folder2"); [by eexists..|done|].
  rewrite <- isAncestor_spec. by vm_compute.
Defined.

End Nodes.
