(* ===== verification/Selection.v ===== *)
(** * Selection: the selected nodes of a scene

    Models the selection engine.  Its interface [ISelection], its state
    [ISelectionState] and the type [TNodesList] are declared in
    [src/app/services/selection/selection-api.ts] (lines 1-176); the class
    that implements them is not among the sources, so the operations are
    modelled from the specification (sections 3, 4.3, 7 and 8) under the
    names and signatures of the interface.

    A selection belongs to one scene and reads the nodes of its scene from
    the store of [Scenes.v].  Its state is the list of the selected ids,
    without duplicates and in the order they were selected, and the id
    selected last.  [select] keeps the ids that are nodes of the scene; an id
    given twice, or given again by [add], counts where it was given last, so
    that the node added last is the last selected.  Every other operation
    that changes the selection is [select] on a list computed from the
    current one.

    The nodes of the scene, their parents and the walk towards the root are
    those of [Nodes.v].

    The rectangle of an item is its position and the native size of its
    source times its scale, as section 3 of the specification derives it; the
    native size is read from the environment.  [setParent] is the operation
    of [Nodes.v] on each root node in turn.  The other bulk operations that
    change the scene are in [Ordering.v] ([placeAfter], [placeBefore]) and
    in [Grouping.v] ([copyTo], [moveTo]); [SelectionApi.v] has the interface
    itself. *)

From Stdlib Require Import ZArith QArith Qminmax Lia Lqa.
From stdpp Require Import base tactics option list strings relations gmap.
From S2P Require Import Prelude JsObject Scenes Transform Nodes.

Set Warnings "-clear-no-such-hyp".

Local Open Scope string_scope.
Local Open Scope list_scope.
Local Open Scope nat_scope.
Local Open Scope svc_scope.

Module Selection.
Import Nodes.

Abbreviation Settings := Transform.ISceneItemSettings.
Abbreviation State := (@IScenesState Settings).
Abbreviation Node := (@TSceneNode Settings).
Abbreviation Item := (@ISceneItem Settings).

(** ** Data *)

(** [ISelectionState] *)
Record ISelectionState : Type := mkSelectionState {
  selectedIds : list string;
  lastSelectedId : string;
}.

(** [TNodesList]: an id, ids, a node or nodes *)
Inductive TNodesList : Type :=
| OneId (id : string)
| ManyIds (ids : list string)
| OneNode (node : Node)
| ManyNodes (nodes : list Node).

(** A selection object: the scene it belongs to, and its state. *)
Record Selection : Type := mkSelection {
  sceneId : string;
  state : ISelectionState;
}.

Record IRectangle : Type := mkRectangle {
  x : Q;
  y : Q;
  width : Q;
  height : Q;
}.

(** ** Changing the selection *)

(** The ids a list of nodes stands for. *)
Definition resolveItemsList (items : TNodesList) : list string :=
  match items with
  | OneId id => [id]
  | ManyIds ids => ids
  | OneNode node => [node_id node]
  | ManyNodes nodes => node_id <$> nodes
  end.

(** [select(items)]: the ids that are nodes of the scene, each once, replace
    the selection. *)
Definition select (st : State) (items : TNodesList) (s : Selection) : Selection :=
  let ids :=
    remove_dups
      (filter (λ id, id ∈ getNodesIds st (sceneId s)) (resolveItemsList items)) in
  {| sceneId := sceneId s;
     state := {| selectedIds := ids; lastSelectedId := default "" (last ids) |} |}.

(** [add(items)] *)
Definition add (st : State) (items : TNodesList) (s : Selection) : Selection :=
  select st (ManyIds (selectedIds (state s) ++ resolveItemsList items)) s.

(** [deselect(items)] *)
Definition deselect (st : State) (items : TNodesList) (s : Selection) : Selection :=
  select st
    (ManyIds (filter (λ id, id ∉ resolveItemsList items) (selectedIds (state s)))) s.

(** [reset()] *)
Definition reset (st : State) (s : Selection) : Selection := select st (ManyIds []) s.

(** [getIds()] *)
Definition getIds (s : Selection) : list string := selectedIds (state s).

(** [getInvertedIds()] *)
Definition getInvertedIds (st : State) (s : Selection) : list string :=
  filter (λ id, id ∉ getIds s) (getNodesIds st (sceneId s)).

(** [invert()] *)
Definition invert (st : State) (s : Selection) : Selection :=
  select st (ManyIds (getInvertedIds st s)) s.

(** [selectAll()] *)
Definition selectAll (st : State) (s : Selection) : Selection :=
  select st (ManyIds (getNodesIds st (sceneId s))) s.

(** [clone()] *)
Definition clone (s : Selection) : Selection :=
  {| sceneId := sceneId s; state := state s |}.

(** ** Reading the selection *)

(** The selected nodes, in the order of the selection. *)
Definition getSelectedNodes (st : State) (s : Selection) : list Node :=
  omap (getNode st (sceneId s)) (getIds s).

(** [getItems()] *)
Definition getItems (st : State) (s : Selection) : list Item :=
  omap node_item (getSelectedNodes st s).

(** [getFolders()] *)
Definition getFolders (st : State) (s : Selection) : list ISceneItemFolder :=
  omap node_folder (getSelectedNodes st s).

(** [getVisualItems()]: the selected items that are visible and not locked *)
Definition getVisualItems (st : State) (s : Selection) : list Item :=
  filter
    (λ item, Transform.visible (item_settings item) = true ∧
             Transform.locked (item_settings item) = false)
    (getItems st s).

(** [getInverted()] *)
Definition getInverted (st : State) (s : Selection) : list Node :=
  omap (getNode st (sceneId s)) (getInvertedIds st s).

(** [getLastSelectedId()] *)
Definition getLastSelectedId (s : Selection) : string := lastSelectedId (state s).

(** [getLastSelected()] *)
Definition getLastSelected (st : State) (s : Selection) : option Node :=
  getNode st (sceneId s) (getLastSelectedId s).

(** [getSize()] *)
Definition getSize (s : Selection) : nat := length (getIds s).

(** [isSelected(nodeOrNodeId)] *)
Definition isSelected (s : Selection) (id : string) : bool := bool_decide (id ∈ getIds s).

(** [isSceneItem()] *)
Definition isSceneItem (st : State) (s : Selection) : bool :=
  bool_decide (getSize s = 1) && bool_decide (length (getItems st s) = 1).

(** [isSceneFolder()] *)
Definition isSceneFolder (st : State) (s : Selection) : bool :=
  bool_decide (getSize s = 1) && bool_decide (length (getFolders st s) = 1).

(** [getSources()]: the sources the selected items show *)
Definition getSources (st : State) (s : Selection) : list string :=
  sourceId <$> getItems st s.

(** ** The root nodes *)

(** Some node on the way from the parent of [id] to the root is selected. *)
Definition has_selected_ancestor (st : State) (s : Selection) (id : string) : bool :=
  has_ancestor_in (length (getNodes st (sceneId s))) st (sceneId s) (getIds s) id.

(** The ids of [getRootNodes()]: the selected ids none of whose ancestors is
    selected. *)
Definition getRootNodesIds (st : State) (s : Selection) : list string :=
  filter
    (λ id, has_selected_ancestor st s id = false)
    (getIds s).

(** [getRootNodes()] *)
Definition getRootNodes (st : State) (s : Selection) : list Node :=
  omap (getNode st (sceneId s)) (getRootNodesIds st s).

(** [setParent(folderId)]: the root nodes are moved into the folder, in
    the order of the selection. *)
Definition setParent (folderId : string) (s : Selection) : Scenes.M unit :=
  let* roots := svc_gets (λ st, getRootNodesIds st s) in
  svc_forEach roots (λ id, Nodes.setParent (sceneId s) id folderId;; svc_ret tt).

(** ** The bounding rectangle *)

(** The rectangle of an item: its position, and the native size of its
    source times its scale. *)
Definition item_rectangle (source_size : string → Q * Q) (item : Item) : IRectangle :=
  let t := Transform.transform (item_settings item) in
  {| x := Transform.x (Transform.position t);
     y := Transform.y (Transform.position t);
     width := ((source_size (sourceId item)).1 * Transform.x (Transform.scale t))%Q;
     height := ((source_size (sourceId item)).2 * Transform.y (Transform.scale t))%Q |}.

(** The smallest rectangle that covers two. *)
Definition rectangle_union (r1 r2 : IRectangle) : IRectangle :=
  let left := Qmin (x r1) (x r2) in
  let top := Qmin (y r1) (y r2) in
  let right := Qmax (x r1 + width r1) (x r2 + width r2) in
  let bottom := Qmax (y r1 + height r1) (y r2 + height r2) in
  {| x := left; y := top; width := (right - left)%Q; height := (bottom - top)%Q |}.

(** The items the selection covers: the selected items, and the items
    inside the selected folders. *)
Definition getCoveredItems (st : State) (s : Selection) : list Item :=
  filter
    (λ item,
       sceneItemId item ∈ getIds s ∨
       has_selected_ancestor st s (sceneItemId item) = true)
    (omap node_item (getNodes st (sceneId s))).

(** [getBoundingRect()]; nothing for a selection that covers no item. *)
Definition getBoundingRect (source_size : string → Q * Q) (st : State) (s : Selection) :
    option IRectangle :=
  match item_rectangle source_size <$> getCoveredItems st s with
  | [] => None
  | r :: rs => Some (foldl rectangle_union r rs)
  end.

(** * Specification *)

(** The selection as a set, and the nodes of a scene as a set. *)
Definition ids_set (s : Selection) : gset string := list_to_set (getIds s).

Definition scene_set (st : State) (scene : Scene) : gset string :=
  list_to_set (getNodesIds st scene).

Definition given_set (items : TNodesList) : gset string :=
  list_to_set (resolveItemsList items).

(** A selection is well formed for a store: no id twice, every id a node of
    the scene, and the last selected id the last of the list. *)
Record selection_wf (st : State) (s : Selection) : Prop := {
  ids_NoDup : NoDup (getIds s);
  ids_known : ids_set s ⊆ scene_set st (sceneId s);
  last_selected : getLastSelectedId s = default "" (last (getIds s));
}.

(** The operations that change a selection. *)
Inductive Op : Type :=
| Select (items : TNodesList)
| Add (items : TNodesList)
| Deselect (items : TNodesList)
| Reset
| Invert
| SelectAll.

Definition apply (st : State) (op : Op) (s : Selection) : Selection :=
  match op with
  | Select items => select st items s
  | Add items => add st items s
  | Deselect items => deselect st items s
  | Reset => reset st s
  | Invert => invert st s
  | SelectAll => selectAll st s
  end.

(** The set an operation makes of the set selected before. *)
Definition apply_set (st : State) (scene : Scene) (op : Op) (X : gset string) :
    gset string :=
  match op with
  | Select items => given_set items ∩ scene_set st scene
  | Add items => (X ∪ given_set items) ∩ scene_set st scene
  | Deselect items => (X ∖ given_set items) ∩ scene_set st scene
  | Reset => ∅
  | Invert => scene_set st scene ∖ X
  | SelectAll => scene_set st scene
  end.

(** Every selected id is one of [roots] or below one of them. *)
Definition covers (st : State) (s : Selection) (roots : list string) : Prop :=
  ∀ id, id ∈ getIds s → ∃ r, r ∈ roots ∧ rtc (parent st (sceneId s)) id r.

(** [r] lies inside [r']. *)
Definition inside (r r' : IRectangle) : Prop :=
  (x r' <= x r)%Q ∧ (y r' <= y r)%Q ∧
  (x r + width r <= x r' + width r')%Q ∧ (y r + height r <= y r' + height r')%Q.

(** * Lemmas *)

(** ** The selection as a set *)

Lemma select_ids st items s :
  getIds (select st items s) =
    remove_dups (filter (λ id, id ∈ getNodesIds st (sceneId s)) (resolveItemsList items)).
Proof. done. Qed.

Lemma elem_of_select st items s id :
  id ∈ getIds (select st items s) ↔
  id ∈ resolveItemsList items ∧ id ∈ getNodesIds st (sceneId s).
Proof. rewrite select_ids, elem_of_remove_dups, list_elem_of_filter. tauto. Qed.

Lemma ids_set_select st items s :
  ids_set (select st items s) = given_set items ∩ scene_set st (sceneId s).
Proof.
  apply set_eq. intros id. unfold ids_set, given_set, scene_set.
  rewrite elem_of_intersection, !elem_of_list_to_set. apply elem_of_select.
Qed.

Lemma select_wf st items s : selection_wf st (select st items s).
Proof.
  split; [apply NoDup_remove_dups| |done].
  rewrite ids_set_select. set_solver.
Qed.

Lemma list_to_set_filter_not (l k : list string) :
  list_to_set (filter (λ id, id ∉ k) l) =@{gset string} list_to_set l ∖ list_to_set k.
Proof.
  apply set_eq. intros id.
  rewrite elem_of_difference, !elem_of_list_to_set, list_elem_of_filter. tauto.
Qed.

Lemma apply_sceneId st op s : sceneId (apply st op s) = sceneId s.
Proof. by destruct op. Qed.

Lemma apply_wf st op s : selection_wf st (apply st op s).
Proof. destruct op; apply select_wf. Qed.

Lemma ids_set_apply st op s :
  ids_set (apply st op s) = apply_set st (sceneId s) op (ids_set s) ∩ scene_set st (sceneId s).
Proof.
  destruct op; cbn [apply apply_set]; unfold add, deselect, reset, invert, selectAll;
    rewrite ids_set_select; unfold given_set, ids_set, scene_set, getInvertedIds;
    cbn [resolveItemsList]; rewrite ?list_to_set_filter_not; set_solver.
Qed.

(** ** The root nodes *)

Lemma has_selected_ancestor_spec st s id :
  has_selected_ancestor st s id = true ↔
  ∃ a, tc (parent st (sceneId s)) id a ∧ a ∈ getIds s.
Proof. apply has_ancestor_in_spec. Qed.

Lemma elem_of_getRootNodesIds st s id :
  id ∈ getRootNodesIds st s ↔
  id ∈ getIds s ∧ ∀ a, tc (parent st (sceneId s)) id a → a ∉ getIds s.
Proof.
  unfold getRootNodesIds. rewrite list_elem_of_filter, <- not_true_iff_false.
  rewrite has_selected_ancestor_spec. naive_solver.
Qed.

(** Below every selected node whose chain of ancestors has at most [n]
    nodes there is a root node. *)
Lemma root_above n st s id :
  id ∈ getIds s →
  (∀ m b, nsteps (parent st (sceneId s)) m id b → m ≤ n) →
  ∃ r, r ∈ getRootNodesIds st s ∧ rtc (parent st (sceneId s)) id r.
Proof.
  revert id. induction n as [|n IH]; intros id Hsel Hchain;
    (destruct (has_selected_ancestor st s id) eqn:Hanc;
     [|exists id; split; [by apply list_elem_of_filter | done]]);
    apply has_selected_ancestor_spec in Hanc as (a & Hpath & Ha);
    pose proof Hpath as (m & Hm & Hsteps)%tc_nsteps.
  - apply Hchain in Hsteps. lia.
  - destruct (IH a Ha) as (r & Hr & Hpath').
    + intros m' b Hb. pose proof (Hchain _ _ (nsteps_trans _ _ _ _ _ Hsteps Hb)). lia.
    + exists r. split; [done|]. etrans; [by apply tc_rtc | done].
Qed.

Lemma getRootNodesIds_covers st s :
  forest st (sceneId s) → covers st s (getRootNodesIds st s).
Proof.
  intros Hforest id Hsel. apply (root_above (length (getNodesIds st (sceneId s)))); [done|].
  intros m b. by apply forest_chain_bound.
Qed.

(** A cover of the selection by selected nodes holds every root node. *)
Lemma getRootNodesIds_least st s roots :
  covers st s roots → roots ⊆ getIds s → getRootNodesIds st s ⊆ roots.
Proof.
  intros Hcovers Hroots id [Hsel Hroot]%elem_of_getRootNodesIds.
  destruct (Hcovers id Hsel) as (r & Hr & Hpath).
  apply rtc_tc in Hpath as [->|Hpath]; [done|].
  destruct (Hroot r Hpath). by apply Hroots.
Qed.

(** ** Moving the selection *)

Lemma setParent_selection_wf folderId s scene :
  preserves (λ st, nodes_wf st scene) (setParent folderId s).
Proof.
  unfold setParent. apply preserves_bind; [apply preserves_gets|]. intros roots.
  apply preserves_forEach. intros id _.
  apply preserves_bind; [apply setParent_wf | intros ?; apply preserves_ret].
Qed.

(** ** Rectangles *)

Section Rectangles.
Local Open Scope Q_scope.

#[export] Instance inside_preorder : PreOrder inside.
Proof.
  split.
  - intros r. unfold inside. split_and!; lra.
  - intros r1 r2 r3 (?&?&?&?) (?&?&?&?). unfold inside. split_and!; lra.
Qed.

(** Case analysis on the minima and maxima of a goal. *)
Ltac minmax :=
  repeat match goal with
    | |- context [Qmin ?a ?b] =>
        let H := fresh in destruct (Q.min_spec a b) as [[? H]|[? H]]; rewrite !H in *
    | |- context [Qmax ?a ?b] =>
        let H := fresh in destruct (Q.max_spec a b) as [[? H]|[? H]]; rewrite !H in *
    end.

Lemma rectangle_union_l r1 r2 : inside r1 (rectangle_union r1 r2).
Proof. unfold inside, rectangle_union. cbn. minmax; split_and!; lra. Qed.

Lemma rectangle_union_r r1 r2 : inside r2 (rectangle_union r1 r2).
Proof. unfold inside, rectangle_union. cbn. minmax; split_and!; lra. Qed.

Lemma rectangle_union_least r1 r2 r :
  inside r1 r → inside r2 r → inside (rectangle_union r1 r2) r.
Proof.
  intros (?&?&?&?) (?&?&?&?). unfold inside, rectangle_union. cbn.
  minmax; split_and!; lra.
Qed.

Lemma foldl_union_inside rs r0 r :
  r ∈ r0 :: rs → inside r (foldl rectangle_union r0 rs).
Proof.
  revert r0 r. induction rs as [|r1 rs IH]; intros r0 r; cbn [foldl].
  - by intros ->%list_elem_of_singleton.
  - intros [->|[->|Hr]%elem_of_cons]%elem_of_cons.
    + etrans; [apply (rectangle_union_l _ r1)|]. apply IH, list_elem_of_here.
    + etrans; [apply (rectangle_union_r r0)|]. apply IH, list_elem_of_here.
    + by apply IH, list_elem_of_further.
Qed.

Lemma foldl_union_least rs r0 r :
  Forall (λ r', inside r' r) (r0 :: rs) → inside (foldl rectangle_union r0 rs) r.
Proof.
  revert r0. induction rs as [|r1 rs IH]; intros r0; cbn [foldl].
  - by intros [? _]%Forall_cons.
  - intros [? [? ?]%Forall_cons]%Forall_cons. apply IH, Forall_cons.
    split; [by apply rectangle_union_least | done].
Qed.

End Rectangles.

(** ** The last selected id *)

Lemma last_remove_dups (l : list string) : last (remove_dups l) = last l.
Proof.
  induction l as [|id l IH]; [done|]. cbn [remove_dups].
  destruct (decide_rel elem_of id l) as [Hin|Hout].
  - rewrite IH, last_cons. destruct (last l) eqn:Hlast; [done|].
    apply last_None in Hlast as ->. by apply elem_of_nil in Hin.
  - by rewrite !last_cons, IH.
Qed.

Lemma select_last st items s :
  getLastSelectedId (select st items s) =
    default ""
      (last (filter (λ id, id ∈ getNodesIds st (sceneId s)) (resolveItemsList items))).
Proof. unfold select, getLastSelectedId. cbn. by rewrite last_remove_dups. Qed.

Lemma add_last st id s :
  id ∈ getNodesIds st (sceneId s) → getLastSelectedId (add st (OneId id) s) = id.
Proof.
  intros Hid. unfold add. rewrite select_last. cbn [resolveItemsList].
  by rewrite filter_app, filter_cons_True, filter_nil, last_snoc by done.
Qed.

(** * Test data *)

Definition nothing_selected : Selection :=
  {| sceneId := "scene"; state := {| selectedIds := []; lastSelectedId := "" |} |}.

(** The scene of the comment on [getRootNodes] in the interface. *)
Definition doc_scene : State := scene_of (doc_nodes Transform.default_settings).

(** The selection of that comment. *)
Definition doc_selection : Selection :=
  select doc_scene (ManyIds ["Folder1"; "Item1"; "Folder2"; "Item3"; "Item4"])
    nothing_selected.

Definition test_size (source : string) : Q * Q := (100%Q, 50%Q).

(** Runs operations one after the other. *)
Definition run_ops (st : State) (ops : list Op) (s : Selection) : Selection :=
  foldl (λ s op, apply st op s) s ops.

Lemma run_ops_sceneId st ops s : sceneId (run_ops st ops s) = sceneId s.
Proof.
  revert s. induction ops as [|op ops IH]; intros s; [done|].
  unfold run_ops in *. cbn [foldl]. by rewrite IH, apply_sceneId.
Qed.

Lemma apply_set_known st scene op X : apply_set st scene op X ⊆ scene_set st scene.
Proof. destruct op; set_solver. Qed.

(** * Properties *)

(** C11: The selection implements a set of node ids.  Whatever operations
    are applied, from whatever selection, the ids selected afterwards are
    the set the operations make of the set selected before: [select]
    replaces it by the given nodes of the scene, [add] unites, [deselect]
    subtracts, [reset] empties, [invert] complements within the scene and
    [selectAll] takes the scene; ids that are not nodes of the scene are
    never selected. *)
Theorem selection_refines_sets (st : State) (ops : list Op) (s : Selection) :
  ids_set (run_ops st ops s) =
    foldl (λ X op, apply_set st (sceneId s) op X) (ids_set s) ops ∧
  (ops ≠ [] → selection_wf st (run_ops st ops s)).
Proof.
  induction ops as [|op ops IH] using rev_ind; [done|].
  unfold run_ops in *. rewrite !foldl_app. cbn [foldl]. split; [|intros _; apply apply_wf].
  rewrite ids_set_apply, (proj1 IH). fold (run_ops st ops s). rewrite run_ops_sceneId.
  pose proof (apply_set_known st (sceneId s) op
    (foldl (λ X op, apply_set st (sceneId s) op X) (ids_set s) ops)).
  set_solver.
Qed.

(** C9: The root nodes are the least cover of the selection.  Every root
    node is selected and has no selected ancestor; in a scene whose folders
    form a forest every selected node is a root node or lies below one; and
    every set of selected nodes with that property holds all root nodes. *)
Theorem root_nodes_minimal_cover (st : State) (s : Selection) :
  forest st (sceneId s) →
  (∀ id, id ∈ getRootNodesIds st s ↔
         id ∈ getIds s ∧ ∀ a, tc (parent st (sceneId s)) id a → a ∉ getIds s) ∧
  covers st s (getRootNodesIds st s) ∧
  ∀ roots, covers st s roots → roots ⊆ getIds s → getRootNodesIds st s ⊆ roots.
Proof.
  intros Hforest. split_and!.
  - apply elem_of_getRootNodesIds.
  - by apply getRootNodesIds_covers.
  - apply getRootNodesIds_least.
Qed.

(** Inverting twice gives the selection back.  For a selection of nodes
    of the scene, [invert] selects exactly the nodes that were not selected,
    and a second [invert] selects exactly the nodes selected at first. *)
Theorem invert_involution (st : State) (s : Selection) :
  ids_set s ⊆ scene_set st (sceneId s) →
  ids_set (invert st s) = scene_set st (sceneId s) ∖ ids_set s ∧
  ids_set (invert st (invert st s)) = ids_set s.
Proof.
  intros Hknown.
  pose proof (ids_set_apply st Invert s) as H1.
  pose proof (ids_set_apply st Invert (invert st s)) as H2.
  cbn [apply apply_set] in H1, H2. rewrite H2, H1. cbn [invert select sceneId].
  split; apply set_eq; intros id; specialize (Hknown id);
    destruct (decide (id ∈ ids_set s)); set_solver.
Qed.

(** The node added last is the last selected.  After any operation the
    last selected id is the last of the selected ids, so it is selected
    unless nothing is; and after [add] of a node of the scene it is that
    node, also when the node was selected before. *)
Theorem last_selected_is_last_added (st : State) (op : Op) (s : Selection) (id : string) :
  id ∈ getNodesIds st (sceneId s) →
  getLastSelectedId (add st (OneId id) s) = id ∧
  id ∈ getIds (add st (OneId id) s) ∧
  getLastSelectedId (apply st op s) = default "" (last (getIds (apply st op s))).
Proof.
  intros Hid. split_and!; [by apply add_last| |apply apply_wf].
  apply elem_of_select. split; [|done]. cbn. apply elem_of_app. right. apply list_elem_of_here.
Qed.

(** The bounding rectangle is the least rectangle over the covered
    items.  For a selection that covers an item, the selected items and the
    items inside the selected folders lie inside the bounding rectangle, and
    the bounding rectangle lies inside every rectangle they all lie inside;
    for a selection that covers no item there is no rectangle. *)
Theorem bounding_rect_least (source_size : string → Q * Q) (st : State) (s : Selection) :
  match getBoundingRect source_size st s with
  | Some bound =>
      Forall (λ item, inside (item_rectangle source_size item) bound)
        (getCoveredItems st s) ∧
      ∀ r, Forall (λ item, inside (item_rectangle source_size item) r)
             (getCoveredItems st s) →
           inside bound r
  | None => getCoveredItems st s = []
  end.
Proof.
  unfold getBoundingRect. destruct (getCoveredItems st s) as [|item items]; [done|].
  rewrite fmap_cons. split.
  - apply Forall_forall. intros item' Hitem'. apply foldl_union_inside.
    rewrite <- fmap_cons. by apply list_elem_of_fmap_2.
  - intros r Hall. apply foldl_union_least. rewrite <- fmap_cons. by apply Forall_fmap.
Qed.

(** Moving a selection keeps the scenes forests.  [setParent] on a
    selection, whatever the folder, leaves every well-formed scene well
    formed: the moves that would put a folder below itself are refused one
    by one. *)
Theorem selection_setParent_keeps_forest (folderId : string) (s : Selection)
    (scene : Scene) (st : State) :
  nodes_wf st scene →
  nodes_wf (final (setParent folderId s st)) scene ∧
  result (setParent folderId s st) = Normal tt.
Proof.
  intros Hwf. split; [by apply setParent_selection_wf|].
  unfold setParent. rewrite svc_bind_gets.
  apply (svc_forEach_fold (λ _, tt) (λ _ _, tt) (λ _, True)); [|done].
  intros id st' _ _. unfold svc_bind. rewrite setParent_run.
  by destruct (canSetParent st' (sceneId s) id folderId).
Qed.

(** Nodes of another scene are never selected.  [select] with nodes
    none of which is in the scene of the selection empties the selection:
    what was selected before is dropped, and nothing is reported. *)
Theorem select_foreign_clears (st : State) (items : TNodesList) (s : Selection) :
  given_set items ∩ scene_set st (sceneId s) = ∅ →
  getIds (select st items s) = [] ∧ getLastSelectedId (select st items s) = "".
Proof.
  intros Hforeign. rewrite <- ids_set_select in Hforeign.
  assert (getIds (select st items s) = []) as Hempty.
  { apply elem_of_nil_inv. intros id Hid. unfold ids_set in Hforeign. set_solver. }
  split; [done|]. rewrite (last_selected _ _ (select_wf st items s)). by rewrite Hempty.
Qed.

(** The comment of the interface on [getRootNodes].  In the scene of
    the comment, with Folder1, Item1, Folder2, Item3 and Item4 selected, the
    root nodes are Folder1, Item3 and Item4; and with a folder and one of its
    children selected the folder is the only root node. *)
Theorem getRootNodes_doc_example :
  getIds doc_selection = ["Folder1"; "Item1"; "Folder2"; "Item3"; "Item4"] ∧
  getRootNodesIds doc_scene doc_selection = ["Folder1"; "Item3"; "Item4"] ∧
  getRootNodesIds doc_scene
    (select doc_scene (ManyIds ["Folder3"; "Item4"]) nothing_selected) = ["Folder3"].
Proof. by vm_compute. Qed.

(** ** The theorems at the scene of the comment *)

Lemma doc_scene_forest : forest doc_scene "scene".
Proof. by apply forest_check_spec. Defined.

Lemma doc_scene_wf_selection : nodes_wf doc_scene "scene".
Proof. by apply nodes_wf_check_spec. Defined.

Lemma selection_setParent_keeps_forest_witness :
  nodes_wf (final (setParent "Folder2" doc_selection doc_scene)) "scene" ∧
  result (setParent "Folder2" doc_selection doc_scene) = Normal tt.
Proof. apply selection_setParent_keeps_forest, doc_scene_wf_selection. Defined.

Lemma select_foreign_clears_witness :
  getIds (select doc_scene (ManyIds ["item of another scene"]) doc_selection) = [] ∧
  getLastSelectedId (select doc_scene (ManyIds ["item of another scene"]) doc_selection) = "".
Proof. apply select_foreign_clears. by vm_compute. Defined.

Lemma selection_refines_sets_witness :
  ids_set (run_ops doc_scene [Add (OneId "Folder3"); Invert] doc_selection) =
    foldl (λ X op, apply_set doc_scene "scene" op X) (ids_set doc_selection)
      [Add (OneId "Folder3"); Invert] ∧
  ([Add (OneId "Folder3"); Invert] ≠ [] →
   selection_wf doc_scene (run_ops doc_scene [Add (OneId "Folder3"); Invert] doc_selection)).
Proof. apply (selection_refines_sets doc_scene _ doc_selection). Defined.

Lemma root_nodes_minimal_cover_witness :
  (∀ id, id ∈ getRootNodesIds doc_scene doc_selection ↔
         id ∈ getIds doc_selection ∧
         ∀ a, tc (parent doc_scene "scene") id a → a ∉ getIds doc_selection) ∧
  covers doc_scene doc_selection (getRootNodesIds doc_scene doc_selection) ∧
  ∀ roots, covers doc_scene doc_selection roots → roots ⊆ getIds doc_selection →
           getRootNodesIds doc_scene doc_selection ⊆ roots.
Proof. apply (root_nodes_minimal_cover doc_scene doc_selection), doc_scene_forest. Defined.

Lemma invert_involution_witness :
  ids_set (invert doc_scene doc_selection) =
    scene_set doc_scene "scene" ∖ ids_set doc_selection ∧
  ids_set (invert doc_scene (invert doc_scene doc_selection)) = ids_set doc_selection.
Proof.
  apply (invert_involution doc_scene doc_selection). apply (select_wf doc_scene _ _).
Defined.

Lemma last_selected_is_last_added_witness :
  getLastSelectedId (add doc_scene (OneId "Item1") doc_selection) = "Item1" ∧
  "Item1" ∈ getIds (add doc_scene (OneId "Item1") doc_selection) ∧
  getLastSelectedId (apply doc_scene Invert doc_selection) =
    default "" (last (getIds (apply doc_scene Invert doc_selection))).
Proof.
  apply (last_selected_is_last_added doc_scene Invert doc_selection "Item1").
  apply (bool_decide_unpack _). by vm_compute.
Defined.

End Selection.
