(* ===== verification/Ordering.v ===== *)
(** * Ordering: the place of a node among the nodes of its scene

    Models [placeBefore] and [placeAfter] of a node and of a selection.  The
    node classes are not among the sources; the operations are modelled
    from the specification (sections 4.2 and 4.3) on the nodes of
    [Nodes.v]: the order of the nodes of a scene is the order of its list,
    kept directly, and the lists of children of the folders follow it.

    [node.placeBefore(target)] takes the node out of the list and puts it
    back right before the target; the node takes the parent of the target,
    whose list of children is given the node at the same place.  A node is
    not placed beside itself, beside a node that is not in the scene, or
    beside a node below it, which would make a folder its own descendant.
    The nodes below a folder that is placed stay where they are in the list:
    the specification leaves open whether they follow.

    The bulk operations of a selection place its root nodes one after the
    other, in the order [getRootNodes] gives them. *)

From Stdlib Require Import ZArith QArith.
From stdpp Require Import base tactics option list strings relations.
From S2P Require Import Prelude JsObject Scenes SceneNodes Transform Nodes Selection.

Set Warnings "-clear-no-such-hyp".

Local Open Scope string_scope.
Local Open Scope list_scope.
Local Open Scope nat_scope.
Local Open Scope svc_scope.

Module Ordering.
Import Nodes.

(** ** Placing an element in a list *)

Section Place.
Context {A : Type} (P : A → Prop) `{!∀ x, Decision (P x)}.

(** [x] right before, or right after, the first element with [P]; a list
    without such an element is left as it is. *)
Fixpoint place (before : bool) (x : A) (l : list A) : list A :=
  match l with
  | [] => []
  | y :: l =>
      if decide (P y) then (if before then x :: y :: l else y :: x :: l)
      else y :: place before x l
  end.

Lemma place_none before x l : Forall (λ y, ¬ P y) l → place before x l = l.
Proof.
  induction 1 as [|y l Hy _ IH]; [done|]. cbn [place]. by rewrite decide_False, IH.
Qed.

Lemma place_split before x l1 y l2 :
  Forall (λ z, ¬ P z) l1 → P y →
  place before x (l1 ++ y :: l2) = l1 ++ (if before then [x; y] else [y; x]) ++ l2.
Proof.
  intros Hl1 Hy. induction Hl1 as [|z l1 Hz _ IH]; cbn [place app].
  - rewrite decide_True by done. by destruct before.
  - by rewrite decide_False, IH.
Qed.

(** The first element with [P], and what is before and after it. *)
Lemma Exists_split l :
  Exists P l → ∃ l1 y l2, l = l1 ++ y :: l2 ∧ Forall (λ z, ¬ P z) l1 ∧ P y.
Proof.
  induction l as [|z l IH]; [by intros ?%Exists_nil|].
  destruct (decide (P z)) as [Hz|Hz]; [by exists [], z, l|].
  intros [?|(l1 & y & l2 & -> & ? & ?)%IH]%Exists_cons; [done|].
  exists (z :: l1), y, l2. split_and!; [done| |done]. by constructor.
Qed.

Lemma place_Permutation before x l : Exists P l → place before x l ≡ₚ x :: l.
Proof.
  intros (l1 & y & l2 & -> & Hl1 & Hy)%Exists_split. rewrite place_split by done.
  destruct before; cbn [app].
  - symmetry. apply Permutation_middle.
  - rewrite (Permutation_middle l1 (y :: l2) x). f_equiv. apply Permutation_swap.
Qed.

(** The elements that were there keep their order. *)
Lemma place_sublist before x l : l `sublist_of` place before x l.
Proof.
  induction l as [|y l IH]; [done|]. cbn [place]. case_decide.
  - destruct before; [by apply sublist_cons | by apply sublist_skip, sublist_cons].
  - by apply sublist_skip.
Qed.

End Place.

Lemma place_fmap {A B} (f : A → B) (P : A → Prop) (Q : B → Prop)
    `{!∀ x, Decision (P x)} `{!∀ y, Decision (Q y)} before x l :
  (∀ y, Q (f y) ↔ P y) →
  f <$> place P before x l = place Q before (f x) (f <$> l).
Proof.
  intros HPQ. induction l as [|y l IH]; [done|]. cbn [place fmap list_fmap].
  destruct (decide (P y)) as [Hy|Hy].
  - rewrite decide_True by by apply HPQ. by destruct before.
  - rewrite decide_False by by rewrite HPQ. cbn. by rewrite <- IH.
Qed.

(** ** Lists with distinct keys *)

Section Keyed.
Context {A K : Type} `{EqDecision K} (key : A → K).

Lemma filter_fmap_key (Q : K → Prop) `{!∀ k, Decision (Q k)} (l : list A) :
  filter Q (key <$> l) = key <$> filter (λ x, Q (key x)) l.
Proof.
  induction l as [|x l IH]; [done|]. rewrite fmap_cons, !filter_cons, IH.
  by destruct (decide (Q (key x))).
Qed.

(** An element and the elements with other keys are the whole list. *)
Lemma cons_filter_others x l :
  NoDup (key <$> l) → x ∈ l → x :: filter (λ y, key y ≠ key x) l ≡ₚ l.
Proof.
  intros Hkeys (l1 & l2 & ->)%list_elem_of_split.
  rewrite fmap_app, fmap_cons in Hkeys.
  apply NoDup_app in Hkeys as (_ & Hl1 & [Hl2 _]%NoDup_cons).
  assert (∀ l', key x ∉ key <$> l' → Forall (λ y, key y ≠ key x) l') as Hothers.
  { intros l' Hout. apply Forall_forall. intros y Hy Heq. apply Hout. rewrite <- Heq.
    by apply list_elem_of_fmap_2. }
  rewrite filter_app, filter_cons_False by (by intros ?). rewrite !filter_Forall_id.
  - apply Permutation_middle.
  - by apply Hothers.
  - apply Hothers. intros Hin. apply (Hl1 _ Hin), list_elem_of_here.
Qed.

End Keyed.

Section Order.
Context {Settings : Type}.

Local Abbreviation State := (@IScenesState Settings).
Local Abbreviation Node := (@TSceneNode Settings).
Local Abbreviation M := (@Scenes.M Settings).

(** ** The operations *)

(** The nodes with node [id] right before, or right after, node [target]. *)
Definition reorder (before : bool) (id target : string) (nodes : list Node) : list Node :=
  match js_find (λ node, node_id node = id) nodes with
  | Some node =>
      place (λ n, node_id n = target) before node
        (filter (λ n, node_id n ≠ id) nodes)
  | None => nodes
  end.

(** The nodes of the scene after node [id] was placed beside [target],
    whose parent is [p]. *)
Definition placed (before : bool) (id target : string) (p : option string)
    (nodes : list Node) : list Node :=
  reorder before id target
    (reparent_with (place (λ child, child = target) before id) id p <$> nodes).

(** A node may be placed beside another node of its scene that is not
    below it. *)
Definition canPlace (st : State) (scene : Scene) (id target : string) : bool :=
  bool_decide (is_Some (getNode st scene id)) &&
  bool_decide (is_Some (getNode st scene target)) &&
  negb (bool_decide (target = id)) &&
  negb (isAncestor st scene id target).

(** [node.placeBefore(target)] and [node.placeAfter(target)]; tells whether
    the node was placed. *)
Definition place_node (before : bool) (scene : Scene) (id target : string) : M bool :=
  let* ok := svc_gets (λ st, canPlace st scene id target) in
  if ok then
    let* p := svc_gets (λ st, parent_of st scene target) in
    svc_modify (update_nodes scene (placed before id target p));;
    svc_ret true
  else svc_ret false.

Definition placeBefore : Scene → string → string → M bool := place_node true.

Definition placeAfter : Scene → string → string → M bool := place_node false.

(** The calls that move a node. *)
Inductive Placement : Type :=
| PlaceBefore (scene : Scene) (id target : string)
| PlaceAfter (scene : Scene) (id target : string)
| SetParent (scene : Scene) (id folderId : string).

Definition placement (c : Placement) : M unit :=
  match c with
  | PlaceBefore scene id target => placeBefore scene id target;; svc_ret tt
  | PlaceAfter scene id target => placeAfter scene id target;; svc_ret tt
  | SetParent scene id folderId => setParent scene id folderId;; svc_ret tt
  end.

Definition run_placements (calls : list Placement) (st : State) :
    State * list ScenesEffect :=
  run_all placement calls st.

(** * Lemmas *)

(** ** Finding a node by its id *)

Lemma getNode_unique (st : State) scene node :
  NoDup (getNodesIds st scene) → node ∈ getNodes st scene →
  getNode st scene (node_id node) = Some node.
Proof.
  intros Hids Hin.
  destruct (js_find_is_Some (λ n, node_id n = node_id node) _ node Hin eq_refl)
    as [node' Hfind].
  unfold getNode. rewrite Hfind. f_equal. apply js_find_Some in Hfind as [Hin' Hid].
  by apply (NoDup_fmap_elem_inj node_id (getNodes st scene)).
Qed.

Lemma getNode_Permutation (st st' : State) scene id :
  NoDup (getNodesIds st scene) → getNodes st' scene ≡ₚ getNodes st scene →
  getNode st' scene id = getNode st scene id.
Proof.
  intros Hids Hperm.
  assert (NoDup (getNodesIds st' scene)) as Hids' by (unfold getNodesIds; by rewrite Hperm).
  destruct (getNode st scene id) as [node|] eqn:Hnode.
  - apply getNode_Some in Hnode as [Hin <-]. apply getNode_unique; [done|]. by rewrite Hperm.
  - destruct (getNode st' scene id) as [node'|] eqn:Hnode'; [|done].
    apply getNode_Some in Hnode' as [Hin <-]. rewrite Hperm in Hin.
    by rewrite (getNode_unique st scene node') in Hnode.
Qed.

(** A scene is well formed whatever the order of its nodes. *)
Lemma nodes_wf_Permutation (st st' : State) scene :
  getNodes st' scene ≡ₚ getNodes st scene → nodes_wf st scene → nodes_wf st' scene.
Proof.
  intros Hperm [Hids Hforest Hfolders Hchildren].
  assert (∀ id, getNode st' scene id = getNode st scene id) as Hnode
    by (intros; by apply getNode_Permutation).
  assert (∀ child p, parent st' scene child p ↔ parent st scene child p) as Hparent.
  { intros. unfold parent, parent_of. by rewrite Hnode. }
  split.
  - unfold getNodesIds. by rewrite Hperm.
  - unfold forest. apply (acyclic_subrel (parent st scene) (parent st' scene)); [|done].
    intros ? ?. by apply Hparent.
  - intros child p Hp%Hparent. unfold getFolder. rewrite Hnode. by eapply Hfolders.
  - intros folder. rewrite Hperm. intros [? Hlisted]%Hchildren. split; [done|].
    intros child. by rewrite Hlisted, Hparent.
Qed.

Lemma getNodes_update (f : list Node → list Node) scene (st : State) other :
  f [] = [] →
  getNodes (update_nodes scene f st) other =
    if decide (other = scene) then f (getNodes st scene) else getNodes st other.
Proof.
  intros Hf. unfold update_nodes, getNodes.
  destruct (dict_get (scenes st) scene) as [model|] eqn:Hscene; cbn.
  - case_decide as Hother; [subst; by rewrite dict_get_set_eq|].
    by rewrite dict_get_set_ne.
  - case_decide; [by subst; rewrite Hscene | done].
Qed.

(** ** The new order *)

Lemma reorder_Permutation before id target (nodes : list Node) :
  NoDup (node_id <$> nodes) → target ∈ node_id <$> nodes → target ≠ id →
  reorder before id target nodes ≡ₚ nodes.
Proof.
  intros Hids (tnode & -> & Htarget)%list_elem_of_fmap Hne. unfold reorder.
  destruct (js_find _ nodes) as [node|] eqn:Hnode; [|done].
  apply js_find_Some in Hnode as [Hin <-]. rewrite place_Permutation.
  - by apply (cons_filter_others node_id).
  - apply Exists_exists. exists tnode. split; [|done]. by apply list_elem_of_filter.
Qed.

(** The ids in the new order: the id taken out and put back beside the
    target. *)
Lemma reorder_ids before id target (nodes : list Node) :
  id ∈ node_id <$> nodes →
  node_id <$> reorder before id target nodes =
    place (λ other, other = target) before id (without (node_id <$> nodes) id).
Proof.
  intros (node0 & -> & Hin)%list_elem_of_fmap. unfold reorder.
  destruct (js_find_is_Some (λ n, node_id n = node_id node0) nodes node0 Hin eq_refl)
    as [node Hnode].
  rewrite Hnode. apply js_find_Some in Hnode as [_ Hid].
  rewrite (place_fmap node_id _ (λ other, other = target)) by done.
  unfold without. by rewrite Hid, filter_fmap_key.
Qed.

(** ** The run of a placement *)

Lemma canPlace_spec (st : State) scene id target :
  canPlace st scene id target = true ↔
  is_Some (getNode st scene id) ∧ is_Some (getNode st scene target) ∧
  target ≠ id ∧ ¬ tc (parent st scene) target id.
Proof.
  unfold canPlace.
  rewrite !andb_true_iff, !negb_true_iff, !bool_decide_eq_true, bool_decide_eq_false.
  rewrite <- not_true_iff_false, isAncestor_spec. tauto.
Qed.

Lemma place_node_run before scene id target (st : State) :
  place_node before scene id target st =
    if canPlace st scene id target
    then Run (Normal true)
           (update_nodes scene (placed before id target (parent_of st scene target)) st) []
    else Run (Normal false) st [].
Proof.
  unfold place_node. rewrite svc_bind_gets.
  destruct (canPlace st scene id target); [|done]. by rewrite svc_bind_gets, svc_bind_modify.
Qed.

Lemma getNodes_placed before scene id target p (st : State) other :
  getNodes (update_nodes scene (placed before id target p) st) other =
    if decide (other = scene) then placed before id target p (getNodes st scene)
    else getNodes st other.
Proof. by apply getNodes_update. Qed.

Section Placed.
Context (st : State) (scene : Scene) (before : bool) (id target : string).
Context (Hwf : nodes_wf st scene) (Hnode : is_Some (getNode st scene id))
  (Htarget : is_Some (getNode st scene target)) (Hne : target ≠ id)
  (Hbelow : ¬ tc (parent st scene) target id).

(** The store with the new parent, and the store with the new order too. *)
Let put : list string → list string := place (λ child, child = target) before id.
Let moved : State :=
  update_nodes scene (fmap (reparent_with put id (parent_of st scene target))) st.
Let final : State :=
  update_nodes scene (placed before id target (parent_of st scene target)) st.

Lemma placed_moved_wf : nodes_wf moved scene.
Proof.
  apply moved_wf; [done..| |].
  - intros q Hq. split_and!.
    + by apply (parents_folders _ _ Hwf target).
    + intros ->. by apply Hbelow, tc_once.
    + intros Hq'. apply Hbelow. by eapply tc_l.
  - intros folder Hin Hp. apply place_Permutation, Exists_exists. exists target.
    split; [|done]. apply elem_of_without. split; [|done].
    by apply (children_listed _ _ Hwf folder Hin).
Qed.

Lemma placed_Permutation : getNodes final scene ≡ₚ getNodes moved scene.
Proof.
  pose proof (ids_unique _ _ placed_moved_wf) as Hids.
  assert (target ∈ getNodesIds moved scene) as Hin.
  { unfold moved. rewrite getNodesIds_moved. by apply getNode_known. }
  unfold final, getNodesIds, moved in *.
  rewrite getNodes_placed. rewrite getNodes_moved in *. rewrite !decide_True in * by done.
  by apply reorder_Permutation.
Qed.

Lemma placed_wf : nodes_wf final scene.
Proof. eapply nodes_wf_Permutation; [apply placed_Permutation | apply placed_moved_wf]. Qed.

Lemma getNode_placed child :
  getNode final scene child =
    reparent_with put id (parent_of st scene target) <$> getNode st scene child.
Proof.
  unfold moved. rewrite <- getNode_moved. apply getNode_Permutation.
  - apply placed_moved_wf.
  - apply placed_Permutation.
Qed.

Lemma parent_of_placed child :
  parent_of final scene child =
    if decide (child = id) then parent_of st scene target else parent_of st scene child.
Proof.
  transitivity (parent_of moved scene child).
  - unfold parent_of, moved. by rewrite getNode_placed, getNode_moved.
  - unfold moved. rewrite parent_of_moved. destruct Hnode as [? ->]. by case_decide.
Qed.

Lemma getNodesIds_placed :
  getNodesIds final scene =
    place (λ other, other = target) before id (without (getNodesIds st scene) id).
Proof.
  unfold final, getNodesIds. rewrite getNodes_placed, decide_True by done. unfold placed.
  assert (node_id <$> (reparent_with put id (parent_of st scene target) <$> getNodes st scene)
          = node_id <$> getNodes st scene) as Hids.
  { rewrite <- list_fmap_compose. apply list_fmap_ext. intros ? node _. apply node_id_reparent. }
  unfold put in Hids. rewrite reorder_ids, Hids; [done|]. rewrite Hids. by apply getNode_known.
Qed.

End Placed.

Lemma place_node_wf before scene id target other :
  preserves (λ st : State, nodes_wf st other) (place_node before scene id target).
Proof.
  intros st Hwf. rewrite place_node_run.
  destruct (canPlace st scene id target) eqn:Hcan; [|done].
  apply canPlace_spec in Hcan as (? & ? & ? & ?). cbn [final].
  destruct (decide (other = scene)) as [->|Hother]; [by apply placed_wf|].
  eapply nodes_wf_ext; [|done]. by rewrite getNodes_placed, decide_False.
Qed.

Lemma placement_wf c other : preserves (λ st : State, nodes_wf st other) (placement c).
Proof.
  destruct c; cbn [placement]; intros st Hwf; rewrite final_bind_ret;
    (by apply place_node_wf) || by apply setParent_wf.
Qed.

(** * Properties *)

(** Placing and reparenting keep the scenes forests.  Whatever nodes
    are placed before or after others or moved into folders, in any order
    and in any scenes, every scene that was well formed stays well formed:
    no node is listed twice or lost, no folder becomes its own descendant,
    every parent is a folder of the scene, and every folder lists exactly its
    children. *)
Theorem placing_keeps_forest (calls : list Placement) (st : State) (scene : Scene) :
  nodes_wf st scene → nodes_wf (run_placements calls st).1 scene.
Proof. apply (run_all_inv _ (λ st, nodes_wf st scene)). intros c. apply placement_wf. Qed.

(** A placed node is right beside its target.  In a well-formed scene,
    when the node and the target are nodes of the scene and the target is
    neither the node nor below it, the operation answers true and tells no
    observer; the other nodes keep their order, and the node comes right
    before the target after [placeBefore], right after it after
    [placeAfter]; the node has the parent of the target, every other node
    the parent it had, and the other scenes the nodes they had. *)
Theorem place_node_spec (before : bool) (st : State) (scene : Scene) (id target : string) :
  nodes_wf st scene →
  is_Some (getNode st scene id) → is_Some (getNode st scene target) →
  target ≠ id → ¬ tc (parent st scene) target id →
  let r := place_node before scene id target st in
  result r = Normal true ∧ trace r = [] ∧
  (∃ l1 l2, without (getNodesIds st scene) id = l1 ++ target :: l2 ∧
            getNodesIds (final r) scene =
              l1 ++ (if before then [id; target] else [target; id]) ++ l2) ∧
  parent_of (final r) scene id = parent_of st scene target ∧
  (∀ other, other ≠ id → parent_of (final r) scene other = parent_of st scene other) ∧
  ∀ other, other ≠ scene → getNodes (final r) other = getNodes st other.
Proof.
  intros Hwf Hnode Htarget Hne Hbelow r. unfold r. rewrite place_node_run.
  rewrite (proj2 (canPlace_spec st scene id target)) by done. cbn.
  split_and!; [done..| | | |].
  - rewrite getNodesIds_placed by done.
    destruct (Exists_split (λ other, other = target) (without (getNodesIds st scene) id))
      as (l1 & ? & l2 & Hsplit & Hl1 & ->).
    { apply Exists_exists. exists target. split; [|done]. apply elem_of_without.
      split; [by apply getNode_known | done]. }
    exists l1, l2. split; [done|]. by rewrite Hsplit, place_split.
  - by rewrite parent_of_placed, decide_True.
  - intros other Hother. by rewrite parent_of_placed, decide_False.
  - intros other Hother. by rewrite getNodes_placed, decide_False.
Qed.

(** A placement that would break the scene is refused.  A node is not
    placed beside itself, beside a node below it, or beside a node that is
    not in the scene, and a node that is not in the scene is not placed:
    the operation answers false and leaves the store as it is. *)
Theorem place_node_refused (before : bool) (st : State) (scene : Scene) (id target : string) :
  target = id ∨ tc (parent st scene) target id ∨
  getNode st scene id = None ∨ getNode st scene target = None →
  place_node before scene id target st = Run (Normal false) st [].
Proof.
  intros Hbad. rewrite place_node_run.
  destruct (canPlace st scene id target) eqn:Hcan; [|done].
  apply canPlace_spec in Hcan as ([? ?] & [? ?] & ? & ?). naive_solver.
Qed.

End Order.

(** ** The bulk operations of a selection *)

Module Bulk.

(** [selection.placeBefore(target)]: the root nodes, one after the other. *)
Definition placeBefore (target : string) (s : Selection.Selection) :
    @Scenes.M Selection.Settings unit :=
  let* roots := svc_gets (λ st, Selection.getRootNodesIds st s) in
  svc_forEach roots (λ id, place_node true (Selection.sceneId s) id target;; svc_ret tt).

(** [selection.placeAfter(target)] *)
Definition placeAfter (target : string) (s : Selection.Selection) :
    @Scenes.M Selection.Settings unit :=
  let* roots := svc_gets (λ st, Selection.getRootNodesIds st s) in
  svc_forEach roots (λ id, place_node false (Selection.sceneId s) id target;; svc_ret tt).

End Bulk.

(** The bulk operations complete, whatever single placements are refused. *)
Lemma bulk_place_result before target (roots : list string) scene
    (st : Selection.State) :
  result (svc_forEach roots
            (λ id, place_node before scene id target;; svc_ret tt) st) = Normal tt.
Proof.
  apply (svc_forEach_fold (λ _, tt) (λ _ _, tt) (λ _, True)); [|done].
  intros id st' _ _. unfold svc_bind. rewrite place_node_run.
  by destruct (canPlace st' scene id target).
Qed.

Lemma bulk_place_wf before target (roots : list string) scene other :
  preserves (λ st : Selection.State, nodes_wf st other)
    (svc_forEach roots (λ id, place_node before scene id target;; svc_ret tt)).
Proof.
  apply preserves_forEach. intros id _.
  apply preserves_bind; [apply place_node_wf | intros ?; apply preserves_ret].
Qed.

(** Placing a selection keeps the scenes forests.  [placeBefore] and
    [placeAfter] of a selection complete, whatever the target, and leave
    every well-formed scene well formed: the placements that would put a
    folder below itself are refused one by one. *)
Theorem bulk_placing_keeps_forest (target : string) (s : Selection.Selection)
    (scene : Scene) (st : Selection.State) :
  nodes_wf st scene →
  (nodes_wf (final (Bulk.placeBefore target s st)) scene ∧
   result (Bulk.placeBefore target s st) = Normal tt) ∧
  (nodes_wf (final (Bulk.placeAfter target s st)) scene ∧
   result (Bulk.placeAfter target s st) = Normal tt).
Proof.
  intros Hwf. unfold Bulk.placeBefore, Bulk.placeAfter. rewrite !svc_bind_gets.
  split; (split; [by apply bulk_place_wf | apply bulk_place_result]).
Qed.

(** * The scene of the interface's comment *)

(** Item3 and Item4 selected, placed beside Item1: before it they keep
    their order, after it the one placed last comes first. *)
Definition two_items : Selection.Selection :=
  Selection.select Selection.doc_scene (Selection.ManyIds ["Item3"; "Item4"])
    Selection.nothing_selected.

Example bulk_placing_order :
  getNodesIds (final (Bulk.placeBefore "Item1" two_items Selection.doc_scene)) "scene" =
    ["Folder1"; "Item3"; "Item4"; "Item1"; "Folder2"; "Folder3"; "Item3 of Folder3"] ∧
  getNodesIds (final (Bulk.placeAfter "Item1" two_items Selection.doc_scene)) "scene" =
    ["Folder1"; "Item1"; "Item4"; "Item3"; "Folder2"; "Folder3"; "Item3 of Folder3"] ∧
  parent_of (final (Bulk.placeAfter "Item1" two_items Selection.doc_scene)) "scene" "Item3" =
    Some "Folder1".
Proof. by vm_compute. Qed.

Lemma placing_keeps_forest_witness :
  nodes_wf
    (run_placements
       [PlaceBefore "scene" "Folder3" "Item1"; PlaceAfter "scene" "Folder1" "Item4";
        SetParent "scene" "Item3" "Folder2"] Selection.doc_scene).1 "scene".
Proof. apply placing_keeps_forest, Selection.doc_scene_wf_selection. Defined.

Lemma place_node_spec_witness :
  let r := place_node true "scene" "Item4" "Item1" Selection.doc_scene in
  result r = Normal true ∧ trace r = [] ∧
  (∃ l1 l2, without (getNodesIds Selection.doc_scene "scene") "Item4" = l1 ++ "Item1" :: l2 ∧
            getNodesIds (final r) "scene" = l1 ++ ["Item4"; "Item1"] ++ l2) ∧
  parent_of (final r) "scene" "Item4" = parent_of Selection.doc_scene "scene" "Item1" ∧
  (∀ other, other ≠ "Item4" →
     parent_of (final r) "scene" other = parent_of Selection.doc_scene "scene" other) ∧
  ∀ other, other ≠ "scene" → getNodes (final r) other = getNodes Selection.doc_scene other.
Proof.
  apply (place_node_spec true Selection.doc_scene "scene" "Item4" "Item1");
    [apply Selection.doc_scene_wf_selection | by eexists.. | done |].
  rewrite <- isAncestor_spec. by vm_compute.
Defined.

Lemma place_node_refused_witness :
  place_node false "scene" "Folder1" "Folder2" Selection.doc_scene =
    Run (Normal false) Selection.doc_scene [].
Proof. apply place_node_refused. right. left. by apply tc_once. Defined.

Lemma bulk_placing_keeps_forest_witness :
  (nodes_wf (final (Bulk.placeBefore "Item1" two_items Selection.doc_scene)) "scene" ∧
   result (Bulk.placeBefore "Item1" two_items Selection.doc_scene) = Normal tt) ∧
  (nodes_wf (final (Bulk.placeAfter "Item1" two_items Selection.doc_scene)) "scene" ∧
   result (Bulk.placeAfter "Item1" two_items Selection.doc_scene) = Normal tt).
Proof. apply bulk_placing_keeps_forest, Selection.doc_scene_wf_selection. Defined.

End Ordering.
