(* ===== verification/Grouping.v ===== *)
(** * Grouping: copying and moving a selection, and the window that groups

    Models [copyTo] and [moveTo] of a selection and, with them, the branch
    of [NameScene.submit] that groups the selected items into a new scene
    ([src/app/components/windows/NameScene.vue.ts], lines 68-73).  The class
    of the selection is not among the sources; the two operations are
    modelled from the specification (sections 4.3 and 7) under the
    signatures of the interface ([selection-api.ts], lines 115-126).

    A selection covers its selected nodes and the nodes below them.
    [copyTo] clones the covered nodes into the target scene, in the order
    they have in their scene and with their settings, the root nodes at
    the top of the target scene or in the folder given, the others in the
    clones of their folders.  The operation is validated first and then
    applied as a whole (section 7): when the target scene or the folder is
    missing, or a covered item shows the target scene or a scene that nests
    it, nothing is copied.  [moveTo] to another scene copies and then
    removes the covered nodes from their scene; [moveTo] within the scene
    is [setParent] on the selection.

    The ids of the clones are what [uuid()] answers; they are an argument
    ([uuid], from the id of a node to the id of its clone), and the theorems
    that need it assume them new and distinct.  The duplication of sources
    that [copyTo] offers is not modelled: the clones show the sources of
    the originals. *)

From Stdlib Require Import ZArith QArith.
From stdpp Require Import base tactics option list strings relations.
From S2P Require Import Prelude JsObject Scenes SceneNodes NameScene Transform Nodes Selection.
From S2P Require Import Ordering.

Set Warnings "-clear-no-such-hyp".

Local Open Scope string_scope.
Local Open Scope list_scope.
Local Open Scope nat_scope.
Local Open Scope svc_scope.

Module Grouping.
Import Nodes.
Import Selection.
Import Ordering.

Abbreviation M := (@Scenes.M Settings).

(** ** The nodes a selection covers *)

(** A node is covered when it is selected or lies below a selected node. *)
Definition is_covered (st : State) (s : Selection) (id : string) : Prop :=
  id ∈ getIds s ∨ has_selected_ancestor st s id = true.

#[export] Instance is_covered_dec st s id : Decision (is_covered st s id).
Proof. unfold is_covered. apply _. Defined.

(** The covered nodes, in the order of the scene. *)
Definition getCoveredNodes (st : State) (s : Selection) : list Node :=
  filter (λ node, is_covered st s (node_id node)) (getNodes st (sceneId s)).

(** ** Clones *)

(** The parent of the clone of a node: the clone of its parent when the
    node lies below a selected node, the folder given when it is a root
    node. *)
Definition clone_parent (st : State) (s : Selection) (folderId : option string)
    (uuid : string → string) (node : Node) : option string :=
  if has_selected_ancestor st s (node_id node) then uuid <$> node_parentId node
  else folderId.

(** The clone of an item shows the source of the item, with its settings. *)
Definition clone_item (st : State) (s : Selection) (target : Scene)
    (folderId : option string) (uuid : string → string) (item : Item) : Item :=
  {| sceneItemId := uuid (sceneItemId item); item_sceneId := target;
     sourceId := sourceId item;
     item_parentId := clone_parent st s folderId uuid (ItemNode item);
     item_settings := item_settings item |}.

Definition clone_node (st : State) (s : Selection) (target : Scene)
    (folderId : option string) (uuid : string → string) (node : Node) : Node :=
  match node with
  | ItemNode item => ItemNode (clone_item st s target folderId uuid item)
  | FolderNode folder =>
      FolderNode
        {| folder_id := uuid (folder_id folder); folder_sceneId := target;
           folder_name := folder_name folder;
           folder_parentId := clone_parent st s folderId uuid node;
           folder_childrenIds := uuid <$> folder_childrenIds folder |}
  end.

(** The clones of the covered nodes, and among them the ids of the clones
    of the root nodes. *)
Definition clones (st : State) (s : Selection) (target : Scene)
    (folderId : option string) (uuid : string → string) : list Node :=
  clone_node st s target folderId uuid <$> getCoveredNodes st s.

Definition root_clones (st : State) (s : Selection) (uuid : string → string) :
    list string :=
  (λ node, uuid (node_id node)) <$>
    filter (λ node, has_selected_ancestor st s (node_id node) = false)
      (getCoveredNodes st s).

(** ** Mutations *)

(** The folder given lists the new nodes after its own. *)
Definition adopt (folderId : option string) (newIds : list string) (node : Node) : Node :=
  if decide (Some (node_id node) = folderId)
  then with_children (λ children, children ++ newIds) node
  else node.

(** New nodes go first, as the item [addSource] makes. *)
Definition INSERT_NODES (target : Scene) (folderId : option string)
    (new : list Node) (roots : list string) : State → State :=
  update_nodes target (λ nodes, new ++ (adopt folderId roots <$> nodes)).

(** The nodes of the ids leave the scene, and the folders that stay forget
    them. *)
Definition REMOVE_NODES (scene : Scene) (ids : list string) : State → State :=
  update_nodes scene
    (λ nodes,
       with_children (filter (λ child, child ∉ ids)) <$>
         filter (λ node, node_id node ∉ ids) nodes).

(** ** The operations *)

(** The copy can be made: the target scene is there, the folder given is
    one of its folders, and every covered item may be added to the target
    scene. *)
Definition canCopyTo (st : State) (s : Selection) (target : Scene)
    (folderId : option string) : bool :=
  bool_decide (is_Some (dict_get (scenes st) target)) &&
  match folderId with
  | Some folder => bool_decide (is_Some (getFolder st target folder))
  | None => true
  end &&
  forallb (λ item, canAddSource st target (sourceId item))
    (omap node_item (getCoveredNodes st s)).

(** [selection.copyTo(sceneId, folderId)]; answers the ids of the new
    nodes. *)
Definition copyTo (target : Scene) (folderId : option string)
    (uuid : string → string) (s : Selection) : M (list string) :=
  let* ok := svc_gets (λ st, canCopyTo st s target folderId) in
  if ok then
    let* new := svc_gets (λ st, clones st s target folderId uuid) in
    let* roots := svc_gets (λ st, root_clones st s uuid) in
    svc_modify (INSERT_NODES target folderId new roots);;
    svc_forEach (omap node_item new) (λ item, svc_emit (itemAdded item));;
    svc_ret (node_id <$> new)
  else svc_ret [].

(** [selection.moveTo(sceneId, folderId)] *)
Definition moveTo (target : Scene) (folderId : option string)
    (uuid : string → string) (s : Selection) : M (list string) :=
  if decide (sceneId s = target) then
    match folderId with
    | Some folder =>
        let* roots := svc_gets (λ st, getRootNodesIds st s) in
        Selection.setParent folder s;;
        svc_ret roots
    | None => svc_ret []
    end
  else
    let* ok := svc_gets (λ st, canCopyTo st s target folderId) in
    let* covered := svc_gets (λ st, getCoveredNodes st s) in
    let* inserted := copyTo target folderId uuid s in
    if ok then
      svc_modify (REMOVE_NODES (sceneId s) (node_id <$> covered));;
      svc_forEach (omap node_item covered) (λ item, svc_emit (itemRemoved item));;
      svc_ret inserted
    else svc_ret [].

(** ** The window that groups *)

(** [scene.getSelection(ids)]: a selection of the scene with the ids. *)
Definition getSelection (scene : Scene) (ids : list string) : M Selection :=
  svc_gets (λ st,
    select st (ManyIds ids)
      {| sceneId := scene; state := {| selectedIds := []; lastSelectedId := "" |} |}).

(** [activeScene.getSelection(itemsToGroup).moveTo(newScene.id)] *)
Definition group_moveTo (uuid : string → string) (activeScene : Scene)
    (items : list string) (newScene : Scene) : M unit :=
  let* selection := getSelection activeScene items in
  moveTo newScene None uuid selection;;
  svc_ret tt.

(** * Lemmas *)

(** ** The nodes and the items after the mutations *)

Lemma getItems_getNodes (st : State) scene :
  Scene_getItems st scene = omap node_item (getNodes st scene).
Proof. unfold Scene_getItems, getNodes. by destruct (dict_get (scenes st) scene). Qed.

Lemma getNodes_update_known (f : list Node → list Node) scene (st : State) other :
  is_Some (dict_get (scenes st) scene) →
  getNodes (update_nodes scene f st) other =
    if decide (other = scene) then f (getNodes st scene) else getNodes st other.
Proof.
  intros [model Hscene]. unfold update_nodes, getNodes. rewrite Hscene. cbn.
  case_decide as Hother; [subst; by rewrite dict_get_set_eq|].
  by rewrite dict_get_set_ne.
Qed.

Lemma items_with_children (g : list string → list string) (nodes : list Node) :
  omap node_item (with_children g <$> nodes) = omap node_item nodes.
Proof. induction nodes as [|[item|folder] nodes IH]; cbn; by rewrite ?IH. Qed.

Lemma items_adopt folderId roots (nodes : list Node) :
  omap node_item (adopt folderId roots <$> nodes) = omap node_item nodes.
Proof.
  induction nodes as [|[item|folder] nodes IH]; [done|..]; cbn; unfold adopt at 1;
    case_decide; cbn; by rewrite IH.
Qed.

Lemma items_clones st s target folderId uuid (nodes : list Node) :
  omap node_item (clone_node st s target folderId uuid <$> nodes) =
    clone_item st s target folderId uuid <$> omap node_item nodes.
Proof. induction nodes as [|[item|folder] nodes IH]; cbn; by rewrite ?IH. Qed.

Lemma items_filter (P : string → Prop) `{!∀ id, Decision (P id)} (nodes : list Node) :
  omap node_item (filter (λ node, P (node_id node)) nodes) =
    filter (λ item, P (sceneItemId item)) (omap node_item nodes).
Proof.
  induction nodes as [|[item|folder] nodes IH]; [done|..]; rewrite filter_cons.
  - cbn [node_id omap list_omap node_item]. rewrite filter_cons.
    destruct (decide (P (sceneItemId item))); cbn; by rewrite IH.
  - destruct (decide _); cbn; by rewrite IH.
Qed.

Lemma items_filter_ids (ids : list string) (nodes : list Node) :
  omap node_item (filter (λ node, node_id node ∉ ids) nodes) =
    filter (λ item, sceneItemId item ∉ ids) (omap node_item nodes).
Proof. exact (items_filter (λ id, id ∉ ids) nodes). Qed.

(** The items a selection covers. *)
Definition covered_items (st : State) (s : Selection) : list Item :=
  omap node_item (getCoveredNodes st s).

Lemma items_of_clones st s target folderId uuid :
  omap node_item (clones st s target folderId uuid) =
    clone_item st s target folderId uuid <$> covered_items st s.
Proof. apply items_clones. Qed.

Lemma getItems_INSERT st s target folderId uuid roots (st' : State) other :
  is_Some (dict_get (scenes st') target) →
  Scene_getItems (INSERT_NODES target folderId (clones st s target folderId uuid) roots st')
    other =
    if decide (other = target)
    then (clone_item st s target folderId uuid <$> covered_items st s) ++
         Scene_getItems st' target
    else Scene_getItems st' other.
Proof.
  intros Htarget. rewrite !getItems_getNodes. unfold INSERT_NODES.
  rewrite getNodes_update_known by done. case_decide; [|done].
  by rewrite omap_app, items_adopt, items_of_clones.
Qed.

Lemma getItems_REMOVE scene ids (st : State) other :
  Scene_getItems (REMOVE_NODES scene ids st) other =
    if decide (other = scene)
    then filter (λ item, sceneItemId item ∉ ids) (Scene_getItems st scene)
    else Scene_getItems st other.
Proof.
  rewrite !getItems_getNodes. unfold REMOVE_NODES. rewrite getNodes_update by done.
  case_decide; [|done]. by rewrite items_with_children, items_filter_ids.
Qed.

(** ** The runs *)

Lemma copyTo_run target folderId uuid s (st : State) :
  copyTo target folderId uuid s st =
    if canCopyTo st s target folderId
    then Run (Normal (node_id <$> clones st s target folderId uuid))
           (INSERT_NODES target folderId (clones st s target folderId uuid)
              (root_clones st s uuid) st)
           (itemAdded <$> (clone_item st s target folderId uuid <$> covered_items st s))
    else Run (Normal []) st [].
Proof.
  unfold copyTo. rewrite svc_bind_gets.
  destruct (canCopyTo st s target folderId); [|done].
  rewrite !svc_bind_gets, svc_bind_modify. unfold svc_bind. rewrite svc_forEach_emit.
  cbn [result final trace svc_ret app]. by rewrite app_nil_r, items_of_clones.
Qed.

Lemma canCopyTo_spec (st : State) s target folderId :
  canCopyTo st s target folderId = true ↔
  is_Some (dict_get (scenes st) target) ∧
  (∀ folder, folderId = Some folder → is_Some (getFolder st target folder)) ∧
  ∀ item, item ∈ covered_items st s →
    sourceId item ≠ target ∧ ¬ tc (nests st) (sourceId item) target.
Proof.
  unfold canCopyTo. rewrite !andb_true_iff, bool_decide_eq_true, forallb_forall.
  setoid_rewrite <- list_elem_of_In. setoid_rewrite canAddSource_spec.
  destruct folderId as [folder|]; [rewrite bool_decide_eq_true|]; naive_solver.
Qed.

Lemma moveTo_run target folderId uuid s (st : State) :
  sceneId s ≠ target →
  moveTo target folderId uuid s st =
    if canCopyTo st s target folderId
    then Run (Normal (node_id <$> clones st s target folderId uuid))
           (REMOVE_NODES (sceneId s) (node_id <$> getCoveredNodes st s)
              (INSERT_NODES target folderId (clones st s target folderId uuid)
                 (root_clones st s uuid) st))
           ((itemAdded <$> (clone_item st s target folderId uuid <$> covered_items st s)) ++
            (itemRemoved <$> covered_items st s))
    else Run (Normal []) st [].
Proof.
  intros Hne. unfold moveTo. rewrite decide_False by done. rewrite !svc_bind_gets.
  unfold svc_bind at 1. rewrite copyTo_run.
  destruct (canCopyTo st s target folderId); [|done]. cbn [result final trace prepend].
  rewrite svc_bind_modify. unfold svc_bind. rewrite svc_forEach_emit. cbn.
  by rewrite app_nil_r.
Qed.

(** ** The invariant of the store and cycle freedom *)

Lemma INSERT_inv st s target folderId uuid roots :
  is_Some (dict_get (scenes st) target) → scenes_inv st →
  scenes_inv (INSERT_NODES target folderId (clones st s target folderId uuid) roots st).
Proof.
  intros Htarget (Hwf & Ha & Ho). split_and!.
  - eapply same_frame_store_wf; [apply update_nodes_frame | done].
  - eapply same_frame_active_ok; [apply update_nodes_frame | done].
  - intros k item. rewrite getItems_INSERT by done. case_decide; [subst|apply Ho].
    rewrite elem_of_app, list_elem_of_fmap. intros [(item0 & -> & _)|?]; [done | by apply Ho].
Qed.

Lemma REMOVE_inv scene ids (st : State) :
  scenes_inv st → scenes_inv (REMOVE_NODES scene ids st).
Proof.
  intros (Hwf & Ha & Ho). split_and!.
  - eapply same_frame_store_wf; [apply update_nodes_frame | done].
  - eapply same_frame_active_ok; [apply update_nodes_frame | done].
  - intros k item. rewrite getItems_REMOVE.
    case_decide; [subst; intros [_ ?]%list_elem_of_filter|]; by apply Ho.
Qed.

(** The clones add to the target scene the edges to the sources of the
    covered items, none of which reaches the target scene. *)
Lemma INSERT_acyclic st s target folderId uuid roots :
  canCopyTo st s target folderId = true → acyclic st →
  acyclic (INSERT_NODES target folderId (clones st s target folderId uuid) roots st).
Proof.
  intros (Htarget & _ & Hitems)%canCopyTo_spec Hac.
  refine (acyclic_add_edges (nests st) (nests _) target
            (λ b, b ∈ sourceId <$> covered_items st s) _ _ Hac).
  - intros a b. unfold nests. rewrite getItems_INSERT by done.
    case_decide; [subst|by left].
    rewrite fmap_app, elem_of_app, <- list_fmap_compose. intros [Hnew|?]; [by right | by left].
  - intros b (item & -> & Hin)%list_elem_of_fmap Hreach.
    destruct (Hitems item Hin) as [Hne Hpath]. by apply rtc_tc in Hreach as [?|?].
Qed.

Lemma REMOVE_acyclic scene ids (st : State) : acyclic st → acyclic (REMOVE_NODES scene ids st).
Proof.
  apply acyclic_mono. intros k item. rewrite getItems_REMOVE.
  case_decide; [subst; by intros [_ ?]%list_elem_of_filter | done].
Qed.

(** Reparenting changes no item but in its parent: the scene and the source
    of every item stay, in the same order. *)
Definition item_core (item : Item) : string * string * Settings :=
  (item_sceneId item, sourceId item, item_settings item).

Definition same_items (st st' : State) : Prop :=
  same_frame st st' ∧
  ∀ k, item_core <$> Scene_getItems st' k = item_core <$> Scene_getItems st k.

Lemma same_items_refl st : same_items st st.
Proof. split; [apply same_frame_refl | done]. Qed.

Lemma same_items_trans st1 st2 st3 :
  same_items st1 st2 → same_items st2 st3 → same_items st1 st3.
Proof.
  intros [Hf Hi] [Hf' Hi']. split; [by eapply same_frame_trans|].
  intros k. by rewrite Hi', Hi.
Qed.

Lemma same_items_elem st st' k item' :
  same_items st st' → item' ∈ Scene_getItems st' k →
  ∃ item, item ∈ Scene_getItems st k ∧ item_core item = item_core item'.
Proof.
  intros [_ Hi] Hin. apply (list_elem_of_fmap_2 item_core) in Hin.
  rewrite Hi in Hin. apply list_elem_of_fmap in Hin as (item & ? & ?). eauto.
Qed.

Lemma same_items_inv st st' : same_items st st' → scenes_inv st → scenes_inv st'.
Proof.
  intros Hs (Hwf & Ha & Ho). split_and!.
  - eapply same_frame_store_wf; [apply Hs | done].
  - eapply same_frame_active_ok; [apply Hs | done].
  - intros k item' Hin. destruct (same_items_elem st st' k item' Hs Hin) as (item & ? & [= <- _ _]).
    by apply Ho.
Qed.

Lemma same_items_acyclic st st' : same_items st st' → acyclic st → acyclic st'.
Proof.
  intros Hs Hac. refine (acyclic_subrel (nests st) (nests st') _ Hac). intros a b. unfold nests.
  intros (item' & -> & Hin)%list_elem_of_fmap.
  destruct (same_items_elem st st' a item' Hs Hin) as (item & ? & [= _ <- _]).
  by apply list_elem_of_fmap_2.
Qed.

Lemma items_reparent put id p (nodes : list Node) :
  item_core <$> omap node_item (reparent_with put id p <$> nodes) =
    item_core <$> omap node_item nodes.
Proof.
  induction nodes as [|[item|folder] nodes IH]; [done|..]; cbn [fmap list_fmap].
  - unfold reparent_with at 1. repeat case_decide; cbn; by rewrite IH.
  - unfold reparent_with at 1. repeat case_decide; cbn; by rewrite IH.
Qed.

Lemma setParent_same_items st0 scene id folderId :
  preserves (same_items st0) (Nodes.setParent scene id folderId).
Proof.
  intros st Hs. rewrite setParent_run. destruct (canSetParent st scene id folderId); [|done].
  cbn [final]. eapply same_items_trans; [done|]. split; [apply update_nodes_frame|].
  intros k. rewrite !getItems_getNodes, getNodes_update_nodes.
  case_decide; [subst; apply items_reparent | done].
Qed.

Lemma selection_setParent_same_items st0 folderId s :
  preserves (same_items st0) (Selection.setParent folderId s).
Proof.
  unfold Selection.setParent. apply preserves_bind; [apply preserves_gets|]. intros roots.
  apply preserves_forEach. intros id _.
  apply preserves_bind; [apply setParent_same_items | intros ?; apply preserves_ret].
Qed.

(** What [moveTo] leaves: the items as they were but for their parents, or
    the clones in the target scene and the covered nodes gone. *)
Lemma moveTo_final target folderId uuid s (st : State) :
  let st' := final (moveTo target folderId uuid s st) in
  same_items st st' ∨
  (sceneId s ≠ target ∧ canCopyTo st s target folderId = true ∧
   st' = REMOVE_NODES (sceneId s) (node_id <$> getCoveredNodes st s)
           (INSERT_NODES target folderId (clones st s target folderId uuid)
              (root_clones st s uuid) st)).
Proof.
  cbv zeta. destruct (decide (sceneId s = target)) as [Heq|Hne].
  - left. unfold moveTo. rewrite decide_True by done.
    destruct folderId as [folder|]; [|apply same_items_refl].
    rewrite svc_bind_gets. apply preserves_bind; [|intros ?; apply preserves_ret|].
    + apply selection_setParent_same_items.
    + apply same_items_refl.
  - rewrite moveTo_run by done.
    destruct (canCopyTo st s target folderId); [by right | left; apply same_items_refl].
Qed.

Lemma copyTo_inv target folderId uuid s : preserves scenes_inv (copyTo target folderId uuid s).
Proof.
  intros st Hinv. rewrite copyTo_run.
  destruct (canCopyTo st s target folderId) eqn:Hcan; [|done].
  apply canCopyTo_spec in Hcan as [? _]. by apply INSERT_inv.
Qed.

Lemma copyTo_acyclic target folderId uuid s : preserves acyclic (copyTo target folderId uuid s).
Proof.
  intros st Hac. rewrite copyTo_run.
  destruct (canCopyTo st s target folderId) eqn:Hcan; [|done]. by apply INSERT_acyclic.
Qed.

Lemma moveTo_inv target folderId uuid s : preserves scenes_inv (moveTo target folderId uuid s).
Proof.
  intros st Hinv. destruct (moveTo_final target folderId uuid s st) as [?|(_ & Hcan & ->)].
  - by eapply same_items_inv.
  - apply canCopyTo_spec in Hcan as [? _]. by apply REMOVE_inv, INSERT_inv.
Qed.

Lemma moveTo_acyclic target folderId uuid s : preserves acyclic (moveTo target folderId uuid s).
Proof.
  intros st Hac. destruct (moveTo_final target folderId uuid s st) as [?|(_ & Hcan & ->)].
  - by eapply same_items_acyclic.
  - by apply REMOVE_acyclic, INSERT_acyclic.
Qed.

Lemma group_moveTo_acyclic uuid activeScene items newScene :
  preserves acyclic (group_moveTo uuid activeScene items newScene).
Proof.
  unfold group_moveTo, getSelection. apply preserves_bind; [apply preserves_gets|]. intros s.
  apply preserves_bind; [apply moveTo_acyclic | intros ?; apply preserves_ret].
Qed.

Lemma group_moveTo_inv uuid activeScene items newScene :
  preserves scenes_inv (group_moveTo uuid activeScene items newScene).
Proof.
  unfold group_moveTo, getSelection. apply preserves_bind; [apply preserves_gets|]. intros s.
  apply preserves_bind; [apply moveTo_inv | intros ?; apply preserves_ret].
Qed.

(** ** What a selection covers *)

Lemma covered_items_eq st s : covered_items st s = getCoveredItems st s.
Proof.
  unfold covered_items, getCoveredNodes, getCoveredItems.
  exact (items_filter (is_covered st s) _).
Qed.

Lemma is_covered_spec st s id :
  is_covered st s id ↔ ∃ a, rtc (parent st (sceneId s)) id a ∧ a ∈ getIds s.
Proof.
  unfold is_covered. rewrite has_selected_ancestor_spec. split.
  - intros [?|(a & ?%tc_rtc & ?)]; [by exists id | by exists a].
  - intros (a & [->|?]%rtc_tc & ?); [by left | right; by exists a].
Qed.

(** The nodes below a covered node are covered. *)
Lemma covered_below st s child p :
  parent st (sceneId s) child p → is_covered st s p →
  has_selected_ancestor st s child = true.
Proof.
  intros Hp (a & Hpath & Ha)%is_covered_spec. apply has_selected_ancestor_spec.
  exists a. split; [|done]. eapply tc_rtc_r; [by apply tc_once | done].
Qed.

Lemma item_node (st : State) scene item :
  item ∈ Scene_getItems st scene ↔ ItemNode item ∈ getNodes st scene.
Proof.
  rewrite getItems_getNodes, list_elem_of_omap. split.
  - by intros ([item'|folder] & Hin & [= ->]).
  - intros ?. by exists (ItemNode item).
Qed.

Lemma covered_ids st s id :
  id ∈ node_id <$> getCoveredNodes st s ↔
  id ∈ getNodesIds st (sceneId s) ∧ is_covered st s id.
Proof.
  unfold getCoveredNodes, getNodesIds. rewrite !list_elem_of_fmap.
  setoid_rewrite list_elem_of_filter. naive_solver.
Qed.

Lemma uncovered_items st s :
  filter (λ item, sceneItemId item ∉ node_id <$> getCoveredNodes st s)
    (Scene_getItems st (sceneId s)) =
  filter (λ item, ¬ is_covered st s (sceneItemId item)) (Scene_getItems st (sceneId s)).
Proof.
  apply filter_iff_elem. intros item Hin%item_node. rewrite covered_ids.
  assert (sceneItemId item ∈ getNodesIds st (sceneId s)); [|tauto].
  by apply (list_elem_of_fmap_2 node_id) in Hin.
Qed.

(** What an item shows: its source and its settings. *)
Definition item_content (item : Item) : string * Settings :=
  (sourceId item, item_settings item).

Lemma clone_content st s target folderId uuid (items : list Item) :
  item_content <$> (clone_item st s target folderId uuid <$> items) = item_content <$> items.
Proof. by rewrite <- list_fmap_compose. Qed.

(** The items of the scenes after a move to another scene. *)
Lemma getItems_moved st s target folderId uuid other :
  sceneId s ≠ target → canCopyTo st s target folderId = true →
  Scene_getItems (final (moveTo target folderId uuid s st)) other =
    if decide (other = target)
    then (clone_item st s target folderId uuid <$> getCoveredItems st s) ++
         Scene_getItems st target
    else if decide (other = sceneId s)
    then filter (λ item, ¬ is_covered st s (sceneItemId item)) (Scene_getItems st (sceneId s))
    else Scene_getItems st other.
Proof.
  intros Hne Hcan. rewrite moveTo_run, Hcan by done. cbn [final].
  pose proof (proj1 (canCopyTo_spec _ _ _ _) Hcan) as [Htarget _].
  rewrite getItems_REMOVE, !getItems_INSERT, covered_items_eq by done.
  repeat case_decide; try congruence. apply uncovered_items.
Qed.

(** ** The nodes of the target scene after a copy *)

Lemma node_id_clone st s target folderId uuid node :
  node_id (clone_node st s target folderId uuid node) = uuid (node_id node).
Proof. by destruct node. Qed.

Lemma node_parentId_clone st s target folderId uuid node :
  node_parentId (clone_node st s target folderId uuid node) =
    clone_parent st s folderId uuid node.
Proof. by destruct node. Qed.

Lemma node_folder_clone st s target folderId uuid node :
  is_Some (node_folder (clone_node st s target folderId uuid node)) ↔
  is_Some (node_folder node).
Proof. by destruct node. Qed.

Lemma node_id_adopt folderId roots (node : Node) :
  node_id (adopt folderId roots node) = node_id node.
Proof. unfold adopt. case_decide; by destruct node. Qed.

Lemma node_parentId_adopt folderId roots (node : Node) :
  node_parentId (adopt folderId roots node) = node_parentId node.
Proof. unfold adopt. case_decide; by destruct node. Qed.

Lemma node_folder_adopt folderId roots (node : Node) :
  is_Some (node_folder (adopt folderId roots node)) ↔ is_Some (node_folder node).
Proof. unfold adopt. case_decide; by destruct node. Qed.

Lemma getFolder_known (st : State) scene id :
  is_Some (getFolder st scene id) → id ∈ getNodesIds st scene.
Proof.
  unfold getFolder. intros Hfolder. apply getNode_known.
  destruct (getNode st scene id); [by eexists | by destruct Hfolder].
Qed.

(** The parent of a node with a selected ancestor is covered. *)
Lemma covered_parent st s a b :
  has_selected_ancestor st s a = true → parent st (sceneId s) a b → is_covered st s b.
Proof.
  intros (c & Hpath & Hc)%has_selected_ancestor_spec Hp. apply is_covered_spec.
  exists c. split; [|done].
  inv Hpath as [? ? Hac|? b' ? Hab Hbc].
  - by rewrite (parent_det _ _ _ _ _ Hp Hac).
  - rewrite (parent_det _ _ _ _ _ Hp Hab). by apply tc_rtc.
Qed.

Section Copied.
Context (st : State) (s : Selection) (target : Scene) (folderId : option string)
  (uuid : string → string).
Context (Hinj : Inj (=) (=) uuid) (Hfresh : ∀ id, uuid id ∉ getNodesIds st target).
Context (Htarget : is_Some (dict_get (scenes st) target)).

(** The store after the copy. *)
Let copied : State :=
  INSERT_NODES target folderId (clones st s target folderId uuid) (root_clones st s uuid) st.

Lemma getNodes_copied other :
  getNodes copied other =
    if decide (other = target)
    then clones st s target folderId uuid ++
         (adopt folderId (root_clones st s uuid) <$> getNodes st target)
    else getNodes st other.
Proof. apply getNodes_update_known, Htarget. Qed.

Lemma getNodesIds_copied :
  getNodesIds copied target =
    (uuid <$> (node_id <$> getCoveredNodes st s)) ++ getNodesIds st target.
Proof.
  unfold getNodesIds. rewrite getNodes_copied, decide_True, fmap_app by done.
  unfold clones. rewrite <- !list_fmap_compose. f_equal; apply list_fmap_ext; intros ? n ?; cbn.
  - apply node_id_clone.
  - apply node_id_adopt.
Qed.

Lemma copied_known id :
  id ∈ getNodesIds copied target ↔
  id ∈ getNodesIds st target ∨
  ∃ a, id = uuid a ∧ a ∈ getNodesIds st (sceneId s) ∧ is_covered st s a.
Proof.
  rewrite getNodesIds_copied, elem_of_app, list_elem_of_fmap.
  setoid_rewrite covered_ids. naive_solver.
Qed.

Lemma getNode_copied_old id :
  id ∈ getNodesIds st target →
  getNode copied target id =
    adopt folderId (root_clones st s uuid) <$> getNode st target id.
Proof.
  intros Hid. unfold getNode. rewrite getNodes_copied, decide_True, js_find_app by done.
  destruct (js_find _ (clones _ _ _ _ _)) as [node|] eqn:Hfind.
  - apply js_find_Some in Hfind as [(n & -> & _)%list_elem_of_fmap Hn].
    rewrite node_id_clone in Hn. subst id. by destruct (Hfresh (node_id n)).
  - apply js_find_fmap. intros n. by rewrite node_id_adopt.
Qed.

Lemma getNode_copied_new a :
  is_covered st s a →
  getNode copied target (uuid a) =
    clone_node st s target folderId uuid <$> getNode st (sceneId s) a.
Proof.
  intros Ha. unfold getNode. rewrite getNodes_copied, decide_True, js_find_app by done.
  unfold clones.
  rewrite (js_find_fmap_through _ (λ n, node_id n = a))
    by (intros n; rewrite node_id_clone; split; [apply Hinj | congruence]).
  unfold getCoveredNodes. rewrite js_find_filter by (by intros n ->).
  destruct (js_find _ (getNodes st (sceneId s))); [done|]. cbn.
  rewrite js_find_fmap by (intros n; by rewrite node_id_adopt).
  destruct (js_find _ (getNodes st target)) as [n|] eqn:Hfind; [|done].
  apply js_find_Some in Hfind as [Hin Hid]. destruct (Hfresh a).
  rewrite <- Hid. by apply list_elem_of_fmap_2.
Qed.

Lemma parent_of_copied_old id :
  id ∈ getNodesIds st target → parent_of copied target id = parent_of st target id.
Proof.
  intros Hid. unfold parent_of. rewrite getNode_copied_old by done.
  destruct (getNode st target id); cbn; [apply node_parentId_adopt | done].
Qed.

Lemma parent_of_copied_new a :
  is_covered st s a →
  parent_of copied target (uuid a) =
    if has_selected_ancestor st s a then uuid <$> parent_of st (sceneId s) a
    else getNode st (sceneId s) a ≫= λ _, folderId.
Proof.
  intros Ha. unfold parent_of. rewrite getNode_copied_new by done.
  destruct (getNode st (sceneId s) a) as [n|] eqn:Hn; cbn;
    [|by destruct (has_selected_ancestor st s a)].
  rewrite node_parentId_clone. unfold clone_parent.
  by rewrite (proj2 (getNode_Some _ _ _ _ Hn)).
Qed.

(** Where the parents of the nodes of the target scene come from. *)
Lemma parent_copied_inv x y :
  parent copied target x y →
  (x ∈ getNodesIds st target ∧ parent st target x y) ∨
  ∃ a, x = uuid a ∧ is_covered st s a ∧
    ((has_selected_ancestor st s a = true ∧ ∃ b, y = uuid b ∧ parent st (sceneId s) a b) ∨
     (has_selected_ancestor st s a = false ∧ is_Some (getNode st (sceneId s) a) ∧
      folderId = Some y)).
Proof.
  intros Hp. pose proof (parent_known _ _ _ _ Hp) as [Hold|(a & -> & Ha & Hcov)]%copied_known.
  - left. split; [done|]. unfold parent in *. by rewrite <- parent_of_copied_old.
  - right. exists a. split_and!; [done..|]. unfold parent in Hp.
    rewrite parent_of_copied_new in Hp by done.
    destruct (has_selected_ancestor st s a); [left|right]; (split; [done|]).
    + apply fmap_Some in Hp as (b & ? & ->). by exists b.
    + apply bind_Some in Hp as (n & ? & ?). eauto.
Qed.

Lemma elem_of_root_clones c :
  uuid c ∈ root_clones st s uuid ↔
  c ∈ getNodesIds st (sceneId s) ∧ is_covered st s c ∧
  has_selected_ancestor st s c = false.
Proof.
  unfold root_clones, getCoveredNodes. rewrite list_elem_of_fmap.
  setoid_rewrite list_elem_of_filter. setoid_rewrite list_elem_of_filter. split.
  - intros (n & ->%Hinj & ? & ? & ?). split_and!; [by apply list_elem_of_fmap_2|done..].
  - intros ((n & -> & ?)%list_elem_of_fmap & ? & ?). by exists n.
Qed.

Lemma root_clones_new id : id ∈ root_clones st s uuid → ∃ c, id = uuid c.
Proof. intros (n & -> & _)%list_elem_of_fmap. by eexists. Qed.

Lemma parent_copied_root c folder :
  folder ∈ getNodesIds st target →
  parent copied target (uuid c) folder ↔
  uuid c ∈ root_clones st s uuid ∧ folderId = Some folder.
Proof.
  intros Hfolder. rewrite elem_of_root_clones. split.
  - intros [[Hold _]|(a & ->%Hinj & Hcov & [(_ & b & -> & _)|(Hanc & Hnode & Hf)])]
      %parent_copied_inv.
    + by destruct (Hfresh c).
    + by destruct (Hfresh b).
    + split_and!; [by apply getNode_known|done..].
  - intros [(Hc & Hcov & Hanc) Hf]. unfold parent.
    rewrite parent_of_copied_new, Hanc by done. by apply getNode_known in Hc as [n ->].
Qed.

Context (Hsrc : nodes_wf st (sceneId s)) (Htgt : nodes_wf st target).
Context (Hfolder : ∀ folder, folderId = Some folder → is_Some (getFolder st target folder)).

Lemma NoDup_root_clones : NoDup (root_clones st s uuid).
Proof.
  unfold root_clones.
  rewrite (list_fmap_compose node_id uuid _ : (λ node, uuid (node_id node)) <$> _ = _).
  apply NoDup_fmap_2; [done|]. apply NoDup_fmap_filter, NoDup_fmap_filter, Hsrc.
Qed.

Lemma copied_ids : NoDup (getNodesIds copied target).
Proof.
  rewrite getNodesIds_copied. apply NoDup_app. split_and!.
  - apply NoDup_fmap_2; [done|]. apply NoDup_fmap_filter, Hsrc.
  - intros id (a & -> & _)%list_elem_of_fmap. apply Hfresh.
  - apply Htgt.
Qed.

Lemma copied_forest : forest copied target.
Proof.
  unfold forest.
  apply (acyclic_glue (parent st target) (parent copied target) (parent st (sceneId s))
           (λ id, id ∈ getNodesIds st target) uuid); try done.
  - intros x y [[_ Hp]|(a & -> & _)]%parent_copied_inv Hx; [|by destruct (Hfresh a)].
    split; [done|]. by eapply getFolder_known, parents_folders.
  - intros x y [[? _]|(a & -> & _ & [(_ & b & -> & ?)|(_ & _ & Hf)])]%parent_copied_inv Hx.
    + done.
    + right. by exists a, b.
    + left. by apply getFolder_known, Hfolder.
  - apply Htgt.
  - apply Hsrc.
  - intros x. destruct (decide (x ∈ getNodesIds st target)); eauto.
Qed.

Lemma getFolder_copied_old p :
  is_Some (getFolder st target p) → is_Some (getFolder copied target p).
Proof.
  intros Hp. pose proof (getFolder_known _ _ _ Hp). unfold getFolder in *.
  rewrite getNode_copied_old by done.
  destruct (getNode st target p); cbn in *; [by apply node_folder_adopt | done].
Qed.

Lemma getFolder_copied_new b :
  is_covered st s b → is_Some (getFolder st (sceneId s) b) →
  is_Some (getFolder copied target (uuid b)).
Proof.
  intros Hb Hp. unfold getFolder in *. rewrite getNode_copied_new by done.
  destruct (getNode st (sceneId s) b); cbn in *; [by apply node_folder_clone | done].
Qed.

Lemma copied_parents_folders child p :
  parent copied target child p → is_Some (getFolder copied target p).
Proof.
  intros [[_ Hp]|(a & -> & Hcov & [(Hanc & b & -> & Hp)|(_ & _ & Hf)])]%parent_copied_inv.
  - by eapply getFolder_copied_old, parents_folders.
  - apply getFolder_copied_new; [by eapply covered_parent | by eapply parents_folders].
  - by apply getFolder_copied_old, Hfolder.
Qed.

(** The clone of a folder lists the clones of the children of the folder. *)
Lemma copied_children_new (folder : ISceneItemFolder) :
  FolderNode folder ∈ getCoveredNodes st s →
  ∀ child, child ∈ uuid <$> folder_childrenIds folder ↔
           parent copied target child (uuid (folder_id folder)).
Proof.
  intros [Hcov Hin]%list_elem_of_filter child.
  destruct (children_listed _ _ Hsrc folder Hin) as [_ Hlisted].
  rewrite list_elem_of_fmap. split.
  - intros (c & -> & Hc%Hlisted). pose proof (covered_below _ _ _ _ Hc Hcov) as Hanc.
    unfold parent. rewrite parent_of_copied_new, Hanc by (by right). by rewrite Hc.
  - intros [[Hold Hp]|(a & -> & _ & [(_ & b & Hb%Hinj & Hp)|(_ & _ & Hf)])]%parent_copied_inv.
    + destruct (Hfresh (folder_id folder)). by eapply getFolder_known, parents_folders.
    + exists a. split; [done|]. apply Hlisted. by rewrite Hb.
    + destruct (Hfresh (folder_id folder)). by apply getFolder_known, Hfolder.
Qed.

(** A folder of the target scene lists its children, and the clones of the
    root nodes when it is the folder given. *)
Lemma copied_children_old (folder : ISceneItemFolder) child :
  FolderNode folder ∈ getNodes st target →
  child ∈ folder_childrenIds folder ∨
    (child ∈ root_clones st s uuid ∧ folderId = Some (folder_id folder)) ↔
  parent copied target child (folder_id folder).
Proof.
  intros Hin. destruct (children_listed _ _ Htgt folder Hin) as [_ Hlisted].
  pose proof (list_elem_of_fmap_2 node_id _ _ Hin) as Hknown. cbn in Hknown. split.
  - intros [Hc%Hlisted|[Hc Hf]].
    + unfold parent. rewrite parent_of_copied_old; [done | by eapply parent_known].
    + pose proof Hc as [c ->]%root_clones_new. by apply parent_copied_root.
  - intros Hp. pose proof Hp as [[_ ?]|(a & -> & _)]%parent_copied_inv.
    + left. by apply Hlisted.
    + right. by apply parent_copied_root.
Qed.

Lemma copied_children_ok : children_ok copied target.
Proof.
  intros folder'. rewrite getNodes_copied, decide_True, elem_of_app by done.
  intros [([|folder] & [= ->] & Hin)%list_elem_of_fmap|(node & Heq & Hin)%list_elem_of_fmap].
  - cbn [folder_childrenIds folder_id]. split; [|by apply copied_children_new].
    apply list_elem_of_filter in Hin as [_ Hin]. apply NoDup_fmap_2; [done|].
    by apply (children_listed _ _ Hsrc folder).
  - unfold adopt in Heq. destruct node as [|folder]; [by case_decide|].
    pose proof (children_listed _ _ Htgt folder Hin) as [Hnd Hlisted].
    case_decide as Hf; injection Heq as ->; cbn [folder_childrenIds folder_id];
      (split; [|intros child; rewrite <- copied_children_old by done]).
    + apply NoDup_app. split_and!; [done| |].
      * intros child ?%Hlisted%parent_known [c ->]%root_clones_new. by destruct (Hfresh c).
      * apply NoDup_root_clones.
    + rewrite elem_of_app. cbn in Hf. naive_solver.
    + done.
    + cbn in Hf. naive_solver.
Qed.

Lemma copied_wf : nodes_wf copied target.
Proof.
  split; [apply copied_ids | apply copied_forest | apply copied_parents_folders |
          apply copied_children_ok].
Qed.

End Copied.

(** ** The nodes of the scene after the covered nodes left *)

Lemma getNodes_REMOVE scene ids (st : State) other :
  getNodes (REMOVE_NODES scene ids st) other =
    if decide (other = scene)
    then with_children (filter (λ child, child ∉ ids)) <$>
           filter (λ node, node_id node ∉ ids) (getNodes st scene)
    else getNodes st other.
Proof. unfold REMOVE_NODES. by rewrite getNodes_update. Qed.

Lemma node_id_with_children g (node : Node) : node_id (with_children g node) = node_id node.
Proof. by destruct node. Qed.

Lemma node_parentId_with_children g (node : Node) :
  node_parentId (with_children g node) = node_parentId node.
Proof. by destruct node. Qed.

Lemma node_folder_with_children g (node : Node) :
  is_Some (node_folder (with_children g node)) ↔ is_Some (node_folder node).
Proof. by destruct node. Qed.

Section Removed.
Context (st : State) (s : Selection).

Let ids : list string := node_id <$> getCoveredNodes st s.
Let removed : State := REMOVE_NODES (sceneId s) ids st.

Lemma getNode_removed id :
  getNode removed (sceneId s) id =
    if decide (id ∈ ids) then None
    else with_children (filter (λ child, child ∉ ids)) <$> getNode st (sceneId s) id.
Proof.
  unfold getNode, removed. rewrite getNodes_REMOVE, decide_True by done.
  rewrite js_find_fmap by (intros n; by rewrite node_id_with_children).
  case_decide as Hid.
  - apply fmap_None, js_find_None, Forall_forall.
    intros n [Hn _]%list_elem_of_filter Heq. by rewrite Heq in Hn.
  - by rewrite js_find_filter by (by intros n ->).
Qed.

Lemma parent_removed child p :
  parent removed (sceneId s) child p ↔ (child ∉ ids) ∧ parent st (sceneId s) child p.
Proof.
  unfold parent, parent_of. rewrite getNode_removed. case_decide; [naive_solver|].
  destruct (getNode st (sceneId s) child); cbn; rewrite ?node_parentId_with_children;
    naive_solver.
Qed.

(** The parent of a node that stays stays. *)
Lemma uncovered_parent child p :
  parent st (sceneId s) child p → child ∉ ids → p ∉ ids.
Proof.
  intros Hp Hchild [_ Hcov]%covered_ids. apply Hchild, covered_ids.
  split; [by eapply parent_known|]. right. by eapply covered_below.
Qed.

Context (Hwf : nodes_wf st (sceneId s)).

Lemma removed_wf : nodes_wf removed (sceneId s).
Proof.
  split.
  - unfold getNodesIds, removed. rewrite getNodes_REMOVE, decide_True by done.
    rewrite <- list_fmap_compose.
    rewrite (list_fmap_ext _ node_id) by (intros; apply node_id_with_children).
    apply NoDup_fmap_filter, Hwf.
  - unfold forest. apply (acyclic_subrel (parent st (sceneId s))); [|apply Hwf].
    by intros x y [_ ?]%parent_removed.
  - intros child p [Hchild Hp]%parent_removed.
    pose proof (uncovered_parent _ _ Hp Hchild).
    pose proof (parents_folders _ _ Hwf _ _ Hp) as Hf. unfold getFolder in *.
    rewrite getNode_removed, decide_False by done.
    destruct (getNode st (sceneId s) p); cbn in *; [by apply node_folder_with_children | done].
  - intros folder' Hin'. unfold removed in Hin'.
    rewrite getNodes_REMOVE, decide_True in Hin' by done.
    apply list_elem_of_fmap in Hin' as ([|folder] & [= ->] & [_ Hin]%list_elem_of_filter).
    destruct (children_listed _ _ Hwf folder Hin) as [Hnd Hlisted].
    cbn [folder_childrenIds folder_id]. split; [by apply NoDup_filter|].
    intros child. rewrite list_elem_of_filter, parent_removed, Hlisted. tauto.
Qed.

End Removed.

(** ** The forests after a copy and a move *)

Lemma copyTo_wf st s target folderId uuid scene :
  Inj (=) (=) uuid → (∀ id, uuid id ∉ getNodesIds st target) →
  nodes_wf st (sceneId s) → nodes_wf st target → nodes_wf st scene →
  nodes_wf (final (copyTo target folderId uuid s st)) scene.
Proof.
  intros Hinj Hfresh Hsrc Htgt Hscene. rewrite copyTo_run.
  destruct (canCopyTo st s target folderId) eqn:Hcan; [|done].
  apply canCopyTo_spec in Hcan as (Htarget & Hfolder & _). cbn [final].
  destruct (decide (scene = target)) as [->|Hother]; [by apply copied_wf|].
  eapply nodes_wf_ext; [|done]. by rewrite getNodes_copied, decide_False.
Qed.

Lemma moveTo_wf st s target folderId uuid scene :
  Inj (=) (=) uuid → (∀ id, uuid id ∉ getNodesIds st target) →
  nodes_wf st (sceneId s) → nodes_wf st target → nodes_wf st scene →
  nodes_wf (final (moveTo target folderId uuid s st)) scene.
Proof.
  intros Hinj Hfresh Hsrc Htgt Hscene. destruct (decide (sceneId s = target)) as [Heq|Hne].
  { unfold moveTo. rewrite decide_True by done. destruct folderId as [folder|]; [|done].
    rewrite svc_bind_gets. apply preserves_bind; [|intros ?; apply preserves_ret|done].
    apply setParent_selection_wf. }
  rewrite moveTo_run by done.
  destruct (canCopyTo st s target folderId) eqn:Hcan; [|done].
  apply canCopyTo_spec in Hcan as (Htarget & Hfolder & _). cbn [final].
  destruct (decide (scene = sceneId s)) as [->|Hother].
  - eapply nodes_wf_ext; [|by apply removed_wf].
    by rewrite !getNodes_REMOVE, !decide_True, getNodes_copied, decide_False.
  - assert (nodes_wf (INSERT_NODES target folderId (clones st s target folderId uuid)
                        (root_clones st s uuid) st) scene) as Hcopied.
    { destruct (decide (scene = target)) as [->|?]; [by apply copied_wf|].
      eapply nodes_wf_ext; [|done]. by rewrite getNodes_copied, decide_False. }
    eapply nodes_wf_ext; [|done]. by rewrite getNodes_REMOVE, decide_False.
Qed.

(** ** What depends on the nodes of the scene of the selection only *)

Section Ext.
Context (st st' : State) (s : Selection).
Context (Hnodes : getNodes st' (sceneId s) = getNodes st (sceneId s)).

Lemma has_ancestor_in_ext n ids id :
  has_ancestor_in n st' (sceneId s) ids id = has_ancestor_in n st (sceneId s) ids id.
Proof.
  revert id. induction n as [|n IH]; intros id; [done|]. cbn [has_ancestor_in].
  unfold parent_of. rewrite (getNode_ext st st') by done.
  destruct (getNode st (sceneId s) id ≫= node_parentId); [by rewrite IH | done].
Qed.

Lemma has_selected_ancestor_ext id :
  has_selected_ancestor st' s id = has_selected_ancestor st s id.
Proof. unfold has_selected_ancestor. by rewrite Hnodes, has_ancestor_in_ext. Qed.

Lemma is_covered_ext id : is_covered st' s id ↔ is_covered st s id.
Proof. unfold is_covered. by rewrite has_selected_ancestor_ext. Qed.

Lemma getCoveredNodes_ext : getCoveredNodes st' s = getCoveredNodes st s.
Proof.
  unfold getCoveredNodes. rewrite Hnodes. apply list_filter_iff. intros node.
  apply is_covered_ext.
Qed.

Lemma clone_node_ext target folderId uuid node :
  clone_node st' s target folderId uuid node = clone_node st s target folderId uuid node.
Proof.
  destruct node; unfold clone_node, clone_item, clone_parent;
    by rewrite has_selected_ancestor_ext.
Qed.

Lemma clone_items_ext target folderId uuid (l : list Item) :
  clone_item st' s target folderId uuid <$> l = clone_item st s target folderId uuid <$> l.
Proof.
  apply list_fmap_ext. intros ? item ?. unfold clone_item, clone_parent.
  by rewrite has_selected_ancestor_ext.
Qed.

Lemma getCoveredItems_ext : getCoveredItems st' s = getCoveredItems st s.
Proof. by rewrite <- !covered_items_eq; unfold covered_items; rewrite getCoveredNodes_ext. Qed.

Lemma clones_ext target folderId uuid :
  clones st' s target folderId uuid = clones st s target folderId uuid.
Proof.
  unfold clones. rewrite getCoveredNodes_ext. apply list_fmap_ext. intros ? node ?.
  apply clone_node_ext.
Qed.

Lemma root_clones_ext uuid : root_clones st' s uuid = root_clones st s uuid.
Proof.
  unfold root_clones. rewrite getCoveredNodes_ext. f_equal. apply list_filter_iff.
  intros node. by rewrite has_selected_ancestor_ext.
Qed.

Lemma uncovered_ext (l : list Item) :
  filter (λ item, ¬ is_covered st' s (sceneItemId item)) l =
  filter (λ item, ¬ is_covered st s (sceneItemId item)) l.
Proof. apply list_filter_iff. intros item. by rewrite is_covered_ext. Qed.

End Ext.

Lemma moveTo_frame target folderId uuid s (st : State) :
  same_frame st (final (moveTo target folderId uuid s st)).
Proof.
  destruct (moveTo_final target folderId uuid s st) as [[? _]|(_ & _ & ->)]; [done|].
  eapply same_frame_trans; apply update_nodes_frame.
Qed.

Lemma select_ext (st st' : State) items s :
  getNodes st' (sceneId s) = getNodes st (sceneId s) → select st' items s = select st items s.
Proof. intros Hnodes. unfold select, getNodesIds. by rewrite Hnodes. Qed.

Lemma getNodes_ADD_SCENE id name (st : State) scene :
  scene ≠ id → getNodes (ADD_SCENE id name st) scene = getNodes st scene.
Proof. intros Hne. unfold getNodes, ADD_SCENE. cbn. by rewrite dict_get_set_ne. Qed.

(** ** Grouping into a scene made for it *)

Lemma getCoveredItems_elem st s item :
  item ∈ getCoveredItems st s →
  item ∈ Scene_getItems st (sceneId s) ∧ is_covered st s (sceneItemId item).
Proof. unfold getCoveredItems. rewrite list_elem_of_filter, getItems_getNodes. by intros [? ?]. Qed.

Lemma activeScene_Some (st : State) A :
  activeScene st = Some A → is_Some (dict_get (scenes st) A).
Proof.
  unfold activeScene, getScene.
  destruct (dict_get (scenes st) (activeSceneId st)) eqn:Hget; [|done]. intros [= <-]. eauto.
Qed.

Lemma known_not_new (st : State) A new :
  is_Some (dict_get (scenes st) A) → dict_get (scenes st) new = None → A ≠ new.
Proof. intros [model HA] Hnew ->. congruence. Qed.

Section Grouped.
Context `{!@SceneApi Settings}.
Context (st : State) (A new : Scene) (name : string) (items : list string)
  (uuid : string → string).
Context (Hac : acyclic st) (Hactive : is_Some (dict_get (scenes st) A)).
Context (Hnew : dict_get (scenes st) new = None) (Hunshown : unshown new st).

Let st1 : State := ADD_SCENE new name st.
Let sel : Selection :=
  select st (ManyIds items)
    {| sceneId := A; state := {| selectedIds := []; lastSelectedId := "" |} |}.

Lemma grouped_ne : A ≠ new.
Proof. by eapply known_not_new. Qed.

Lemma grouped_nodes : getNodes st1 (sceneId sel) = getNodes st (sceneId sel).
Proof. apply getNodes_ADD_SCENE, grouped_ne. Qed.

Lemma grouped_canCopyTo : canCopyTo st1 sel new None = true.
Proof.
  apply canCopyTo_spec. split_and!; [unfold st1; by rewrite dict_get_ADD_SCENE | done |].
  intros item Hin. pose proof (unshown_ADD_SCENE new name st Hunshown) as Hu. split.
  - apply list_elem_of_omap in Hin as (node & [_ Hin]%list_elem_of_filter & Hitem).
    destruct node as [item'|]; [injection Hitem as ->|done].
    apply item_node in Hin. by apply (proj1 (Forall_forall _ _) (Hu (sceneId sel))).
  - by apply unshown_not_nested.
Qed.

(** The store after the selection moved into the new scene. *)
Let st2 : State := final (group_moveTo uuid A items new st1).

Lemma group_moveTo_moved :
  group_moveTo uuid A items new st1 =
    svc_bind (moveTo new None uuid sel) (λ _, svc_ret tt) st1.
Proof.
  unfold group_moveTo, getSelection. rewrite svc_bind_gets.
  by rewrite (select_ext st st1) by apply grouped_nodes.
Qed.

Lemma group_moveTo_run :
  group_moveTo uuid A items new st1 =
    Run (Normal tt) st2
      ((itemAdded <$> (clone_item st sel new None uuid <$> getCoveredItems st sel)) ++
       (itemRemoved <$> getCoveredItems st sel)).
Proof.
  unfold st2. rewrite group_moveTo_moved. unfold svc_bind.
  rewrite moveTo_run, grouped_canCopyTo by apply grouped_ne.
  cbn [result final trace svc_ret prepend]. rewrite app_nil_r, covered_items_eq.
  by rewrite (getCoveredItems_ext st st1), (clone_items_ext st st1) by apply grouped_nodes.
Qed.

Lemma grouped_items k :
  Scene_getItems st2 k =
    if decide (k = new) then clone_item st sel new None uuid <$> getCoveredItems st sel
    else if decide (k = A)
    then filter (λ item, ¬ is_covered st sel (sceneItemId item)) (Scene_getItems st A)
    else Scene_getItems st k.
Proof.
  unfold st2. rewrite group_moveTo_moved, final_bind_ret.
  rewrite getItems_moved by (apply grouped_ne || apply grouped_canCopyTo).
  pose proof grouped_ne. unfold st1. rewrite !getItems_ADD_SCENE. fold st1.
  rewrite (getCoveredItems_ext st st1), (clone_items_ext st st1), (uncovered_ext st st1)
    by apply grouped_nodes.
  change (sceneId sel) with A. repeat case_decide; rewrite ?app_nil_r; congruence.
Qed.

Lemma grouped_frame : same_frame st1 st2.
Proof.
  unfold st2. rewrite group_moveTo_moved, final_bind_ret. apply moveTo_frame.
Qed.

(** The edges of the nesting after the move. *)
Lemma grouped_nests x y :
  nests st2 x y →
  nests st x y ∨ (x = new ∧ y ∈ sourceId <$> getCoveredItems st sel).
Proof.
  unfold nests. rewrite grouped_items. repeat case_decide; subst.
  - rewrite <- list_fmap_compose. by right.
  - intros (item & -> & [_ ?]%list_elem_of_filter)%list_elem_of_fmap. left.
    by apply list_elem_of_fmap_2.
  - by left.
Qed.

(** The new scene does not nest the scene the selection came from. *)
Lemma grouped_not_nested : ¬ tc (nests st2) new A.
Proof.
  intros Hpath.
  destruct (tc_add_edges_path (nests st) (nests st2) new
              (λ b, b ∈ sourceId <$> getCoveredItems st sel) new A)
    as [Hold|(_ & b & (item & -> & Hin)%list_elem_of_fmap & Hreach)]; [..|done| |].
  - apply grouped_nests.
  - intros b (item & -> & [Hin _]%getCoveredItems_elem)%list_elem_of_fmap Hreach.
    pose proof (proj1 (Forall_forall _ _) (Hunshown (sceneId sel)) item Hin).
    apply rtc_tc in Hreach as [?|?]; [done | by eapply unshown_not_nested].
  - apply tc_rtc, rtc_inv in Hold as [Heq|(z & Hz & _)]; [by destruct grouped_ne|].
    unfold nests in Hz. rewrite getItems_unknown in Hz by by apply dict_get_None.
    by apply elem_of_nil in Hz.
  - apply getCoveredItems_elem in Hin as [Hin _]. apply (Hac A).
    eapply tc_rtc_r; [apply tc_once | done]. by apply list_elem_of_fmap_2.
Qed.

Lemma grouped_accepts itemUuid :
  ∃ item, result (Scene_addSource A new itemUuid st2) = Normal (Some item).
Proof.
  apply addSource_accepts; [|apply not_eq_sym, grouped_ne | apply grouped_not_nested].
  eapply same_frame_is_Some; [apply grouped_frame|].
  unfold st1, ADD_SCENE. cbn. by rewrite dict_get_set_ne by apply not_eq_sym, grouped_ne.
Qed.

End Grouped.

(** * Properties *)

(** A copy clones what the selection covers.  When the copy is
    allowed, [copyTo] answers the ids of the clones of the covered nodes and
    puts into the target scene, in front of its items, one clone for every
    item the selection covers, in the order of the items, each showing the
    source of its item with the settings of its item; the items of the other
    scenes stay, and one [itemAdded] is sent for every clone, in order. *)
Theorem copyTo_spec (st : State) (s : Selection) (target : Scene)
    (folderId : option string) (uuid : string → string) :
  canCopyTo st s target folderId = true →
  let r := copyTo target folderId uuid s st in
  let new := clone_item st s target folderId uuid <$> getCoveredItems st s in
  result r = Normal (uuid <$> (node_id <$> getCoveredNodes st s)) ∧
  Scene_getItems (final r) target = new ++ Scene_getItems st target ∧
  (∀ other, other ≠ target → Scene_getItems (final r) other = Scene_getItems st other) ∧
  item_content <$> new = item_content <$> getCoveredItems st s ∧
  trace r = itemAdded <$> new.
Proof.
  intros Hcan r new. subst r new. rewrite copyTo_run, Hcan, covered_items_eq.
  pose proof (proj1 (canCopyTo_spec _ _ _ _) Hcan) as [Htarget _].
  cbn [result final trace]. split_and!; [|..|apply clone_content|done].
  - unfold clones. rewrite <- !list_fmap_compose. f_equal. apply list_fmap_ext.
    intros ? node ?. apply node_id_clone.
  - by rewrite getItems_INSERT, decide_True, covered_items_eq.
  - intros other Hother. by rewrite getItems_INSERT, decide_False.
Qed.

(** C20: No copy and no move closes a cycle.  When an item the selection
    covers shows the target scene, or a scene that nests the target scene,
    [copyTo] changes nothing, sends nothing and answers no id, and so does
    [moveTo] to another scene: nothing is copied and nothing is removed. *)
Theorem copyTo_refuses_cycle (st : State) (s : Selection) (target : Scene)
    (folderId : option string) (uuid : string → string) (item : Item) :
  item ∈ getCoveredItems st s →
  sourceId item = target ∨ tc (nests st) (sourceId item) target →
  copyTo target folderId uuid s st = Run (Normal []) st [] ∧
  (sceneId s ≠ target → moveTo target folderId uuid s st = Run (Normal []) st []).
Proof.
  intros Hin Hcycle.
  assert (canCopyTo st s target folderId = false) as Hcan.
  { apply not_true_is_false. intros (_ & _ & Hitems)%canCopyTo_spec.
    rewrite covered_items_eq in Hitems. destruct (Hitems item Hin). tauto. }
  split; [by rewrite copyTo_run, Hcan|]. intros Hne. by rewrite moveTo_run, Hcan.
Qed.

(** A move to another scene loses and invents nothing.  Whether the
    move is made or refused, the two scenes together show afterwards what
    they showed before: the same sources with the same settings, as many
    times. *)
Theorem moveTo_conserves (st : State) (s : Selection) (target : Scene)
    (folderId : option string) (uuid : string → string) :
  sceneId s ≠ target →
  let st' := final (moveTo target folderId uuid s st) in
  item_content <$> (Scene_getItems st' target ++ Scene_getItems st' (sceneId s)) ≡ₚ
  item_content <$> (Scene_getItems st target ++ Scene_getItems st (sceneId s)).
Proof.
  intros Hne st'. subst st'. destruct (canCopyTo st s target folderId) eqn:Hcan;
    [|by rewrite moveTo_run, Hcan].
  rewrite !getItems_moved, decide_True, decide_False, decide_True by done.
  rewrite !fmap_app, clone_content, <- app_assoc.
  rewrite (Permutation_app_comm (item_content <$> getCoveredItems st s)), <- app_assoc.
  f_equiv. rewrite <- fmap_app. f_equiv. unfold getCoveredItems.
  rewrite <- getItems_getNodes, Permutation_app_comm.
  apply (filter_app_complement (λ item, is_covered st s (sceneItemId item))).
Qed.

(** C13: Copies and moves keep the scenes forests.  With ids for the
    clones that are new in the target scene and differ for different nodes,
    a scene whose nodes are well formed before [copyTo] or [moveTo] has well
    formed nodes after it, the scene of the selection and the target scene
    included: no id occurs twice, no folder is below itself, every parent is
    a folder of the scene, and every folder lists exactly its children. *)
Theorem moving_keeps_forests (st : State) (s : Selection) (target : Scene)
    (folderId : option string) (uuid : string → string) (scene : Scene) :
  Inj (=) (=) uuid → (∀ id, uuid id ∉ getNodesIds st target) →
  nodes_wf st (sceneId s) → nodes_wf st target → nodes_wf st scene →
  nodes_wf (final (copyTo target folderId uuid s st)) scene ∧
  nodes_wf (final (moveTo target folderId uuid s st)) scene.
Proof. intros. split; [by apply copyTo_wf | by apply moveTo_wf]. Qed.

(** Copies and moves keep the store well formed and free of cycles.
    After [copyTo] and after [moveTo], made or refused, the store of the
    scenes satisfies its invariant and no scene nests itself, when that was
    so before. *)
Theorem moving_keeps_store (st : State) (s : Selection) (target : Scene)
    (folderId : option string) (uuid : string → string) :
  scenes_inv st → acyclic st →
  (scenes_inv (final (copyTo target folderId uuid s st)) ∧
   acyclic (final (copyTo target folderId uuid s st))) ∧
  (scenes_inv (final (moveTo target folderId uuid s st)) ∧
   acyclic (final (moveTo target folderId uuid s st))).
Proof.
  intros Hinv Hac. split_and!;
    [by apply copyTo_inv | by apply copyTo_acyclic | by apply moveTo_inv |
     by apply moveTo_acyclic].
Qed.

Section Window.
Context `{!@SceneApi Settings}.
Context (Scene_setName : Scene → string → M unit) (cloneId : string → string).

Local Abbreviation window_submit := (NameScene.submit Scene_setName (group_moveTo cloneId)).

Lemma submit_grouping_run options uniqueId uuid itemUuid
    (s : @NameScene.NameSceneState Settings) A items :
  NameScene.name s ≠ "" → NameScene.given (NameScene.rename options) = false →
  NameScene.given (NameScene.sceneToDuplicate options) = false →
  NameScene.itemsToGroup options = Some items →
  let new := "scene_" +:+ uniqueId in
  let st1 := ADD_SCENE new (NameScene.name s) (NameScene.store s) in
  let st2 := final (group_moveTo cloneId A items new st1) in
  acyclic (NameScene.store s) → activeScene (NameScene.store s) = Some A →
  dict_get (scenes (NameScene.store s)) new = None → unshown new (NameScene.store s) →
  ∃ item,
    result (Scene_addSource A new itemUuid st2) = Normal (Some item) ∧
    window_submit options uniqueId uuid itemUuid s =
      Run (Normal tt)
        (NameScene.set_store (final (Scene_addSource A new itemUuid st2)) s)
        ((NameScene.scenesService <$>
            ([SceneFactory_create new; sourcesService_addSource new (NameScene.name s);
              sceneAdded (Some (new_scene new (NameScene.name s)))] ++
             trace (group_moveTo cloneId A items new st1) ++ [itemAdded item])) ++
         [NameScene.selectionService_select (sceneItemId item);
          NameScene.SceneItem_setContentCrop A (sceneItemId item);
          NameScene.windowsService_closeChildWindow]).
Proof.
  intros Hname Hrename Hdup Hgroup new st1 st2 Hac Hactive Hfresh Hunshown. subst st1 st2.
  pose proof (activeScene_Some _ _ Hactive) as HA.
  destruct (grouped_accepts (NameScene.store s) A new (NameScene.name s) items cloneId
              Hac HA Hfresh Hunshown itemUuid) as [item Hitem].
  exists item. split; [done|].
  unfold NameScene.submit.
  rewrite !svc_bind_gets, Hrename, Hgroup, Hactive, (proj2 (truthy_true _) Hname).
  cbn [negb].
  pose proof (createScene_plain_run (NameScene.name s)
    {| duplicateSourcesFromScene := NameScene.sceneToDuplicate options;
       Scenes.sceneId := None; makeActive := false |} uniqueId uuid (NameScene.store s) Hdup)
    as Hrun.
  cbv zeta in Hrun. cbn [makeActive] in Hrun. rewrite app_nil_r in Hrun.
  change (createScene_id _ uniqueId) with new in Hrun.
  rewrite (getSceneByName_ADD_SCENE new) in Hrun by done.
  rewrite (NameScene.scenes_bind_run _ _ _ _ _ _ Hrun).
  unfold NameScene.submit_group.
  autorewrite with svc_rw.
  pose proof (group_moveTo_run (NameScene.store s) A new (NameScene.name s) items cloneId
                HA Hfresh Hunshown) as Hmove.
  rewrite (NameScene.scenes_bind_run _ _ (NameScene.set_store _ s) _ _ _ Hmove).
  pose proof (addSource_added _ _ _ _ _ Hitem) as (_ & _ & _ & _ & _ & Htrace).
  set (st2 := final (group_moveTo _ _ _ _ _)) in *.
  assert (Scene_addSource A new itemUuid st2 =
          Run (Normal (Some item)) (final (Scene_addSource A new itemUuid st2))
            [itemAdded item]) as Hadd.
  { destruct (Scene_addSource A new itemUuid st2); cbn in *; by subst. }
  autorewrite with svc_rw.
  rewrite (NameScene.scenes_bind_run _ _ (NameScene.set_store st2 s) _ _ _ Hadd).
  rewrite Hmove. svc_simp. cbn [fmap list_fmap app].
  rewrite !fmap_app, <- !app_assoc. unfold svc_emit. rewrite prepend_Run. f_equal.
  cbn [app]. by rewrite <- !app_assoc.
Qed.

(** C12: Grouping the selected items into a new scene.  With a name, no
    scene to rename or duplicate and a list of items to group, [submit] on a
    store that is well formed and free of cycles, whose active scene is [A],
    under a new scene id that no item shows, ends normally: the new scene
    holds the clones of the items the selection covers, in their order and
    with their sources and settings; the active scene keeps the items that
    were not covered and gains, in front, one item that shows the new scene;
    the store stays well formed and free of cycles, and the window closes
    last. *)
Theorem submit_groups options uniqueId uuid itemUuid
    (s : @NameScene.NameSceneState Settings) A items :
  NameScene.name s ≠ "" → NameScene.given (NameScene.rename options) = false →
  NameScene.given (NameScene.sceneToDuplicate options) = false →
  NameScene.itemsToGroup options = Some items →
  let st := NameScene.store s in
  let new := "scene_" +:+ uniqueId in
  let sel :=
    select st (ManyIds items)
      {| sceneId := A; state := {| selectedIds := []; lastSelectedId := "" |} |} in
  scenes_inv st → acyclic st → activeScene st = Some A →
  dict_get (scenes st) new = None → unshown new st →
  let r := window_submit options uniqueId uuid itemUuid s in
  result r = Normal tt ∧
  Scene_getItems (NameScene.store (final r)) new =
    clone_item st sel new None cloneId <$> getCoveredItems st sel ∧
  (∃ item, sceneItemId item = itemUuid ∧ sourceId item = new ∧
     Scene_getItems (NameScene.store (final r)) A =
       item :: filter (λ item, ¬ is_covered st sel (sceneItemId item)) (Scene_getItems st A)) ∧
  scenes_inv (NameScene.store (final r)) ∧ acyclic (NameScene.store (final r)) ∧
  last (trace r) = Some NameScene.windowsService_closeChildWindow.
Proof.
  intros Hname Hrename Hdup Hgroup st new sel Hinv Hac Hactive Hfresh Hunshown r.
  destruct (submit_grouping_run options uniqueId uuid itemUuid s A items)
    as (item & Hitem & Hrun); [done..|].
  subst r. rewrite Hrun. cbn [result final trace NameScene.store NameScene.set_store].
  pose proof (activeScene_Some _ _ Hactive) as HA.
  pose proof (known_not_new st A new HA Hfresh) as Hne.
  pose proof (grouped_items st A new (NameScene.name s) items cloneId HA Hfresh Hunshown)
    as Hitems.
  destruct (addSource_added _ _ _ _ _ Hitem) as (Hid & Hsrc & _ & Hhere & Hother & _).
  split_and!; [done| | |..].
  - rewrite Hother, Hitems, decide_True by done. done.
  - exists item. split_and!; [done..|].
    by rewrite Hhere, Hitems, decide_False, decide_True.
  - apply addSource_inv, group_moveTo_inv, ADD_SCENE_inv; done.
  - apply addSource_acyclic, group_moveTo_acyclic, ADD_SCENE_acyclic; done.
  - by rewrite last_app.
Qed.

End Window.

(** * The properties on the test data *)

(** The scene of the comment of the interface, and an empty scene beside
    it. *)
Definition doc_scenes : State :=
  ADD_SCENE "other" "Other" doc_scene.

Definition copy_id (id : string) : string := "copy of " +:+ id.

(** A scene whose only item shows the other scene. *)
Definition nesting_scenes : State :=
  ADD_SCENE "other" "Other"
    (scene_of
       [ItemNode
          {| sceneItemId := "Item1"; item_sceneId := "scene"; sourceId := "other";
             item_parentId := None; item_settings := Transform.default_settings |}]).

Definition nesting_selection : Selection :=
  select nesting_scenes (OneId "Item1") nothing_selected.

(** The window opened to group the first folder and an item of the scene of
    the comment. *)
Definition grouping_options : NameScene.NameSceneOptions :=
  {| NameScene.sceneToDuplicate := None; NameScene.rename := None;
     NameScene.itemsToGroup := Some ["Folder1"; "Item3"] |}.

Definition group_window : @NameScene.NameSceneState Settings :=
  {| NameScene.name := "Group"; NameScene.error := ""; NameScene.store := doc_scene |}.

Lemma copy_id_inj : Inj (=) (=) copy_id.
Proof. intros a b Heq. by injection Heq. Qed.

Lemma doc_scene_inv : scenes_inv doc_scene.
Proof. apply scene_of_inv. by repeat constructor. Qed.

Lemma doc_scene_acyclic : acyclic doc_scene.
Proof. apply scene_of_acyclic. by repeat constructor. Qed.

Lemma doc_scenes_inv : scenes_inv doc_scenes.
Proof. apply ADD_SCENE_inv; [done | by vm_compute | apply doc_scene_inv]. Qed.

Lemma doc_scenes_acyclic : acyclic doc_scenes.
Proof. apply ADD_SCENE_acyclic, doc_scene_acyclic. Qed.

Lemma doc_scenes_wf scene : nodes_wf doc_scenes scene.
Proof.
  destruct (decide (scene = "other")) as [->|Hne]; [by apply nodes_wf_check_spec|].
  eapply nodes_wf_ext; [by apply getNodes_ADD_SCENE|].
  destruct (decide (scene = "scene")) as [->|Hne']; [apply doc_scene_wf_selection|].
  apply nodes_wf_empty. unfold getNodes, doc_scene, scene_of. cbn [scenes].
  by rewrite dict_get_set_ne.
Qed.

(** The first folder and an item are grouped: the new scene gets the clones
    of the item of the folder and of the item, the scene keeps the other
    two items behind the item that shows the new scene. *)
Example grouping_example :
  let r := NameScene.submit (H := SceneNodesApi Transform.default_settings)
             (λ _ _, svc_ret tt) (group_moveTo copy_id) grouping_options "7"
             (λ _, "") "group item" group_window in
  result r = Normal tt ∧
  getNodesIds (NameScene.store (final r)) "scene_7" =
    ["copy of Folder1"; "copy of Item1"; "copy of Folder2"; "copy of Item3"] ∧
  getNodesIds (NameScene.store (final r)) "scene" =
    ["group item"; "Folder3"; "Item3 of Folder3"; "Item4"] ∧
  nodes_wf_check (NameScene.store (final r)) "scene_7" = true ∧
  nodes_wf_check (NameScene.store (final r)) "scene" = true.
Proof. by vm_compute. Qed.

Lemma copyTo_spec_witness :
  let r := copyTo "other" None copy_id doc_selection doc_scenes in
  let new :=
    clone_item doc_scenes doc_selection "other" None copy_id <$>
      getCoveredItems doc_scenes doc_selection in
  result r = Normal (copy_id <$> (node_id <$> getCoveredNodes doc_scenes doc_selection)) ∧
  Scene_getItems (final r) "other" = new ++ Scene_getItems doc_scenes "other" ∧
  (∀ other, other ≠ "other" →
     Scene_getItems (final r) other = Scene_getItems doc_scenes other) ∧
  item_content <$> new = item_content <$> getCoveredItems doc_scenes doc_selection ∧
  trace r = itemAdded <$> new.
Proof. by apply copyTo_spec. Defined.

Lemma copyTo_refuses_cycle_witness :
  copyTo "other" None copy_id nesting_selection nesting_scenes =
    Run (Normal []) nesting_scenes [] ∧
  (sceneId nesting_selection ≠ "other" →
   moveTo "other" None copy_id nesting_selection nesting_scenes =
     Run (Normal []) nesting_scenes []).
Proof.
  apply (copyTo_refuses_cycle _ _ _ _ _
           {| sceneItemId := "Item1"; item_sceneId := "scene"; sourceId := "other";
              item_parentId := None; item_settings := Transform.default_settings |});
    [apply list_elem_of_here | by left].
Defined.

Lemma moveTo_conserves_witness :
  let st' := final (moveTo "other" None copy_id doc_selection doc_scenes) in
  item_content <$> (Scene_getItems st' "other" ++ Scene_getItems st' "scene") ≡ₚ
  item_content <$> (Scene_getItems doc_scenes "other" ++ Scene_getItems doc_scenes "scene").
Proof. by apply (moveTo_conserves doc_scenes doc_selection "other" None copy_id). Defined.

Lemma moving_keeps_forests_witness :
  nodes_wf (final (copyTo "other" None copy_id doc_selection doc_scenes)) "other" ∧
  nodes_wf (final (moveTo "other" None copy_id doc_selection doc_scenes)) "other".
Proof.
  apply moving_keeps_forests;
    [apply copy_id_inj | by intros id ?%elem_of_nil | apply doc_scenes_wf..].
Defined.

Lemma moving_keeps_store_witness :
  (scenes_inv (final (copyTo "other" None copy_id doc_selection doc_scenes)) ∧
   acyclic (final (copyTo "other" None copy_id doc_selection doc_scenes))) ∧
  (scenes_inv (final (moveTo "other" None copy_id doc_selection doc_scenes)) ∧
   acyclic (final (moveTo "other" None copy_id doc_selection doc_scenes))).
Proof. apply moving_keeps_store; [apply doc_scenes_inv | apply doc_scenes_acyclic]. Defined.

Lemma submit_groups_witness :
  let sel := select doc_scene (ManyIds ["Folder1"; "Item3"]) nothing_selected in
  let r := NameScene.submit (H := SceneNodesApi Transform.default_settings)
             (λ _ _, svc_ret tt) (group_moveTo copy_id) grouping_options "7"
             (λ _, "") "group item" group_window in
  result r = Normal tt ∧
  Scene_getItems (NameScene.store (final r)) "scene_7" =
    clone_item doc_scene sel "scene_7" None copy_id <$> getCoveredItems doc_scene sel ∧
  (∃ item, sceneItemId item = "group item" ∧ sourceId item = "scene_7" ∧
     Scene_getItems (NameScene.store (final r)) "scene" =
       item :: filter (λ item, ¬ is_covered doc_scene sel (sceneItemId item))
                 (Scene_getItems doc_scene "scene")) ∧
  scenes_inv (NameScene.store (final r)) ∧ acyclic (NameScene.store (final r)) ∧
  last (trace r) = Some NameScene.windowsService_closeChildWindow.
Proof.
  apply (submit_groups (H := SceneNodesApi Transform.default_settings) (λ _ _, svc_ret tt)
           copy_id grouping_options "7" (λ _, "") "group item" group_window "scene"
           ["Folder1"; "Item3"]);
    [done..|apply doc_scene_inv|apply doc_scene_acyclic|done|done|].
  intros k.
  change (NameScene.store group_window) with (scene_of (doc_nodes Transform.default_settings)).
  rewrite scene_of_items. case_decide; by repeat constructor.
Defined.

End Grouping.
