(* ===== verification/SelectionApi.v ===== *)
(** * SelectionApi: the interface of a selection and what it promises

    [ISelection] is declared in
    [src/app/services/selection/selection-api.ts] (lines 16-157): the
    operations a client of a selection may call.  It is the class
    [ISelection] of this file, one field for each method of the interface
    in the order of the source.  A method that answers the selection itself
    ([add], [select], [deselect], [reset], [invert], [selectAll]) answers the
    new selection; a method that reads the nodes of the scene takes the store
    of [Scenes.v]; a method that changes the scene ([copyTo], [moveTo],
    [placeAfter], [placeBefore], [setParent]) is a computation of the scenes
    service.  The size of a source and the ids of the clones, which the code
    reads from the sources service and from [uuid()], are arguments.  The
    actions of [ISceneItemActions], which the interface extends and which
    forward to each item, are not among the sources.

    What the comments of the interface and the specification (sections 4.3
    and 8) promise of the operations that change the selection is the class
    [ISelectionLaws]: the selected ids, read as a set, change as [apply_set]
    of [Selection.v] says, the scene of a selection never changes, and the
    size and the test of membership agree with the list of ids.

    [Selection.v], [Ordering.v] and [Grouping.v] implement the interface
    ([selection_api]) and keep its promises ([selection_laws]).  The
    theorems of the section [Client] hold for every implementation that
    keeps them. *)

From Stdlib Require Import ZArith QArith.
From stdpp Require Import base tactics option list strings relations gmap.
From S2P Require Import Prelude JsObject Scenes Transform Nodes Selection Ordering Grouping.

Set Warnings "-clear-no-such-hyp".

Local Open Scope string_scope.
Local Open Scope list_scope.
Local Open Scope nat_scope.

Module SelectionApi.

Local Abbreviation State := Selection.State.
Local Abbreviation Node := Selection.Node.
Local Abbreviation Item := Selection.Item.
Local Abbreviation M := (@Scenes.M Selection.Settings).

(** [ISelection] *)
Class ISelection (T : Type) : Type := {
  add : State → Selection.TNodesList → T → T;
  select : State → Selection.TNodesList → T → T;
  deselect : State → Selection.TNodesList → T → T;
  reset : State → T → T;
  invert : State → T → T;
  selectAll : State → T → T;
  clone : T → T;
  getItems : State → T → list Item;
  getFolders : State → T → list ISceneItemFolder;
  getVisualItems : State → T → list Item;
  getIds : T → list string;
  getInvertedIds : State → T → list string;
  getInverted : State → T → list Node;
  getBoundingRect : (string → Q * Q) → State → T → option Selection.IRectangle;
  getLastSelected : State → T → option Node;
  getLastSelectedId : T → string;
  getSize : T → nat;
  isSelected : T → string → bool;
  isSceneItem : State → T → bool;
  isSceneFolder : State → T → bool;
  copyTo : Scene → option string → (string → string) → T → M (list string);
  moveTo : Scene → option string → (string → string) → T → M (list string);
  placeAfter : string → T → M unit;
  placeBefore : string → T → M unit;
  setParent : string → T → M unit;
  getRootNodes : State → T → list Node;
  getSources : State → T → list string;
}.

(** [ISelectionServiceApi]: the selection of the active scene, with the
    same operations. *)
Definition ISelectionServiceApi (T : Type) : Type := ISelection T.

(** * Specification *)

(** The selected ids as a set. *)
Definition ids `{ISelection T} (s : T) : gset string := list_to_set (getIds s).

(** The operations that change the selection, by name. *)
Definition run `{ISelection T} (st : State) (op : Selection.Op) (s : T) : T :=
  match op with
  | Selection.Select items => select st items s
  | Selection.Add items => add st items s
  | Selection.Deselect items => deselect st items s
  | Selection.Reset => reset st s
  | Selection.Invert => invert st s
  | Selection.SelectAll => selectAll st s
  end.

(** What an implementation promises. *)
Class ISelectionLaws (T : Type) `{!ISelection T} : Type := {
  (** the scene of the selection *)
  scene : T → Scene;
  scene_kept st op s : scene (run st op s) = scene s;
  (** the selection after an operation, as a set of nodes of the scene *)
  ids_run st op s :
    ids (run st op s) =
      Selection.apply_set st (scene s) op (ids s) ∩ Selection.scene_set st (scene s);
  (** no id is selected twice *)
  ids_once st op s : NoDup (getIds (run st op s));
  (** a clone has the selection and the scene of the original *)
  clone_same s : getIds (clone s) = getIds s ∧ scene (clone s) = scene s;
  (** the queries agree with the list of ids *)
  size_length s : getSize s = length (getIds s);
  isSelected_elem s id : isSelected s id = true ↔ id ∈ getIds s;
  inverted_ids st s :
    list_to_set (getInvertedIds st s) = Selection.scene_set st (scene s) ∖ ids s;
}.

(** * The implementation *)

#[export] Instance selection_api : ISelection Selection.Selection := {|
  add := Selection.add;
  select := Selection.select;
  deselect := Selection.deselect;
  reset := Selection.reset;
  invert := Selection.invert;
  selectAll := Selection.selectAll;
  clone := Selection.clone;
  getItems := Selection.getItems;
  getFolders := Selection.getFolders;
  getVisualItems := Selection.getVisualItems;
  getIds := Selection.getIds;
  getInvertedIds := Selection.getInvertedIds;
  getInverted := Selection.getInverted;
  getBoundingRect := Selection.getBoundingRect;
  getLastSelected := Selection.getLastSelected;
  getLastSelectedId := Selection.getLastSelectedId;
  getSize := Selection.getSize;
  isSelected := Selection.isSelected;
  isSceneItem := Selection.isSceneItem;
  isSceneFolder := Selection.isSceneFolder;
  copyTo := Grouping.copyTo;
  moveTo := Grouping.moveTo;
  placeAfter := Ordering.Bulk.placeAfter;
  placeBefore := Ordering.Bulk.placeBefore;
  setParent := Selection.setParent;
  getRootNodes := Selection.getRootNodes;
  getSources := Selection.getSources;
|}.

(** * Lemmas *)

Lemma run_apply st op (s : Selection.Selection) : run st op s = Selection.apply st op s.
Proof. by destruct op. Qed.

#[export, refine] Instance selection_laws : ISelectionLaws Selection.Selection := {|
  scene := Selection.sceneId;
|}.
Proof.
  - intros st op s. rewrite run_apply. apply Selection.apply_sceneId.
  - intros st op s. rewrite run_apply. apply Selection.ids_set_apply.
  - intros st op s. rewrite run_apply. apply Selection.apply_wf.
  - done.
  - done.
  - intros s id. apply bool_decide_eq_true.
  - intros st s. apply Selection.list_to_set_filter_not.
Defined.

(** * Properties *)

Section Client.
Context `{ISelectionLaws T}.
Implicit Types (s : T) (st : State).

Lemma scene_runs st ops s : scene (foldl (λ s op, run st op s) s ops) = scene s.
Proof.
  revert s. induction ops as [|op ops IH]; intros s; [done|]. cbn.
  by rewrite IH, scene_kept.
Qed.

Lemma ids_empty_size s : ids s = ∅ → getSize s = 0.
Proof.
  unfold ids. rewrite size_length. destruct (getIds s) as [|id l]; [done|].
  cbn. set_solver.
Qed.

(** Whatever implements the interface and keeps its promises refines
    the sets.  After any sequence of operations the selected ids are, as a
    set, what the operations make of sets, inside the nodes of the scene of
    the selection. *)
Theorem interface_refines_sets st (ops : list Selection.Op) s :
  ids (foldl (λ s op, run st op s) s ops) ∩ Selection.scene_set st (scene s) =
  foldl (λ X op, Selection.apply_set st (scene s) op X ∩ Selection.scene_set st (scene s))
    (ids s ∩ Selection.scene_set st (scene s)) ops.
Proof.
  revert s. induction ops as [|op ops IH]; intros s; [done|]. cbn [foldl].
  rewrite <- (scene_kept st op s), IH, scene_kept, ids_run. f_equal.
  destruct op; cbn [Selection.apply_set]; set_solver.
Qed.

(** Inverting everything selects nothing, and inverting twice gives
    back the selected nodes of the scene.  For every implementation of the
    interface that keeps its promises, [invert] after [selectAll] leaves a
    selection of size 0, and two [invert]s leave selected exactly the nodes
    of the scene that were selected. *)
Theorem interface_invert st s :
  getSize (invert st (selectAll st s)) = 0 ∧
  ids (invert st (invert st s)) = ids s ∩ Selection.scene_set st (scene s).
Proof.
  pose proof (ids_run st Selection.Invert) as Hinvert.
  pose proof (ids_run st Selection.SelectAll s) as Hall.
  pose proof (scene_kept st Selection.Invert s) as Hscene.
  pose proof (scene_kept st Selection.SelectAll s) as Hscene'.
  cbn [run Selection.apply_set] in *. split.
  - apply ids_empty_size. rewrite Hinvert, Hscene', Hall. set_solver.
  - rewrite !Hinvert, Hscene. apply set_eq. intros id.
    rewrite !elem_of_intersection, !elem_of_difference, !elem_of_intersection,
      elem_of_difference.
    destruct (decide (id ∈ ids s)); tauto.
Qed.

End Client.

(** The interface at the selection of the comment of [getRootNodes]. *)
Lemma interface_invert_witness :
  getSize (invert Selection.doc_scene (selectAll Selection.doc_scene Selection.doc_selection))
    = 0 ∧
  ids (invert Selection.doc_scene (invert Selection.doc_scene Selection.doc_selection)) =
    ids Selection.doc_selection ∩ Selection.scene_set Selection.doc_scene "scene".
Proof.
  apply (@interface_invert Selection.Selection selection_api selection_laws
           Selection.doc_scene Selection.doc_selection).
Defined.

End SelectionApi.
