(* ===== verification/ApiTypes.v ===== *)
(** * ApiTypes: the declared interfaces of the notifications and audio services

    Two documents among the sources declare interfaces and nothing else:
    the API of the notifications service
    ([src/app/services/notifications/notifications-api.ts], lines 6-60) and
    the API of the audio service ([src/app/components/TopNav.vue.ts], lines
    355-407).  The services behind them are not among the sources and the
    specification does not describe them, so this file holds the types as
    they are declared and no behaviour.

    An optional field ([code?: ...]) is an [option]; an interface that
    extends another has the fields of both, and the function that forgets
    the fields it adds ([INotification_options], [IAudioSourceApi_model]);
    an interface of methods is a class over the state of the service that
    implements it, a method being a computation in the service monad of
    [Prelude.v].  Numbers that count or are instants are integers, the
    numbers of a fader and of a volmeter are rationals.  The types the
    documents import ([IJsonRpcRequest], [any], [obs.EMonitoringType],
    [Subscription]) are parameters.

    [Overlays.v] pushes notifications and [Settings.v] reads the devices
    of the audio service: [pushed_options] reads what the component pushes
    as options of the interface, and [IAudioDevice] is the type of
    [Settings.v]. *)

From Stdlib Require Import ZArith QArith.
From stdpp Require Import base tactics option list strings.
From S2P Require Import Prelude JsObject Overlays Settings.

Local Open Scope string_scope.
Local Open Scope list_scope.

(** * The notifications service *)

Module NotificationsApi.

Section Types.
Context {IJsonRpcRequest Any : Type}.

(** [INotificationsSettings] *)
Record INotificationsSettings : Type := mkNotificationsSettings {
  enabled : bool;
  settings_playSound : bool;
}.

(** [INotificationOptions] *)
Record INotificationOptions : Type := mkNotificationOptions {
  options_message : string;
  options_code : option string;
  options_unread : option bool;
  options_type : option BrowseOverlays.ENotificationType;
  options_action : option IJsonRpcRequest;
  options_playSound : option bool;
  options_data : option Any;
  (** the life time of the notification in ms, -1 for infinity *)
  options_lifeTime : option Z;
  options_showTime : option bool;
}.

(** [INotification] *)
Record INotification : Type := mkNotification {
  id : Z;
  type : BrowseOverlays.ENotificationType;
  message : string;
  unread : bool;
  date : Z;
  playSound : bool;
  lifeTime : Z;
  showTime : bool;
  code : option string;
  action : option IJsonRpcRequest;
  data : option Any;
}.

(** [INotification extends INotificationOptions]: a notification read as
    the options it was made from. *)
Definition INotification_options (n : INotification) : INotificationOptions :=
  {| options_message := message n; options_code := code n;
     options_unread := Some (unread n); options_type := Some (type n);
     options_action := action n; options_playSound := Some (playSound n);
     options_data := data n; options_lifeTime := Some (lifeTime n);
     options_showTime := Some (showTime n) |}.

(** [INotificationsServiceApi]: the two observables are effects of the
    trace. *)
Inductive NotificationsEvent : Type :=
| notificationPushed (n : INotification)
| notificationRead (ids : list Z).

Class INotificationsServiceApi (S : Type) : Type := {
  push : INotificationOptions → svc S NotificationsEvent INotification;
  getNotification : Z → S → option INotification;
  getAll : option BrowseOverlays.ENotificationType → S → list INotification;
  getUnread : option BrowseOverlays.ENotificationType → S → list INotification;
  getRead : option BrowseOverlays.ENotificationType → S → list INotification;
  getSettings : S → INotificationsSettings;
  getSettingsFormData : S → list Settings.IFormInput;
  setSettings : option bool → option bool → svc S NotificationsEvent unit;
  restoreDefaultSettings : svc S NotificationsEvent unit;
  markAsRead : Z → svc S NotificationsEvent unit;
  markAllAsRead : svc S NotificationsEvent unit;
  applyAction : Z → svc S NotificationsEvent unit;
  showNotifications : svc S NotificationsEvent unit;
}.

End Types.

Arguments INotificationOptions : clear implicits.
Arguments INotification : clear implicits.
Arguments NotificationsEvent : clear implicits.
Arguments INotificationsServiceApi : clear implicits.

(** What [BrowseOverlays.installWidgets] hands to [push], as options of the
    interface: the request of the action is its method and its arguments. *)
Definition pushed_options (n : BrowseOverlays.INotificationOptions) :
    INotificationOptions (string * list string) Empty_set :=
  {| options_message := BrowseOverlays.message n; options_code := None;
     options_unread := None; options_type := Some (BrowseOverlays.type n);
     options_action := Some (BrowseOverlays.action_method n, BrowseOverlays.action_args n);
     options_playSound := None; options_data := None;
     options_lifeTime := Some (BrowseOverlays.lifeTime n);
     options_showTime := Some (BrowseOverlays.showTime n) |}.

(** * Lemmas *)

(** Nothing of what the component gives is lost in the options. *)
Lemma pushed_options_inj : Inj (=) (=) pushed_options.
Proof. intros [] [] Heq. injection Heq. by intros; subst. Qed.

(** Read as options, a notification has every field the interface makes
    required. *)
Lemma INotification_options_required {R A} (n : INotification R A) :
  let o := INotification_options n in
  is_Some (options_unread o) ∧ is_Some (options_type o) ∧ is_Some (options_playSound o) ∧
  is_Some (options_lifeTime o) ∧ is_Some (options_showTime o).
Proof. cbn. by repeat split. Qed.

(** The notification of a finished installation is a success that lives
    eight seconds; it has no code and leaves the sound to the settings. *)
Example widgets_installed_options :
  let o := pushed_options BrowseOverlays.widgets_installed in
  options_type o = Some BrowseOverlays.SUCCESS ∧ options_lifeTime o = Some 8000%Z ∧
  options_code o = None ∧ options_playSound o = None.
Proof. done. Qed.

End NotificationsApi.

(** * The audio service *)

Module AudioApi.

Section Types.
Context {EMonitoringType Subscription : Type}.

(** [IFader] *)
Record IFader : Type := mkFader {
  db : Q;
  deflection : Q;
  mul : Q;
}.

(** [IVolmeter] *)
Record IVolmeter : Type := mkVolmeter {
  magnitude : list Q;
  peak : list Q;
  inputPeak : list Q;
}.

(** [IAudioSource] *)
Record IAudioSource : Type := mkAudioSource {
  sourceId : string;
  fader : IFader;
  audioMixers : Z;
  monitoringType : EMonitoringType;
  forceMono : bool;
  syncOffset : Z;
  muted : bool;
  resourceId : string;
}.

(** [IAudioSourcesState] *)
Record IAudioSourcesState : Type := mkAudioSourcesState {
  audioSources : Dictionary IAudioSource;
}.

(** [Partial<IAudioSource>], the patch of [setSettings] *)
Record IAudioSourcePatch : Type := mkAudioSourcePatch {
  patch_fader : option IFader;
  patch_audioMixers : option Z;
  patch_monitoringType : option EMonitoringType;
  patch_forceMono : option bool;
  patch_syncOffset : option Z;
  patch_muted : option bool;
}.

(** [IAudioSourceApi extends IAudioSource]: the source of the id, in the
    state of the service. *)
Class IAudioSourceApi (S : Type) : Type := {
  IAudioSourceApi_model : string → S → option IAudioSource;
  setDeflection : string → Q → svc S Empty_set unit;
  setMul : string → Q → svc S Empty_set unit;
  setMuted : string → bool → svc S Empty_set unit;
  subscribeVolmeter :
    string → (IVolmeter → svc S Empty_set unit) → svc S Empty_set Subscription;
  getSettingsForm : string → S → list Settings.IFormInput;
  setSettings : string → IAudioSourcePatch → svc S Empty_set unit;
  getModel : string → S → option (IAudioSource * Settings.ISource);
}.

(** [IAudioServiceApi]: the sources are answered by their ids. *)
Class IAudioServiceApi (S : Type) : Type := {
  getDevices : S → list Settings.IAudioDevice;
  getSource : string → S → option string;
  getSources : S → list string;
  getSourcesForScene : string → S → list string;
  getSourcesForCurrentScene : S → list string;
}.

End Types.

Arguments IAudioSource : clear implicits.
Arguments IAudioSourcesState : clear implicits.
Arguments IAudioSourcePatch : clear implicits.
Arguments IAudioSourceApi : clear implicits.

End AudioApi.
