(* ===== verification/UiTests.v ===== *)
(** * UiTests: the scripts that drive the application window

    Models the three documents under [src/test]: the helpers of
    [src/test/helpers/spectron/sources.js], the test of
    [src/test/onboarding.js] and the tests of
    [src/test/screentest/tests/source-props.ts].  They are scripts: each
    makes calls on a browser driver ([app.client]), on helpers that are not
    among the sources ([focusMain], [focusChild], [contextMenuClick]), on
    the services behind the API client and on the test runner, and goes on
    with what the call answers.

    A script is an interaction tree over the calls it makes: a call is an
    event whose index is the type of its answer, [await] is the bind of the
    tree, and a script that takes helpers from another document is
    polymorphic in its events ([clientE -< E]).  An optional argument with
    a default ([closeProps = true]) is an [option].  An assertion of the
    runner ([t.true], [t.false], [t.pass]) is an event too; reading the
    property of a value that is not there throws a [TypeError], the
    exception of [Events.Exception].

    What a script does is said against everything that may answer it.  A
    [Driver] answers each call by what it has become and what it returns;
    the runner keeps the conjunction of the assertions made.  [ends] says a
    script returns, [throws] that it raises; both are stated on the tree
    the interpretation gives, up to its silent steps.  The application
    itself is not among the sources, so the theorems are about every
    driver: what a script has called when it ends, by the answers it got,
    and what its verdict depends on.  Time is not modelled: a driver answers
    at once, where the application may not have drawn its window yet.

    The files of this directory that load stdpp cannot load the notations
    of interaction trees; this file loads neither stdpp nor the prelude. *)

From Stdlib Require Import String List Bool Utf8.
From ITree Require Import ITree ITreeFacts Events.State Events.StateFacts Events.Exception.
Import ITreeNotations ListNotations.

Local Open Scope itree_scope.
Local Open Scope string_scope.
Local Open Scope list_scope.

Module UiTests.

(** * The calls a script makes *)

(** The argument of the channel [testing-fakeAuth] *)
Record PlatformAuth : Type := mkAuthPlatform {
  type : string;
  username : string;
  token : string;
  id : string;
}.

Record FakeAuth : Type := mkFakeAuth {
  widgetToken : string;
  platform : PlatformAuth;
}.

(** [app.client] and [app.webContents]; [click_in] is a click below the
    element the path of selectors leads to. *)
Variant clientE : Type → Type :=
| click (selector : string) : clientE unit
| rightClick (selector : string) : clientE unit
| click_in (path : list string) (selector : string) : clientE unit
| setValue (selector value : string) : clientE unit
| isExisting (selector : string) : clientE bool
| send (channel : string) (args : FakeAuth) : clientE unit.

(** The helpers of [./index] and [./context-menu] *)
Variant helperE : Type → Type :=
| focusMain : helperE unit
| focusChild : helperE unit
| contextMenuClick (label : string) : helperE unit.

(** The assertions of the test runner *)
Variant avaE : Type → Type :=
| t_true (value : bool) : avaE unit
| t_false (value : bool) : avaE unit
| t_pass : avaE unit.

(** The services behind the API client; a source is answered by its id. *)
Variant apiE : Type → Type :=
| createAndAddSource (name type : string) : apiE unit
| getSourcesByName (name : string) : apiE (list string)
| showSourceProperties (sourceId : string) : apiE unit.

Variant TypeError : Type := type_error.

(** [list.forEach(f)] *)
Definition forEach {E A} (f : A → itree E unit) (l : list A) : itree E unit :=
  fold_right (λ x rest, f x ;; rest) (Ret tt) l.

(** * The scripts *)

(** ** helpers/spectron/sources.js *)

Module Spectron.
Section Helpers.
Context {E : Type → Type} `{clientE -< E} `{helperE -< E}.

Definition clickSourceAction (selector : string) : itree E unit :=
  trigger (click_in ["h4=Sources"; ".."] selector).

Definition clickAddSource : itree E unit := clickSourceAction ".icon-add".

Definition clickRemoveSource : itree E unit := clickSourceAction ".icon-subtract".

Definition clickSourceProperties : itree E unit := clickSourceAction ".icon-settings".

Definition selectSource (name : string) : itree E unit :=
  trigger (click (".item-title=" ++ name)).

Definition rightClickSource (name : string) : itree E unit :=
  trigger (rightClick (".item-title=" ++ name)).

Definition addSource (type name : string) (closeProps : option bool) : itree E unit :=
  trigger focusMain ;;
  clickAddSource ;;
  trigger focusChild ;;
  trigger (click ("li=" ++ type)) ;;
  trigger (click "button=Add Source") ;;
  trigger (setValue "input" name) ;;
  done <- trigger (isExisting "button=Done") ;;
  (if done : bool then trigger (click "button=Done")
   else trigger (click "button=Add New Source")) ;;
  if match closeProps with Some b => b | None => true end
  then trigger (click "button=Done") else Ret tt.

(** [closeProps] is declared and never read. *)
Definition addExistingSource (type name : string) (closeProps : option bool) : itree E unit :=
  trigger focusMain ;;
  clickAddSource ;;
  trigger focusChild ;;
  trigger (click ("li=" ++ type)) ;;
  trigger (click "button=Add Source") ;;
  trigger (click ("div=" ++ name)) ;;
  trigger (click "button=Add Existing Source").

Definition openRenameWindow (sourceName : string) : itree E unit :=
  trigger focusMain ;;
  rightClickSource sourceName ;;
  trigger (contextMenuClick "Rename") ;;
  trigger focusChild.

Definition sourceIsExisting (sourceName : string) : itree E bool :=
  trigger (isExisting (".item-title=" ++ sourceName)).

End Helpers.
End Spectron.

(** ** onboarding.js *)

Module Onboarding.
Section Script.
Context {E : Type → Type} `{clientE -< E} `{helperE -< E} `{avaE -< E}.

Definition auth : FakeAuth :=
  {| widgetToken := "SomeWidgetToken";
     platform := {| type := "twitch"; username := "exampleuser"; token := "SomeToken";
                    id := "SomeId" |} |}.

(** The test [Adding some starter widgets].  What the first call answers
    is dropped. *)
Definition test : itree E unit :=
  trigger focusMain ;;
  trigger (isExisting "button=Twitch") ;;
  trigger (send "testing-fakeAuth" auth) ;;
  fresh <- trigger (isExisting "button=Start Fresh") ;;
  (if fresh : bool then trigger (click "button=Start Fresh") else Ret tt) ;;
  trigger (click "div=Alertbox") ;;
  trigger (click "button=Remove Widget") ;;
  trigger (click "div=Chatbox") ;;
  trigger (click "button=Add Widget") ;;
  trigger (click "div=Donation Goal") ;;
  trigger (click "button=Add Widget") ;;
  trigger (click "button=Add 2 Widgets") ;;
  trigger (click "a=Setup later") ;;
  x <- Spectron.sourceIsExisting "Alert Box" ;; trigger (t_false x) ;;
  x <- Spectron.sourceIsExisting "Event List" ;; trigger (t_false x) ;;
  x <- Spectron.sourceIsExisting "The Jar" ;; trigger (t_false x) ;;
  x <- Spectron.sourceIsExisting "Chat Box" ;; trigger (t_true x) ;;
  x <- Spectron.sourceIsExisting "Donation Ticker" ;; trigger (t_false x) ;;
  x <- Spectron.sourceIsExisting "Donation Goal" ;; trigger (t_true x) ;;
  Spectron.selectSource "Chat Box" ;;
  Spectron.clickSourceProperties ;;
  trigger focusChild ;;
  x <- trigger (isExisting "label=Widget Type") ;; trigger (t_true x).

End Script.
End Onboarding.

(** ** screentest/tests/source-props.ts *)

Module SourceProps.
Section Scripts.
Context {E : Type → Type} `{apiE -< E} `{avaE -< E} `{exceptE TypeError -< E}.

Definition types : list string :=
  ["image_source"; "color_source"; "browser_source"; "slideshow"; "ffmpeg_source";
   "text_gdiplus"; "text_ft2_source"; "monitor_capture"; "window_capture"; "game_capture";
   "dshow_input"; "wasapi_input_capture"; "wasapi_output_capture"].

(** [afterStartCb]: a source of each type, named by its type, in the
    active scene *)
Definition afterStartCb : itree E unit :=
  forEach (λ type, trigger (createAndAddSource type type)) types.

(** [showSourceProps]: [[0].sourceId] of an empty answer throws. *)
Definition showSourceProps (name : string) : itree E unit :=
  sources <- trigger (getSourcesByName name) ;;
  match sources with
  | sourceId :: _ => trigger (showSourceProperties sourceId)
  | [] => throw type_error
  end.

(** The tests of the document, by their titles *)
Definition tests : list (string * itree E unit) :=
  [("image_source", showSourceProps "image_source" ;; trigger t_pass);
   ("color_source", showSourceProps "image_source" ;; trigger t_pass);
   ("browser_source", showSourceProps "image_source" ;; trigger t_pass);
   ("slideshow", showSourceProps "image_source" ;; trigger t_pass);
   ("ffmpeg_source", showSourceProps "image_source" ;; trigger t_pass);
   ("text_gdiplus", showSourceProps "image_source" ;; trigger t_pass);
   ("text_ft2_source", showSourceProps "image_source" ;; trigger t_pass);
   ("monitor_capture", showSourceProps "image_source" ;; trigger t_pass);
   ("game_capture", showSourceProps "image_source" ;; trigger t_pass);
   ("dshow_input", showSourceProps "image_source" ;; trigger t_pass);
   ("wasapi_input_capture", showSourceProps "image_source" ;; trigger t_pass);
   ("wasapi_output_capture", showSourceProps "image_source" ;; trigger t_pass)].

End Scripts.
End SourceProps.

(** * What answers a script *)

(** A window, or the services behind the API client: it answers a call by
    what it has become and what it returns. *)
Record Driver (E : Type → Type) : Type := mkDriver {
  world : Type;
  drive : ∀ T, E T → world → world * T;
}.
Arguments world {E} _.
Arguments drive {E} _ {T} _ _.

(** A call that answers nothing *)
Definition Command : Type := (clientE +' helperE) unit.

Definition does {E} (d : Driver E) (c : E unit) (w : world d) : world d := fst (drive d c w).

Definition after {E} (d : Driver E) (cs : list (E unit)) (w : world d) : world d :=
  fold_left (λ w c, does d c w) cs w.

(** The test runner: a test has passed when every assertion so far held. *)
Definition ava {T} (e : avaE T) (verdict : bool) : bool * T :=
  match e with
  | t_true value => (verdict && value, tt)
  | t_false value => (verdict && negb value, tt)
  | t_pass => (verdict, tt)
  end.

(** A driver and the runner together *)
Definition react {E} (d : Driver E) (T : Type) (e : (E +' avaE) T) (s : world d * bool) :
    (world d * bool) * T :=
  match e with
  | inl1 e => ((fst (drive d e (fst s)), snd s), snd (drive d e (fst s)))
  | inr1 e => ((fst s, fst (ava e (snd s))), snd (ava e (snd s)))
  end.

(** ** A window *)

Definition shows (app : Driver (clientE +' helperE)) (w : world app) (selector : string) : bool :=
  snd (drive app (inl1 (isExisting selector)) w).

(** Asking whether an element exists changes nothing. *)
Definition read_only (app : Driver (clientE +' helperE)) : Prop :=
  ∀ selector w, fst (drive app (inl1 (isExisting selector)) w) = w.

(** The window that records the commands and answers a query from them *)
Definition record_client (answers : list Command → string → bool) {T} (e : clientE T)
    (log : list Command) : list Command * T :=
  match e in clientE T return list Command * T with
  | isExisting selector => (log, answers log selector)
  | click selector => (log ++ [inl1 (click selector)], tt)
  | rightClick selector => (log ++ [inl1 (rightClick selector)], tt)
  | click_in path selector => (log ++ [inl1 (click_in path selector)], tt)
  | setValue selector value => (log ++ [inl1 (setValue selector value)], tt)
  | send channel args => (log ++ [inl1 (send channel args)], tt)
  end.

Definition record_helper {T} (e : helperE T) (log : list Command) : list Command * T :=
  match e in helperE T return list Command * T with
  | focusMain => (log ++ [inr1 focusMain], tt)
  | focusChild => (log ++ [inr1 focusChild], tt)
  | contextMenuClick label => (log ++ [inr1 (contextMenuClick label)], tt)
  end.

Definition recorder (answers : list Command → string → bool) : Driver (clientE +' helperE) :=
  {| world := list Command;
     drive := λ T e log,
       match e with
       | inl1 e => record_client answers e log
       | inr1 e => record_helper e log
       end |}.

(** The widgets the onboarding test chooses *)
Definition chosen_widgets : list Command :=
  [inl1 (click "div=Alertbox"); inl1 (click "button=Remove Widget");
   inl1 (click "div=Chatbox"); inl1 (click "button=Add Widget");
   inl1 (click "div=Donation Goal"); inl1 (click "button=Add Widget");
   inl1 (click "button=Add 2 Widgets"); inl1 (click "a=Setup later")].

(** ** The sources service *)

Definition found (api : Driver apiE) (name : string) (w : world api) : Prop :=
  snd (drive api (getSourcesByName name) w) ≠ [].

(** What the tests need of the service: a source is found by its name
    once it was created, whatever is created later. *)
Class SourcesLaws (api : Driver apiE) : Prop := {
  created_found name type w : found api name (does api (createAndAddSource name type) w);
  created_kept name name' type w :
    found api name w → found api name (does api (createAndAddSource name' type) w);
}.

(** The sources by their names, in the order they were created; the id of
    a source is its name. *)
Definition sources_model : Driver apiE :=
  {| world := list string;
     drive := λ T e names,
       match e in apiE T return list string * T with
       | createAndAddSource name type => (names ++ [name], tt)
       | getSourcesByName name => (names, filter (String.eqb name) names)
       | showSourceProperties sourceId => (names, tt)
       end |}.

(** ** Runs *)

Section Runs.
Context {E : Type → Type} {W : Type}.
Variable react : ∀ T, E T → W → W * T.

(** A call is answered by [react]; an exception stays an exception. *)
Definition handler :
    (exceptE TypeError +' E) ~> Monads.stateT W (itree (exceptE TypeError)) :=
  λ T e w,
    match e with
    | inl1 e => x <- ITree.trigger e ;; Ret (w, x)
    | inr1 e => Ret (react T e w)
    end.

Definition run_script {R} (t : itree (exceptE TypeError +' E) R) (w : W) :
    itree (exceptE TypeError) (W * R) :=
  interp_state handler t w.

Definition ends {R} (t : itree (exceptE TypeError +' E) R) (w : W) (out : W * R) : Prop :=
  run_script t w ≈ Ret out.

Definition throws {R} (t : itree (exceptE TypeError +' E) R) (w : W) (err : TypeError) : Prop :=
  run_script t w ≈ throw err.

End Runs.

(** * Lemmas *)

(** ** How a script ends *)

Section Ends.
Context {E : Type → Type} {W : Type} (react : ∀ T, E T → W → W * T).
Implicit Types (w : W) (err : TypeError).

Lemma ends_ret {R} (r : R) w : ends react (Ret r) w (w, r).
Proof. unfold ends, run_script. rewrite interp_state_ret. reflexivity. Qed.

Lemma ends_trigger {T} (e : E T) w : ends react (ITree.trigger (inr1 e)) w (react T e w).
Proof. unfold ends, run_script. rewrite interp_state_trigger. reflexivity. Qed.

Lemma ends_bind {R S} (t : itree _ R) (k : R → itree _ S) w out out' :
  ends react t w out → ends react (k (snd out)) (fst out) out' → ends react (t >>= k) w out'.
Proof.
  unfold ends, run_script. intros Ht Hk. rewrite interp_state_bind, Ht, bind_ret_l. exact Hk.
Qed.

Lemma ends_eq {R} (t : itree _ R) w out out' : ends react t w out → out = out' → ends react t w out'.
Proof. intros Ht <-. exact Ht. Qed.

Lemma ends_if {R} (c : bool) (t1 t2 : itree _ R) w o1 o2 :
  ends react t1 w o1 → ends react t2 w o2 →
  ends react (if c then t1 else t2) w (if c then o1 else o2).
Proof. destruct c; intros; assumption. Qed.

(** A script ends in one way. *)
Lemma ends_unique {R} (t : itree _ R) w out out' :
  ends react t w out → ends react t w out' → out = out'.
Proof. unfold ends. intros H1 H2. rewrite H1 in H2. exact (eutt_inv_Ret _ _ H2). Qed.

Lemma throw_bind {R S} err (k : R → itree (exceptE TypeError) S) : (throw err >>= k) ≈ throw err.
Proof. unfold throw. rewrite bind_vis. apply eqit_Vis. intros []. Qed.

Lemma throws_throw {R} err w : throws react (throw err : itree _ R) w err.
Proof.
  unfold throws, run_script, throw. rewrite interp_state_vis. cbn.
  rewrite bind_bind, bind_trigger. apply eqit_Vis. intros [].
Qed.

(** What follows an exception is not run. *)
Lemma throws_bind_l {R S} (t : itree _ R) (k : R → itree _ S) w err :
  throws react t w err → throws react (t >>= k) w err.
Proof.
  unfold throws, run_script. intros Ht. rewrite interp_state_bind, Ht. apply throw_bind.
Qed.

Lemma throws_bind_r {R S} (t : itree _ R) (k : R → itree _ S) w out err :
  ends react t w out → throws react (k (snd out)) (fst out) err → throws react (t >>= k) w err.
Proof.
  unfold ends, throws, run_script. intros Ht Hk.
  rewrite interp_state_bind, Ht, bind_ret_l. exact Hk.
Qed.

End Ends.

(** ** A script against a driver and the runner *)

Section Driven.
Context {E : Type → Type} (d : Driver E).
Implicit Types (w : world d) (verdict : bool).

Lemma ends_drive {T} (e : E T) w verdict :
  ends (react d) (ITree.trigger (inr1 (inl1 e))) (w, verdict)
    (fst (drive d e w), verdict, snd (drive d e w)).
Proof. exact (ends_trigger (react d) (inl1 e) (w, verdict)). Qed.

Lemma ends_ava (e : avaE unit) w verdict :
  ends (react d) (ITree.trigger (inr1 (inr1 e))) (w, verdict) (w, fst (ava e verdict), tt).
Proof.
  eapply ends_eq; [exact (ends_trigger (react d) (inr1 e) (w, verdict))|].
  cbn. destruct (snd (ava e verdict)). reflexivity.
Qed.

Lemma ends_bind_drive {T R} (e : E T) (k : T → itree _ R) w verdict out :
  ends (react d) (k (snd (drive d e w))) (fst (drive d e w), verdict) out →
  ends (react d) (ITree.trigger (inr1 (inl1 e)) >>= k) (w, verdict) out.
Proof. intros Hk. eapply ends_bind; [apply ends_drive|exact Hk]. Qed.

Lemma ends_bind_ava {R} (e : avaE unit) (k : unit → itree _ R) w verdict out :
  ends (react d) (k tt) (w, fst (ava e verdict)) out →
  ends (react d) (ITree.trigger (inr1 (inr1 e)) >>= k) (w, verdict) out.
Proof. intros Hk. eapply ends_bind; [apply ends_ava|exact Hk]. Qed.

(** A branch that asserts nothing *)
Lemma ends_bind_if {R S} (c : bool) (t1 t2 : itree _ R) (k : R → itree _ S)
    w verdict w1 r1 w2 r2 out :
  ends (react d) t1 (w, verdict) (w1, verdict, r1) →
  ends (react d) t2 (w, verdict) (w2, verdict, r2) →
  ends (react d) (k (if c then r1 else r2)) (if c then w1 else w2, verdict) out →
  ends (react d) ((if c then t1 else t2) >>= k) (w, verdict) out.
Proof. intros H1 H2 Hk. destruct c; (eapply ends_bind; [eassumption|exact Hk]). Qed.

End Driven.

(** The events of a script, once its type of events is known *)
Ltac events :=
  cbv [subevent resum ReSum_inl ReSum_inr ReSum_id cat Cat_IFun inl_ inr_ Inl_sum1 Inr_sum1
       id_ Id_IFun].

(** One call of a script *)
Ltac script_step :=
  lazymatch goal with
  | |- ends _ (ITree.bind (ITree.trigger (inr1 (inl1 _))) _) _ _ => apply ends_bind_drive
  | |- ends _ (ITree.bind (ITree.trigger (inr1 (inr1 _))) _) _ _ =>
      apply ends_bind_ava; cbn [ava fst]
  | |- ends _ (ITree.bind (if _ then _ else _) _) _ _ => eapply ends_bind_if
  | |- ends _ (ITree.trigger (inr1 (inl1 _))) _ _ => apply ends_drive
  | |- ends _ (ITree.trigger (inr1 (inr1 _))) _ _ => apply ends_ava
  | |- ends _ (if _ then _ else _) _ _ => apply ends_if
  | |- ends _ (Ret _) _ _ => apply ends_ret
  end.

(** A script call by call; what is left is that it ended as stated. *)
Ltac script := events; eapply ends_eq; [repeat script_step|].

(** The answers that are [tt] *)
Ltac units :=
  repeat match goal with
         | |- context [snd ?x] => match type of (snd x) with unit => destruct (snd x) end
         end.

(** ** The sources service *)

Section Sources.
Context (api : Driver apiE).
Implicit Types (w : world api) (verdict : bool).

Lemma forEach_ends {A} (c : A → apiE unit) (l : list A) w verdict :
  ends (react api) (forEach (λ x, ITree.trigger (inr1 (inl1 (c x)))) l) (w, verdict)
    (after api (List.map c l) w, verdict, tt).
Proof.
  revert w. induction l as [|x l IH]; intros w; cbn; [apply ends_ret|].
  apply ends_bind_drive, IH.
Qed.

Lemma showSourceProps_ends name w verdict sourceId sources :
  snd (drive api (getSourcesByName name) w) = sourceId :: sources →
  ends (react api) (SourceProps.showSourceProps name) (w, verdict)
    (does api (showSourceProperties sourceId) (fst (drive api (getSourcesByName name) w)),
     verdict, tt).
Proof.
  intros Hfound. unfold SourceProps.showSourceProps. events.
  apply ends_bind_drive. rewrite Hfound.
  eapply ends_eq; [apply ends_drive|]. unfold does. units. reflexivity.
Qed.

Context `{!SourcesLaws api}.

Lemma found_after name names w :
  found api name w →
  found api name (after api (List.map (λ type, createAndAddSource type type) names) w).
Proof.
  revert w. induction names as [|name' names IH]; intros w Hfound; [exact Hfound|].
  cbn. apply IH, created_kept, Hfound.
Qed.

Lemma found_afterStartCb w :
  found api "image_source"
    (after api (List.map (λ type, createAndAddSource type type) SourceProps.types) w).
Proof.
  exact (found_after "image_source" (tl SourceProps.types) _
           (created_found "image_source" "image_source" w)).
Qed.

End Sources.

Lemma filter_eqb_found name names : In name names → filter (String.eqb name) names ≠ [].
Proof.
  intros Hin Hnone. assert (In name (filter (String.eqb name) names)) as Hf.
  { apply filter_In. split; [exact Hin|apply String.eqb_refl]. }
  rewrite Hnone in Hf. exact Hf.
Qed.

#[export] Instance sources_model_laws : SourcesLaws sources_model.
Proof.
  split.
  - intros name type w. apply filter_eqb_found, in_or_app. right. left. reflexivity.
  - intros name name' type w Hfound. unfold found, does in *. cbn in *.
    rewrite filter_app. intros [Hnone _]%app_eq_nil. exact (Hfound Hnone).
Qed.

(** * Properties *)

Section Window.
Context (app : Driver (clientE +' helperE)).
Implicit Types (w : world app) (verdict : bool).

(** What [addSource] has done when it ends.  Against every window the
    helper ends: it has opened the window of the sources, chosen the type
    and typed the name, asked once whether there is a button [Done],
    clicked [Done] if there is and [Add New Source] if not, and clicked
    [Done] once more unless [closeProps] is [false].  No assertion is
    made. *)
Theorem addSource_ends type name closeProps w verdict :
  let w1 := after app [inr1 focusMain; inl1 (click_in ["h4=Sources"; ".."] ".icon-add");
                       inr1 focusChild; inl1 (click ("li=" ++ type));
                       inl1 (click "button=Add Source"); inl1 (setValue "input" name)] w in
  let w2 := fst (drive app (inl1 (isExisting "button=Done")) w1) in
  let w3 := does app (inl1 (click (if shows app w1 "button=Done" then "button=Done"
                                   else "button=Add New Source"))) w2 in
  ends (react app) (Spectron.addSource type name closeProps) (w, verdict)
    (if match closeProps with Some b => b | None => true end
     then does app (inl1 (click "button=Done")) w3 else w3, verdict, tt).
Proof.
  intros w1 w2 w3. unfold Spectron.addSource, Spectron.clickAddSource, Spectron.clickSourceAction.
  script. subst w1 w2 w3. unfold shows, does. cbn.
  destruct closeProps as [[]|], (snd (drive app _ _)); cbn; units; reflexivity.
Qed.

(** The verdict of the onboarding test.  Against every window whose
    answers to [isExisting] change nothing, the test ends, and it has
    passed exactly when, after the widgets were chosen, the window shows
    the sources [Chat Box] and [Donation Goal] and none of [Alert Box],
    [Event List], [The Jar] and [Donation Ticker], and the properties of
    [Chat Box] have the label [Widget Type].  Whether the button [Twitch]
    of the authentication screen was there does not enter the verdict. *)
Theorem onboarding_verdict w :
  read_only app →
  let w0 := after app [inr1 focusMain; inl1 (send "testing-fakeAuth" Onboarding.auth)] w in
  let w1 := after app chosen_widgets
              (if shows app w0 "button=Start Fresh"
               then does app (inl1 (click "button=Start Fresh")) w0 else w0) in
  let w2 := after app [inl1 (click ".item-title=Chat Box");
                       inl1 (click_in ["h4=Sources"; ".."] ".icon-settings");
                       inr1 focusChild] w1 in
  let shown name := shows app w1 (".item-title=" ++ name) in
  ends (react app) Onboarding.test (w, true)
    (w2, negb (shown "Alert Box") && negb (shown "Event List") && negb (shown "The Jar") &&
         shown "Chat Box" && negb (shown "Donation Ticker") && shown "Donation Goal" &&
         shows app w2 "label=Widget Type", tt).
Proof.
  intros Hro w0 w1 w2 shown.
  unfold Onboarding.test, Spectron.sourceIsExisting, Spectron.selectSource,
    Spectron.clickSourceProperties, Spectron.clickSourceAction.
  script. subst w0 w1 w2 shown. unfold shows, does. cbn. rewrite !Hro.
  destruct (snd (drive app (inl1 (isExisting "button=Start Fresh")) _)); cbn; units; reflexivity.
Qed.

End Window.

Section Service.
Context (api : Driver apiE).
Implicit Types (w : world api) (verdict : bool).

(** The properties of a source that is not there.  When the service
    answers no source for the name, [showSourceProps] throws a [TypeError]
    and asks for no window. *)
Theorem showSourceProps_throws name w verdict :
  snd (drive api (getSourcesByName name) w) = [] →
  throws (react api) (SourceProps.showSourceProps name) (w, verdict) type_error.
Proof.
  intros Hnone. unfold SourceProps.showSourceProps. events.
  eapply throws_bind_r; [apply ends_drive|]. cbn [fst snd]. rewrite Hnone.
  apply throws_throw.
Qed.

Context `{!SourcesLaws api}.

(** After the sources were made every test of the document passes.  For
    a sources service that finds a source by its name once it was created,
    each test of the list, run after [afterStartCb], ends without an
    exception and with every assertion held. *)
Theorem tests_pass title body w :
  In (title, body) SourceProps.tests →
  ∃ w', ends (react api) (SourceProps.afterStartCb ;; body) (w, true) (w', true, tt).
Proof.
  intros Hin. pose proof (found_afterStartCb api w) as Hfound. unfold found in Hfound.
  destruct (snd (drive api (getSourcesByName "image_source") _)) as [|sourceId sources] eqn:Hs;
    [contradiction|].
  assert (body = (SourceProps.showSourceProps "image_source" ;; trigger t_pass)) as ->.
  { cbv [SourceProps.tests In] in Hin.
    repeat destruct Hin as [[= _ <-]|Hin]; try reflexivity. destruct Hin. }
  unfold SourceProps.afterStartCb, SourceProps.types. events.
  eexists. eapply ends_bind.
  { exact (forEach_ends api (λ type, createAndAddSource type type) _ w true). }
  cbn [fst snd]. eapply ends_bind; [exact (showSourceProps_ends api _ _ _ _ _ Hs)|].
  cbn [fst snd]. apply ends_ava.
Qed.

End Service.

(** Every test of the document opens the properties of the image source.
    The tests carry the names of twelve of the thirteen types of source
    the set-up creates, and all of them have the body of the first: none
    looks at the source of its title, and [window_capture] has no test. *)
Theorem tests_show_image_source {E} `{apiE -< E} `{avaE -< E} `{exceptE TypeError -< E} :
  Forall (λ test, snd test = (SourceProps.showSourceProps "image_source" ;; trigger t_pass)
                  ∧ In (fst test) SourceProps.types)
    (SourceProps.tests (E := E)) ∧
  In "window_capture" SourceProps.types ∧
  ¬ In "window_capture" (List.map fst (SourceProps.tests (E := E))).
Proof.
  split; [|split].
  - unfold SourceProps.tests.
    repeat (apply Forall_cons;
            [split; [reflexivity|unfold fst; cbv [SourceProps.types In]; tauto]|]).
    apply Forall_nil.
  - cbv [SourceProps.types In]. tauto.
  - unfold SourceProps.tests. cbv [List.map fst In]. intros Hin.
    repeat destruct Hin as [[=]|Hin]. exact Hin.
Qed.

(** * The properties at concrete windows *)

(** A window that shows the two sources the test chose, and the label *)
Definition widgets_window : Driver (clientE +' helperE) :=
  recorder (λ _ selector,
    existsb (String.eqb selector)
      [".item-title=Chat Box"; ".item-title=Donation Goal"; "label=Widget Type"]).

(** A window that shows nothing *)
Definition empty_window : Driver (clientE +' helperE) := recorder (λ _ _, false).

(** Against the window with the two sources the onboarding test passes,
    after thirteen commands. *)
Lemma onboarding_verdict_witness :
  ∃ log, ends (react widgets_window) Onboarding.test ([], true) (log, true, tt) ∧
         length log = 13.
Proof.
  eexists. split.
  - eapply ends_eq; [apply (onboarding_verdict widgets_window []); intros ? ?; reflexivity|].
    vm_compute. reflexivity.
  - reflexivity.
Defined.

(** Against a window that shows nothing it fails. *)
Example onboarding_fails_on_empty_window :
  ∃ log, ends (react empty_window) Onboarding.test ([], true) (log, false, tt).
Proof.
  eexists. eapply ends_eq; [apply (onboarding_verdict empty_window []); intros ? ?; reflexivity|].
  vm_compute. reflexivity.
Qed.

(** With no source at all the properties cannot be shown. *)
Lemma showSourceProps_throws_witness :
  throws (react sources_model) (SourceProps.showSourceProps "image_source") ([], true)
    type_error.
Proof. apply (showSourceProps_throws sources_model "image_source" [] true). reflexivity. Defined.

(** The test with the title [color_source], on the model of the service *)
Lemma tests_pass_witness :
  ∃ w', ends (react sources_model)
          (SourceProps.afterStartCb ;;
           (SourceProps.showSourceProps "image_source" ;; trigger t_pass))
          ([], true) (w', true, tt).
Proof.
  apply (tests_pass sources_model "color_source"). right. left. reflexivity.
Defined.

End UiTests.
